(* ===== verification/_CoqProject ===== *)
-Q . S2P
Prelude.v
NumTheory.v
MillerRabin.v
GoLib.v
GoText.v
GoPath.v
Disk.v
AfsProto.v
Server.v
Handler.v
HandlerSpec.v
Service.v
ServerProps.v
Overlap.v
OverlapSpec.v
OverlapInv.v
OverlapFetch.v
Cluster.v
ClusterProps.v
OverlapProps.v
Sync.v
SyncSpec.v
SyncProps.v
Election.v
ElectionProps.v
Cache.v
Client.v
AfsSpec.v
AfsWorld.v
Json.v
JsonCodec.v
SnapshotIO.v
ClientStart.v
ClientProps.v
Replicas.v
ReplicasSpec.v
Failover.v
Takeover.v
Snapshot.v
Calls.v
Interrupt.v
MidWrite.v
MidRead.v
Disturbed.v
Shared.v
SnapshotProps.v
Worker.v
WorkerProps.v
Coordinator.v
CoordSpec.v
CoordAfs.v
CoordProps.v
CoordRun.v
Moments.v
CoordCrash.v
System.v
Concurrent.v
SystemLaws.v
ConcurrentSpec.v
ConcurrentInv.v
ConcurrentEnd.v
ConcurrentProps.v
ConcurrentCrash.v
FailoverWorker.v
FailoverProps.v
SystemProps.v
CoordDemo.v
Main.v
