(* ===== verification/Prelude.v ===== *)
(** * A verification library for the distributed prime finder

    The repository has two parts.  [afsfs] is a replicated file service: servers
    that hold input files and output files, one of them primary, and a client
    library with a whole-file cache.  [primefinder] finds the primes in the
    input files: a coordinator hands files to workers, which are clients of the
    file service, merges their results, saves a snapshot after every file and
    writes the sorted primes to the output file.  Paths below are under src/.

    ** Files

    Shared: this file (results of Go computations, machine integers,
    automation), NumTheory.v, GoLib.v (strings), GoText.v (numbers and lines as
    text, [bufio.Scanner]), GoPath.v ([path/filepath]), Disk.v (the part of [os]
    the servers and clients use, with failures that a parameter chooses), Json.v
    and JsonCodec.v ([encoding/json] for the snapshot structs).

    The file service:
    - AfsProto.v: the messages of afsfs/generated/afs/afs.pb.go and streams.
    - Server.v: the record [Handler] (afsfs/pkg/server/handler.go), the sender
      of replication (replication.go) and the [Replicate] handler.
    - Handler.v: the RPC handlers; HandlerSpec.v what each does to the disk, the
      versions and the deduplication table; Service.v sequences of calls.
    - Overlap.v: the same handlers as threads that interleave between their
      accesses to shared state; OverlapSpec.v: a thread that nothing overlaps is
      the handler, and a store among calls on other files; OverlapInv.v: the
      invariant of the threads; OverlapFetch.v: a fetch beside a store.
    - Cluster.v: a primary and its backups; Sync.v, SyncSpec.v: [SyncState] and
      the recovery of a restarted server.
    - Election.v: [GetPrimary], [Heartbeat], [AnnouncePrimary] and elections
      (election.go, heartbeat.go) as a transition system.
    - Cache.v, Client.v: the client library (afsfs/pkg/afs); it reaches servers
      through the class [AfsService].
    - AfsSpec.v: the class [AfsLaws], what a client relies on, and what the
      client's operations then do; AfsWorld.v proves the laws for the handlers.
      ClientStart.v: a client that has just connected ([NewClient]).
      Shared.v: the laws hold on a service that other clients use between any
      two calls, for the files the others do not write (and where they store no
      empty stream).
    - Replicas.v: all servers together ([Replicas]), each reached under its
      address; ReplicasSpec.v: what a client's call does to the backups
      ([standby], [guarded]), and the laws at the primary; Failover.v: a client
      whose server died finds the new primary, and the election of a survivor;
      Takeover.v: what the backup that was elected serves: the output files as
      they were, and the input files that all servers have.

    The prime finder (primefinder/):
    - MillerRabin.v: pkg/prime/miller_rabin.go.
    - SnapshotIO.v, Snapshot.v: pkg/snapshot/snapshot.go.
    - Worker.v: cmd/worker/main.go.
    - Coordinator.v: pkg/coordinator/coordinator.go; CoordSpec.v, CoordAfs.v its
      lemmas, the second on a file service that keeps [AfsLaws] and workers that
      keep [WorkerLaws]; CoordRun.v a run from its configuration on (connecting,
      discovery, resuming).
    - System.v: a [Deployment] is the file service with the worker processes
      beside it, on which the coordinator runs; SystemLaws.v shows that it keeps
      the laws of the two classes.
    - Calls.v: the client library, the snapshots and the worker's handler again,
      as trees of the calls they make ([program]), each proved to be the function
      of the other files when nobody interrupts it.  Disturbed.v: a world in
      which others act between any two calls, within what they guarantee; a
      program proved there is [safe] beside them.
    - Interrupt.v, MidWrite.v, MidRead.v: a program of Calls.v whose primary dies
      at one of its calls ([failover_run]), and a write and a read through it;
      FailoverWorker.v: the worker's handler through it.
    - Concurrent.v: the goroutines of [Run], the handlers of the workers and the
      receiving loop as components whose calls interleave ([conc_step]), and a
      run with them ([concurrent_run]).  ConcurrentSpec.v: what the handler and
      the snapshot guarantee and rely on; ConcurrentInv.v: the invariant of all
      components, which every step keeps; ConcurrentEnd.v: no schedule is endless
      and none is stuck.
    - Moments.v, CoordCrash.v, ConcurrentCrash.v: coordinators that die.  A start
      or an end in a world that remembers all its states ([Watched]) has one
      moment for every call, and a schedule of calls may stop anywhere; a
      coordinator that dies leaves one of these moments ([dies]).
    - Main.v: the [main] functions.

    ** What the theorems show

    The claims are in the files [*Props.v], MillerRabin.v and Main.v; the
    witnesses of CoordProps.v are in CoordDemo.v.
    - ServerProps.v: a store commits everything or nothing; replayed calls get
      the recorded reply; a fetch delivers the whole file or an error.
    - ClusterProps.v: backups mirror the primary through any sequence of calls;
      a backup serves the last write.
    - OverlapProps.v: for every schedule overlapping calls do not panic, a store stays atomic beside calls on other files, a fetch
      is never a mixture; and schedules in which a fetch pairs old content with
      the new version, two stores mix, a retry runs twice, a backup diverges.
    - SyncProps.v: a complete synchronisation
      catches up; a truncated one is kept as complete.
    - ElectionProps.v: agreement of elections that see the same servers, the
      invariant of the roles, and where the protocol fails: no answer without a
      primary, two primaries after simultaneous polls, a passive old primary.
    - ClientProps.v: what a client reads after another one wrote the file, and
      where the cache is not consistent: every file that is written as a whole has
      version 2 (it is deleted, which forgets its version, created and stored), so
      [TestAuth] confirms any copy that was cached under version 2, old ones too
      ([reader_sees] in AfsSpec.v is what a client gets of a file);
      all-or-nothing fetches, termination of reads, empty files that cannot be
      closed.
    - FailoverProps.v: the whole failover: what a client wrote before the primary
      died is read from the backup that elected itself, by the same client and by
      those that hold no copy of version 2, and can be overwritten there; a read
      during which the primary dies (an output file, or an input file that all
      servers have) returns the whole file, or a copy that a server confirmed; a
      write during which it dies succeeds, unless it dies between carrying
      out [CreateFile] and answering it; a worker during whose call it dies streams
      the primes of its file all the same.
    - MillerRabin.v: the word arithmetic is exact, [IsPrime] is the strong
      probable-prime test to twelve bases and terminates; it accepts every prime
      and is exact below 1681.  That it is exact on all 64-bit words is a
      computed fact of the literature; [IsPrime_correct_below] takes it as the
      hypothesis that no composite below the bound is a strong liar.
    - SnapshotProps.v: a saved snapshot is loaded unchanged; the marker round.
    - WorkerProps.v: a worker streams the distinct accepted numbers of its file
      and records the file exactly when the stream ended cleanly; on a file
      service that keeps its laws the call runs from the connection to the saved
      snapshot and changes no other file.
    - SystemProps.v: the composition, with no assumption left on servers, clients
      or workers, while other clients use the service: however the calls of the
      workers and of the coordinator interleave, a run writes the complete output,
      and so does a run after coordinators that died, each at any point; a
      coordinator that dies while it replaces the snapshot can lose all recorded
      work.  All this is for input files with at least one accepted number: if
      there is none, the output is empty, cannot be closed, and every run returns
      an error ([ends_with] in CoordProps.v has both cases).
    - ConcurrentProps.v: the interleaved calls end and nobody blocks.
    - CoordProps.v: for every order of the goroutines' files a run without failed
      files writes the sorted primes of all input files, fresh or resumed (or
      fails, if they hold none); each snapshot covers the completed files; the
      assignment is a fair partition.

    ** Conventions

    A Go [uint64] or [int64] is a [Z] with the wrap-around written out; a string
    is a [string], a byte slice a list of [ascii].  A call returns an [outcome]
    where it can panic or loop.  Loops whose length is not the length of a list
    have fuel: 64 for the loops over the bits of a word in MillerRabin.v, the
    bytes that are left plus one for reading loops, the length of the text for
    the JSON parser; theorems state that these suffice.  Loops with a bound in
    the source (retries, discovery) recurse on that bound.  The nesting of
    [GetPrimary] calls is bounded by an arbitrary parameter, and running out is
    the answer that never comes.

    Parameters stand for what is outside src/: failures of the disk ([OsFaults])
    and of streams, the network ([PeerNet], [AfsService], [WorkerService],
    [SnapshotNet]), the order of a range over a map ([MapOrder]), the clock.

    ** Not modelled

    The generated gRPC code and wire format, HTTP routing, flags, logs, Docker
    files and the test programs.  Outside Overlap.v a handler is one step, and
    in it [resolvePath] and one [replicateStreamToAll] are.  Overlap.v has no
    mutexes: what a handler does while it holds one is one step, so waiting and
    deadlock cannot be expressed (every critical section is a few accesses to one
    field, without a call or a second lock, and is left by an [Unlock]).  The [Replicate] and
    [SyncState] handlers, two files processed by one worker at the same time, and
    several goroutines that use one client are not interleaved.  Deadlines
    appear as failed calls; one that passes while [GetPrimary] calls nest ends the
    outermost call too, where the code would ask the next peer.  A server that
    answers a store before it got all chunks is heard: in the code the next
    [Send] may report EOF instead, and the attempt fails.  The theorems of
    CoordProps.v start from the state that [Run_start] prepares (CoordRun.v,
    SystemProps.v start before it), and the processing of one file by a worker is
    one step there; in Concurrent.v it is as many steps as it makes calls.  There a worker serves one call at a time
    (a second goroutine waits for it), the clock is read together with the call
    that follows, and nobody works while [Run_start] and [Run_finish] do.  A
    coordinator that dies does so between two calls: a call that was sent is
    carried out, and a worker that serves it may make further calls until the
    next coordinator starts.  In Replicas.v the backups that are up stay up, with
    working disks and links, until the primary dies, between two calls of a client
    or before it answers one, and the survivor's election meets no second one (ElectionProps.v shows what
    two of them do). *)

From stdpp Require Export base tactics numbers list gmap strings fin_maps pretty sorting.
From Stdlib Require Export ZArith Lia.
From Stdlib Require Ascii String.
Export Stdlib.Strings.Ascii(ascii(..)).
Export (notations) Stdlib.Strings.Ascii.

(** ** Results of Go computations

    [outcome] is what a call does: it returns, it panics (a runtime error of
    Go, such as an integer division by zero or a failed type assertion), or a
    loop of the model runs out of fuel.  The theorems show that the last case
    never happens with the fuel the definitions choose. *)
Inductive outcome (A : Type) : Type :=
  | Ret (a : A)
  | Panic (msg : string)
  | NoFuel.
Arguments Ret {A} a.
Arguments Panic {A} msg.
Arguments NoFuel {A}.

#[export] Instance outcome_ret : MRet outcome := λ A a, Ret a.
#[export] Instance outcome_bind : MBind outcome := λ A B f o,
  match o with
  | Ret a => f a
  | Panic msg => Panic msg
  | NoFuel => NoFuel
  end.
#[export] Instance outcome_fmap : FMap outcome := λ A B f o,
  match o with
  | Ret a => Ret (f a)
  | Panic msg => Panic msg
  | NoFuel => NoFuel
  end.

(** A Go pair [(value, error)]: exactly one side is meaningful. *)
Inductive result (A : Type) : Type :=
  | Ok (a : A)
  | Err (e : string).
Arguments Ok {A} a.
Arguments Err {A} e.

(** A Go [error] that is returned alone: [None] is [nil]. *)
Abbreviation error := (option string).

(** A byte slice. *)
Abbreviation bytes := (list ascii).

#[export] Instance outcome_eq_dec `{EqDecision A} : EqDecision (outcome A).
Proof. solve_decision. Defined.
#[export] Instance result_eq_dec `{EqDecision A} : EqDecision (result A).
Proof. solve_decision. Defined.

Lemma outcome_bind_Ret {A B} (a : A) (f : A → outcome B) : (Ret a ≫= f) = f a.
Proof. done. Qed.

Lemma outcome_bind_inv {A B} (o : outcome A) (f : A → outcome B) b :
  (o ≫= f) = Ret b → ∃ a, o = Ret a ∧ f a = Ret b.
Proof. destruct o; naive_solver. Qed.

(** ** Machine integers

    A [uint64] or an [int64] is a [Z]; the arithmetic that can wrap writes the
    wrap-around out. *)
Definition two64 : Z := 2 ^ 64.
Definition u64 (x : Z) : Z := x mod two64.
Definition i64 (x : Z) : Z := (x + 2 ^ 63) mod two64 - 2 ^ 63.
Definition is_u64 (x : Z) : Prop := (0 ≤ x < two64)%Z.

#[export] Instance is_u64_dec x : Decision (is_u64 x).
Proof. unfold is_u64. apply _. Defined.

Lemma u64_small x : is_u64 x → u64 x = x.
Proof. intros Hx. by apply Z.mod_small. Qed.

Lemma u64_range x : is_u64 (u64 x).
Proof. apply Z.mod_pos_bound. reflexivity. Qed.

Lemma i64_small x : (- 2 ^ 63 ≤ x < 2 ^ 63)%Z → i64 x = x.
Proof. intros Hx. unfold i64, two64. rewrite Z.mod_small; lia. Qed.

(** ** Automation *)

Create HintDb go discriminated.
Create Rewrite HintDb go.
#[export] Hint Resolve u64_range : go.
#[export] Hint Rewrite @outcome_bind_Ret : go.

(** Runs the monadic steps whose scrutinee is already a value. *)
Ltac go_step := rewrite ?outcome_bind_Ret; cbn beta iota.

(** Splits the outermost test of the code into the propositions it decides. *)
Ltac bool_case_on c :=
  lazymatch c with
  | Z.eqb ?a ?b => destruct (Z.eqb_spec a b)
  | Z.ltb ?a ?b => destruct (Z.ltb_spec a b)
  | Z.leb ?a ?b => destruct (Z.leb_spec a b)
  | Z.gtb ?a ?b => rewrite (Z.gtb_ltb a b); destruct (Z.ltb_spec b a)
  | Z.geb ?a ?b => rewrite (Z.geb_leb a b); destruct (Z.leb_spec b a)
  | bool_decide ?P => destruct (bool_decide_reflect P)
  | negb ?c => bool_case_on c; simpl
  | _ => let E := fresh "Etest" in destruct c eqn:E
  end.
Ltac bool_case :=
  match goal with
  | |- context [if ?c then _ else _] => bool_case_on c
  end.

(** Evaluates the decision procedure of a closed proposition. *)
Ltac decide_now :=
  cbn beta iota zeta;
  match goal with |- ?P => refine (@bool_decide_unpack P _ _); vm_compute; exact I end.

(** [lia] over goals with division and remainder. *)
Ltac zlia := Z.div_mod_to_equations; lia.

(** The elements of lists that are put together. *)
Lemma elem_of_concat_fmap {A B} (f : A → list B) l x : x ∈ concat (f <$> l) ↔ ∃ a, a ∈ l ∧ x ∈ f a.
Proof.
  induction l as [|a l IH]; simpl; [set_solver|]. rewrite elem_of_app, IH. setoid_rewrite elem_of_cons. naive_solver.
Qed.
