(* ===== verification/NumTheory.v ===== *)
(** * Number theory behind the primality test

    Facts about [Z.prime] that the correctness of
    src/primefinder/pkg/prime/miller_rabin.go rests on: the square roots of one
    modulo a prime, the Miller-Rabin chain of squares (from Fermat's theorem),
    and prime divisors below the square root of a composite number.  Nothing in
    this file models code. *)

From S2P Require Import Prelude.
From Stdlib Require Import Znumtheory Zmod.

Local Open Scope Z_scope.

(** ** Powers modulo [n] *)

Lemma mod_sub_eq_0 a b n : n ≠ 0 → a mod n = b mod n ↔ (n | a - b).
Proof.
  intros Hn. rewrite <- Z.mod_divide by done. rewrite Zminus_mod. split.
  - intros ->. by rewrite Z.sub_diag.
  - intros H. apply Z.mod_divide in H; [|done]. destruct H as [k Hk].
    destruct (decide (0 < n)).
    + pose proof (Z.mod_pos_bound a n). pose proof (Z.mod_pos_bound b n).
      assert (k = 0) by nia. lia.
    + pose proof (Z.mod_neg_bound a n). pose proof (Z.mod_neg_bound b n).
      assert (k = 0) by nia. lia.
Qed.

Lemma pow_square a k : 0 ≤ k → a ^ (2 * k) = a ^ k * a ^ k.
Proof. intros. rewrite <- Z.pow_add_r by lia. f_equal; lia. Qed.

(** ** Square roots of one *)

Lemma prime_sqrt_one p x :
  Z.prime p → x * x mod p = 1 → x mod p = 1 ∨ x mod p = p - 1.
Proof.
  intros Hp Hx. pose proof (Z.prime_ge_2 _ Hp).
  assert (Hd : (p | (x - 1) * (x + 1))).
  { replace ((x - 1) * (x + 1)) with (x * x - 1) by ring.
    apply mod_sub_eq_0; [lia|]. rewrite Hx, Z.mod_small; lia. }
  apply Z.divide_prime_mul in Hd as [Hd|Hd]; [| |done].
  - left. apply mod_sub_eq_0 in Hd; [|lia]. rewrite Hd. apply Z.mod_small. lia.
  - right. replace (x + 1) with (x - (-1)) in Hd by ring.
    apply mod_sub_eq_0 in Hd; [|lia]. rewrite Hd. symmetry.
    apply (Z.mod_unique _ _ (-1)); lia.
Qed.

(** Walking back from [a ^ (2^r * d) = 1] by square roots ends in one or meets
    [-1]. *)
Lemma prime_square_chain p a d r :
  Z.prime p → 0 ≤ d → a ^ (2 ^ Z.of_nat r * d) mod p = 1 →
  a ^ d mod p = 1 ∨ ∃ i, (i < r)%nat ∧ a ^ (2 ^ Z.of_nat i * d) mod p = p - 1.
Proof.
  intros Hp Hd. induction r as [|r IH]; intros H1.
  - left. by rewrite Z.mul_1_l in H1.
  - rewrite Nat2Z.inj_succ, Z.pow_succ_r, <- Z.mul_assoc, pow_square in H1 by lia.
    destruct (prime_sqrt_one _ _ Hp H1) as [H|H].
    + destruct (IH H) as [?|(i & ? & ?)]; [by left|right; exists i; split; [lia|done]].
    + right. exists r. split; [lia|done].
Qed.

(** The Miller-Rabin property: every base passes at a prime modulus. *)
Lemma prime_miller_rabin p a d r :
  Z.prime p → 0 < a < p → 0 ≤ d → p - 1 = 2 ^ Z.of_nat r * d →
  a ^ d mod p = 1 ∨ ∃ i, (i < r)%nat ∧ a ^ (2 ^ Z.of_nat i * d) mod p = p - 1.
Proof.
  intros Hp Ha Hd Hr. apply prime_square_chain; [done..|].
  rewrite <- Hr. apply Z.fermat_nz; [done|]. rewrite Z.mod_small; lia.
Qed.

(** ** Divisors *)

Lemma exists_prime_divisor n : 2 ≤ n → ∃ q, Z.prime q ∧ (q | n).
Proof.
  induction (Z.lt_wf 2 n) as [n _ IH]. intros Hn.
  destruct (prime_dec n) as [Hp|Hnp].
  - exists n. split; [by apply prime_alt|apply Z.divide_refl].
  - destruct (not_prime_divide n) as (m & Hm & Hdiv); [lia|done|].
    destruct (IH m) as (q & Hq & Hqm); [lia..|].
    exists q. split; [done|]. by transitivity m.
Qed.

(** A composite number has a prime divisor up to its square root. *)
Lemma composite_small_divisor n :
  2 ≤ n → ¬ Z.prime n → ∃ q, Z.prime q ∧ (q | n) ∧ q * q ≤ n.
Proof.
  intros Hn Hnp. rewrite prime_alt in Hnp.
  destruct (not_prime_divide n) as (m & Hm & [k Hk]); [lia|done|].
  assert (2 ≤ k) by nia.
  destruct (exists_prime_divisor (Z.min m k)) as (q & Hq & Hd); [lia|].
  pose proof (Z.prime_ge_2 _ Hq).
  pose proof (Z.divide_pos_le q (Z.min m k) ltac:(lia) Hd).
  exists q. split; [done|]. split; [|nia].
  destruct (Z.min_spec m k) as [[_ Hmin]|[_ Hmin]]; rewrite Hmin in Hd.
  - by transitivity m; [|exists k].
  - transitivity k; [done|]. exists m. lia.
Qed.

(** A divisor of both a base and the modulus divides every residue of a power
    of the base. *)
Lemma divide_pow_mod w n k : n ≠ 0 → 0 < k → (w | n) → (w | w ^ k mod n).
Proof.
  intros Hn Hk Hw. rewrite Z.mod_eq by done. apply Z.divide_sub_r.
  - replace k with (Z.succ (k - 1)) by lia. rewrite Z.pow_succ_r by lia.
    apply Z.divide_factor_l.
  - by apply Z.divide_mul_l.
Qed.

Lemma divide_pred_one w n : (w | n) → (w | n - 1) → (w | 1).
Proof. intros H1 H2. replace 1 with (n - (n - 1)) by ring. by apply Z.divide_sub_r. Qed.
