(* ===== verification/MillerRabin.v ===== *)
(** * The primality test: src/primefinder/pkg/prime/miller_rabin.go

    [IsPrime], [mulmod], [addmod] and [modpow] as the file has them, on
    [uint64] values (a [Z] in [0, 2^64), each arithmetic operation that can
    wrap wrapped by [u64]) and with the panic of a division by zero.  A loop
    takes fuel: 64 halvings bring any [uint64] to zero, and the theorems show
    that no call runs out. *)

From S2P Require Import Prelude NumTheory.

Local Open Scope Z_scope.

(** ** The code *)

(** [a % m] on [uint64]. *)
Definition u64_rem (a m : Z) : outcome Z :=
  if m =? 0 then Panic "runtime error: integer divide by zero" else Ret (a mod m).

Definition addmod (a b m : Z) : outcome Z :=
  a ← u64_rem a m;
  b ← u64_rem b m;
  if a >=? u64 (m - b) then Ret (u64 (a - u64 (m - b)))
  else Ret (u64 (a + b)).

Fixpoint mulmod_loop (fuel : nat) (result a b m : Z) : outcome Z :=
  if b >? 0 then
    match fuel with
    | O => NoFuel
    | S fuel =>
        result ← (if Z.land b 1 =? 1 then addmod result a m else Ret result);
        a ← addmod a a m;
        mulmod_loop fuel result a (Z.shiftr b 1) m
    end
  else Ret result.

Definition mulmod (a b m : Z) : outcome Z :=
  a ← u64_rem a m;
  mulmod_loop 64 0 a b m.

Fixpoint modpow_loop (fuel : nat) (result base exp m : Z) : outcome Z :=
  if exp >? 0 then
    match fuel with
    | O => NoFuel
    | S fuel =>
        result ← (if Z.land exp 1 =? 1 then mulmod result base m else Ret result);
        let exp := Z.shiftr exp 1 in
        base ← mulmod base base m;
        modpow_loop fuel result base exp m
    end
  else Ret result.

Definition modpow (base exp m : Z) : outcome Z :=
  if m =? 1 then Ret 0
  else
    base ← u64_rem base m;
    modpow_loop 64 1 base exp m.

(** [for d%2 == 0 { d /= 2; r++ }] *)
Fixpoint twos_loop (fuel : nat) (d r : Z) : outcome (Z * Z) :=
  if d mod 2 =? 0 then
    match fuel with
    | O => NoFuel
    | S fuel => twos_loop fuel (d / 2) (u64 (r + 1))
    end
  else Ret (d, r).

Definition witnesses : list Z := [2; 3; 5; 7; 11; 13; 17; 19; 23; 29; 31; 37].

(** The inner loop of a witness: the final value of [composite]. *)
Fixpoint square_loop (fuel : nat) (i x r n : Z) : outcome bool :=
  if i <? u64 (r - 1) then
    match fuel with
    | O => NoFuel
    | S fuel =>
        x ← mulmod x x n;
        if x =? u64 (n - 1) then Ret false
        else square_loop fuel (u64 (i + 1)) x r n
    end
  else Ret true.

Fixpoint witness_loop (ws : list Z) (n d r : Z) : outcome bool :=
  match ws with
  | [] => Ret true
  | a :: ws =>
      if a >=? n then witness_loop ws n d r
      else
        x ← modpow a d n;
        if (x =? 1) || (x =? u64 (n - 1)) then witness_loop ws n d r
        else
          composite ← square_loop 64 0 x r n;
          if composite : bool then Ret false else witness_loop ws n d r
  end.

Definition IsPrime (n : Z) : outcome bool :=
  if n <? 2 then Ret false
  else if (n =? 2) || (n =? 3) || (n =? 5) || (n =? 7) then Ret true
  else if (n mod 2 =? 0) || (n mod 3 =? 0) || (n mod 5 =? 0) then Ret false
  else
    '(d, r) ← twos_loop 64 (u64 (n - 1)) 0;
    witness_loop witnesses n d r.

(** ** Reference: the test over unbounded integers *)

(** Base [a] does not show that [n], with [n - 1 = 2^r * d], is composite. *)
Definition passes (n d : Z) (r : nat) (a : Z) : bool :=
  (a ^ d mod n =? 1) || existsb (λ i, a ^ (2 ^ Z.of_nat i * d) mod n =? n - 1) (seq 0 r).

Definition small_prime (n : Z) : bool := (n =? 2) || (n =? 3) || (n =? 5) || (n =? 7).
Definition divisible_235 (n : Z) : bool :=
  (n mod 2 =? 0) || (n mod 3 =? 0) || (n mod 5 =? 0).

Definition accepts (n d : Z) (r : nat) : bool :=
  forallb (λ a, (n <=? a) || passes n d r a) witnesses.

(** [n] is composite and every base of the test is a strong liar for it. *)
Definition strong_liar (n : Z) : Prop :=
  2 ≤ n ∧ ¬ Z.prime n ∧
  ∃ d r, n - 1 = 2 ^ Z.of_nat r * d ∧ Z.odd d = true ∧ accepts n d r = true.

(** ** The arithmetic helpers compute modular arithmetic *)

Lemma u64_rem_pos a m : 0 < m → u64_rem a m = Ret (a mod m).
Proof. intros. unfold u64_rem. destruct (Z.eqb_spec m 0); [lia|done]. Qed.

Lemma addmod_spec a b m :
  0 < m < two64 → addmod a b m = Ret ((a + b) mod m).
Proof.
  intros Hm. unfold addmod. rewrite !u64_rem_pos by lia. go_step.
  rewrite (Z.add_mod a b) by lia.
  pose proof (Z.mod_pos_bound a m ltac:(lia)). pose proof (Z.mod_pos_bound b m ltac:(lia)).
  rewrite (u64_small (m - _)) by (unfold is_u64; lia).
  bool_case; f_equal.
  - rewrite u64_small by (unfold is_u64; lia).
    apply (Z.mod_unique _ _ 1); lia.
  - rewrite u64_small by (unfold is_u64; lia). symmetry. apply Z.mod_small. lia.
Qed.

Lemma land_1_shiftr_1 b :
  0 ≤ b → b = 2 * Z.shiftr b 1 + (if Z.land b 1 =? 1 then 1 else 0).
Proof.
  intros Hb. replace (Z.land b 1) with (b mod 2) by (symmetry; by apply (Z.land_ones b 1)).
  rewrite Z.shiftr_div_pow2 by lia. change (2 ^ 1) with 2. bool_case; zlia.
Qed.

Lemma shiftr_1_bound b (fuel : nat) :
  0 ≤ b < 2 ^ Z.of_nat (S fuel) → 0 ≤ Z.shiftr b 1 < 2 ^ Z.of_nat fuel.
Proof.
  rewrite Nat2Z.inj_succ, Z.pow_succ_r, Z.shiftr_div_pow2 by lia.
  change (2 ^ 1) with 2. zlia.
Qed.

Lemma mulmod_loop_spec fuel result a b m :
  0 < m < two64 → 0 ≤ b < 2 ^ Z.of_nat fuel → 0 ≤ result < m →
  mulmod_loop fuel result a b m = Ret ((result + a * b) mod m).
Proof.
  intros Hm. revert result a b. induction fuel as [|fuel IH]; intros result a b Hb Hr; simpl.
  all: bool_case; [|replace b with 0 by lia; rewrite Z.mul_0_r, Z.add_0_r, Z.mod_small by lia; done].
  - simpl in Hb. lia.
  - rewrite (addmod_spec a a) by done.
    assert (Hb' := land_1_shiftr_1 b ltac:(lia)). apply shiftr_1_bound in Hb.
    destruct (Z.land b 1 =? 1); rewrite ?addmod_spec by done; go_step.
    + rewrite IH by (try apply Z.mod_pos_bound; lia). f_equal.
      rewrite Zplus_mod_idemp_l, Zplus_mod, Zmult_mod_idemp_l, <- Zplus_mod.
      f_equal. rewrite Hb' at 2. ring.
    + rewrite IH by (try apply Z.mod_pos_bound; lia). f_equal.
      rewrite Zplus_mod, Zmult_mod_idemp_l, <- Zplus_mod. f_equal. rewrite Hb' at 2. ring.
Qed.

Lemma u64_fuel b : is_u64 b → 0 ≤ b < 2 ^ Z.of_nat 64.
Proof. by unfold is_u64, two64. Qed.

Lemma mulmod_correct a b m :
  0 < m < two64 → is_u64 b → mulmod a b m = Ret ((a * b) mod m).
Proof.
  intros Hm Hb. unfold mulmod. rewrite u64_rem_pos by lia. go_step.
  rewrite mulmod_loop_spec by (auto using u64_fuel; lia).
  by rewrite Z.add_0_l, Zmult_mod_idemp_l.
Qed.

Lemma mod_pow_idemp_l a k m : 0 ≤ k → (a mod m) ^ k mod m = a ^ k mod m.
Proof. intros. by rewrite Z.mod_pow_l. Qed.

Lemma pow_halve base exp :
  0 ≤ exp →
  base ^ exp = (base * base) ^ Z.shiftr exp 1 * (if Z.land exp 1 =? 1 then base else 1).
Proof.
  intros He. rewrite (land_1_shiftr_1 exp He) at 1.
  assert (0 ≤ Z.shiftr exp 1) by by apply Z.shiftr_nonneg.
  rewrite <- (Z.pow_2_r base), <- Z.pow_mul_r by lia.
  bool_case; rewrite Z.pow_add_r by lia; by rewrite ?Z.pow_1_r.
Qed.

Lemma modpow_loop_spec fuel result base exp m :
  1 < m < two64 → 0 ≤ exp < 2 ^ Z.of_nat fuel → 0 ≤ result < m → 0 ≤ base < m →
  modpow_loop fuel result base exp m = Ret ((result * base ^ exp) mod m).
Proof.
  intros Hm. revert result base exp.
  induction fuel as [|fuel IH]; intros result base exp He Hr Hb; simpl.
  all: bool_case; [|replace exp with 0 by lia; rewrite Z.pow_0_r, Z.mul_1_r, Z.mod_small by lia; done].
  - simpl in He. lia.
  - rewrite (mulmod_correct base base) by (unfold is_u64; lia).
    rewrite (pow_halve base exp) by lia. apply shiftr_1_bound in He.
    destruct (Z.land exp 1 =? 1); rewrite ?mulmod_correct by (unfold is_u64; lia); go_step;
      rewrite IH by (try apply Z.mod_pos_bound; lia); f_equal;
      rewrite Zmult_mod, mod_pow_idemp_l, ?Z.mod_mod, <- Zmult_mod by lia; f_equal; ring.
Qed.

Lemma modpow_correct base exp m :
  0 < m < two64 → is_u64 exp → modpow base exp m = Ret (base ^ exp mod m).
Proof.
  intros Hm He. unfold modpow. bool_case.
  - subst. by rewrite Z.mod_1_r.
  - rewrite u64_rem_pos by lia. go_step.
    rewrite modpow_loop_spec by (auto using u64_fuel, Z.mod_pos_bound with lia).
    by rewrite Z.mul_1_l, mod_pow_idemp_l by (unfold is_u64 in He; lia).
Qed.

(** ** Splitting off the factors of two *)

Lemma twos_decompose n : 0 < n → ∃ (r : nat) d, n = 2 ^ Z.of_nat r * d ∧ Z.odd d = true.
Proof.
  induction (Z.lt_wf 0 n) as [n _ IH]. intros Hn. destruct (Z.odd n) eqn:Hodd.
  - exists 0%nat, n. rewrite Z.mul_1_l. done.
  - assert (Hn2 : n = 2 * (n / 2)) by (rewrite Zodd_mod in Hodd; apply Z.eqb_neq in Hodd; zlia).
    destruct (IH (n / 2)) as (r & d & Hr & Hd); [lia..|].
    exists (S r), d. split; [|done]. rewrite Nat2Z.inj_succ, Z.pow_succ_r by lia. lia.
Qed.

Lemma twos_exponent_bound (r : nat) d :
  0 < 2 ^ Z.of_nat r * d < two64 → (r < 64)%nat ∧ 0 < d < two64.
Proof.
  intros H. pose proof (Z.pow_pos_nonneg 2 (Z.of_nat r) ltac:(lia) ltac:(lia)).
  assert (0 < d) by nia. assert (2 ^ Z.of_nat r < two64) as Hr by nia.
  change two64 with (2 ^ 64) in Hr.
  apply Z.pow_lt_mono_r_iff in Hr; [|lia..]. split; [lia|nia].
Qed.

Lemma twos_loop_exact fuel d (k : nat) r :
  Z.odd d = true → (k ≤ fuel)%nat → 0 ≤ r → r + Z.of_nat k < two64 →
  twos_loop fuel (2 ^ Z.of_nat k * d) r = Ret (d, r + Z.of_nat k).
Proof.
  intros Hodd. revert fuel r. induction k as [|k IH]; intros fuel r Hf Hr Hk.
  - rewrite Z.mul_1_l, Z.add_0_r. rewrite Zodd_mod in Hodd. apply Z.eqb_eq in Hodd.
    destruct fuel; simpl; by rewrite Hodd.
  - destruct fuel as [|fuel]; [lia|]. cbn [twos_loop].
    rewrite Nat2Z.inj_succ, Z.pow_succ_r, <- Z.mul_assoc by lia.
    rewrite Z.mul_comm, Z.mod_mul, Z.div_mul by lia. cbn.
    rewrite u64_small by (unfold is_u64; lia).
    rewrite IH by lia. do 2 f_equal. lia.
Qed.

(** ** The witness loops compute the reference test *)

Lemma existsb_seq_shift (f : nat → bool) s n :
  existsb f (seq (S s) n) = existsb (λ j, f (S j)) (seq s n).
Proof. revert s. induction n as [|n IH]; intros s; simpl; [done|by rewrite IH]. Qed.

Lemma existsb_seq_ext (f g : nat → bool) s n :
  (∀ j, f j = g j) → existsb f (seq s n) = existsb g (seq s n).
Proof. intros H. revert s. induction n as [|n IH]; intros s; simpl; [done|by rewrite H, IH]. Qed.

Lemma pow_pow_succ x (j : nat) n :
  (x * x mod n) ^ 2 ^ Z.of_nat j mod n = x ^ 2 ^ Z.of_nat (S j) mod n.
Proof.
  rewrite mod_pow_idemp_l by (apply Z.pow_nonneg; lia).
  rewrite <- Z.pow_2_r, <- Z.pow_mul_r by (try apply Z.pow_nonneg; lia).
  by rewrite Nat2Z.inj_succ, Z.pow_succ_r by lia.
Qed.

Lemma square_loop_spec fuel (m r : nat) x n :
  2 < n < two64 → (m ≤ fuel)%nat → (m < r)%nat → Z.of_nat r < two64 →
  0 ≤ x < n →
  square_loop fuel (Z.of_nat r - 1 - Z.of_nat m) x (Z.of_nat r) n =
  Ret (negb (existsb (λ j, x ^ 2 ^ Z.of_nat j mod n =? n - 1) (seq 1 m))).
Proof.
  intros Hn. revert fuel x. induction m as [|m IH]; intros fuel x Hf Hm Hr Hx.
  - destruct fuel; cbn [square_loop]; rewrite u64_small by (unfold is_u64; lia);
      bool_case; [lia|done|lia|done].
  - destruct fuel as [|fuel]; [lia|]. cbn [square_loop].
    rewrite (u64_small (Z.of_nat r - 1)) by (unfold is_u64; lia). bool_case; [|lia].
    rewrite mulmod_correct by (unfold is_u64; lia). go_step.
    rewrite (u64_small (n - 1)), (u64_small (_ + 1)) by (unfold is_u64; lia).
    cbn [seq existsb]. rewrite Z.pow_1_r, Z.pow_2_r.
    destruct (x * x mod n =? n - 1) eqn:E; cbn; [done|].
    replace (Z.of_nat r - 1 - Z.of_nat (S m) + 1) with (Z.of_nat r - 1 - Z.of_nat m) by lia.
    rewrite IH by (try apply Z.mod_pos_bound; lia).
    rewrite (existsb_seq_shift _ 1). do 2 f_equal. apply existsb_seq_ext. intros j.
    by rewrite pow_pow_succ.
Qed.

Lemma witness_loop_spec ws n d (r : nat) :
  2 < n < two64 → is_u64 d → (0 < r ≤ 64)%nat → Forall (λ a, 0 ≤ a) ws →
  witness_loop ws n d (Z.of_nat r) = Ret (forallb (λ a, (n <=? a) || passes n d r a) ws).
Proof.
  intros Hn Hd Hr. induction 1 as [|a ws Ha _ IH]; [done|]. cbn [witness_loop forallb].
  rewrite Z.geb_leb. bool_case; [done|]. cbn [orb].
  rewrite modpow_correct by (try done; lia). go_step. rewrite IH.
  rewrite u64_small by (unfold is_u64; lia).
  assert (Hsq : square_loop 64 0 (a ^ d mod n) (Z.of_nat r) n = Ret (negb (existsb
    (λ j, a ^ (2 ^ Z.of_nat j * d) mod n =? n - 1) (seq 1 (r - 1))))).
  { replace 0 with (Z.of_nat r - 1 - Z.of_nat (r - 1)) at 1 by lia.
    rewrite square_loop_spec by (try apply Z.mod_pos_bound; unfold two64 in *; lia).
    do 2 f_equal. apply existsb_seq_ext. intros j.
    rewrite mod_pow_idemp_l by (apply Z.pow_nonneg; lia).
    rewrite <- Z.pow_mul_r by (try apply Z.pow_nonneg; unfold is_u64 in Hd; lia).
    by rewrite Z.mul_comm. }
  unfold passes. destruct r as [|r]; [lia|]. cbn [seq existsb].
  rewrite Z.mul_1_l, Hsq, Nat.sub_1_r. cbn [pred].
  destruct (_ =? 1); [done|]. destruct (_ =? n - 1); [done|].
  go_step. match goal with |- context [negb ?e] => by destruct e end.
Qed.

(** The reference the code is compared with. *)
Definition is_prime_reference (n d : Z) (r : nat) : bool :=
  if n <? 2 then false
  else if small_prime n then true
  else if divisible_235 n then false
  else accepts n d r.

Lemma IsPrime_eq n d r :
  is_u64 n → n - 1 = 2 ^ Z.of_nat r * d → Z.odd d = true →
  IsPrime n = Ret (is_prime_reference n d r).
Proof.
  intros Hn Hdr Hodd. unfold IsPrime, is_prime_reference, small_prime, divisible_235.
  bool_case; [done|]. destruct (_ || (n =? 7)) eqn:Hsmall; [done|].
  destruct (_ || (n mod 5 =? 0)) eqn:Hdiv; [done|].
  assert (Hn2 : n ≠ 2) by (intros ->; done).
  destruct (twos_exponent_bound r d) as [Hr Hd]; [unfold is_u64 in Hn; lia|].
  assert (0 < r)%nat.
  { destruct r; [|lia]. rewrite Z.mul_1_l in Hdr. subst d.
    rewrite Z.odd_sub in Hodd.
    destruct (Z.eqb_spec (n mod 2) 0) as [|E]; [done|].
    rewrite (Zodd_mod n) in Hodd. destruct (Z.eqb_spec (n mod 2) 1); [done|zlia]. }
  rewrite u64_small by (unfold is_u64 in *; lia). rewrite Hdr.
  rewrite twos_loop_exact by (try done; unfold two64; lia). go_step. rewrite Z.add_0_l.
  rewrite witness_loop_spec; [done| |unfold is_u64; lia|lia|].
  - unfold is_u64 in Hn; lia.
  - repeat constructor; lia.
Qed.

(** [IsPrime] always returns, with the answer of the reference. *)
Lemma IsPrime_decompose n :
  is_u64 n → 2 ≤ n → ∃ d r, n - 1 = 2 ^ Z.of_nat r * d ∧ Z.odd d = true ∧
  IsPrime n = Ret (is_prime_reference n d r).
Proof.
  intros Hn H2. destruct (twos_decompose (n - 1)) as (r & d & Hdr & Hodd); [lia|].
  exists d, r. auto using IsPrime_eq.
Qed.

Lemma IsPrime_returns n : is_u64 n → ∃ b, IsPrime n = Ret b.
Proof.
  intros Hn. destruct (Z.lt_ge_cases n 2) as [Hlt|H2].
  - exists false. unfold IsPrime. by destruct (Z.ltb_spec n 2); [|lia].
  - destruct (IsPrime_decompose n Hn H2) as (d & r & _ & _ & ->). eauto.
Qed.

(** ** Primes are accepted *)

Lemma small_primes_prime n : small_prime n = true → Z.prime n.
Proof.
  unfold small_prime. rewrite !orb_true_iff, !Z.eqb_eq.
  intros Hn. split; [lia|]. intros m Hm [k Hk].
  assert (m = 2 ∨ m = 3 ∨ m = 4 ∨ m = 5 ∨ m = 6) as Hc by lia.
  destruct_or! Hc; subst m; lia.
Qed.

Lemma prime_passes p d r a :
  Z.prime p → 0 < a < p → 0 ≤ d → p - 1 = 2 ^ Z.of_nat r * d → passes p d r a = true.
Proof.
  intros Hp Ha Hd Hr. unfold passes. apply orb_true_iff.
  destruct (prime_miller_rabin p a d r) as [H|(i & Hi & H)]; [done..|left|right].
  - by apply Z.eqb_eq.
  - apply existsb_exists. exists i. split; [apply in_seq; lia|by apply Z.eqb_eq].
Qed.

Lemma prime_accepts p d r :
  Z.prime p → 0 ≤ d → p - 1 = 2 ^ Z.of_nat r * d → accepts p d r = true.
Proof.
  intros Hp Hd Hr. apply forallb_forall. intros a Ha.
  destruct (Z.leb_spec p a); [done|]. cbn [orb]. apply prime_passes; try done.
  split; [|done]. revert Ha. unfold witnesses. simpl. lia.
Qed.

Lemma prime_not_divisible p q :
  Z.prime p → Z.prime q → p ≠ q → (p mod q =? 0) = false.
Proof.
  intros [Hp Hdiv] [Hq _] Hne. apply Z.eqb_neq. intros H. apply Z.mod_divide in H; [|lia].
  pose proof (Z.divide_pos_le q p ltac:(lia) H). by apply (Hdiv q); [lia|].
Qed.

Lemma prime_not_divisible_235 p :
  Z.prime p → small_prime p = false → divisible_235 p = false.
Proof.
  intros Hp Hs. unfold small_prime in Hs. rewrite !orb_false_iff, !Z.eqb_neq in Hs.
  destruct Hs as [[[H2 H3] H5] _]. unfold divisible_235.
  assert (Z.prime 2 ∧ Z.prime 3 ∧ Z.prime 5) as (? & ? & ?).
  { split_and!; by apply small_primes_prime. }
  rewrite (prime_not_divisible p 2), (prime_not_divisible p 3), (prime_not_divisible p 5) by done. done.
Qed.

Lemma odd_part_nonneg n d (r : nat) : 0 ≤ n → n = 2 ^ Z.of_nat r * d → 0 ≤ d.
Proof. intros Hn ->. pose proof (Z.pow_pos_nonneg 2 (Z.of_nat r) ltac:(lia) ltac:(lia)). nia. Qed.

Lemma IsPrime_prime p : Z.prime p → p < two64 → IsPrime p = Ret true.
Proof.
  intros Hp Hlt. pose proof (Z.prime_ge_2 _ Hp).
  destruct (IsPrime_decompose p) as (d & r & Hdr & Hodd & ->); [unfold is_u64; lia..|].
  f_equal. unfold is_prime_reference. bool_case; [lia|].
  destruct (small_prime p) eqn:Hsmall; [done|].
  rewrite prime_not_divisible_235 by done.
  apply prime_accepts; [done| |done]. by apply (odd_part_nonneg (p - 1) d r); [lia|].
Qed.

(** ** Accepted numbers have no small factor *)

Lemma passes_not_divisor n d r w :
  2 ≤ n → 0 < d → 2 ≤ w → (w | n) → passes n d r w = true → False.
Proof.
  intros Hn Hd Hw Hdiv Hp.
  assert (Hone : ¬ (w | 1)) by (intros ?%Z.divide_pos_le; lia).
  unfold passes in Hp. apply orb_true_iff in Hp as [H%Z.eqb_eq|H].
  - apply Hone. rewrite <- H. apply divide_pow_mod; [lia..|done].
  - apply existsb_exists in H as (i & _ & H%Z.eqb_eq). apply Hone.
    apply (divide_pred_one w n); [done|]. rewrite <- H.
    pose proof (Z.pow_pos_nonneg 2 (Z.of_nat i) ltac:(lia) ltac:(lia)).
    apply divide_pow_mod; [lia|nia|done].
Qed.

Lemma accepts_no_witness_divisor n d r w :
  2 ≤ n → 0 < d → w ∈ witnesses → (w | n) → accepts n d r = true → n ≤ w.
Proof.
  intros Hn Hd Hw Hdiv Hacc. unfold accepts in Hacc. rewrite forallb_forall in Hacc.
  apply list_elem_of_In in Hw. specialize (Hacc w Hw).
  apply orb_true_iff in Hacc as [H%Z.leb_le|H]; [done|].
  exfalso. apply (passes_not_divisor n d r w); try done.
  revert Hw. unfold witnesses. simpl. lia.
Qed.

(** The primes below 41 are the bases. *)
Lemma primes_below_41 q : Z.prime q → q < 41 → q ∈ witnesses.
Proof.
  intros Hq Hlt. pose proof (Z.prime_ge_2 _ Hq).
  assert (Hall : forallb (λ q, bool_decide (Z.of_nat q ∈ witnesses) ||
    existsb (λ k, (Z.of_nat q mod Z.of_nat k =? 0) && (k <? q)%nat) (seq 2 5))
    (seq 2 39) = true) by (vm_compute; done).
  rewrite forallb_forall in Hall. specialize (Hall (Z.to_nat q)).
  rewrite Z2Nat.id in Hall by lia.
  destruct (orb_prop _ _ (Hall ltac:(apply in_seq; lia))) as [Hw|Hw].
  - by apply bool_decide_eq_true in Hw.
  - apply existsb_exists in Hw as (k & Hk & [Hz Hlt']%andb_true_iff).
    apply in_seq in Hk. apply Nat.ltb_lt in Hlt'. apply Z.eqb_eq in Hz.
    exfalso. destruct Hq as [_ Hq]. apply (Hq (Z.of_nat k)); [lia|].
    apply Z.mod_divide; [lia|done].
Qed.

Lemma strong_liar_bound n : strong_liar n → 1681 ≤ n.
Proof.
  intros (Hn & Hnp & d & r & Hdr & Hodd & Hacc).
  destruct (composite_small_divisor n Hn Hnp) as (q & Hq & Hdiv & Hsq).
  destruct (Z.lt_ge_cases q 41) as [Hlt|Hge]; [|nia].
  pose proof (odd_part_nonneg (n - 1) d r ltac:(lia) Hdr). pose proof (Z.prime_ge_2 _ Hq).
  assert (d ≠ 0) by (by intros ->).
  pose proof (accepts_no_witness_divisor n d r q Hn ltac:(lia) (primes_below_41 q Hq Hlt) Hdiv Hacc).
  assert (n = q) by (pose proof (Z.divide_pos_le q n ltac:(lia) Hdiv); lia). by subst.
Qed.

(** What the test answers is right up to the first strong liar. *)
Lemma IsPrime_true_prime n :
  is_u64 n → ¬ strong_liar n → IsPrime n = Ret true → Z.prime n.
Proof.
  intros Hn Hliar Hp. destruct (Z.lt_ge_cases n 2) as [Hlt|H2].
  { unfold IsPrime in Hp. by destruct (Z.ltb_spec n 2); [|lia]. }
  destruct (IsPrime_decompose n Hn H2) as (d & r & Hdr & Hodd & Heq).
  rewrite Heq in Hp. injection Hp as Hp. unfold is_prime_reference in Hp.
  destruct (Z.ltb_spec n 2); [lia|].
  destruct (small_prime n) eqn:Hsmall; [by apply small_primes_prime|].
  destruct (divisible_235 n); [done|].
  destruct (Znumtheory.prime_dec n) as [Hpr|Hnp]; [by apply Znumtheory.prime_alt|].
  destruct Hliar. split; [done|]. split; [by rewrite Znumtheory.prime_alt|]. eauto.
Qed.

(** ** Properties *)

(** C11: on every [uint64] the test returns (no panic, no endless loop), with
    the answer of the twelve-base strong-probable-prime test over the unbounded
    integers, whatever decomposition [n - 1 = 2^r * d] with [d] odd is used. *)
Theorem IsPrime_is_strong_test n d r :
  is_u64 n → n - 1 = 2 ^ Z.of_nat r * d → Z.odd d = true →
  IsPrime n = Ret (is_prime_reference n d r).
Proof. apply IsPrime_eq. Qed.

Lemma IsPrime_is_strong_test_witness :
  is_u64 561 ∧ Z.odd 35 = true ∧ IsPrime 561 = Ret (is_prime_reference 561 35 4).
Proof.
  split; [by vm_compute|]. split; [done|].
  apply (IsPrime_is_strong_test 561 35 4); [by vm_compute|done|done].
Defined.

(** C21: no prime below 2^64 is ever rejected. *)
Theorem IsPrime_accepts_primes p :
  Z.prime p → p < two64 → IsPrime p = Ret true.
Proof. apply IsPrime_prime. Qed.

Lemma IsPrime_accepts_primes_witness :
  Z.prime 7 ∧ 7 < two64 ∧ IsPrime 7 = Ret true.
Proof.
  assert (Hp : Z.prime 7) by by apply small_primes_prime.
  split; [done|]. split; [done|]. by apply IsPrime_accepts_primes.
Defined.

(** C15: below 1681 = 41^2 the test decides primality, with no assumption on
    pseudoprimes: a number it accepts has no prime factor among its bases. *)
Theorem IsPrime_exact_below_1681 n :
  0 ≤ n < 1681 → ∃ b, IsPrime n = Ret b ∧ (b = true ↔ Z.prime n).
Proof.
  intros Hn. assert (Hu : is_u64 n) by (unfold is_u64, two64; lia).
  assert (¬ strong_liar n) by (intros ?%strong_liar_bound; lia).
  destruct (IsPrime_returns n Hu) as [b Hb]. exists b. split; [done|]. split.
  - intros ->. by apply IsPrime_true_prime.
  - intros Hp. rewrite IsPrime_prime in Hb by (unfold is_u64 in Hu; lia || done). naive_solver.
Qed.

Lemma IsPrime_exact_below_1681_witness :
  ∃ b, IsPrime 1661 = Ret b ∧ (b = true ↔ Z.prime 1661).
Proof. apply IsPrime_exact_below_1681. by vm_compute. Defined.

(** Below any bound under which no composite number fools the twelve bases
    the test decides primality; the source's claim for all of [uint64] is the
    case [bound = 2^64]. *)
Theorem IsPrime_correct_below bound n :
  bound ≤ two64 → (∀ m, m < bound → ¬ strong_liar m) → 0 ≤ n < bound →
  IsPrime n = Ret true ↔ Z.prime n.
Proof.
  intros Hb Hliar Hn. split.
  - apply IsPrime_true_prime; [unfold is_u64; lia|apply Hliar; lia].
  - intros Hp. apply IsPrime_prime; [done|lia].
Qed.

Lemma IsPrime_correct_below_witness :
  (∀ m, m < 1681 → ¬ strong_liar m) ∧ (IsPrime 1601 = Ret true ↔ Z.prime 1601).
Proof.
  assert (H : ∀ m, m < 1681 → ¬ strong_liar m) by (intros m Hm ?%strong_liar_bound; lia).
  split; [done|]. by apply (IsPrime_correct_below 1681).
Defined.

(** C36: [mulmod] and [modpow] never overflow: for any [uint64] operands and any
    modulus but zero they return the product and the power modulo [m]. *)
Theorem modular_arithmetic_exact a b m :
  is_u64 a → is_u64 b → 0 < m < two64 →
  mulmod a b m = Ret (a * b mod m) ∧ modpow a b m = Ret (a ^ b mod m).
Proof. intros. split; [by apply mulmod_correct|by apply modpow_correct]. Qed.

Lemma modular_arithmetic_exact_witness :
  let m := 18446744073709551557 in
  mulmod (m - 1) (m - 2) m = Ret ((m - 1) * (m - 2) mod m) ∧
  modpow (m - 1) (m - 2) m = Ret ((m - 1) ^ (m - 2) mod m).
Proof. apply modular_arithmetic_exact; by vm_compute. Defined.
