(* ===== verification/GoLib.v ===== *)
(** * The Go standard library functions the program calls

    Byte-level models of what the sources use of [strings], [strconv], [fmt],
    [bufio.Scanner] and [path/filepath].  A Go string is a [string]; a []byte
    is a list of [ascii] ([bytes]); [s2b] and [b2s] convert.  Nothing here maps
    to a file of the repository: the components do, and call these. *)

From S2P Require Import Prelude.

Definition s2b : string → bytes := String.list_ascii_of_string.
Definition b2s : bytes → string := String.string_of_list_ascii.

Lemma b2s_s2b s : b2s (s2b s) = s.
Proof. apply String.string_of_list_ascii_of_string. Qed.
Lemma s2b_b2s b : s2b (b2s b) = b.
Proof. apply String.list_ascii_of_string_of_list_ascii. Qed.
#[export] Hint Rewrite b2s_s2b s2b_b2s : go.

#[export] Instance s2b_inj : Inj (=) (=) s2b.
Proof. intros x y H. by rewrite <- (b2s_s2b x), H, b2s_s2b. Qed.
#[export] Instance b2s_inj : Inj (=) (=) b2s.
Proof. intros x y H. by rewrite <- (s2b_b2s x), H, s2b_b2s. Qed.

Lemma string_app_cons c s t : String c s +:+ t = String c (s +:+ t).
Proof. done. Qed.
Lemma string_app_nil_l t : "" +:+ t = t.
Proof. done. Qed.

Lemma s2b_app s t : s2b (s +:+ t) = s2b s ++ s2b t.
Proof. induction s as [|c s IH]; [done|]. rewrite string_app_cons. simpl. by rewrite IH. Qed.
Lemma b2s_app a b : b2s (a ++ b) = b2s a +:+ b2s b.
Proof. apply (inj s2b). by rewrite s2b_app, !s2b_b2s. Qed.

Lemma string_app_assoc s t u : (s +:+ t) +:+ u = s +:+ (t +:+ u).
Proof. apply (inj s2b). by rewrite !s2b_app, app_assoc. Qed.
Lemma string_app_nil_r s : s +:+ "" = s.
Proof. apply (inj s2b). by rewrite s2b_app, app_nil_r. Qed.
Lemma string_app_inj_r s t u : s +:+ u = t +:+ u → s = t.
Proof. intros H. apply (inj s2b). apply (f_equal s2b) in H. rewrite !s2b_app in H. by apply app_inv_tail in H. Qed.

(** ** [strings.Split], [strings.SplitN(s, sep, 2)], [strings.Join], [strings.Contains] *)

Fixpoint split_bytes (c : ascii) (l : bytes) : list bytes :=
  match l with
  | [] => [[]]
  | a :: l =>
      if decide (a = c) then [] :: split_bytes c l
      else match split_bytes c l with
           | [] => [[a]]
           | w :: ws => (a :: w) :: ws
           end
  end.
Definition Split (s : string) (c : ascii) : list string := b2s <$> split_bytes c (s2b s).

(** [SplitN(s, c, 2)]: at most one cut. *)
Fixpoint cut_bytes (c : ascii) (l : bytes) : bytes * option bytes :=
  match l with
  | [] => ([], None)
  | a :: l =>
      if decide (a = c) then ([], Some l)
      else let '(w, rest) := cut_bytes c l in (a :: w, rest)
  end.
Definition SplitN2 (s : string) (c : ascii) : list string :=
  match cut_bytes c (s2b s) with
  | (w, None) => [b2s w]
  | (w, Some rest) => [b2s w; b2s rest]
  end.

Definition Join (ws : list string) (sep : string) : string := String.concat sep ws.

Fixpoint join_bytes (c : ascii) (ws : list bytes) : bytes :=
  match ws with
  | [] => []
  | [w] => w
  | w :: ws => w ++ c :: join_bytes c ws
  end.

Fixpoint has_prefix (p l : bytes) : bool :=
  match p, l with
  | [], _ => true
  | a :: p, b :: l => bool_decide (a = b) && has_prefix p l
  | _ :: _, [] => false
  end.
Fixpoint contains_bytes (p l : bytes) : bool :=
  has_prefix p l || match l with [] => false | _ :: l => contains_bytes p l end.
Definition Contains (s sub : string) : bool := contains_bytes (s2b sub) (s2b s).

Lemma split_bytes_ne c l : split_bytes c l ≠ [].
Proof. destruct l as [|a l]; simpl; [done|]. case_decide; [done|]. by destruct (split_bytes c l). Qed.

Lemma split_bytes_app c w l :
  c ∉ w → split_bytes c (w ++ c :: l) = w :: split_bytes c l.
Proof.
  induction w as [|a w IH]; simpl; intros Hw.
  - by rewrite decide_True.
  - rewrite decide_False by set_solver. rewrite IH by set_solver. done.
Qed.

Lemma split_bytes_none c w : c ∉ w → split_bytes c w = [w].
Proof.
  induction w as [|a w IH]; simpl; intros Hw; [done|].
  rewrite decide_False by set_solver. by rewrite IH by set_solver.
Qed.

(** Splitting undoes joining when no word holds the separator. *)
Lemma split_join_bytes c ws :
  ws ≠ [] → Forall (λ w, c ∉ w) ws → split_bytes c (join_bytes c ws) = ws.
Proof.
  intros Hne Hws. induction Hws as [|w ws Hw Hws IH]; [done|].
  destruct ws as [|w' ws]; [by apply split_bytes_none|].
  change (join_bytes c (w :: w' :: ws)) with (w ++ c :: join_bytes c (w' :: ws)).
  by rewrite split_bytes_app, IH.
Qed.

Lemma join_split_bytes c l : join_bytes c (split_bytes c l) = l.
Proof.
  induction l as [|a l IH]; simpl; [done|]. pose proof (split_bytes_ne c l).
  case_decide; [subst|]; destruct (split_bytes c l) as [|w [|w' ws]]; try done;
    simpl in *; by rewrite IH.
Qed.

Lemma split_bytes_free c l : Forall (λ w, c ∉ w) (split_bytes c l).
Proof.
  induction l as [|a l IH]; simpl; [repeat constructor; set_solver|].
  case_decide; [constructor; [set_solver|done]|].
  destruct (split_bytes c l) as [|w ws]; [repeat constructor; set_solver|].
  inversion_clear IH. constructor; [set_solver|done].
Qed.

Lemma s2b_Join c ws : s2b (Join ws (String c "")) = join_bytes c (s2b <$> ws).
Proof.
  unfold Join. induction ws as [|w [|w' ws] IH]; [done..|].
  change (String.concat (String c "") (w :: w' :: ws)) with
    (w +:+ String c "" +:+ String.concat (String c "") (w' :: ws)).
  rewrite !s2b_app, IH. done.
Qed.

Lemma Split_Join c ws :
  ws ≠ [] → Forall (λ w, c ∉ s2b w) ws → Split (Join ws (String c "")) c = ws.
Proof.
  intros Hne Hws. unfold Split. rewrite s2b_Join, split_join_bytes.
  - rewrite <- list_fmap_compose. etrans; [|apply list_fmap_id].
    apply list_fmap_ext. intros _ x _. apply b2s_s2b.
  - by destruct ws.
  - by apply Forall_fmap.
Qed.

Lemma Split_free c s : Forall (λ w, c ∉ s2b w) (Split s c).
Proof.
  unfold Split. apply Forall_fmap. eapply Forall_impl; [apply split_bytes_free|].
  intros w Hw. simpl. by rewrite s2b_b2s.
Qed.
Lemma Split_ne c s : Split s c ≠ [].
Proof. unfold Split. pose proof (split_bytes_ne c (s2b s)). by destruct (split_bytes c (s2b s)). Qed.
