(* ===== verification/GoText.v ===== *)
(** * Numbers and lines as text

    [fmt]'s [%d] and [%03d], [strconv.ParseUint(s, 10, 64)], [strings.TrimSpace]
    and [bufio.Scanner] with [ScanLines] and a bounded buffer, as the worker and
    the coordinator use them. *)

From S2P Require Import Prelude GoLib.

Local Open Scope Z_scope.

(** ** [%d] and [%03d] *)

Definition fmt_d (x : Z) : string := pretty x.

Definition fmt_03d (x : Z) : string :=
  let s := fmt_d x in
  match String.length s with
  | 1%nat => "00" +:+ s
  | 2%nat => "0" +:+ s
  | _ => s
  end.

(** ** [strconv.ParseUint] in base 10, 64 bits *)

Definition digit_val (c : ascii) : option Z :=
  let n := Z.of_N (Ascii.N_of_ascii c) in
  if (48 <=? n) && (n <=? 57) then Some (n - 48) else None.

Definition cutoff : Z := (two64 - 1) / 10 + 1.

Fixpoint parse_uint_loop (n : Z) (l : bytes) : result Z :=
  match l with
  | [] => Ok n
  | c :: l =>
      match digit_val c with
      | None => Err "invalid syntax"
      | Some d =>
          if n >=? cutoff then Err "value out of range"
          else
            let n := u64 (n * 10) in
            let n1 := u64 (n + d) in
            if n1 <? n then Err "value out of range" else parse_uint_loop n1 l
      end
  end.

Definition ParseUint (l : bytes) : result Z :=
  match l with
  | [] => Err "invalid syntax"
  | _ => parse_uint_loop 0 l
  end.

(** The number a string of digits denotes, over the integers. *)
Fixpoint digits_value (n : Z) (l : bytes) : option Z :=
  match l with
  | [] => Some n
  | c :: l => (d ← digit_val c; digits_value (n * 10 + d) l)
  end.

Lemma digit_val_range c d : digit_val c = Some d → 0 ≤ d ≤ 9.
Proof.
  unfold digit_val. destruct (_ && _) eqn:E; [|done]. intros [= <-].
  apply andb_true_iff in E as [?%Z.leb_le ?%Z.leb_le]. lia.
Qed.

Lemma digits_value_ge n l v : 0 ≤ n → digits_value n l = Some v → n ≤ v.
Proof.
  revert n. induction l as [|c l IH]; intros n Hn; simpl; [intros [= ->]; lia|].
  destruct (digit_val c) as [d|] eqn:Hd; [|done]. simpl. intros H.
  apply digit_val_range in Hd. apply IH in H; lia.
Qed.

(** Overflow detection is exact: the loop returns the value of the digits when
    it fits in 64 bits, and an error otherwise. *)
Lemma parse_uint_loop_spec n l v :
  is_u64 n → parse_uint_loop n l = Ok v ↔ digits_value n l = Some v ∧ is_u64 v.
Proof.
  revert n. induction l as [|c l IH]; intros n Hn; simpl.
  - split; [intros [= <-]; done|intros [[= ->] _]; done].
  - destruct (digit_val c) as [d|] eqn:Hd; [|naive_solver]. simpl.
    apply digit_val_range in Hd.
    assert (Hsplit : (n >=? cutoff) = false ∧ n * 10 + d < two64 ∨
                     two64 ≤ n * 10 + d).
    { rewrite Z.geb_leb. unfold cutoff, two64, is_u64 in *. destruct (Z.leb_spec (((2^64)-1)/10+1) n).
      - right. change (((2^64)-1)/10+1) with 1844674407370955162 in *. lia.
      - destruct (Z.lt_ge_cases (n * 10 + d) (2 ^ 64)); [left; done|right; lia]. }
    destruct Hsplit as [[-> Hlt]|Hge].
    + unfold is_u64 in Hn. rewrite (u64_small (n * 10)), u64_small by (unfold is_u64; lia).
      bool_case; [lia|]. apply IH. unfold is_u64. lia.
    + transitivity False; [|split; [done|]]; [split; [|done]|].
      * rewrite Z.geb_leb. destruct (Z.leb_spec cutoff n); [done|].
        assert (n * 10 < two64) by (unfold cutoff, two64 in *; zlia).
        unfold is_u64 in Hn. rewrite (u64_small (n * 10)) by (unfold is_u64; lia).
        assert (u64 (n * 10 + d) = n * 10 + d - two64) as ->.
        { unfold u64, two64 in *. symmetry. apply (Z.mod_unique _ _ 1); lia. }
        bool_case; [done|unfold two64 in *; lia].
      * intros [Hv Hr]. apply digits_value_ge in Hv; unfold is_u64 in *; lia.
Qed.

(** ** Printing and parsing are inverse *)

Lemma digit_val_pretty (x : N) : (x < 10)%N → digit_val (pretty_N_char x) = Some (Z.of_N x).
Proof.
  intros Hx. assert (x = 0 ∨ x = 1 ∨ x = 2 ∨ x = 3 ∨ x = 4 ∨ x = 5 ∨ x = 6 ∨ x = 7 ∨ x = 8 ∨ x = 9)%N
    as Hc by lia. destruct_or! Hc; by subst.
Qed.

Lemma digits_value_pretty_go (x : N) s :
  digits_value 0 (s2b (pretty_N_go x s)) = digits_value (Z.of_N x) (s2b s).
Proof.
  revert s. induction (N.lt_wf_0 x) as [x _ IH]; intros s.
  destruct (decide (x = 0)%N) as [->|Hx]; [done|].
  rewrite pretty_N_go_step by lia. rewrite IH by (apply N.div_lt; lia).
  simpl. rewrite digit_val_pretty by (apply N.mod_lt; lia). simpl. f_equal.
  rewrite N2Z.inj_div, N2Z.inj_mod. zlia.
Qed.

Lemma digits_value_fmt_d x : 0 ≤ x → digits_value 0 (s2b (fmt_d x)) = Some x.
Proof.
  intros Hx. destruct x as [|p|p]; [done| |lia].
  unfold fmt_d, pretty, pretty_Z, pretty, pretty_positive, pretty, pretty_N.
  rewrite decide_False by done. by rewrite digits_value_pretty_go.
Qed.

Lemma fmt_d_ne x : 0 ≤ x → s2b (fmt_d x) ≠ [].
Proof.
  intros Hx Hn. apply (f_equal b2s) in Hn. rewrite b2s_s2b in Hn.
  destruct x as [|p|p]; [done| |lia].
  assert (Hf := digits_value_fmt_d (Z.pos p) Hx). by rewrite Hn in Hf.
Qed.

Lemma ParseUint_fmt_d x : is_u64 x → ParseUint (s2b (fmt_d x)) = Ok x.
Proof.
  intros Hx. pose proof (fmt_d_ne x ltac:(unfold is_u64 in Hx; lia)).
  unfold ParseUint. destruct (s2b (fmt_d x)) as [|c l] eqn:E; [done|]. rewrite <- E.
  apply parse_uint_loop_spec; [done|]. split; [|done].
  apply digits_value_fmt_d. unfold is_u64 in Hx. lia.
Qed.

(** The bytes of a decimal number are digits. *)
Definition is_digit (c : ascii) : Prop := is_Some (digit_val c).

Lemma digits_value_digits n l v : digits_value n l = Some v → Forall is_digit l.
Proof.
  revert n. induction l as [|c l IH]; intros n; simpl; [constructor|].
  destruct (digit_val c) eqn:Hd; [|done]. simpl. intros H. constructor; [|by eapply IH].
  by eexists.
Qed.

Lemma fmt_d_digits x : 0 ≤ x → Forall is_digit (s2b (fmt_d x)).
Proof. intros Hx. eapply digits_value_digits. by apply digits_value_fmt_d. Qed.

Lemma ParseUint_range l v : ParseUint l = Ok v → is_u64 v.
Proof.
  destruct l as [|c l]; [done|]. intros H. unfold ParseUint in H.
  apply parse_uint_loop_spec in H; [naive_solver|done].
Qed.

(** ** [strings.TrimSpace] *)

Definition byte_of (n : N) : ascii := Ascii.ascii_of_N n.
Definition newline : ascii := byte_of 10.
Definition carriage_return : ascii := byte_of 13.

(** The UTF-8 encodings of the runes [unicode.IsSpace] accepts. *)
Definition space_runes : list bytes :=
  map (map byte_of)
    ([[9]; [10]; [11]; [12]; [13]; [32]; [194; 133]; [194; 160]; [225; 154; 128]] ++
     map (λ k, [226; 128; k]) [128; 129; 130; 131; 132; 133; 134; 135; 136; 137; 138; 168; 169; 175] ++
     [[226; 129; 159]; [227; 128; 128]])%N.

Fixpoint trim_prefixes (pats : list bytes) (fuel : nat) (l : bytes) : bytes :=
  match fuel with
  | O => l
  | S fuel =>
      match List.find (λ p, has_prefix p l) pats with
      | Some p => trim_prefixes pats fuel (drop (length p) l)
      | None => l
      end
  end.

Definition trim_left (l : bytes) : bytes := trim_prefixes space_runes (length l) l.
Definition trim_right (l : bytes) : bytes :=
  rev (trim_prefixes (map (@rev ascii) space_runes) (length l) (rev l)).
Definition TrimSpace (l : bytes) : bytes := trim_right (trim_left l).

Lemma find_prefix_none pats l :
  Forall (λ p, has_prefix p l = false) pats → List.find (λ p, has_prefix p l) pats = None.
Proof. induction 1 as [|p pats Hp _ IH]; simpl; [done|by rewrite Hp]. Qed.

Lemma trim_prefixes_digit pats n c l :
  Forall (λ p, match p with [] => false | a :: _ => bool_decide (digit_val a = None) end = true) pats →
  is_digit c → trim_prefixes pats n (c :: l) = c :: l.
Proof.
  intros Hp [d Hc]. destruct n as [|n]; [done|]. simpl.
  rewrite find_prefix_none; [done|]. eapply Forall_impl; [exact Hp|].
  intros [|a p] Ha; [done|]. apply bool_decide_eq_true in Ha. simpl.
  rewrite bool_decide_eq_false_2; [done|]. intros ->. congruence.
Qed.

Lemma TrimSpace_digits l : Forall is_digit l → TrimSpace l = l.
Proof.
  intros Hl. unfold TrimSpace, trim_right, trim_left.
  destruct l as [|c l]; [done|]. rewrite trim_prefixes_digit.
  2: { repeat constructor. } 2: { by inversion Hl. }
  destruct (rev (c :: l)) as [|c' l'] eqn:E; [by apply (f_equal length) in E; rewrite length_rev in E|].
  rewrite trim_prefixes_digit.
  - by rewrite <- E, rev_involutive.
  - repeat constructor.
  - rewrite List.Forall_forall in Hl. apply Hl. apply in_rev. rewrite E. by left.
Qed.

(** ** [bufio.Scanner] over lines, with a buffer of [max] bytes

    [data] is what the reader delivers, [rd_err] the error it ends with ([None]
    for a clean end of file).  The scanner gives up with [ErrTooLong] when its
    buffer is full and holds no newline; a final line without newline counts. *)

Definition dropCR (l : bytes) : bytes :=
  match rev l with
  | c :: l' => if decide (c = carriage_return) then rev l' else l
  | [] => l
  end.

Definition ErrTooLong : string := "bufio.Scanner: token too long".

(** [cur] is the current line so far, last byte first. *)
Fixpoint scan_lines (max : nat) (cur : bytes) (data : bytes) (rd_err : error)
    : list bytes * error :=
  match data with
  | [] => ((if decide (cur = []) then [] else [dropCR (rev cur)]), rd_err)
  | c :: data =>
      if decide (c = newline) then
        let '(ls, e) := scan_lines max [] data rd_err in (dropCR (rev cur) :: ls, e)
      else if decide (S (length cur) = max) then ([], Some ErrTooLong)
      else scan_lines max (c :: cur) data rd_err
  end.

Definition Scan (max : nat) (data : bytes) (rd_err : error) : list bytes * error :=
  scan_lines max [] data rd_err.

Lemma scan_lines_chars max cur w data e :
  newline ∉ w → (length cur + length w < max)%nat →
  scan_lines max cur (w ++ data) e = scan_lines max (rev w ++ cur) data e.
Proof.
  revert cur. induction w as [|c w IH]; intros cur Hw Hlen; [done|]. simpl in *.
  rewrite decide_False by set_solver. rewrite decide_False by lia.
  rewrite IH by (simpl; set_solver || lia). by rewrite <- app_assoc.
Qed.

(** One full line is one token. *)
Lemma Scan_line max w data e :
  newline ∉ w → (length w < max)%nat →
  Scan max (w ++ newline :: data) e =
  (let '(ls, e') := Scan max data e in (dropCR w :: ls, e')).
Proof.
  intros Hw Hlen. unfold Scan. rewrite scan_lines_chars by (simpl; done || lia). simpl.
  by rewrite app_nil_r, rev_involutive.
Qed.

Lemma Scan_nil max e : Scan max [] e = ([], e).
Proof. done. Qed.

(** Lines that fit come back as they were written. *)
Lemma Scan_lines max ws :
  Forall (λ w, newline ∉ w ∧ (length w < max)%nat) ws →
  Scan max (concat (map (λ w, w ++ [newline]) ws)) None = (map dropCR ws, None).
Proof.
  induction 1 as [|w ws [Hw Hlen] _ IH]; [done|].
  simpl. rewrite <- app_assoc. simpl. by rewrite Scan_line, IH.
Qed.

(** A line that fills the buffer stops the scan. *)
Lemma Scan_too_long max w data e :
  newline ∉ w → length w = max → (0 < max)%nat →
  Scan max (w ++ data) e = ([], Some ErrTooLong).
Proof.
  intros Hw Hlen Hmax. unfold Scan.
  destruct w as [|c w] using rev_ind; [simpl in Hlen; lia|].
  rewrite length_app in Hlen. simpl in Hlen. rewrite <- app_assoc.
  rewrite scan_lines_chars by (simpl; set_solver || lia). simpl.
  rewrite decide_False by set_solver. rewrite app_nil_r, length_rev.
  by rewrite decide_True by lia.
Qed.

Lemma dropCR_digits l : Forall is_digit l → dropCR l = l.
Proof.
  intros Hl. unfold dropCR. destruct (rev l) as [|c l'] eqn:E; [done|].
  rewrite decide_False; [done|]. intros ->.
  assert (is_digit carriage_return) as [d Hd]; [|done].
  rewrite List.Forall_forall in Hl. apply Hl, in_rev. rewrite E. by left.
Qed.
