(* ===== verification/GoPath.v ===== *)
(** * Paths: [filepath.Base] and [filepath.Join] on Unix

    The AFS server turns the path of a request into a file of its input or
    output directory with [filepath.Join(dir, filepath.Base(path))].  The
    lemmas say when that stays inside the directory and that distinct base
    names stay distinct. *)

From S2P Require Import Prelude GoLib.

Definition slash : ascii := "/"%char.

Fixpoint strip_slashes_rev (l : bytes) : bytes :=
  match l with
  | c :: l' => if decide (c = slash) then strip_slashes_rev l' else l
  | [] => []
  end.

(** [filepath.Base]. *)
Definition Base_bytes (l : bytes) : bytes :=
  match l with
  | [] => s2b "."
  | _ =>
      match List.last (split_bytes slash (rev (strip_slashes_rev (rev l)))) [] with
      | [] => [slash]
      | w => w
      end
  end.
Definition Base (path : string) : string := b2s (Base_bytes (s2b path)).

Definition dot : bytes := s2b ".".
Definition dotdot : bytes := s2b "..".

(** One element of [filepath.Clean]; the kept elements are in reverse. *)
Definition clean_step (rooted : bool) (acc : list bytes) (w : bytes) : list bytes :=
  if decide (w = [] ∨ w = dot) then acc
  else if decide (w = dotdot) then
    match acc with
    | [] => if rooted then [] else [dotdot]
    | u :: acc' => if decide (u = dotdot) then dotdot :: acc else acc'
    end
  else w :: acc.

Definition is_rooted (l : bytes) : bool :=
  match l with c :: _ => bool_decide (c = slash) | [] => false end.

Definition clean_elems (l : bytes) : list bytes :=
  rev (fold_left (clean_step (is_rooted l)) (split_bytes slash l) []).

Definition render (rooted : bool) (ws : list bytes) : bytes :=
  match ws, rooted with
  | [], true => [slash]
  | [], false => dot
  | _, true => slash :: join_bytes slash ws
  | _, false => join_bytes slash ws
  end.

Definition Clean_bytes (l : bytes) : bytes :=
  match l with [] => dot | _ => render (is_rooted l) (clean_elems l) end.

(** [filepath.Join(dir, name)]. *)
Definition PathJoin (dir name : string) : string :=
  match dir, name with
  | "", "" => ""
  | "", _ => b2s (Clean_bytes (s2b name))
  | _, "" => b2s (Clean_bytes (s2b dir))
  | _, _ => b2s (Clean_bytes (s2b dir ++ slash :: s2b name))
  end.

(** A base name that names a file of the directory it is joined to. *)
Definition safe_name (b : string) : Prop :=
  b ≠ "" ∧ b ≠ "." ∧ b ≠ ".." ∧ slash ∉ s2b b.

#[export] Instance safe_name_dec b : Decision (safe_name b).
Proof. unfold safe_name. apply _. Defined.

(** ** Joining a safe name *)

Lemma s2b_ne s t : s ≠ t → s2b s ≠ s2b t.
Proof. intros H E. by apply (inj s2b) in E. Qed.

Lemma split_bytes_snoc c l w :
  c ∉ w → split_bytes c (l ++ c :: w) = split_bytes c l ++ [w].
Proof.
  intros Hw. induction l as [|a l IH]; simpl.
  - rewrite decide_True by done. by rewrite split_bytes_none.
  - rewrite IH. case_decide; [done|]. pose proof (split_bytes_ne c l).
    by destruct (split_bytes c l).
Qed.

Lemma clean_step_safe rooted acc b :
  safe_name b → clean_step rooted acc (s2b b) = s2b b :: acc.
Proof.
  intros (H1 & H2 & H3 & _). unfold clean_step, dot, dotdot.
  rewrite decide_False, decide_False; [done|by apply s2b_ne|].
  intros [H|H]; [by apply (s2b_ne b "")|by apply (s2b_ne b ".")].
Qed.

(** What a join with a safe name puts in front of it. *)
Definition dir_prefix (dir : string) : string :=
  match dir with
  | "" => ""
  | _ => b2s (let l := s2b dir in
         match clean_elems l, is_rooted l with
         | [], true => [slash]
         | [], false => []
         | ws, true => slash :: join_bytes slash ws ++ [slash]
         | ws, false => join_bytes slash ws ++ [slash]
         end)
  end.

Lemma join_bytes_snoc c ws w :
  ws ≠ [] → join_bytes c (ws ++ [w]) = join_bytes c ws ++ c :: w.
Proof.
  induction ws as [|u ws IH]; intros Hne; [done|].
  destruct ws as [|u' ws]; [done|].
  change (join_bytes c ((u :: u' :: ws) ++ [w])) with (u ++ c :: join_bytes c ((u' :: ws) ++ [w])).
  rewrite IH by done. simpl. by rewrite <- app_assoc.
Qed.

Lemma is_rooted_app l l' : l ≠ [] → is_rooted (l ++ l') = is_rooted l.
Proof. by destruct l. Qed.

(** Joining a safe name appends it to a prefix that depends on the directory
    only. *)
Lemma PathJoin_safe dir b : safe_name b → PathJoin dir b = dir_prefix dir +:+ b.
Proof.
  intros Hb. pose proof Hb as (Hne & _ & _ & Hs). unfold PathJoin, dir_prefix.
  destruct b as [|c0 b0]; [done|]. remember (String c0 b0) as b eqn:Eb.
  apply (inj s2b). destruct dir as [|c d].
  - rewrite s2b_b2s, string_app_nil_l. unfold Clean_bytes, clean_elems.
    rewrite split_bytes_none by done. simpl. rewrite clean_step_safe by done. simpl.
    assert (is_rooted (s2b b) = false) as ->.
    { subst b. simpl in *. apply bool_decide_eq_false_2. set_solver. }
    by destruct (s2b b) eqn:E; [subst b|].
  - remember (String c d) as dir eqn:Ed.
    rewrite s2b_app, !s2b_b2s. assert (Hd : s2b dir ≠ []) by by subst dir.
    unfold Clean_bytes, clean_elems.
    destruct (s2b dir ++ slash :: s2b b) eqn:E; [by destruct (s2b dir)|]. rewrite <- E. clear E.
    rewrite is_rooted_app, split_bytes_snoc, fold_left_app by done. simpl.
    rewrite clean_step_safe by done. simpl.
    remember (rev (fold_left _ _ [])) as ws eqn:Ews. clear Ews.
    destruct ws as [|w ws]; [by destruct (is_rooted _)|].
    assert (Hj := join_bytes_snoc slash (w :: ws) (s2b b) ltac:(done)).
    destruct (is_rooted _); cbn [app render] in *; rewrite Hj; by rewrite ?app_comm_cons, <- app_assoc.
Qed.

Lemma PathJoin_safe_inj dir b b' :
  safe_name b → safe_name b' → PathJoin dir b = PathJoin dir b' → b = b'.
Proof. intros Hb Hb'. rewrite !PathJoin_safe by done. apply (inj _). Qed.

(** The temporary name of one file is another file's name only if the base
    names already are. *)
Lemma PathJoin_tmp_inj dir b b' :
  safe_name b → safe_name b' → PathJoin dir b +:+ ".tmp" = PathJoin dir b' → b +:+ ".tmp" = b'.
Proof. intros Hb Hb'. rewrite !PathJoin_safe, string_app_assoc by done. apply (inj _). Qed.

(** ** [Base] of a request path *)

Lemma Base_safe name : safe_name name → Base name = name.
Proof.
  intros (Hne & _ & _ & Hs). unfold Base, Base_bytes. apply (inj s2b). rewrite s2b_b2s.
  destruct (s2b name) as [|c l] eqn:E; [by destruct name|].
  destruct (rev (c :: l)) as [|c' l'] eqn:E'; [by apply (f_equal length) in E'; rewrite length_rev in E'|].
  simpl. assert (c' ≠ slash).
  { intros ->. apply Hs. apply list_elem_of_In, in_rev. rewrite E'. by left. }
  rewrite decide_False by done. rewrite <- E', rev_involutive, split_bytes_none by done. done.
Qed.

Lemma last_Forall {A} (P : A → Prop) l d : Forall P l → P d → P (List.last l d).
Proof. intros Hl Hd. induction Hl as [|x l Hx Hl IH]; [done|]. by destruct l. Qed.

(** The base name of any path is free of slashes, the root aside. *)
Lemma Base_no_slash name : Base name = "/" ∨ slash ∉ s2b (Base name).
Proof.
  unfold Base, Base_bytes. rewrite s2b_b2s.
  destruct (s2b name) as [|c l]; [right; by vm_compute; set_solver|].
  assert (Hl := last_Forall _ _ [] (split_bytes_free slash (rev (strip_slashes_rev (rev (c :: l)))))
                  ltac:(set_solver)).
  destruct (List.last _ _) eqn:E; [by left|by right].
Qed.

Lemma Base_ne name : Base name ≠ "".
Proof.
  unfold Base, Base_bytes. destruct (s2b name); [done|]. by destruct (List.last _ _).
Qed.

(** So it is safe unless it is one of three names. *)
Lemma Base_safe_or name :
  Base name = "/" ∨ Base name = "." ∨ Base name = ".." ∨ safe_name (Base name).
Proof.
  destruct (Base_no_slash name) as [?|Hs]; [by left|].
  destruct (decide (Base name = ".")); [by right; left|].
  destruct (decide (Base name = "..")); [by right; right; left|].
  right; right; right. repeat split; try done. apply Base_ne.
Qed.

Lemma safe_name_tmp b : safe_name b → safe_name (b +:+ ".tmp").
Proof.
  intros (H1 & H2 & H3 & H4). split_and!.
  - by destruct b.
  - intros H. apply (f_equal s2b), (f_equal length) in H. rewrite s2b_app, length_app in H. simpl in H. lia.
  - intros H. apply (f_equal s2b), (f_equal length) in H. rewrite s2b_app, length_app in H. simpl in H. lia.
  - rewrite s2b_app. intros [?|Ht]%elem_of_app; [done|]. by vm_compute in Ht; set_solver.
Qed.

(** ** Cleaning does not lengthen a path *)

(** The length of the elements, each with a separator. *)
Definition weight (ws : list bytes) : nat := length (concat ws) + length ws.

Lemma weight_cons w ws : weight (w :: ws) = S (length w) + weight ws.
Proof. unfold weight. simpl. rewrite length_app. lia. Qed.

Lemma weight_app ws us : weight (ws ++ us) = weight ws + weight us.
Proof. unfold weight. rewrite concat_app, !length_app. lia. Qed.

Lemma weight_rev ws : weight (rev ws) = weight ws.
Proof. induction ws as [|w ws IH]; [done|]. cbn [rev]. rewrite weight_app, IH, !weight_cons. unfold weight. simpl. lia. Qed.

Lemma join_bytes_weight c ws : ws ≠ [] → S (length (join_bytes c ws)) = weight ws.
Proof.
  induction ws as [|w ws IH]; intros Hne; [done|]. rewrite weight_cons.
  destruct ws as [|w' ws]; [unfold weight; simpl; lia|].
  change (join_bytes c (w :: w' :: ws)) with (w ++ c :: join_bytes c (w' :: ws)).
  rewrite <- IH by done. rewrite length_app. cbn [length]. lia.
Qed.

Lemma clean_step_weight rooted acc w : weight (clean_step rooted acc w) ≤ weight acc + S (length w).
Proof.
  unfold clean_step. repeat case_decide; try lia.
  - destruct acc as [|u acc]; [destruct rooted|case_decide]; subst; rewrite ?weight_cons; simpl; unfold weight; simpl; lia.
  - rewrite weight_cons. lia.
Qed.

Lemma clean_fold_weight rooted ws acc : weight (fold_left (clean_step rooted) ws acc) ≤ weight acc + weight ws.
Proof.
  revert acc. induction ws as [|w ws IH]; intros acc; cbn [fold_left]; [unfold weight; simpl; lia|].
  etrans; [apply IH|]. pose proof (clean_step_weight rooted acc w). rewrite weight_cons. lia.
Qed.

Lemma Clean_bytes_length l : l ≠ [] → length (Clean_bytes l) ≤ length l.
Proof.
  intros Hne. destruct l as [|a l]; [done|]. unfold Clean_bytes, render, clean_elems.
  pose proof (join_bytes_weight slash _ (split_bytes_ne slash (a :: l))) as Hw. rewrite join_split_bytes in Hw.
  set (r := is_rooted (a :: l)) in *. set (ws := rev _).
  assert (Hws : weight ws ≤ if r then length (a :: l) else S (length (a :: l))).
  { unfold ws. rewrite weight_rev. unfold r, is_rooted in *. cbn [split_bytes] in *. case_bool_decide as Ha.
    - rewrite decide_True in Hw |- * by done. cbn [fold_left]. unfold clean_step at 2. rewrite decide_True by auto.
      etrans; [apply clean_fold_weight|]. rewrite weight_cons in Hw. unfold weight at 1. simpl in *. lia.
    - etrans; [apply clean_fold_weight|]. cbn [split_bytes]. unfold weight at 1. simpl in *. lia. }
  destruct ws as [|w ws']; [destruct r; simpl; lia|].
  pose proof (join_bytes_weight slash (w :: ws') ltac:(done)) as Hj. rewrite <- Hj in Hws.
  destruct r; cbn [length] in *; lia.
Qed.
