(* ===== verification/Disk.v ===== *)
(** * Files: what the sources use of package [os]

    A disk maps path names to directories or inodes, and inodes to contents, so
    that a file descriptor keeps the file it was opened on when the name is
    renamed over or removed, as on Unix.  Every call may fail: [OsFaults] is the
    environment's choice of failures (permissions, a full disk, a missing
    parent directory), a parameter of every operation; [no_faults] never fails.
    [read_file] is the abstract view, a map from path names to contents, and
    the [read_file_*] lemmas state each operation over it. *)

From S2P Require Import Prelude GoLib GoPath.

Inductive dirent :=
  | DFile (ino : N)
  | DDir.

Record Disk := mkDisk {
  names : gmap string dirent;
  inodes : gmap N bytes;
  next_ino : N;
}.

Record OsFaults := mkFaults {
  stat_fault : string → error;
  open_fault : string → error;
  create_fault : string → error;
  write_fault : string → nat → error;             (* path, offset *)
  read_fault : string → option (nat * string);    (* after how many reads *)
  rename_fault : string → error;
  remove_fault : string → error;
  readdir_fault : string → error;
  mkdir_fault : string → error;
}.

Definition no_faults : OsFaults := {|
  stat_fault _ := None; open_fault _ := None; create_fault _ := None;
  write_fault _ _ := None; read_fault _ := None; rename_fault _ := None;
  remove_fault _ := None; readdir_fault _ := None; mkdir_fault _ := None;
|}.

#[export] Instance dirent_eq_dec : EqDecision dirent.
Proof. solve_decision. Defined.

Definition empty_disk : Disk := mkDisk ∅ ∅ 0.

(** An open file: the inode, the offset, and the name it was opened by. *)
Record Fd := mkFd { fd_ino : N; fd_off : nat; fd_path : string; fd_writable : bool }.

Inductive stat_result := StatOk | StatNotExist | StatErr (e : string).
Inductive remove_result := RemoveOk | RemoveNotExist | RemoveErr (e : string).
Inductive opened := OpenFile (fd : Fd) | OpenDir.

(** [dir] as a key of [names]. *)
Definition dir_key (dir : string) : string := PathJoin dir "".

(** The name of a file directly inside [dir], from its full path. *)
Definition child_name (dir path : string) : option string :=
  let pfx := s2b (dir_prefix dir) in
  let p := s2b path in
  if has_prefix pfx p then
    let b := drop (length pfx) p in
    if decide (b = [] ∨ slash ∈ b) then None else Some (b2s b)
  else None.

Definition children (d : Disk) (dir : string) : list (string * dirent) :=
  merge_sort (λ x y, String.le x.1 y.1)
    (omap (λ '(p, e), b ← child_name dir p; Some (b, e)) (map_to_list (names d))).

Definition set_content (d : Disk) (i : N) (data : bytes) : Disk :=
  mkDisk (names d) (<[i := data]> (inodes d)) (next_ino d).
Definition set_names (d : Disk) (ns : gmap string dirent) : Disk :=
  mkDisk ns (inodes d) (next_ino d).
Definition new_file (d : Disk) (path : string) : Disk :=
  mkDisk (<[path := DFile (next_ino d)]> (names d)) (<[next_ino d := []]> (inodes d))
    (next_ino d + 1)%N.

Definition content (d : Disk) (i : N) : bytes := default [] (inodes d !! i).

(** Overwriting [data] at [off]: a gap is filled with zero bytes. *)
Definition write_at (old : bytes) (off : nat) (data : bytes) : bytes :=
  take off old ++ replicate (off - length old) (Ascii.ascii_of_N 0) ++ data ++
  drop (off + length data) old.

Section Os.
  Context (flt : OsFaults).

Definition os_Stat (d : Disk) (path : string) : stat_result :=
  match stat_fault flt path with
  | Some e => StatErr e
  | None => match names d !! path with Some _ => StatOk | None => StatNotExist end
  end.

(** [os.Open] (a directory can be opened, and then not read). *)
Definition os_Open (d : Disk) (path : string) : result opened :=
  match open_fault flt path with
  | Some e => Err e
  | None =>
      match names d !! path with
      | Some (DFile i) => Ok (OpenFile (mkFd i 0 path false))
      | Some DDir => Ok OpenDir
      | None => Err ("open " +:+ path +:+ ": no such file or directory")
      end
  end.

(** [os.Create]: truncate or create. *)
Definition os_Create (d : Disk) (path : string) : result Fd * Disk :=
  match create_fault flt path with
  | Some e => (Err e, d)
  | None =>
      match names d !! path with
      | Some (DFile i) => (Ok (mkFd i 0 path true), set_content d i [])
      | Some DDir => (Err ("open " +:+ path +:+ ": is a directory"), d)
      | None => (Ok (mkFd (next_ino d) 0 path true), new_file d path)
      end
  end.

(** [f.Write]: at the descriptor's offset, which moves. *)
Definition fd_Write (d : Disk) (fd : Fd) (data : bytes) : result Fd * Disk :=
  match write_fault flt (fd_path fd) (fd_off fd) with
  | Some e => (Err e, d)
  | None =>
      if fd_writable fd then
        (Ok (mkFd (fd_ino fd) (fd_off fd + length data) (fd_path fd) (fd_writable fd)),
         set_content d (fd_ino fd) (write_at (content d (fd_ino fd)) (fd_off fd) data))
      else (Err ("write " +:+ fd_path fd +:+ ": bad file descriptor"), d)
  end.

Definition os_Rename (d : Disk) (from to : string) : error * Disk :=
  match rename_fault flt from with
  | Some e => (Some e, d)
  | None =>
      match names d !! from, names d !! to with
      | None, _ => (Some ("rename " +:+ from +:+ " " +:+ to +:+ ": no such file or directory"), d)
      | Some DDir, _ => (Some "rename: source is a directory", d)
      | Some (DFile _), Some DDir =>
          (Some ("rename " +:+ from +:+ " " +:+ to +:+ ": file exists"), d)
      | Some e, _ => (None, set_names d (<[to := e]> (delete from (names d))))
      end
  end.

Definition os_Remove (d : Disk) (path : string) : remove_result * Disk :=
  match remove_fault flt path with
  | Some e => (RemoveErr e, d)
  | None =>
      match names d !! path with
      | None => (RemoveNotExist, d)
      | Some (DFile _) => (RemoveOk, set_names d (delete path (names d)))
      | Some DDir =>
          if decide (children d path = []) then (RemoveOk, set_names d (delete path (names d)))
          else (RemoveErr ("remove " +:+ path +:+ ": directory not empty"), d)
      end
  end.

(** [os.WriteFile(path, []byte{}, 0644)]. *)
Definition os_WriteFile_empty (d : Disk) (path : string) : error * Disk :=
  match os_Create d path with
  | (Err e, d) => (Some e, d)
  | (Ok _, d) => (None, d)
  end.

Inductive readdir_result := DirOk (l : list (string * dirent)) | DirNotExist | DirErr (e : string).

Definition os_ReadDir (d : Disk) (dir : string) : readdir_result :=
  match readdir_fault flt dir with
  | Some e => DirErr e
  | None =>
      match names d !! dir_key dir with
      | Some DDir => DirOk (children d dir)
      | Some (DFile _) => DirErr "not a directory"
      | None => DirNotExist
      end
  end.

Definition os_MkdirAll (d : Disk) (dir : string) : error * Disk :=
  match mkdir_fault flt dir with
  | Some e => (Some e, d)
  | None =>
      match names d !! dir_key dir with
      | Some (DFile _) => (Some ("mkdir " +:+ dir +:+ ": not a directory"), d)
      | _ => (None, set_names d (<[dir_key dir := DDir]> (names d)))
      end
  end.

End Os.

(** ** Reading a file in chunks

    The loop [for { n, err := f.Read(buf); ... }] on a regular file: full
    buffers, a last shorter one, then [io.EOF]. *)

Fixpoint chunks_fuel (fuel size : nat) (l : bytes) : list bytes :=
  match fuel, l with
  | S fuel, _ :: _ => take size l :: chunks_fuel fuel size (drop size l)
  | _, _ => []
  end.
Definition chunks (size : nat) (l : bytes) : list bytes := chunks_fuel (length l) size l.

(** The chunks a reader gets, and the error other than [io.EOF] it ends with. *)
Definition read_chunks (flt : OsFaults) (size : nat) (d : Disk) (o : opened) : list bytes * error :=
  match o with
  | OpenDir => ([], Some "read: is a directory")
  | OpenFile fd =>
      let cs := chunks size (drop (fd_off fd) (content d (fd_ino fd))) in
      match read_fault flt (fd_path fd) with
      | Some (k, e) => (take k cs, Some e)
      | None => (cs, None)
      end
  end.

(** ** The abstract view: contents by name *)

Definition read_file (d : Disk) (path : string) : option bytes :=
  match names d !! path with
  | Some (DFile i) => Some (content d i)
  | _ => None
  end.

(** No two names share an inode, and inode numbers are not reused. *)
Record disk_wf (d : Disk) : Prop := {
  wf_unique p q i : names d !! p = Some (DFile i) → names d !! q = Some (DFile i) → p = q;
  wf_alloc p i : names d !! p = Some (DFile i) → (i < next_ino d)%N;
}.

(** [os.OpenFile(path, os.O_RDWR|os.O_CREATE, 0644)]: no truncation. *)
Definition os_OpenRW (flt : OsFaults) (d : Disk) (path : string) : result Fd * Disk :=
  match open_fault flt path with
  | Some e => (Err e, d)
  | None =>
      match names d !! path with
      | Some (DFile i) => (Ok (mkFd i 0 path true), d)
      | Some DDir => (Err ("open " +:+ path +:+ ": is a directory"), d)
      | None => (Ok (mkFd (next_ino d) 0 path true), new_file d path)
      end
  end.

(** ** Chunks *)

Lemma chunks_fuel_concat fuel size l :
  0 < size → length l ≤ fuel → concat (chunks_fuel fuel size l) = l.
Proof.
  intros Hs. revert l. induction fuel as [|fuel IH]; intros [|c l] Hl; simpl in *; try done; [lia|].
  destruct size as [|size]; [lia|]. rewrite IH by (rewrite length_drop; simpl; lia).
  by rewrite take_drop.
Qed.
Lemma chunks_concat size l : 0 < size → concat (chunks size l) = l.
Proof. intros. by apply chunks_fuel_concat. Qed.

Lemma chunks_bound size l :
  0 < size → Forall (λ c, 0 < length c ≤ size) (chunks size l).
Proof.
  intros Hs. unfold chunks. generalize (length l) as fuel. intros fuel. revert l.
  induction fuel as [|fuel IH]; intros [|c l]; simpl; try constructor; [|done].
  rewrite length_take. destruct size; [lia|]. simpl. lia.
Qed.

Lemma chunks_nil size l : 0 < size → chunks size l = [] ↔ l = [].
Proof.
  intros Hs. split; [|by intros ->]. intros H. rewrite <- (chunks_concat size l) by done. by rewrite H.
Qed.

Lemma chunks_fuel_enough fuel size l : length l ≤ fuel → 0 < size → chunks_fuel fuel size l = chunks size l.
Proof.
  intros Hl Hs. unfold chunks. revert l Hl. induction fuel as [fuel IH] using lt_wf_ind. intros [|c l] Hl.
  { by destruct fuel. }
  destruct fuel as [|fuel]; simpl in Hl; [lia|]. cbn [chunks_fuel length]. f_equal.
  rewrite (IH fuel), (IH (length l)); try done; rewrite ?length_drop; simpl; lia.
Qed.

Lemma chunks_cons size l : 0 < size → l ≠ [] → chunks size l = take size l :: chunks size (drop size l).
Proof.
  intros Hs Hl. unfold chunks at 1. destruct l as [|c l]; [done|]. cbn [chunks_fuel length]. f_equal.
  apply chunks_fuel_enough; [|done]. rewrite length_drop. simpl. lia.
Qed.

(** ** Writing at the end *)

Lemma write_at_end old data : write_at old (length old) data = old ++ data.
Proof.
  unfold write_at. rewrite Nat.sub_diag, take_ge, drop_ge by lia. simpl. by rewrite app_nil_r.
Qed.

(** [fd] writes the file named [p], has written [data] to it, and is at its end. *)
Definition writing (d : Disk) (fd : Fd) (p : string) (data : bytes) : Prop :=
  names d !! p = Some (DFile (fd_ino fd)) ∧ fd_path fd = p ∧ fd_writable fd = true ∧
  fd_off fd = length data ∧ content d (fd_ino fd) = data.

Lemma content_set d i j data :
  content (set_content d i data) j = if decide (i = j) then data else content d j.
Proof. unfold content, set_content. simpl. rewrite lookup_insert. by case_decide. Qed.

Lemma disk_wf_set_content d i data : disk_wf d → disk_wf (set_content d i data).
Proof. intros [H1 H2]. by split. Qed.

Lemma read_file_set_content d p i data q :
  disk_wf d → names d !! p = Some (DFile i) →
  read_file (set_content d i data) q = if decide (p = q) then Some data else read_file d q.
Proof.
  intros [Hu _] Hp. unfold read_file. simpl. case_decide as Hpq.
  - subst q. rewrite Hp, content_set. by rewrite decide_True.
  - destruct (names d !! q) as [[j|]|] eqn:Hq; [|done..].
    rewrite content_set, decide_False; [done|]. intros ->. by apply Hpq, (Hu p q j).
Qed.

Lemma disk_wf_new_file d p : disk_wf d → disk_wf (new_file d p).
Proof.
  intros [Hu Ha]. split; simpl; intros *; rewrite !lookup_insert; repeat case_decide;
    naive_solver eauto with lia.
Qed.

Lemma read_file_new_file d p q :
  disk_wf d → read_file (new_file d p) q = if decide (p = q) then Some [] else read_file d q.
Proof.
  intros [_ Ha]. unfold read_file, content. simpl. rewrite lookup_insert. case_decide.
  - by rewrite lookup_insert_eq.
  - destruct (names d !! q) as [[j|]|] eqn:Hq; [|done..].
    rewrite lookup_insert_ne; [done|]. apply Ha in Hq. lia.
Qed.

Lemma os_Create_spec flt d p fd d' :
  disk_wf d → os_Create flt d p = (Ok fd, d') →
  disk_wf d' ∧ writing d' fd p [] ∧
  (∀ q, read_file d' q = if decide (p = q) then Some [] else read_file d q).
Proof.
  intros Hwf. unfold os_Create. destruct (create_fault flt p); [done|].
  destruct (names d !! p) as [[i|]|] eqn:Hp; intros [= <- <-].
  - split; [by apply disk_wf_set_content|]. split.
    + split_and!; try done. simpl. by rewrite content_set, decide_True.
    + intros q. by apply read_file_set_content.
  - split; [by apply disk_wf_new_file|]. split.
    + split_and!; try done; simpl; unfold content; simpl; by rewrite lookup_insert_eq.
    + intros q. by apply read_file_new_file.
Qed.

Lemma os_Create_err flt d p e d' : os_Create flt d p = (Err e, d') → d' = d.
Proof. unfold os_Create. repeat case_match; naive_solver. Qed.

Lemma fd_Write_spec flt d fd p data x fd' d' :
  disk_wf d → writing d fd p data → fd_Write flt d fd x = (Ok fd', d') →
  disk_wf d' ∧ writing d' fd' p (data ++ x) ∧ names d' = names d ∧
  (∀ q, read_file d' q = if decide (p = q) then Some (data ++ x) else read_file d q).
Proof.
  intros Hwf (Hn & Hp & Hw & Ho & Hc). unfold fd_Write.
  destruct (write_fault _ _ _); [done|]. rewrite Hw. intros [= <- <-].
  rewrite Ho, Hc, write_at_end. split; [by apply disk_wf_set_content|]. split_and!; try done.
  - split_and!; try done; simpl.
    + rewrite length_app. lia.
    + by rewrite content_set, decide_True.
  - intros q. by apply read_file_set_content.
Qed.

Lemma fd_Write_err flt d fd x e d' : fd_Write flt d fd x = (Err e, d') → d' = d.
Proof. unfold fd_Write. repeat case_match; naive_solver. Qed.

Lemma os_Rename_spec flt d p q e d' :
  disk_wf d → p ≠ q → os_Rename flt d p q = (e, d') →
  disk_wf d' ∧
  match e with
  | Some _ => d' = d
  | None => is_Some (read_file d p) ∧ ∀ r, read_file d' r =
      if decide (q = r) then read_file d p else if decide (p = r) then None else read_file d r
  end.
Proof.
  intros [Hu Ha] Hpq. unfold os_Rename. destruct (rename_fault flt p); [intros [= <- <-]; by split|].
  destruct (names d !! p) as [[i|]|] eqn:Hp; [|intros [= <- <-]; by split..].
  assert (Hok : (e, d') = (None, set_names d (<[q := DFile i]> (delete p (names d)))) →
    disk_wf d' ∧ match e with
      | Some _ => d' = d
      | None => is_Some (read_file d p) ∧ ∀ r, read_file d' r =
        if decide (q = r) then read_file d p else if decide (p = r) then None else read_file d r
      end).
  { intros [= -> ->]. split; [|split].
    - split; simpl; intros *; rewrite ?lookup_insert, ?lookup_delete; repeat case_decide; naive_solver.
    - unfold read_file. rewrite Hp. done.
    - intros r. unfold read_file. simpl. rewrite lookup_insert, lookup_delete, Hp.
      repeat case_decide; done. }
  destruct (names d !! q) as [[j|]|]; intros [= <- <-]; auto; by split.
Qed.

Lemma os_Remove_spec flt d p r d' :
  disk_wf d → os_Remove flt d p = (r, d') →
  disk_wf d' ∧
  match r with
  | RemoveOk => ∀ q, read_file d' q = if decide (p = q) then None else read_file d q
  | RemoveNotExist => d' = d ∧ read_file d p = None
  | RemoveErr _ => d' = d
  end.
Proof.
  intros [Hu Ha]. unfold os_Remove. destruct (remove_fault flt p); [intros [= <- <-]; by split|].
  assert (Hdel : disk_wf (set_names d (delete p (names d))) ∧ ∀ q,
    read_file (set_names d (delete p (names d))) q = if decide (p = q) then None else read_file d q).
  { split.
    - split; simpl; intros *; rewrite ?lookup_delete; repeat case_decide; naive_solver.
    - intros q. unfold read_file. simpl. rewrite lookup_delete. by case_decide. }
  destruct (names d !! p) as [[i|]|] eqn:Hp.
  - intros [= <- <-]. done.
  - case_decide; intros [= <- <-]; [done|by split].
  - intros [= <- <-]. split; [by split|]. unfold read_file. by rewrite Hp.
Qed.

Lemma read_file_names d d' : names d' = names d → inodes d' = inodes d → ∀ q, read_file d' q = read_file d q.
Proof. intros H1 H2 q. unfold read_file, content. by rewrite H1, H2. Qed.

(** The chunks of an open file are its content. *)
Lemma read_chunks_spec flt size d p i :
  0 < size → names d !! p = Some (DFile i) → read_fault flt p = None →
  ∃ cs, read_chunks flt size d (OpenFile (mkFd i 0 p false)) = (cs, None) ∧
    cs = chunks size (content d i) ∧ concat cs = content d i.
Proof.
  intros Hs Hn Hf. unfold read_chunks. simpl. rewrite Hf.
  eexists. split; [done|]. split; [done|]. by apply chunks_concat.
Qed.

(** ** Changes confined to one name *)

Definition same_except (p : string) (d d' : Disk) : Prop :=
  ∀ q, q ≠ p → read_file d' q = read_file d q ∧ names d' !! q = names d !! q.

Lemma same_except_refl p d : same_except p d d.
Proof. done. Qed.
Lemma same_except_trans p d1 d2 d3 :
  same_except p d1 d2 → same_except p d2 d3 → same_except p d1 d3.
Proof. intros H1 H2 q Hq. destruct (H1 q Hq), (H2 q Hq). split; congruence. Qed.

Lemma os_Create_same flt d p r d' :
  disk_wf d → os_Create flt d p = (r, d') → same_except p d d'.
Proof.
  intros Hwf E q Hq. destruct r as [fd|e].
  - destruct (os_Create_spec _ _ _ _ _ Hwf E) as (_ & _ & Hr). rewrite Hr, decide_False by done.
    split; [done|]. unfold os_Create in E. repeat case_match; simplify_eq/=; [done|].
    by rewrite lookup_insert_ne.
  - by apply os_Create_err in E as ->.
Qed.

Lemma fd_Write_same flt d fd p data x r d' :
  disk_wf d → writing d fd p data → fd_Write flt d fd x = (r, d') → same_except p d d'.
Proof.
  intros Hwf Hw E q Hq. destruct r as [fd'|e].
  - destruct (fd_Write_spec _ _ _ _ _ _ _ _ Hwf Hw E) as (_ & _ & -> & Hr).
    by rewrite Hr, decide_False.
  - by apply fd_Write_err in E as ->.
Qed.

Lemma os_Remove_same flt d p r d' :
  disk_wf d → os_Remove flt d p = (r, d') → same_except p d d'.
Proof.
  intros Hwf E q Hq. destruct (os_Remove_spec _ _ _ _ _ Hwf E) as [_ Hr].
  assert (Hn : names d' !! q = names d !! q).
  { unfold os_Remove in E. repeat case_match; simplify_eq/=; try done; by rewrite lookup_delete_ne. }
  split; [|done]. destruct r; [|by destruct Hr as [-> _]|by subst].
  by rewrite Hr, decide_False.
Qed.

(** Without faults, creating a file fails only on a directory, and a rename
    only onto one. *)
Lemma os_Create_ok d p :
  names d !! p ≠ Some DDir → ∃ fd d', os_Create no_faults d p = (Ok fd, d').
Proof. intros Hp. unfold os_Create. simpl. destruct (names d !! p) as [[i|]|]; eauto; done. Qed.

Lemma fd_Write_ok d fd x : fd_writable fd = true → ∃ fd' d', fd_Write no_faults d fd x = (Ok fd', d').
Proof. intros Hw. unfold fd_Write. simpl. rewrite Hw. eauto. Qed.

Lemma os_Rename_ok d p q i :
  names d !! p = Some (DFile i) → names d !! q ≠ Some DDir → (os_Rename no_faults d p q).1 = None.
Proof. intros Hp Hq. unfold os_Rename. simpl. rewrite Hp. by destruct (names d !! q) as [[]|]. Qed.

Lemma disk_wf_empty : disk_wf empty_disk.
Proof. split; intros *; simpl; by rewrite ?lookup_empty. Qed.

Lemma os_MkdirAll_spec flt d dir e d' :
  disk_wf d → os_MkdirAll flt d dir = (e, d') →
  disk_wf d' ∧ ∀ q, read_file d' q = read_file d q.
Proof.
  intros [Hu Ha]. unfold os_MkdirAll. destruct (mkdir_fault flt dir); [by intros [= <- <-]|].
  destruct (names d !! dir_key dir) as [[i|]|] eqn:Hd; intros [= <- <-]; [done|..].
  all: split; [split; simpl; intros *; rewrite ?lookup_insert; repeat case_decide; naive_solver|].
  all: intros q; unfold read_file; simpl; rewrite lookup_insert; case_decide; subst; by rewrite ?Hd.
Qed.

(** ** No operation of the handlers creates a directory *)

Definition dirs_kept (d d' : Disk) : Prop := ∀ q, names d' !! q = Some DDir → names d !! q = Some DDir.

#[export] Instance dirs_kept_preorder : PreOrder dirs_kept.
Proof. split; unfold dirs_kept; naive_solver. Qed.

Lemma os_Create_dirs flt d p : dirs_kept d (os_Create flt d p).2.
Proof.
  intros q. unfold os_Create. repeat case_match; simpl; try done.
  rewrite lookup_insert. by case_decide.
Qed.
Lemma fd_Write_dirs flt d fd x : dirs_kept d (fd_Write flt d fd x).2.
Proof. intros q. unfold fd_Write. by repeat case_match. Qed.
Lemma os_Rename_dirs flt d p p' : dirs_kept d (os_Rename flt d p p').2.
Proof.
  intros q. unfold os_Rename.
  repeat case_match; simpl; try done; rewrite lookup_insert, lookup_delete; by repeat case_decide.
Qed.
Lemma os_Remove_dirs flt d p : dirs_kept d (os_Remove flt d p).2.
Proof.
  intros q. unfold os_Remove. repeat case_match; simpl; try done;
    rewrite lookup_delete; by repeat case_decide.
Qed.
#[export] Hint Resolve os_Create_dirs fd_Write_dirs os_Rename_dirs os_Remove_dirs : go.

(** ** Changes below a directory

    The names that may change are those that begin with the directory and a
    slash, and no directory appears. *)

Definition below (dir q : string) : Prop := ∃ p, q = dir +:+ "/" +:+ p.

Record kept_beside (dir : string) (d d' : Disk) : Prop := {
  kb_dirs : dirs_kept d d';
  kb_names q : ¬ below dir q → names d' !! q = names d !! q;
}.

#[export] Instance kept_beside_preorder dir : PreOrder (kept_beside dir).
Proof.
  split; [done|]. intros d1 d2 d3 [A1 A2] [B1 B2]. split; [by etrans|].
  intros q Hq. by rewrite B2, A2.
Qed.

Lemma kept_beside_names dir d d' : names d' = names d → kept_beside dir d d'.
Proof. intros E. split; [intros q|intros q _]; by rewrite E. Qed.

Lemma below_tmp dir q : below dir q → below dir (q +:+ ".tmp").
Proof. intros [p ->]. exists (p +:+ ".tmp"). by rewrite !string_app_assoc. Qed.

Lemma os_Create_kept flt d dir p : below dir p → kept_beside dir d (os_Create flt d p).2.
Proof.
  intros Hp. split; [apply os_Create_dirs|]. intros q Hq. assert (q ≠ p) by (by intros ->).
  unfold os_Create. repeat case_match; simpl; try done. by rewrite lookup_insert_ne.
Qed.
Lemma fd_Write_kept flt d dir fd x : kept_beside dir d (fd_Write flt d fd x).2.
Proof. split; [apply fd_Write_dirs|]. intros q _. unfold fd_Write. by repeat case_match. Qed.
Lemma os_Rename_kept flt d dir p p' : below dir p → below dir p' → kept_beside dir d (os_Rename flt d p p').2.
Proof.
  intros Hp Hp'. split; [apply os_Rename_dirs|]. intros q Hq. assert (q ≠ p ∧ q ≠ p') as [H1 H2] by (split; by intros ->).
  unfold os_Rename. repeat case_match; simpl; try done; by rewrite lookup_insert_ne, lookup_delete_ne.
Qed.
Lemma os_Remove_kept flt d dir p : below dir p → kept_beside dir d (os_Remove flt d p).2.
Proof.
  intros Hp. split; [apply os_Remove_dirs|]. intros q Hq. assert (q ≠ p) by (by intros ->).
  unfold os_Remove. repeat case_match; simpl; try done; by rewrite lookup_delete_ne.
Qed.
(** A cache directory: nothing but files below it, and it can be created. *)
Record cache_disk (dir : string) (d : Disk) : Prop := {
  cd_wf : disk_wf d;
  cd_key i : names d !! dir_key dir ≠ Some (DFile i);
  cd_files q : below dir q → names d !! q ≠ Some DDir;
}.

Lemma dir_key_not_below dir : ¬ below dir (dir_key dir).
Proof.
  intros [p E]. apply (f_equal (λ s, length (s2b s))) in E. rewrite !s2b_app, !length_app in E.
  unfold dir_key, PathJoin in E. destruct dir as [|c dir]; [done|]. rewrite s2b_b2s in E.
  pose proof (Clean_bytes_length (s2b (String c dir)) ltac:(done)). simpl in *. lia.
Qed.

Lemma cache_disk_mkdir dir d :
  cache_disk dir d → ∃ d1, os_MkdirAll no_faults d dir = (None, d1) ∧ cache_disk dir d1.
Proof.
  intros [Hwf Hk Hf]. destruct (os_MkdirAll no_faults d dir) as [e d1] eqn:E.
  pose proof (os_MkdirAll_spec _ _ _ _ _ Hwf E) as [Hwf1 _]. unfold os_MkdirAll in E. simpl in E.
  assert (E' : e = None ∧ names d1 = <[dir_key dir := DDir]> (names d)).
  { specialize (Hk). destruct (names d !! dir_key dir) as [[i|]|] eqn:Hn; [by destruct (Hk i)|by simplify_eq..]. }
  destruct E' as [-> En]. exists d1. split; [done|]. split; [done|..].
  - intros i. by rewrite En, lookup_insert_eq.
  - intros q Hq. rewrite En, lookup_insert_ne; [by apply Hf|]. intros <-. by apply (dir_key_not_below dir).
Qed.

Lemma cache_disk_beside dir d d' : cache_disk dir d → disk_wf d' → kept_beside dir d d' → cache_disk dir d'.
Proof.
  intros [Hwf Hk Hf] Hwf' [Hd Hn]. split; [done|..].
  - intros i. rewrite Hn by apply dir_key_not_below. apply Hk.
  - intros q Hq Hdir. by apply (Hf q Hq), Hd.
Qed.

#[export] Hint Resolve below_tmp os_Create_kept fd_Write_kept os_Rename_kept os_Remove_kept : go.

(** ** Directory listings *)

Lemma has_prefix_spec p l : has_prefix p l = true ↔ ∃ k, l = p ++ k.
Proof.
  revert l. induction p as [|a p IH]; intros l; simpl; [split; [by eexists|done]|].
  destruct l as [|b l]; [split; [done|by intros [k ?]]|].
  rewrite andb_true_iff, bool_decide_eq_true, IH. split.
  - intros [<- [k ->]]. by exists k.
  - intros [k [= -> ->]]. split; [done|by exists k].
Qed.

Lemma child_name_spec dir path b :
  child_name dir path = Some b ↔ path = dir_prefix dir +:+ b ∧ b ≠ "" ∧ slash ∉ s2b b.
Proof.
  unfold child_name. destruct (has_prefix _ _) eqn:E.
  - apply has_prefix_spec in E as [k Hk]. rewrite Hk, drop_app_length.
    assert (Hp : path = dir_prefix dir +:+ b2s k).
    { apply (inj s2b). by rewrite s2b_app, s2b_b2s. }
    case_decide as Hd; split.
    + done.
    + intros (Hb & Hne & Hs). rewrite Hp in Hb. apply (inj _) in Hb. subst b.
      destruct Hd as [->|Hd]; [done|]. by rewrite s2b_b2s in Hs.
    + intros [= <-]. split; [done|]. rewrite s2b_b2s.
      split; [|by intros ?; apply Hd; right]. intros H. apply Hd. left. by rewrite <- (s2b_b2s k), H.
    + intros (Hb & _ & _). rewrite Hp in Hb. by apply (inj _) in Hb as <-.
  - split; [done|]. intros (-> & _). exfalso. apply not_true_iff_false in E. apply E.
    apply has_prefix_spec. rewrite s2b_app. by eexists.
Qed.

Lemma children_spec d dir b e :
  (b, e) ∈ children d dir ↔ names d !! (dir_prefix dir +:+ b) = Some e ∧ b ≠ "" ∧ slash ∉ s2b b.
Proof.
  unfold children. rewrite merge_sort_Permutation, list_elem_of_omap. split.
  - intros ([p e'] & Hin & Hb). apply elem_of_map_to_list in Hin.
    destruct (child_name dir p) as [b'|] eqn:Hc; [|done]. injection Hb as -> ->.
    apply child_name_spec in Hc as (-> & ? & ?). done.
  - intros (Hn & Hb). exists (dir_prefix dir +:+ b, e). split; [by apply elem_of_map_to_list|].
    assert (child_name dir (dir_prefix dir +:+ b) = Some b) as ->; [|done]. by apply child_name_spec.
Qed.

Lemma children_NoDup d dir : NoDup (children d dir).*1.
Proof.
  unfold children. rewrite merge_sort_Permutation.
  assert (Hl : ∀ l : list (string * dirent), NoDup l.*1 →
    NoDup (omap (λ '(p, e), b ← child_name dir p; Some (b, e)) l).*1 ∧
    ∀ b, b ∈ (omap (λ '(p, e), b ← child_name dir p; Some (b, e)) l).*1 → dir_prefix dir +:+ b ∈ l.*1).
  { induction l as [|[p e] l IH]; simpl; intros Hnd; [split; [constructor|by intros b ?%not_elem_of_nil]|].
    apply NoDup_cons in Hnd as [Hp Hnd]. destruct (IH Hnd) as [IH1 IH2].
    destruct (child_name dir p) as [b|] eqn:Hc; simpl.
    - apply child_name_spec in Hc as (-> & _). split.
      + apply NoDup_cons. split; [|done]. intros Hb. by apply Hp, IH2.
      + intros b' [->|Hb']%elem_of_cons; [by left|right; by apply IH2].
    - split; [done|]. intros b' Hb'. right. by apply IH2. }
  apply Hl, NoDup_fst_map_to_list.
Qed.
