(* ===== verification/AfsProto.v ===== *)
(** * Messages and streams of the AFS service

    The messages of src/afsfs/proto/afs.proto (the structs of
    src/afsfs/generated/afs/afs.pb.go), the two kinds of gRPC stream the
    handlers use, and the interface through which a server reaches its peers.
    The gRPC library itself is not part of the repository: a stream that breaks
    or a call that fails is a value these definitions carry. *)

From S2P Require Import Prelude.

Record OpenRequest := mkOpenRequest
  { or_Path : string; or_Write : bool; or_ClientId : string; or_ReqSeq : Z }.
Record OpenResponse := mkOpenResponse { op_FileHandleId : Z; op_Error : string }.

Record FetchFileRequest := mkFetchFileRequest { fr_Path : string }.
Record FetchFileResponse := mkFetchFileResponse
  { fp_Data : bytes; fp_Version : Z; fp_Error : string }.

Record TestAuthRequest := mkTestAuthRequest { tr_Path : string; tr_CachedVersion : Z }.
Record TestAuthResponse := mkTestAuthResponse { tp_IsValid : bool; tp_Version : Z }.

Record StoreFileRequest := mkStoreFileRequest
  { sr_Path : string; sr_Data : bytes; sr_ClientId : string; sr_ReqSeq : Z }.
Record StoreFileResponse := mkStoreFileResponse { sp_Version : Z; sp_Error : string }.

Record CreateFileRequest := mkCreateFileRequest
  { cr_Path : string; cr_ClientId : string; cr_ReqSeq : Z }.
Record CreateFileResponse := mkCreateFileResponse { cp_FileHandleId : Z; cp_Error : string }.

Record DeleteFileRequest := mkDeleteFileRequest
  { dr_Path : string; dr_ClientId : string; dr_ReqSeq : Z }.
Record DeleteFileResponse := mkDeleteFileResponse { dp_Error : string }.

Record CloseFileRequest := mkCloseFileRequest { clr_FileHandleId : Z }.
Record CloseFileResponse := mkCloseFileResponse { clp_Error : string }.

Record ReplicateRequest := mkReplicateRequest
  { rr_Operation : string; rr_Path : string; rr_Version : Z; rr_Data : bytes }.
Record ReplicateResponse := mkReplicateResponse { rp_Error : string }.

Record HeartbeatRequest := mkHeartbeatRequest { hr_ServerId : string }.
Record HeartbeatResponse := mkHeartbeatResponse { hp_IsPrimary : bool }.

Record GetPrimaryResponse := mkGetPrimaryResponse { gp_PrimaryAddr : string }.

Record SyncFileEntry := mkSyncFileEntry { se_Path : string; se_Data : bytes; se_Version : Z }.

Record AnnouncePrimaryRequest := mkAnnouncePrimaryRequest
  { ar_PrimaryAddr : string; ar_PrimaryId : string }.

#[export] Instance OpenResponse_eq_dec : EqDecision OpenResponse.
Proof. solve_decision. Defined.
#[export] Instance StoreFileResponse_eq_dec : EqDecision StoreFileResponse.
Proof. solve_decision. Defined.
#[export] Instance CreateFileResponse_eq_dec : EqDecision CreateFileResponse.
Proof. solve_decision. Defined.
#[export] Instance DeleteFileResponse_eq_dec : EqDecision DeleteFileResponse.
Proof. solve_decision. Defined.
#[export] Instance FetchFileResponse_eq_dec : EqDecision FetchFileResponse.
Proof. solve_decision. Defined.
#[export] Instance SyncFileEntry_eq_dec : EqDecision SyncFileEntry.
Proof. solve_decision. Defined.

(** ** Streams *)

(** What a receiver gets: messages, then a clean end ([None], [io.EOF]) or an
    error. *)
Record recv_stream (A : Type) := mkRecv { msgs : list A; recv_end : error }.
Arguments mkRecv {A} msgs recv_end.
Arguments msgs {A} _.
Arguments recv_end {A} _.

(** What a sender writes to: the messages sent so far, and how many more sends
    succeed before the stream breaks ([None]: all of them). *)
Record send_stream (A : Type) := mkSend { sent : list A; quota : option nat }.
Arguments mkSend {A} sent quota.
Arguments sent {A} _.
Arguments quota {A} _.

Definition stream_Send {A} (s : send_stream A) (x : A) : error * send_stream A :=
  match quota s with
  | None => (None, mkSend (sent s ++ [x]) None)
  | Some (S k) => (None, mkSend (sent s ++ [x]) (Some k))
  | Some O => (Some "rpc error: stream broken", s)
  end.

(** A loop that sends one message after another and returns the first error. *)
Fixpoint send_all {A} (s : send_stream A) (xs : list A) : error * send_stream A :=
  match xs with
  | [] => (None, s)
  | x :: xs =>
      match stream_Send s x with
      | (Some e, s) => (Some e, s)
      | (None, s) => send_all s xs
      end
  end.

Definition open_stream {A} : send_stream A := mkSend [] None.

Lemma send_all_open {A} (xs ys : list A) :
  send_all (mkSend ys None) xs = (None, mkSend (ys ++ xs) None).
Proof.
  revert ys. induction xs as [|x xs IH]; intros ys; simpl; [by rewrite app_nil_r|].
  by rewrite IH, <- app_assoc.
Qed.

(** On a stream that breaks, a prefix was sent. *)
Lemma send_all_prefix {A} (xs : list A) s e s' :
  send_all s xs = (e, s') → ∃ ys, sent s' = sent s ++ ys ∧ ys `prefix_of` xs ∧ (e = None → ys = xs).
Proof.
  revert s. induction xs as [|x xs IH]; intros s; simpl.
  - intros [= <- <-]. exists []. rewrite app_nil_r. split_and!; done.
  - destruct (stream_Send s x) as [[e0|] s0] eqn:Hs.
    + intros [= <- <-]. exists []. unfold stream_Send in Hs.
      destruct (quota s) as [[|k]|]; [|done..]. injection Hs as _ <-.
      rewrite app_nil_r. split_and!; [done|apply prefix_nil|done].
    + intros H. apply IH in H as (ys & Hsent & Hpre & He).
      exists (x :: ys). assert (sent s0 = sent s ++ [x]) as Hs0.
      { unfold stream_Send in Hs. destruct (quota s) as [[|k]|]; naive_solver. }
      rewrite Hsent, Hs0, <- app_assoc. split_and!; [done|by apply prefix_cons|].
      intros He'. by rewrite He.
Qed.

(** ** Reaching a peer

    [net_Replicate addr chunks err net] is one client-streaming [Replicate]
    call to [addr]: the sender sent [chunks] and then closed the stream
    ([err = None]) or abandoned it with an error. *)
Class PeerNet (N : Type) := {
  net_Replicate : string → list ReplicateRequest → error → N → result ReplicateResponse * N;
}.
