(* ===== verification/Server.v ===== *)
(** * The server's state: src/afsfs/pkg/server/handler.go, replication.go

    [Handler] is the struct of handler.go (its mutexes aside: each operation
    runs to completion here), together with the disk of the machine it runs
    on.  The goroutines of heartbeat.go are in Election.v. *)

From S2P Require Import Prelude GoLib GoPath Disk AfsProto.

(** [1024 * 1024] *)
Definition chunkSize : nat := Z.to_nat 1048576.
Lemma chunkSize_pos : 0 < chunkSize.
Proof. unfold chunkSize. lia. Qed.
#[global] Opaque chunkSize.

Record FileHandle := mkFileHandle { fh_path : string; fh_isWrite : bool }.

(** [dedupEntry.response] is an [interface{}]: one constructor per type the
    handlers store there. *)
Inductive dedupEntry :=
  | DOpen (r : OpenResponse)
  | DStore (r : StoreFileResponse)
  | DCreate (r : CreateFileResponse)
  | DDelete (r : DeleteFileResponse).

Record PeerInfo := mkPeerInfo { ID : string; Addr : string }.
Record peerClient := mkPeer { peer_id : string; peer_addr : string; peer_failCount : Z }.

Record Handler := mkHandler {
  inputDir : string;
  outputDir : string;
  handles : gmap Z FileHandle;
  versions : gmap string Z;
  nextHandle : Z;
  dedupTable : gmap string dedupEntry;
  serverID : string;
  serverAddr : string;
  primary : bool;
  knownPrimaryAddr : string;
  peers : list peerClient;
  lastHeartbeat : Z;
  senderRunning : bool;
  disk : Disk;
}.

Definition set_handles (f : gmap Z FileHandle) (h : Handler) : Handler :=
  mkHandler (inputDir h) (outputDir h) f (versions h) (nextHandle h) (dedupTable h) (serverID h)
    (serverAddr h) (primary h) (knownPrimaryAddr h) (peers h) (lastHeartbeat h) (senderRunning h) (disk h).
Definition set_versions (v : gmap string Z) (h : Handler) : Handler :=
  mkHandler (inputDir h) (outputDir h) (handles h) v (nextHandle h) (dedupTable h) (serverID h)
    (serverAddr h) (primary h) (knownPrimaryAddr h) (peers h) (lastHeartbeat h) (senderRunning h) (disk h).
Definition set_nextHandle (n : Z) (h : Handler) : Handler :=
  mkHandler (inputDir h) (outputDir h) (handles h) (versions h) n (dedupTable h) (serverID h)
    (serverAddr h) (primary h) (knownPrimaryAddr h) (peers h) (lastHeartbeat h) (senderRunning h) (disk h).
Definition set_dedup (t : gmap string dedupEntry) (h : Handler) : Handler :=
  mkHandler (inputDir h) (outputDir h) (handles h) (versions h) (nextHandle h) t (serverID h)
    (serverAddr h) (primary h) (knownPrimaryAddr h) (peers h) (lastHeartbeat h) (senderRunning h) (disk h).
Definition set_role (p : bool) (known : string) (h : Handler) : Handler :=
  mkHandler (inputDir h) (outputDir h) (handles h) (versions h) (nextHandle h) (dedupTable h) (serverID h)
    (serverAddr h) p known (peers h) (lastHeartbeat h) (senderRunning h) (disk h).
Definition set_peers (ps : list peerClient) (h : Handler) : Handler :=
  mkHandler (inputDir h) (outputDir h) (handles h) (versions h) (nextHandle h) (dedupTable h) (serverID h)
    (serverAddr h) (primary h) (knownPrimaryAddr h) ps (lastHeartbeat h) (senderRunning h) (disk h).
Definition set_lastHeartbeat (t : Z) (h : Handler) : Handler :=
  mkHandler (inputDir h) (outputDir h) (handles h) (versions h) (nextHandle h) (dedupTable h) (serverID h)
    (serverAddr h) (primary h) (knownPrimaryAddr h) (peers h) t (senderRunning h) (disk h).
Definition set_senderRunning (b : bool) (h : Handler) : Handler :=
  mkHandler (inputDir h) (outputDir h) (handles h) (versions h) (nextHandle h) (dedupTable h) (serverID h)
    (serverAddr h) (primary h) (knownPrimaryAddr h) (peers h) (lastHeartbeat h) b (disk h).
Definition set_disk (d : Disk) (h : Handler) : Handler :=
  mkHandler (inputDir h) (outputDir h) (handles h) (versions h) (nextHandle h) (dedupTable h) (serverID h)
    (serverAddr h) (primary h) (knownPrimaryAddr h) (peers h) (lastHeartbeat h) (senderRunning h) d.

(** [h.versions[path]]: zero for a file without version. *)
Definition version_of (h : Handler) (path : string) : Z := default 0%Z (versions h !! path).

(** [filepath.Join(h.outputDir, filepath.Base(path))]. *)
Definition outPath (h : Handler) (path : string) : string := PathJoin (outputDir h) (Base path).

Definition isPrimary (h : Handler) : bool := primary h.

(** ** Sending an operation to the backups: replication.go *)

Section Replication.
  Context (flt : OsFaults) {N : Type} `{!PeerNet N}.

(** The chunks of a file being streamed: the first one carries the operation. *)
Definition replicate_chunk (operation path : string) (version : Z) (first : bool) (data : bytes)
    : ReplicateRequest :=
  if first then mkReplicateRequest operation path version data
  else mkReplicateRequest "" "" 0 data.

Definition replicate_chunks (operation path : string) (version : Z) (cs : list bytes)
    : list ReplicateRequest :=
  imap (λ i c, replicate_chunk operation path version (bool_decide (i = 0)) c) cs.

Definition replicateStreamToPeer (h : Handler) (peer : peerClient)
    (operation path fullPath : string) (version : Z) (net : N) : error * N :=
  if decide (operation = "delete" ∨ operation = "create") then
    match net_Replicate (peer_addr peer) [mkReplicateRequest operation path version []] None net with
    | (Err e, net) => (Some e, net)
    | (Ok resp, net) =>
        if decide (rp_Error resp = "") then (None, net)
        else (Some ("replicate error: " +:+ rp_Error resp), net)
    end
  else
    match os_Open flt (disk h) fullPath with
    | Err e =>
        let '(_, net) := net_Replicate (peer_addr peer) [] (Some "context canceled") net in
        (Some ("open for replication: " +:+ e), net)
    | Ok f =>
        let '(cs, rd_err) := read_chunks flt chunkSize (disk h) f in
        let reqs := replicate_chunks operation path version cs in
        match rd_err with
        | Some e =>
            let '(_, net) := net_Replicate (peer_addr peer) reqs (Some "context canceled") net in
            (Some e, net)
        | None =>
            match net_Replicate (peer_addr peer) reqs None net with
            | (Err e, net) => (Some ("CloseAndRecv: " +:+ e), net)
            | (Ok resp, net) =>
                if decide (rp_Error resp = "") then (None, net)
                else (Some ("replicate error: " +:+ rp_Error resp), net)
            end
        end
    end.

(** One goroutine per peer; the errors are logged and dropped. *)
Fixpoint replicate_to_peers (h : Handler) (ps : list peerClient)
    (operation path fullPath : string) (version : Z) (net : N) : N :=
  match ps with
  | [] => net
  | p :: ps =>
      let '(_, net) := replicateStreamToPeer h p operation path fullPath version net in
      replicate_to_peers h ps operation path fullPath version net
  end.

Definition replicateStreamToAll (h : Handler)
    (operation path fullPath : string) (version : Z) (net : N) : N :=
  replicate_to_peers h (peers h) operation path fullPath version net.

End Replication.

(** ** Receiving an operation: the [Replicate] handler *)

(** The variables of the handler's loop; [None] is a nil [tmpFile]. *)
Record ReplicateLoop := mkReplicateLoop {
  rl_operation : string; rl_version : Z; rl_tmpFile : option Fd;
  rl_fullPath : string; rl_tmpPath : string; rl_first : bool;
}.

(** How a loop body ends: the loop goes on, or the function returns. *)
Inductive step_exit (S R : Type) := Continue (s : S) | Return (r : R).
Arguments Continue {S R} s.
Arguments Return {S R} r.

Section ReplicateHandler.
  Context (flt : OsFaults).

(** [if tmpFile != nil && len(chunk.Data) > 0 { tmpFile.Write ... }], with the
    clean-up of a failed write; [fail] builds the response. *)
Definition write_chunk {R} (fail : string → R) (h : Handler) (v_tmp : option Fd) (tmpPath : string)
    (data : bytes) : step_exit (option Fd * Handler) (R * Handler) :=
  match v_tmp, data with
  | Some fd, _ :: _ =>
      match fd_Write flt (disk h) fd data with
      | (Ok fd, d) => Continue (Some fd, set_disk d h)
      | (Err e, d) => Return (fail e, set_disk (os_Remove flt d tmpPath).2 h)
      end
  | _, _ => Continue (v_tmp, h)
  end.

(** The [first] branch of the loop. *)
Definition Replicate_first (chunk : ReplicateRequest) (h : Handler)
    : step_exit (ReplicateLoop * Handler) (result ReplicateResponse * Handler) :=
  let fp := outPath h (rr_Path chunk) in
  if decide (rr_Operation chunk = "delete") then
    let '(_, d) := os_Remove flt (disk h) fp in
    Return (Ok (mkReplicateResponse ""), set_versions (delete fp (versions h)) (set_disk d h))
  else if decide (rr_Operation chunk = "create") then
    let '(_, d) := os_WriteFile_empty flt (disk h) fp in
    Return (Ok (mkReplicateResponse ""),
            set_versions (<[fp := rr_Version chunk]> (versions h)) (set_disk d h))
  else
    let tmpPath := fp +:+ ".tmp" in
    match os_Create flt (disk h) tmpPath with
    | (Err e, d) => Return (Ok (mkReplicateResponse ("create tmp: " +:+ e)), set_disk d h)
    | (Ok fd, d) =>
        Continue (mkReplicateLoop (rr_Operation chunk) (rr_Version chunk) (Some fd) fp tmpPath false,
                  set_disk d h)
    end.

Definition Replicate_step (chunk : ReplicateRequest) (v : ReplicateLoop) (h : Handler)
    : step_exit (ReplicateLoop * Handler) (result ReplicateResponse * Handler) :=
  match (if rl_first v then Replicate_first chunk h else Continue (v, h)) with
  | Return r => Return r
  | Continue (v, h) =>
      match write_chunk (λ e, Ok (mkReplicateResponse ("write chunk: " +:+ e))) h
              (rl_tmpFile v) (rl_tmpPath v) (rr_Data chunk) with
      | Return r => Return r
      | Continue (tmp, h) =>
          Continue (mkReplicateLoop (rl_operation v) (rl_version v) tmp (rl_fullPath v)
                      (rl_tmpPath v) (rl_first v), h)
      end
  end.

Definition remove_tmp (tmp : option Fd) (tmpPath : string) (h : Handler) : Handler :=
  match tmp with
  | Some _ => set_disk (os_Remove flt (disk h) tmpPath).2 h
  | None => h
  end.

Fixpoint Replicate_loop (chunks : list ReplicateRequest) (rend : error) (v : ReplicateLoop)
    (h : Handler) : step_exit (ReplicateLoop * Handler) (result ReplicateResponse * Handler) :=
  match chunks with
  | [] =>
      match rend with
      | None => Continue (v, h)
      | Some e => Return (Err e, remove_tmp (rl_tmpFile v) (rl_tmpPath v) h)
      end
  | chunk :: chunks =>
      match Replicate_step chunk v h with
      | Return r => Return r
      | Continue (v, h) => Replicate_loop chunks rend v h
      end
  end.

Definition Replicate (stream : recv_stream ReplicateRequest) (h : Handler)
    : result ReplicateResponse * Handler :=
  match Replicate_loop (msgs stream) (recv_end stream)
          (mkReplicateLoop "" 0 None "" "" true) h with
  | Return r => r
  | Continue (v, h) =>
      match rl_tmpFile v with
      | None => (Ok (mkReplicateResponse ""), h)
      | Some _ =>
          match os_Rename flt (disk h) (rl_tmpPath v) (rl_fullPath v) with
          | (Some e, d) =>
              (Ok (mkReplicateResponse ("rename: " +:+ e)),
               set_disk (os_Remove flt d (rl_tmpPath v)).2 h)
          | (None, d) =>
              (Ok (mkReplicateResponse ""),
               set_versions (<[rl_fullPath v := rl_version v]> (versions h)) (set_disk d h))
          end
      end
  end.

End ReplicateHandler.

(** ** What a loop that receives a file does to the server *)

(** [h'] is [h] with another disk, on which only the file [p] may differ. *)
Definition touches_only (p : string) (h h' : Handler) : Prop :=
  h' = set_disk (disk h') h ∧ disk_wf (disk h') ∧ same_except p (disk h) (disk h').

Lemma touches_only_refl p h : disk_wf (disk h) → touches_only p h h.
Proof. intros. split; [by destruct h|]. split; [done|apply same_except_refl]. Qed.

Lemma touches_only_trans p h1 h2 h3 :
  touches_only p h1 h2 → touches_only p h2 h3 → touches_only p h1 h3.
Proof.
  intros (E1 & _ & H1) (E2 & Hwf & H2). split; [rewrite E2, E1; done|].
  split; [done|]. by eapply same_except_trans.
Qed.

Lemma touches_only_remove flt p h d :
  disk_wf d → same_except p (disk h) d →
  touches_only p h (set_disk (os_Remove flt d p).2 h).
Proof.
  intros Hwf Hd. destruct (os_Remove flt d p) as [r d'] eqn:E.
  split; [done|]. split; [by apply (os_Remove_spec _ _ _ _ _ Hwf E)|].
  eapply same_except_trans; [done|]. by eapply os_Remove_same.
Qed.

Lemma remove_tmp_touches flt tmp p h :
  disk_wf (disk h) → touches_only p h (remove_tmp flt tmp p h).
Proof.
  intros. destruct tmp; simpl; [|by apply touches_only_refl].
  by apply touches_only_remove; [|apply same_except_refl].
Qed.

Lemma write_chunk_spec {R} flt (fail : string → R) h fd p data x :
  disk_wf (disk h) → writing (disk h) fd p data →
  match write_chunk flt fail h (Some fd) p x with
  | Continue (tmp, h') =>
      touches_only p h h' ∧ ∃ fd', tmp = Some fd' ∧ writing (disk h') fd' p (data ++ x)
  | Return (r, h') => touches_only p h h' ∧ ∃ e, r = fail e
  end.
Proof.
  intros Hwf Hw. unfold write_chunk. destruct x as [|c x].
  { split; [by apply touches_only_refl|]. rewrite app_nil_r. by exists fd. }
  destruct (fd_Write flt (disk h) fd (c :: x)) as [[fd'|e] d'] eqn:E.
  - destruct (fd_Write_spec _ _ _ _ _ _ _ _ Hwf Hw E) as (Hwf' & Hw' & _ & Hr).
    split; [|by exists fd']. split; [done|]. split; [done|]. by eapply fd_Write_same.
  - apply fd_Write_err in E. subst d'. split; [|by exists e].
    by apply touches_only_remove; [|apply same_except_refl].
Qed.

Lemma os_Create_touches flt p h fd d :
  disk_wf (disk h) → os_Create flt (disk h) p = (Ok fd, d) →
  touches_only p h (set_disk d h) ∧ writing d fd p [].
Proof.
  intros Hwf E. destruct (os_Create_spec _ _ _ _ _ Hwf E) as (Hwf' & Hw & Hr).
  split; [|done]. split; [done|]. split; [done|]. by eapply os_Create_same.
Qed.

(** ** The receiving side of a replicated file *)

(** The state of [Replicate]'s loop once its first chunk was a store. *)
Definition receiving (v : ReplicateLoop) (h : Handler) (data : bytes) : Prop :=
  rl_first v = false ∧ rl_tmpPath v = rl_fullPath v +:+ ".tmp" ∧
  ∃ fd, rl_tmpFile v = Some fd ∧ writing (disk h) fd (rl_tmpPath v) data.

Lemma Replicate_loop_spec flt chunks rend v h data :
  disk_wf (disk h) → receiving v h data →
  match Replicate_loop flt chunks rend v h with
  | Continue (v', h') =>
      rend = None ∧ touches_only (rl_tmpPath v) h h' ∧
      receiving v' h' (data ++ concat (rr_Data <$> chunks)) ∧
      rl_fullPath v' = rl_fullPath v ∧ rl_version v' = rl_version v
  | Return (r, h') => touches_only (rl_tmpPath v) h h' ∧ r ≠ Ok (mkReplicateResponse "")
  end.
Proof.
  revert v h data. induction chunks as [|chunk chunks IH]; intros v h data Hwf Hr.
  - simpl. destruct rend as [e|].
    + split; [by apply remove_tmp_touches|done].
    + rewrite app_nil_r. split; [done|]. split; [by apply touches_only_refl|done].
  - cbn [Replicate_loop]. unfold Replicate_step.
    destruct v as [op ver tmp0 full tmpp first]. destruct Hr as (Hf & Ht & fd & Hfd & Hw).
    simpl in *. subst first tmp0.
    assert (Hc := write_chunk_spec flt
      (λ e, Ok (mkReplicateResponse ("write chunk: " +:+ e))) h fd _ _ (rr_Data chunk) Hwf Hw).
    destruct (write_chunk _ _ _ _ _ _) as [[tmp h1]|[r h1]].
    + destruct Hc as (Hto & fd' & -> & Hw'). pose proof Hto as (_ & Hwf1 & _).
      specialize (IH (mkReplicateLoop op ver (Some fd') full tmpp false) h1 (data ++ rr_Data chunk)
        Hwf1 ltac:(split; [done|split; [done|by exists fd']])).
      destruct (Replicate_loop _ _ _ _ _) as [[v' h']|[r h']].
      * destruct IH as (Hend & Hto' & Hr' & Hfp & Hv). split; [done|].
        split; [by eapply touches_only_trans|]. rewrite app_assoc. done.
      * destruct IH as [Hto' ?]. split; [by eapply touches_only_trans|done].
    + destruct Hc as [? (e & ->)]. done.
Qed.

(** [q] may differ on [h'] only if it is the file [p] or its temporary. *)
Definition only_file (p : string) (h h' : Handler) : Prop :=
  disk_wf (disk h') ∧
  ∀ q, q ≠ p → q ≠ p +:+ ".tmp" →
    read_file (disk h') q = read_file (disk h) q ∧ names (disk h') !! q = names (disk h) !! q.

Lemma tmp_ne p : p +:+ ".tmp" ≠ p.
Proof.
  intros H. apply (f_equal s2b), (f_equal length) in H. rewrite s2b_app, length_app in H.
  simpl in H. lia.
Qed.

(** Committing a received file: the new content appears at once, or nothing
    does. *)
Lemma commit_rename flt fd p data h e d :
  disk_wf (disk h) → writing (disk h) fd (p +:+ ".tmp") data →
  os_Rename flt (disk h) (p +:+ ".tmp") p = (e, d) →
  disk_wf d ∧ match e with
  | Some _ => d = disk h
  | None => (∀ q, read_file d q =
      if decide (p = q) then Some data else if decide (p +:+ ".tmp" = q) then None
      else read_file (disk h) q) ∧
      ∀ q, q ≠ p → names d !! q = if decide (p +:+ ".tmp" = q) then None else names (disk h) !! q
  end.
Proof.
  intros Hwf (Hn & _ & _ & _ & Hc) E.
  destruct (os_Rename_spec _ _ _ _ _ _ Hwf (tmp_ne p) E) as [Hwf' He]. split; [done|].
  destruct e; [done|]. destruct He as [_ He]. split.
  2: { intros q Hq. unfold os_Rename in E. rewrite Hn in E. repeat case_match; simplify_eq/=;
       rewrite lookup_insert_ne by done; rewrite lookup_delete; by repeat case_decide. }
  intros q. rewrite He.
  assert (read_file (disk h) (p +:+ ".tmp") = Some data) as ->; [|done].
  unfold read_file. by rewrite Hn, Hc.
Qed.

(** ** [Replicate], call by call *)

(** What a call left of the server: only its disk and versions changed, and of
    the disk only the file [p] (and its temporary). *)
Definition local_change (p : string) (h h' : Handler) : Prop :=
  h' = set_versions (versions h') (set_disk (disk h') h) ∧ only_file p h h'.

Definition is_store (op : string) : Prop := op ≠ "delete" ∧ op ≠ "create".

Lemma touches_local p h h' : touches_only (p +:+ ".tmp") h h' → local_change p h h' ∧
  read_file (disk h') p = read_file (disk h) p ∧ versions h' = versions h.
Proof.
  intros (E & Hwf & Hq). split; [|split].
  - split; [by rewrite E; destruct h|]. split; [done|]. intros q _ Hqt. by apply Hq.
  - apply Hq. intros Hp. by destruct (tmp_ne p).
  - by rewrite E.
Qed.

(** The outcome of receiving a file: all of it, under its version, or none. *)
Definition replicated (p : string) (data : bytes) (version : Z) (h h' : Handler) : Prop :=
  read_file (disk h') p = Some data ∧ versions h' = <[p := version]> (versions h).
Definition untouched (p : string) (h h' : Handler) : Prop :=
  read_file (disk h') p = read_file (disk h) p ∧ versions h' = versions h.

Lemma Replicate_finish flt v h data r h' :
  disk_wf (disk h) → receiving v h data →
  match rl_tmpFile v with
  | None => (Ok (mkReplicateResponse ""), h)
  | Some _ =>
      match os_Rename flt (disk h) (rl_tmpPath v) (rl_fullPath v) with
      | (Some e, d) =>
          (Ok (mkReplicateResponse ("rename: " +:+ e)),
           set_disk (os_Remove flt d (rl_tmpPath v)).2 h)
      | (None, d) =>
          (Ok (mkReplicateResponse ""),
           set_versions (<[rl_fullPath v := rl_version v]> (versions h)) (set_disk d h))
      end
  end = (r, h') →
  local_change (rl_fullPath v) h h' ∧
  (r = Ok (mkReplicateResponse "") ∧ replicated (rl_fullPath v) data (rl_version v) h h' ∨
   r ≠ Ok (mkReplicateResponse "") ∧ untouched (rl_fullPath v) h h').
Proof.
  intros Hwf (_ & Ht & fd & Hfd & Hw). rewrite Hfd, Ht in *.
  destruct (os_Rename _ _ _ _) as [e d] eqn:E.
  destruct (commit_rename _ _ _ _ _ _ _ Hwf Hw E) as [Hwf' He].
  destruct e as [e|]; intros [= <- <-].
  - subst d. assert (Hto := touches_only_remove flt (rl_fullPath v +:+ ".tmp") h _ Hwf (same_except_refl _ _)).
    apply touches_local in Hto as (? & ? & ?). split; [done|]. right. done.
  - destruct He as [He Hnm]. split.
    + split; [done|]. split; [done|]. intros q Hq Hqt. simpl. by rewrite He, Hnm, !decide_False by done.
    + left. split; [done|]. split; [|done]. simpl. by rewrite He, decide_True.
Qed.

Lemma only_file_trans p h1 h2 h3 : touches_only (p +:+ ".tmp") h1 h2 →
  local_change p h2 h3 → local_change p h1 h3.
Proof.
  intros (E & _ & H1) [E' [Hwf H2]]. split; [|split; [done|]].
  - rewrite E', E. done.
  - intros q Hq Hqt. destruct (H1 q Hqt) as [<- <-]. by apply H2.
Qed.

Lemma Replicate_store flt c cs rend h r h' :
  disk_wf (disk h) → is_store (rr_Operation c) →
  Replicate flt (mkRecv (c :: cs) rend) h = (r, h') →
  let p := outPath h (rr_Path c) in
  local_change p h h' ∧
  (rend = None ∧ r = Ok (mkReplicateResponse "") ∧
     replicated p (concat (rr_Data <$> c :: cs)) (rr_Version c) h h' ∨
   r ≠ Ok (mkReplicateResponse "") ∧ untouched p h h').
Proof.
  intros Hwf [Hd Hc] E p. unfold Replicate in E. cbn [msgs recv_end Replicate_loop] in E.
  unfold Replicate_step in E. cbn [rl_first] in E.
  unfold Replicate_first in E. rewrite !decide_False in E by done. fold p in E.
  destruct (os_Create flt (disk h) (p +:+ ".tmp")) as [[fd|e] d] eqn:Ec; cycle 1.
  { apply os_Create_err in Ec. subst d. injection E as <- <-.
    destruct (touches_local p h (set_disk (disk h) h)) as (? & ? & ?).
    { by destruct h. } split; [done|]. right. by split. }
  destruct (os_Create_touches _ _ _ _ _ Hwf Ec) as [Hto Hw]. pose proof Hto as (_ & Hwf1 & _).
  cbn [rl_tmpFile rl_tmpPath] in E.
  assert (Hwc := write_chunk_spec flt
    (λ e, Ok (mkReplicateResponse ("write chunk: " +:+ e))) (set_disk d h) fd _ _ (rr_Data c) Hwf1 Hw).
  destruct (write_chunk _ _ _ _ _ _) as [[tmp h1]|[r1 h1]].
  2: { destruct Hwc as [Hto1 (e & ->)]. injection E as <- <-.
       apply (touches_only_trans _ _ _ _ Hto) in Hto1.
       apply touches_local in Hto1 as (? & ? & ?). split; [done|]. right. by split. }
  destruct Hwc as (Hto1 & fd' & -> & Hw1). apply (touches_only_trans _ _ _ _ Hto) in Hto1.
  pose proof Hto1 as (_ & Hwf2 & _).
  cbn [rl_operation rl_version rl_fullPath rl_first] in E.
  assert (Hl := Replicate_loop_spec flt cs rend
    (mkReplicateLoop (rr_Operation c) (rr_Version c) (Some fd') p (p +:+ ".tmp") false) h1
    (rr_Data c) Hwf2 ltac:(split; [done|split; [done|by exists fd']])).
  destruct (Replicate_loop _ _ _ _ _) as [[v h2]|[r2 h2]].
  - destruct Hl as (-> & Hto2 & Hrecv & Hfp & Hv).
    apply (touches_only_trans _ _ _ _ Hto1) in Hto2. pose proof Hto2 as (E2 & Hwf3 & _).
    destruct (Replicate_finish _ _ _ _ _ _ Hwf3 Hrecv E) as [Hloc Hcase].
    rewrite Hfp, Hv in *. cbn [rl_fullPath rl_version] in *.
    split; [by eapply only_file_trans|].
    assert (Hv2 : versions h2 = versions h) by by rewrite E2.
    assert (Hp2 : read_file (disk h2) p = read_file (disk h) p) by (apply touches_local in Hto2; tauto).
    unfold replicated, untouched in *. rewrite Hv2, Hp2 in *. tauto.
  - destruct Hl as [Hto2 Hne]. injection E as <- <-.
    apply (touches_only_trans _ _ _ _ Hto1) in Hto2.
    apply touches_local in Hto2 as (? & ? & ?). split; [done|]. right. by split.
Qed.

(** ** A complete stream to a healthy disk is always committed *)

Lemma write_chunk_ok {R} (fail : string → R) h fd p x :
  fd_writable fd = true →
  ∃ fd' h', write_chunk no_faults fail h (Some fd) p x = Continue (Some fd', h') ∧
    fd_writable fd' = true ∧ names (disk h') = names (disk h).
Proof.
  intros Hw. unfold write_chunk. destruct x as [|c x]; [by eauto|].
  unfold fd_Write. simpl. rewrite Hw. eauto.
Qed.

Lemma Replicate_loop_ok chunks v h fd :
  rl_first v = false → rl_tmpFile v = Some fd → fd_writable fd = true →
  ∃ v' h', Replicate_loop no_faults chunks None v h = Continue (v', h') ∧
    is_Some (rl_tmpFile v') ∧ rl_tmpPath v' = rl_tmpPath v ∧ rl_fullPath v' = rl_fullPath v ∧
    names (disk h') = names (disk h).
Proof.
  revert v h fd. induction chunks as [|chunk chunks IH]; intros v h fd Hf Hfd Hw.
  - exists v, h. simpl. rewrite Hfd. split_and!; eauto.
  - cbn [Replicate_loop]. unfold Replicate_step. rewrite Hf, Hfd.
    destruct (write_chunk_ok (λ e, Ok (mkReplicateResponse ("write chunk: " +:+ e)))
                h fd (rl_tmpPath v) (rr_Data chunk) Hw) as (fd' & h1 & -> & Hw' & Hn).
    destruct (IH (mkReplicateLoop (rl_operation v) (rl_version v) (Some fd') (rl_fullPath v)
      (rl_tmpPath v) (rl_first v)) h1 fd') as (v' & h' & -> & Hs & Ht & Hfp & Hn'); [done..|].
    exists v', h'. split_and!; try done. by rewrite Hn'.
Qed.

Lemma Replicate_store_ok c cs h :
  disk_wf (disk h) → is_store (rr_Operation c) →
  let p := outPath h (rr_Path c) in
  names (disk h) !! p ≠ Some DDir → names (disk h) !! (p +:+ ".tmp") ≠ Some DDir →
  (Replicate no_faults (mkRecv (c :: cs) None) h).1 = Ok (mkReplicateResponse "").
Proof.
  intros Hwf [Hd Hc] p Hp Ht. unfold Replicate. cbn [msgs recv_end Replicate_loop].
  unfold Replicate_step. cbn [rl_first]. unfold Replicate_first.
  rewrite !decide_False by done. fold p.
  destruct (os_Create_ok _ _ Ht) as (fd & d & Ec). rewrite Ec. cbn [rl_tmpFile rl_tmpPath].
  destruct (os_Create_touches _ _ h _ _ Hwf Ec) as [(_ & _ & Hsame) (Hn & _ & Hw & _)].
  simpl in Hsame, Hn.
  destruct (write_chunk_ok (λ e, Ok (mkReplicateResponse ("write chunk: " +:+ e)))
              (set_disk d h) fd (p +:+ ".tmp") (rr_Data c) Hw) as (fd' & h1 & -> & Hw' & Hn1).
  cbn [rl_operation rl_version rl_fullPath rl_first].
  destruct (Replicate_loop_ok cs (mkReplicateLoop (rr_Operation c) (rr_Version c) (Some fd') p
    (p +:+ ".tmp") false) h1 fd') as (v' & h' & -> & [fd2 ->] & -> & -> & Hn2); [done..|].
  cbn [rl_tmpPath rl_fullPath].
  assert (Hren : (os_Rename no_faults (disk h') (p +:+ ".tmp") p).1 = None).
  { apply (os_Rename_ok _ _ _ (fd_ino fd)); rewrite Hn2, Hn1; simpl; [done|].
    destruct (Hsame p) as [_ ->]; [|done]. intros E. by destruct (tmp_ne p). }
  destruct (os_Rename _ _ _ _) as [e d']. simpl in Hren. by subst e.
Qed.
