(* ===== verification/Handler.v ===== *)
(** * The AFS server's RPC handlers: src/afsfs/pkg/server/handler.go

    [NewHandler] (its state), [initVersion], [resolvePath], [dedupKey] and the
    handlers [Open], [FetchFile], [TestAuth], [StoreFile], [CreateFile],
    [DeleteFile] and [CloseFile].  A handler runs to completion; it returns an
    [outcome] because the type assertion on a deduplication entry can panic.
    The backups are reached through [PeerNet]. *)

From S2P Require Import Prelude GoLib GoText GoPath Disk AfsProto Server.

(** ** Helpers *)

Definition dedupKey (clientID : string) (reqSeq : Z) : string :=
  clientID +:+ ":" +:+ fmt_d reqSeq.

Section Handlers.
  Context (flt : OsFaults).

Definition resolvePath (h : Handler) (name : string) : result string :=
  let base := Base name in
  if decide (base = "." ∨ base = "..") then Err ("invalid path " +:+ name)
  else
    let inputPath := PathJoin (inputDir h) base in
    match os_Stat flt (disk h) inputPath with
    | StatOk => Ok inputPath
    | _ =>
        let outputPath := PathJoin (outputDir h) base in
        match os_Stat flt (disk h) outputPath with
        | StatOk => Ok outputPath
        | _ => Ok inputPath
        end
    end.

Fixpoint init_entries (dir : string) (entries : list (string * dirent)) (v : gmap string Z)
    : gmap string Z :=
  match entries with
  | [] => v
  | (name, DDir) :: entries => init_entries dir entries v
  | (name, DFile _) :: entries => init_entries dir entries (<[PathJoin dir name := 1%Z]> v)
  end.

Definition initVersion (dir : string) (h : Handler) : error * Handler :=
  match os_ReadDir flt (disk h) dir with
  | DirNotExist => let '(e, d) := os_MkdirAll flt (disk h) dir in (e, set_disk d h)
  | DirErr e => (Some e, h)
  | DirOk entries => (None, set_versions (init_entries dir entries (versions h)) h)
  end.

(** A peer that [grpc.NewClient] accepts, with a fresh failure count; its error
    is only logged. *)
Definition newPeerClient (dial : string → bool) (id addr : string) : option peerClient :=
  if dial addr then Some (mkPeer id addr 0) else None.

(** [NewHandler], up to the goroutines it starts (Election.v). *)
Definition NewHandler (dial : string → bool) (now : Z) (inDir outDir id addr : string)
    (peerInfos : list PeerInfo) (isPrim : bool) (d : Disk) : result Handler * Disk :=
  let ps := omap (λ p, newPeerClient dial (ID p) (Addr p)) peerInfos in
  let h := mkHandler inDir outDir ∅ ∅ 0 ∅ id addr isPrim (if isPrim then addr else "") ps now false d in
  match initVersion inDir h with
  | (Some e, h) => (Err ("scanning input dir: " +:+ e), disk h)
  | (None, h) =>
      match initVersion outDir h with
      | (Some e, h) => (Err ("scanning output dir: " +:+ e), disk h)
      | (None, h) => (Ok h, disk h)
      end
  end.

(** ** Read-only handlers *)

Definition type_assertion : string := "interface conversion: interface {} is of another type".

Definition Open (req : OpenRequest) (h : Handler) : outcome (OpenResponse * Handler) :=
  let key := dedupKey (or_ClientId req) (or_ReqSeq req) in
  match dedupTable h !! key with
  | Some (DOpen r) => Ret (r, h)
  | Some _ => Panic type_assertion
  | None =>
      match resolvePath h (or_Path req) with
      | Err e => Ret (mkOpenResponse 0 e, h)
      | Ok fullPath =>
          match os_Stat flt (disk h) fullPath with
          | StatNotExist => Ret (mkOpenResponse 0 ("file not found: " +:+ or_Path req), h)
          | _ =>
              let id := i64 (nextHandle h + 1) in
              let resp := mkOpenResponse id "" in
              Ret (resp,
                set_dedup (<[key := DOpen resp]> (dedupTable h))
                  (set_handles (<[id := mkFileHandle fullPath (or_Write req)]> (handles h))
                    (set_nextHandle id h)))
          end
      end
  end.

(** [FetchFile]: the returned error and the stream after it. *)
Definition FetchFile (req : FetchFileRequest) (stream : send_stream FetchFileResponse) (h : Handler)
    : error * send_stream FetchFileResponse :=
  match resolvePath h (fr_Path req) with
  | Err e => stream_Send stream (mkFetchFileResponse [] 0 e)
  | Ok fullPath =>
      match os_Open flt (disk h) fullPath with
      | Err e => stream_Send stream (mkFetchFileResponse [] 0 ("open: " +:+ e))
      | Ok f =>
          let version := version_of h fullPath in
          let '(cs, rd_err) := read_chunks flt chunkSize (disk h) f in
          match send_all stream ((λ c, mkFetchFileResponse c version "") <$> cs) with
          | (Some e, stream) => (Some e, stream)
          | (None, stream) => (rd_err, stream)
          end
      end
  end.

Definition TestAuth (req : TestAuthRequest) (h : Handler) : TestAuthResponse :=
  match resolvePath h (tr_Path req) with
  | Err _ => mkTestAuthResponse false 0
  | Ok fullPath =>
      let currentVersion := version_of h fullPath in
      mkTestAuthResponse (currentVersion =? tr_CachedVersion req)%Z currentVersion
  end.

Definition CloseFile (req : CloseFileRequest) (h : Handler) : CloseFileResponse * Handler :=
  match handles h !! clr_FileHandleId req with
  | Some _ => (mkCloseFileResponse "", set_handles (delete (clr_FileHandleId req) (handles h)) h)
  | None => (mkCloseFileResponse ("unknown handle: " +:+ fmt_d (clr_FileHandleId req)), h)
  end.

(** ** Handlers that write *)

Definition not_primary : string := "not primary: send writes to primary".

(** The variables of [StoreFile]'s loop. *)
Record StoreLoop := mkStoreLoop {
  sl_path : string; sl_clientID : string; sl_reqSeq : Z; sl_tmpFile : option Fd;
  sl_fullPath : string; sl_tmpPath : string; sl_first : bool;
}.

Definition StoreFile_first (chunk : StoreFileRequest) (h : Handler)
    : outcome (step_exit (StoreLoop * Handler) (result StoreFileResponse * Handler)) :=
  match dedupTable h !! dedupKey (sr_ClientId chunk) (sr_ReqSeq chunk) with
  | Some (DStore r) => Ret (Return (Ok r, h))
  | Some _ => Panic type_assertion
  | None =>
      let fullPath := outPath h (sr_Path chunk) in
      let tmpPath := fullPath +:+ ".tmp" in
      match os_Create flt (disk h) tmpPath with
      | (Err e, d) => Ret (Return (Ok (mkStoreFileResponse 0 ("creating tmp: " +:+ e)), set_disk d h))
      | (Ok fd, d) =>
          Ret (Continue (mkStoreLoop (sr_Path chunk) (sr_ClientId chunk) (sr_ReqSeq chunk)
                           (Some fd) fullPath tmpPath false, set_disk d h))
      end
  end.

Definition StoreFile_step (chunk : StoreFileRequest) (v : StoreLoop) (h : Handler)
    : outcome (step_exit (StoreLoop * Handler) (result StoreFileResponse * Handler)) :=
  x ← (if sl_first v then StoreFile_first chunk h else Ret (Continue (v, h)));
  match x with
  | Return r => Ret (Return r)
  | Continue (v, h) =>
      match write_chunk flt (λ e, Ok (mkStoreFileResponse 0 ("writing chunk: " +:+ e))) h
              (sl_tmpFile v) (sl_tmpPath v) (sr_Data chunk) with
      | Return r => Ret (Return r)
      | Continue (tmp, h) =>
          Ret (Continue (mkStoreLoop (sl_path v) (sl_clientID v) (sl_reqSeq v) tmp
                           (sl_fullPath v) (sl_tmpPath v) (sl_first v), h))
      end
  end.

Fixpoint StoreFile_loop (chunks : list StoreFileRequest) (rend : error) (v : StoreLoop) (h : Handler)
    : outcome (step_exit (StoreLoop * Handler) (result StoreFileResponse * Handler)) :=
  match chunks with
  | [] =>
      match rend with
      | None => Ret (Continue (v, h))
      | Some e => Ret (Return (Err e, remove_tmp flt (sl_tmpFile v) (sl_tmpPath v) h))
      end
  | chunk :: chunks =>
      x ← StoreFile_step chunk v h;
      match x with
      | Return r => Ret (Return r)
      | Continue (v, h) => StoreFile_loop chunks rend v h
      end
  end.

Context {N : Type} `{!PeerNet N}.

(** The end of [StoreFile], after the loop. *)
Definition StoreFile_commit (v : StoreLoop) (h : Handler) (net : N)
    : result StoreFileResponse * Handler * N :=
  match sl_tmpFile v with
  | None => (Ok (mkStoreFileResponse 0 "no data received"), h, net)
  | Some _ =>
      match os_Rename flt (disk h) (sl_tmpPath v) (sl_fullPath v) with
      | (Some e, d) =>
          (Ok (mkStoreFileResponse 0 ("rename: " +:+ e)),
           set_disk (os_Remove flt d (sl_tmpPath v)).2 h, net)
      | (None, d) =>
          let h := set_disk d h in
          let newVersion := i64 (version_of h (sl_fullPath v) + 1) in
          let h := set_versions (<[sl_fullPath v := newVersion]> (versions h)) h in
          let net := replicateStreamToAll flt h "store" (sl_path v) (sl_fullPath v) newVersion net in
          let resp := mkStoreFileResponse newVersion "" in
          (Ok resp,
           set_dedup (<[dedupKey (sl_clientID v) (sl_reqSeq v) := DStore resp]> (dedupTable h)) h, net)
      end
  end.

Definition StoreFile (stream : recv_stream StoreFileRequest) (h : Handler) (net : N)
    : outcome (result StoreFileResponse * Handler * N) :=
  if isPrimary h then
    x ← StoreFile_loop (msgs stream) (recv_end stream) (mkStoreLoop "" "" 0 None "" "" true) h;
    match x with
    | Return (r, h) => Ret (r, h, net)
    | Continue (v, h) => Ret (StoreFile_commit v h net)
    end
  else Ret (Ok (mkStoreFileResponse 0 not_primary), h, net).

Definition CreateFile (req : CreateFileRequest) (h : Handler) (net : N)
    : outcome (CreateFileResponse * Handler * N) :=
  if isPrimary h then
    let key := dedupKey (cr_ClientId req) (cr_ReqSeq req) in
    match dedupTable h !! key with
    | Some (DCreate r) => Ret (r, h, net)
    | Some _ => Panic type_assertion
    | None =>
        let fullPath := outPath h (cr_Path req) in
        match os_Stat flt (disk h) fullPath with
        | StatOk => Ret (mkCreateFileResponse 0 ("file already exists: " +:+ cr_Path req), h, net)
        | _ =>
            match os_Create flt (disk h) fullPath with
            | (Err e, d) => Ret (mkCreateFileResponse 0 ("creating file: " +:+ e), set_disk d h, net)
            | (Ok _, d) =>
                let h := set_versions (<[fullPath := 1%Z]> (versions h)) (set_disk d h) in
                let id := i64 (nextHandle h + 1) in
                let h := set_handles (<[id := mkFileHandle fullPath true]> (handles h))
                           (set_nextHandle id h) in
                let net := replicateStreamToAll flt h "create" (cr_Path req) fullPath 1 net in
                let resp := mkCreateFileResponse id "" in
                Ret (resp, set_dedup (<[key := DCreate resp]> (dedupTable h)) h, net)
            end
        end
    end
  else Ret (mkCreateFileResponse 0 not_primary, h, net).

Definition DeleteFile (req : DeleteFileRequest) (h : Handler) (net : N)
    : outcome (DeleteFileResponse * Handler * N) :=
  if isPrimary h then
    let key := dedupKey (dr_ClientId req) (dr_ReqSeq req) in
    match dedupTable h !! key with
    | Some (DDelete r) => Ret (r, h, net)
    | Some _ => Panic type_assertion
    | None =>
        let fullPath := outPath h (dr_Path req) in
        match os_Remove flt (disk h) fullPath with
        | (RemoveErr e, d) => Ret (mkDeleteFileResponse ("deleting file: " +:+ e), set_disk d h, net)
        | (_, d) =>
            let h := set_versions (delete fullPath (versions h)) (set_disk d h) in
            let net := replicateStreamToAll flt h "delete" (dr_Path req) fullPath 0 net in
            let resp := mkDeleteFileResponse "" in
            Ret (resp, set_dedup (<[key := DDelete resp]> (dedupTable h)) h, net)
        end
    end
  else Ret (mkDeleteFileResponse not_primary, h, net).

End Handlers.
