(* ===== verification/HandlerSpec.v ===== *)
(** * What the server's handlers guarantee

    Lemmas and properties of Handler.v: deduplication keys, atomic stores under
    any disk or stream failure, replayed requests, the absence of panics, and
    what a client that fetches a file receives. *)

From S2P Require Import Prelude GoLib GoText GoPath Disk AfsProto Server Handler.

(** ** Deduplication keys *)

Lemma split_last_eq (c : ascii) (l1 l2 m1 m2 : bytes) :
  c ∉ m1 → c ∉ m2 → l1 ++ c :: m1 = l2 ++ c :: m2 → l1 = l2 ∧ m1 = m2.
Proof.
  intros H1 H2 E. revert l2 E. induction l1 as [|a l1 IH]; intros [|b l2] E; simpl in E;
    inversion E; subst.
  - done.
  - exfalso. apply H1. set_solver.
  - exfalso. apply H2. set_solver.
  - match goal with H : _ ++ _ = _ |- _ => apply IH in H as [-> ->] end. done.
Qed.

Lemma digit_ne_colon c : is_digit c → c ≠ ":"%char.
Proof. intros [d Hd] ->. done. Qed.

Lemma fmt_d_no_colon x : ":"%char ∉ s2b (fmt_d x).
Proof.
  assert (Hn : ∀ y, (0 ≤ y)%Z → ":"%char ∉ s2b (fmt_d y)).
  { intros y Hy Hin. pose proof (fmt_d_digits y Hy) as Hd. rewrite Forall_forall in Hd.
    by apply Hd, digit_ne_colon in Hin. }
  destruct x as [|p|p]; [by apply Hn..|].
  change (fmt_d (Z.neg p)) with ("-" +:+ fmt_d (Z.pos p)). rewrite s2b_app.
  intros [H|H]%elem_of_app; [|by apply (Hn (Z.pos p))]. by vm_compute in H; set_solver.
Qed.

Lemma dedupKey_inj_aux c1 s1 c2 s2 : dedupKey c1 s1 = dedupKey c2 s2 → c1 = c2 ∧ s1 = s2.
Proof.
  intros E. unfold dedupKey in E. apply (f_equal s2b) in E. rewrite !s2b_app in E. simpl in E.
  apply split_last_eq in E as [E1 E2]; [|by apply fmt_d_no_colon..].
  split; [by apply (inj s2b)|]. apply (inj s2b) in E2. unfold fmt_d in E2. by apply (inj pretty) in E2.
Qed.

(** ** [StoreFile] *)

Definition storing (v : StoreLoop) (h : Handler) (data : bytes) : Prop :=
  sl_first v = false ∧ sl_tmpPath v = sl_fullPath v +:+ ".tmp" ∧
  ∃ fd, sl_tmpFile v = Some fd ∧ writing (disk h) fd (sl_tmpPath v) data.

Definition store_failed (r : result StoreFileResponse) : Prop :=
  match r with Ok resp => sp_Error resp ≠ "" | Err _ => True end.

Lemma StoreFile_loop_spec flt chunks rend v h data :
  disk_wf (disk h) → storing v h data →
  ∃ x, StoreFile_loop flt chunks rend v h = Ret x ∧
  match x with
  | Continue (v', h') =>
      rend = None ∧ touches_only (sl_tmpPath v) h h' ∧
      storing v' h' (data ++ concat (sr_Data <$> chunks)) ∧
      sl_fullPath v' = sl_fullPath v ∧ sl_path v' = sl_path v ∧
      sl_clientID v' = sl_clientID v ∧ sl_reqSeq v' = sl_reqSeq v
  | Return (r, h') => touches_only (sl_tmpPath v) h h' ∧ store_failed r
  end.
Proof.
  revert v h data. induction chunks as [|chunk chunks IH]; intros v h data Hwf Hs.
  - simpl. destruct rend as [e|]; eexists; (split; [done|]).
    + split; [by apply remove_tmp_touches|done].
    + rewrite app_nil_r. split; [done|]. split; [by apply touches_only_refl|done].
  - cbn [StoreFile_loop]. unfold StoreFile_step.
    destruct v as [pth cid sq tmp0 full tmpp first]. destruct Hs as (Hf & Ht & fd & Hfd & Hw).
    simpl in *. subst first tmp0. go_step.
    assert (Hc := write_chunk_spec flt
      (λ e, Ok (mkStoreFileResponse 0 ("writing chunk: " +:+ e))) h fd _ _ (sr_Data chunk) Hwf Hw).
    cbn [sl_tmpFile sl_tmpPath]. destruct (write_chunk _ _ _ _ _ _) as [[tmp h1]|[r h1]]; go_step.
    + destruct Hc as (Hto & fd' & -> & Hw'). pose proof Hto as (_ & Hwf1 & _).
      destruct (IH (mkStoreLoop pth cid sq (Some fd') full tmpp false) h1 (data ++ sr_Data chunk)
        Hwf1 ltac:(split; [done|split; [done|by exists fd']])) as (x & Hx & Hspec).
      exists x. split; [done|]. destruct x as [[v' h']|[r h']].
      * destruct Hspec as (Hend & Hto' & Hs' & Hrest). split; [done|].
        split; [by eapply touches_only_trans|]. rewrite app_assoc. done.
      * destruct Hspec as [Hto' ?]. split; [by eapply touches_only_trans|done].
    + eexists. split; [done|]. destruct Hc as [? (e & ->)]. done.
Qed.

(** How a store leaves the server, besides the disk: the new version and the
    deduplication entry, or nothing. *)
Definition stored (c : StoreFileRequest) (data : bytes) (h h' : Handler) : Prop :=
  let p := outPath h (sr_Path c) in
  let v := i64 (version_of h p + 1) in
  read_file (disk h') p = Some data ∧ names (disk h') !! (p +:+ ".tmp") = None ∧
  h' = set_dedup (<[dedupKey (sr_ClientId c) (sr_ReqSeq c) := DStore (mkStoreFileResponse v "")]> (dedupTable h))
        (set_versions (<[p := v]> (versions h)) (set_disk (disk h') h)).

(** What the backups were sent. *)
Definition store_sent {N : Type} `{!PeerNet N} (flt : OsFaults) (c : StoreFileRequest) (h h' : Handler)
    (net net' : N) : Prop :=
  let p := outPath h (sr_Path c) in
  let v := i64 (version_of h p + 1) in
  net' = replicateStreamToAll flt (set_versions (<[p := v]> (versions h)) (set_disk (disk h') h))
           "store" (sr_Path c) p v net.

Definition not_stored (p : string) (h h' : Handler) : Prop :=
  read_file (disk h') p = read_file (disk h) p ∧ h' = set_disk (disk h') h.

Lemma touches_not_stored p h h' :
  touches_only (p +:+ ".tmp") h h' → only_file p h h' ∧ not_stored p h h'.
Proof.
  intros (E & Hwf & Hq). split; [|split; [|done]].
  - split; [done|]. intros q _ Hqt. by apply Hq.
  - apply Hq. intros Hp. by destruct (tmp_ne p).
Qed.

Lemma only_file_trans' p h1 h2 h3 :
  touches_only (p +:+ ".tmp") h1 h2 → only_file p h2 h3 → only_file p h1 h3.
Proof.
  intros (_ & _ & H1) [Hwf H2]. split; [done|]. intros q Hq Hqt. destruct (H1 q Hqt) as [<- <-]. by apply H2.
Qed.

Section Store.
  Context (flt : OsFaults) {N : Type} `{!PeerNet N}.

Lemma StoreFile_commit_spec c v h0 h data (net : N) r h' net' :
  disk_wf (disk h) → storing v h data → h = set_disk (disk h) h0 →
  sl_fullPath v = outPath h0 (sr_Path c) → sl_path v = sr_Path c →
  sl_clientID v = sr_ClientId c → sl_reqSeq v = sr_ReqSeq c →
  StoreFile_commit flt v h net = (r, h', net') →
  let p := outPath h0 (sr_Path c) in
  only_file p h h' ∧
  (r = Ok (mkStoreFileResponse (i64 (version_of h0 p + 1)) "") ∧ stored c data h0 h' ∧
     store_sent flt c h0 h' net net' ∨
   store_failed r ∧ read_file (disk h') p = read_file (disk h) p ∧ h' = set_disk (disk h') h0 ∧ net' = net).
Proof.
  intros Hwf (_ & Ht & fd & Hfd & Hw) Eh Hfull Hpath Hcid Hseq E p. unfold StoreFile_commit in E.
  rewrite Hfd, Ht, Hfull, Hpath, Hcid, Hseq in E. rewrite Ht, Hfull in Hw.
  destruct (os_Rename _ _ _ _) as [e d] eqn:Er.
  destruct (commit_rename _ _ _ _ _ _ _ Hwf Hw Er) as [Hwf' He].
  destruct e as [e|]; injection E as <- <- <-.
  - subst d. assert (Hto := touches_only_remove flt (p +:+ ".tmp") h _ Hwf (same_except_refl _ _)).
    apply touches_not_stored in Hto as (? & Hr & _). split; [done|]. right.
    split; [done|]. split; [done|]. split; [|done]. by rewrite Eh.
  - destruct He as [He Hnm]. split.
    + split; [done|]. intros q Hq Hqt. simpl. by rewrite He, Hnm, !decide_False by done.
    + left. rewrite Eh. split; [done|]. split; [|done].
      split; [simpl; by rewrite He, decide_True|]. split; [|done]. simpl.
      by rewrite Hnm, decide_True by (done || apply tmp_ne).
Qed.

(** A store commits all of the received bytes or changes no file. *)
Lemma StoreFile_cases c cs rend h (net : N) r h' net' :
  disk_wf (disk h) → isPrimary h = true →
  dedupTable h !! dedupKey (sr_ClientId c) (sr_ReqSeq c) = None →
  StoreFile flt (mkRecv (c :: cs) rend) h net = Ret (r, h', net') →
  let p := outPath h (sr_Path c) in
  only_file p h h' ∧
  (rend = None ∧ r = Ok (mkStoreFileResponse (i64 (version_of h p + 1)) "") ∧
     stored c (concat (sr_Data <$> c :: cs)) h h' ∧ store_sent flt c h h' net net' ∨
   store_failed r ∧ not_stored p h h' ∧ net' = net).
Proof.
  intros Hwf Hprim Hdd E p. unfold StoreFile in E. rewrite Hprim in E.
  cbn [msgs recv_end StoreFile_loop] in E. unfold StoreFile_step in E. cbn [sl_first] in E.
  unfold StoreFile_first in E. rewrite Hdd in E. fold p in E.
  destruct (os_Create flt (disk h) (p +:+ ".tmp")) as [[fd|e] d] eqn:Ec; cycle 1.
  { apply os_Create_err in Ec. subst d. cbn in E. injection E as <- <- <-.
    destruct (touches_not_stored p h (set_disk (disk h) h)) as (? & ?); [by destruct h|].
    split; [done|]. right. done. }
  destruct (os_Create_touches _ _ _ _ _ Hwf Ec) as [Hto Hw]. pose proof Hto as (_ & Hwf1 & _).
  cbn -[StoreFile_loop write_chunk StoreFile_commit] in E.
  assert (Hwc := write_chunk_spec flt
    (λ e, Ok (mkStoreFileResponse 0 ("writing chunk: " +:+ e))) (set_disk d h) fd _ _ (sr_Data c) Hwf1 Hw).
  destruct (write_chunk _ _ _ _ _ _) as [[tmp h1]|[r1 h1]].
  2: { destruct Hwc as [Hto1 (e & ->)]. cbn in E. injection E as <- <- <-.
       apply (touches_only_trans _ _ _ _ Hto) in Hto1.
       apply touches_not_stored in Hto1 as (? & ?). split; [done|]. right. done. }
  destruct Hwc as (Hto1 & fd' & -> & Hw1). apply (touches_only_trans _ _ _ _ Hto) in Hto1.
  pose proof Hto1 as (_ & Hwf2 & _). cbn -[StoreFile_loop write_chunk StoreFile_commit] in E.
  destruct (StoreFile_loop_spec flt cs rend
    (mkStoreLoop (sr_Path c) (sr_ClientId c) (sr_ReqSeq c) (Some fd') p (p +:+ ".tmp") false) h1
    (sr_Data c) Hwf2 ltac:(split; [done|split; [done|by exists fd']])) as (x & Hx & Hl).
  rewrite Hx in E. cbn -[StoreFile_commit] in E. destruct x as [[v h2]|[r2 h2]].
  - destruct Hl as (-> & Hto2 & Hst & Hfp & Hpath & Hcid & Hseq).
    apply (touches_only_trans _ _ _ _ Hto1) in Hto2. pose proof Hto2 as (E2 & Hwf3 & _).
    injection E as E.
    destruct (StoreFile_commit_spec c v h h2 _ net r h' net' Hwf3 Hst E2 Hfp Hpath Hcid Hseq E) as [Hof Hcase].
    split; [by eapply only_file_trans'|].
    destruct Hcase as [[-> Hs]|(Hf & Hr & Eh & ->)]; [by left|right].
    split; [done|]. split; [|done]. split; [|done].
    etrans; [exact Hr|]. by apply touches_not_stored in Hto2 as (_ & ? & _).
  - destruct Hl as [Hto2 Hne]. injection E as <- <- <-.
    apply (touches_only_trans _ _ _ _ Hto1) in Hto2.
    apply touches_not_stored in Hto2 as (? & ?). split; [done|]. right. done.
Qed.

(** ** A complete stream to a healthy disk is always stored *)

Lemma StoreFile_loop_ok chunks v h fd :
  sl_first v = false → sl_tmpFile v = Some fd → fd_writable fd = true →
  ∃ v' h', StoreFile_loop no_faults chunks None v h = Ret (Continue (v', h')) ∧
    is_Some (sl_tmpFile v') ∧ sl_tmpPath v' = sl_tmpPath v ∧ sl_fullPath v' = sl_fullPath v ∧
    names (disk h') = names (disk h).
Proof.
  revert v h fd. induction chunks as [|chunk chunks IH]; intros v h fd Hf Hfd Hw.
  - exists v, h. simpl. rewrite Hfd. split_and!; eauto.
  - cbn [StoreFile_loop]. unfold StoreFile_step. rewrite Hf. go_step. rewrite Hfd.
    destruct (write_chunk_ok (λ e, Ok (mkStoreFileResponse 0 ("writing chunk: " +:+ e)))
                h fd (sl_tmpPath v) (sr_Data chunk) Hw) as (fd' & h1 & -> & Hw' & Hn).
    destruct (IH (mkStoreLoop (sl_path v) (sl_clientID v) (sl_reqSeq v) (Some fd') (sl_fullPath v)
      (sl_tmpPath v) (sl_first v)) h1 fd') as (v' & h' & Hl & Hs & Ht & Hfp & Hn'); [done..|].
    go_step. rewrite Hl. exists v', h'. split_and!; try done. by rewrite Hn'.
Qed.

Lemma StoreFile_ok c cs h (net : N) :
  disk_wf (disk h) → isPrimary h = true →
  dedupTable h !! dedupKey (sr_ClientId c) (sr_ReqSeq c) = None →
  let p := outPath h (sr_Path c) in
  names (disk h) !! p ≠ Some DDir → names (disk h) !! (p +:+ ".tmp") ≠ Some DDir →
  ∃ resp h' net', StoreFile no_faults (mkRecv (c :: cs) None) h net = Ret (Ok resp, h', net') ∧
    sp_Error resp = "".
Proof.
  intros Hwf Hprim Hdd p Hp Ht. unfold StoreFile. rewrite Hprim.
  cbn [msgs recv_end StoreFile_loop]. unfold StoreFile_step. cbn [sl_first].
  unfold StoreFile_first. rewrite Hdd. fold p.
  destruct (os_Create_ok _ _ Ht) as (fd & d & Ec). rewrite Ec. go_step. cbn [sl_tmpFile sl_tmpPath].
  destruct (os_Create_touches _ _ h _ _ Hwf Ec) as [(_ & _ & Hsame) (Hn & _ & Hw & _)].
  simpl in Hsame, Hn.
  destruct (write_chunk_ok (λ e, Ok (mkStoreFileResponse 0 ("writing chunk: " +:+ e)))
              (set_disk d h) fd (p +:+ ".tmp") (sr_Data c) Hw) as (fd' & h1 & -> & Hw' & Hn1).
  go_step. cbn [sl_path sl_clientID sl_reqSeq sl_fullPath sl_first].
  destruct (StoreFile_loop_ok cs (mkStoreLoop (sr_Path c) (sr_ClientId c) (sr_ReqSeq c) (Some fd') p
    (p +:+ ".tmp") false) h1 fd') as (v' & h' & -> & [fd2 Hfd2] & Htp & Hfp & Hn2); [done..|].
  go_step. unfold StoreFile_commit. rewrite Hfd2, Htp, Hfp. cbn [sl_tmpPath sl_fullPath].
  assert (Hren : (os_Rename no_faults (disk h') (p +:+ ".tmp") p).1 = None).
  { apply (os_Rename_ok _ _ _ (fd_ino fd)); rewrite Hn2, Hn1; simpl; [done|].
    destruct (Hsame p) as [_ ->]; [|done]. intros E. by destruct (tmp_ne p). }
  destruct (os_Rename _ _ _ _) as [e d']. simpl in Hren. subst e. eauto.
Qed.

(** With no matching entry the handler returns, whatever fails. *)
Lemma StoreFile_loop_returns chunks rend v h :
  sl_first v = false → ∃ x, StoreFile_loop flt chunks rend v h = Ret x.
Proof.
  revert v h. induction chunks as [|chunk chunks IH]; intros v h Hf; simpl.
  - destruct rend; eauto.
  - unfold StoreFile_step. rewrite Hf. go_step.
    destruct (write_chunk _ _ _ _ _ _) as [[tmp h1]|[r h1]]; go_step; [|by eauto].
    by apply IH.
Qed.

Lemma StoreFile_returns c cs rend h (net : N) :
  dedupTable h !! dedupKey (sr_ClientId c) (sr_ReqSeq c) = None →
  ∃ r h' net', StoreFile flt (mkRecv (c :: cs) rend) h net = Ret (r, h', net').
Proof.
  intros Hdd. unfold StoreFile. destruct (isPrimary h); [|by eauto].
  cbn [msgs recv_end StoreFile_loop]. unfold StoreFile_step. cbn [sl_first].
  unfold StoreFile_first. rewrite Hdd. cbn zeta.
  destruct (os_Create _ _ _) as [[fd|e] d]; go_step; [|by eauto].
  destruct (write_chunk _ _ _ _ _ _) as [[tmp h1]|[r h1]]; go_step; [|by eauto].
  match goal with |- context [StoreFile_loop flt cs rend ?v ?h1] =>
    destruct (StoreFile_loop_returns cs rend v h1) as [x ->]; [done|] end.
  go_step. destruct x as [[v h2]|[r h2]]; [|by eauto].
  destruct (StoreFile_commit _ _ _ _) as [[r h3] net3]. eauto.
Qed.

End Store.

(** ** [CreateFile], [DeleteFile] and [Open], branch by branch *)

Section Unary.
  Context (flt : OsFaults) {N : Type} `{!PeerNet N}.

Definition created (req : CreateFileRequest) (resp : CreateFileResponse) (h h' : Handler) : Prop :=
  let p := outPath h (cr_Path req) in
  let id := i64 (nextHandle h + 1) in
  resp = mkCreateFileResponse id "" ∧ read_file (disk h') p = Some [] ∧
  h' = set_dedup (<[dedupKey (cr_ClientId req) (cr_ReqSeq req) := DCreate resp]> (dedupTable h))
        (set_handles (<[id := mkFileHandle p true]> (handles h))
          (set_nextHandle id (set_versions (<[p := 1%Z]> (versions h)) (set_disk (disk h') h)))).

Lemma CreateFile_cases req h (net : N) :
  disk_wf (disk h) → isPrimary h = true →
  dedupTable h !! dedupKey (cr_ClientId req) (cr_ReqSeq req) = None →
  let p := outPath h (cr_Path req) in
  ∃ resp h' net', CreateFile flt req h net = Ret (resp, h', net') ∧
    disk_wf (disk h') ∧ same_except p (disk h) (disk h') ∧
    (os_Stat flt (disk h) p ≠ StatOk ∧ created req resp h h' ∧
       net' = replicateStreamToAll flt
         (set_handles (<[i64 (nextHandle h + 1) := mkFileHandle p true]> (handles h))
          (set_nextHandle (i64 (nextHandle h + 1))
            (set_versions (<[p := 1%Z]> (versions h)) (set_disk (disk h') h))))
         "create" (cr_Path req) p 1 net ∨
     cp_Error resp ≠ "" ∧ h' = h ∧ net' = net).
Proof.
  intros Hwf Hprim Hdd p. unfold CreateFile. rewrite Hprim, Hdd. fold p.
  destruct (os_Stat flt (disk h) p) eqn:Hst.
  { eexists _, _, _. split; [done|]. split; [done|]. split; [apply same_except_refl|]. by right. }
  all: destruct (os_Create flt (disk h) p) as [[fd|e0] d] eqn:Ec;
    [|apply os_Create_err in Ec; subst d; eexists _, _, _; split; [done|];
      split; [done|]; split; [apply same_except_refl|]; right; by destruct h].
  all: destruct (os_Create_spec _ _ _ _ _ Hwf Ec) as (Hwf' & _ & Hr).
  all: eexists _, _, _; split; [done|]; split; [done|]; split; [by eapply os_Create_same|]; left.
  all: split; [done|]; split; [|done]; split; [done|]; split; [|done]; simpl.
  all: by rewrite Hr, decide_True.
Qed.

Definition deleted (req : DeleteFileRequest) (resp : DeleteFileResponse) (h h' : Handler) : Prop :=
  let p := outPath h (dr_Path req) in
  resp = mkDeleteFileResponse "" ∧ read_file (disk h') p = None ∧
  h' = set_dedup (<[dedupKey (dr_ClientId req) (dr_ReqSeq req) := DDelete resp]> (dedupTable h))
        (set_versions (delete p (versions h)) (set_disk (disk h') h)).

Lemma DeleteFile_cases req h (net : N) :
  disk_wf (disk h) → isPrimary h = true →
  dedupTable h !! dedupKey (dr_ClientId req) (dr_ReqSeq req) = None →
  let p := outPath h (dr_Path req) in
  ∃ resp h' net', DeleteFile flt req h net = Ret (resp, h', net') ∧
    disk_wf (disk h') ∧ same_except p (disk h) (disk h') ∧
    (deleted req resp h h' ∧
       net' = replicateStreamToAll flt (set_versions (delete p (versions h)) (set_disk (disk h') h))
         "delete" (dr_Path req) p 0 net ∨
     dp_Error resp ≠ "" ∧ h' = h ∧ net' = net).
Proof.
  intros Hwf Hprim Hdd p. unfold DeleteFile. rewrite Hprim, Hdd. fold p.
  destruct (os_Remove flt (disk h) p) as [r d] eqn:Er.
  destruct (os_Remove_spec _ _ _ _ _ Hwf Er) as [Hwf' Hr].
  pose proof (os_Remove_same _ _ _ _ _ Hwf Er) as Hs.
  destruct r as [| |e].
  - eexists _, _, _. split; [done|]. split; [done|]. split; [done|]. left.
    split; [|done]. split; [done|]. split; [|done]. simpl. by rewrite Hr, decide_True.
  - destruct Hr as [-> Hn]. eexists _, _, _. split; [done|]. split; [done|]. split; [done|]. left. done.
  - subst d. eexists _, _, _. split; [done|]. split; [done|]. split; [done|]. right. by destruct h.
Qed.

Definition opened_file (req : OpenRequest) (resp : OpenResponse) (p : string) (h h' : Handler) : Prop :=
  let id := i64 (nextHandle h + 1) in
  resp = mkOpenResponse id "" ∧
  h' = set_dedup (<[dedupKey (or_ClientId req) (or_ReqSeq req) := DOpen resp]> (dedupTable h))
        (set_handles (<[id := mkFileHandle p (or_Write req)]> (handles h)) (set_nextHandle id h)).

Lemma resolvePath_err h name e : resolvePath flt h name = Err e → e ≠ "".
Proof.
  unfold resolvePath. case_decide; [by intros [= <-]|]. repeat case_match; done.
Qed.

Lemma Open_cases req h :
  dedupTable h !! dedupKey (or_ClientId req) (or_ReqSeq req) = None →
  ∃ resp h', Open flt req h = Ret (resp, h') ∧
    ((∃ p, resolvePath flt h (or_Path req) = Ok p ∧ os_Stat flt (disk h) p ≠ StatNotExist ∧
        opened_file req resp p h h') ∨
     op_Error resp ≠ "" ∧ h' = h).
Proof.
  intros Hdd. unfold Open. rewrite Hdd.
  destruct (resolvePath flt h (or_Path req)) as [p|e] eqn:Hp.
  - destruct (os_Stat flt (disk h) p) eqn:Hst; eexists _, _; (split; [done|]).
    + left. exists p. by rewrite Hst.
    + by right.
    + left. exists p. by rewrite Hst.
  - eexists _, _. split; [done|]. right. split; [|done]. by apply resolvePath_err in Hp.
Qed.

End Unary.

(** ** What a client that fetches a file receives *)

Section Fetch.
  Context (flt : OsFaults).

Lemma os_Open_file d p data f :
  read_file d p = Some data → os_Open flt d p = Ok f →
  ∃ fd, f = OpenFile fd ∧ fd_off fd = 0 ∧ fd_path fd = p ∧ content d (fd_ino fd) = data.
Proof.
  unfold os_Open, read_file. destruct (open_fault flt p); [done|].
  destruct (names d !! p) as [[i|]|]; try done. intros [= <-] [= <-]. by eexists.
Qed.

Lemma read_chunks_prefix size d fd data cs e :
  0 < size → fd_off fd = 0 → content d (fd_ino fd) = data →
  read_chunks flt size d (OpenFile fd) = (cs, e) →
  concat cs `prefix_of` data ∧ (e = None → concat cs = data) ∧ Forall (λ c, 0 < length c ≤ size) cs.
Proof.
  intros Hs Ho Hc. unfold read_chunks. rewrite Ho, Hc, drop_0.
  destruct (read_fault flt (fd_path fd)) as [[k e']|]; intros [= <- <-].
  - split; [|split; [done|by apply Forall_take, chunks_bound]].
    rewrite <- (chunks_concat size data) at 2 by done.
    rewrite <- (take_drop k (chunks size data)) at 2. rewrite concat_app. by apply prefix_app_r.
  - rewrite chunks_concat by done. split; [done|]. split; [done|]. by apply chunks_bound.
Qed.

Lemma concat_prefix {A} (xs ys : list (list A)) : xs `prefix_of` ys → concat xs `prefix_of` concat ys.
Proof. intros [k ->]. rewrite concat_app. by apply prefix_app_r. Qed.

Definition error_free (s : send_stream FetchFileResponse) : Prop :=
  Forall (λ m, fp_Error m = "") (sent s).

Lemma stream_Send_error q m e s :
  fp_Error m ≠ "" → stream_Send (mkSend [] q) m = (e, s) → error_free s → sent s = [] ∧ e ≠ None.
Proof.
  intros Hm. unfold stream_Send. simpl. destruct q as [[|k]|]; intros [= <- <-]; simpl; [done|..].
  all: intros Hf; by inversion Hf.
Qed.

Lemma FetchFile_cases req q h e s p data :
  resolvePath flt h (fr_Path req) = Ok p → read_file (disk h) p = Some data →
  FetchFile flt req (mkSend [] q) h = (e, s) → error_free s →
  let got := concat (fp_Data <$> sent s) in
  got `prefix_of` data ∧ (e = None → got = data) ∧
  Forall (λ m, fp_Version m = version_of h p ∧ 0 < length (fp_Data m) ≤ chunkSize) (sent s).
Proof.
  intros Hp Hd. unfold FetchFile. rewrite Hp.
  destruct (os_Open flt (disk h) p) as [f|e0] eqn:Ho.
  2: { intros E Hf. apply stream_Send_error in E as [-> ?]; [|done..].
       split; [apply prefix_nil|]. by split. }
  destruct (os_Open_file _ _ _ _ Hd Ho) as (fd & -> & Hoff & _ & Hc).
  destruct (read_chunks flt chunkSize (disk h) (OpenFile fd)) as [cs rd] eqn:Hr.
  destruct (read_chunks_prefix _ _ _ _ _ _ chunkSize_pos Hoff Hc Hr) as (Hpre & Hfull & Hlen).
  destruct (send_all _ _) as [se s1] eqn:Hsend. apply send_all_prefix in Hsend as (ys & Hs & Hy & Hall).
  simpl in Hs. intros E _.
  assert (s1 = s ∧ (e = None → se = None ∧ rd = None)) as [-> He] by (destruct se; naive_solver).
  rewrite Hs. clear E Hs.
  set (mk := λ c, mkFetchFileResponse c (version_of h p) "") in *.
  assert (Hmk : fp_Data <$> (mk <$> cs) = cs) by (rewrite <- list_fmap_compose; apply list_fmap_id).
  split; [|split].
  - etrans; [|exact Hpre]. apply concat_prefix. rewrite <- Hmk. destruct Hy as [k ->].
    rewrite fmap_app. by apply prefix_app_r.
  - intros [Hse Hrd]%He. rewrite (Hall Hse), Hmk. auto.
  - destruct Hy as [k Hy]. assert (Hin : Forall (λ m, fp_Version m = version_of h p ∧
      0 < length (fp_Data m) ≤ chunkSize) (mk <$> cs)).
    { apply Forall_fmap. eapply Forall_impl; [exact Hlen|]. done. }
    rewrite Hy in Hin. by apply Forall_app in Hin as [? _].
Qed.

End Fetch.

Lemma resolvePath_output h name :
  safe_name (Base name) → names (disk h) !! PathJoin (inputDir h) (Base name) = None →
  is_Some (read_file (disk h) (outPath h name)) →
  resolvePath no_faults h name = Ok (outPath h name).
Proof.
  intros (_ & H1 & H2 & _) Hin [data Hd]. unfold resolvePath. rewrite decide_False by tauto.
  unfold os_Stat. simpl. rewrite Hin. unfold outPath, read_file in *.
  by destruct (names (disk h) !! PathJoin (outputDir h) (Base name)).
Qed.

Lemma FetchFile_ok req h p data :
  resolvePath no_faults h (fr_Path req) = Ok p → read_file (disk h) p = Some data →
  ∃ s, FetchFile no_faults req open_stream h = (None, s) ∧ error_free s.
Proof.
  intros Hp Hd. unfold FetchFile, open_stream. rewrite Hp. unfold read_file in Hd. unfold os_Open. simpl.
  destruct (names (disk h) !! p) as [[i|]|]; try done. simpl. rewrite send_all_open.
  eexists. split; [done|]. unfold error_free. simpl. apply Forall_fmap, Forall_true. done.
Qed.
