(* ===== verification/Service.v ===== *)
(** * The service seen from its callers

    [serve] dispatches a request to the handler of Handler.v that the generated
    service registers for it.  On it: the request discipline under which no
    handler panics, requests replayed by a client that lost the answer, and the
    properties of single calls. *)

From S2P Require Import Prelude GoLib GoText GoPath Disk AfsProto Server Handler HandlerSpec.

Inductive call :=
  | CallOpen (req : OpenRequest)
  | CallStore (stream : recv_stream StoreFileRequest)
  | CallCreate (req : CreateFileRequest)
  | CallDelete (req : DeleteFileRequest)
  | CallClose (req : CloseFileRequest)
  | CallTestAuth (req : TestAuthRequest).

Inductive reply :=
  | ReplyOpen (r : OpenResponse)
  | ReplyStore (r : result StoreFileResponse)
  | ReplyCreate (r : CreateFileResponse)
  | ReplyDelete (r : DeleteFileResponse)
  | ReplyClose (r : CloseFileResponse)
  | ReplyTestAuth (r : TestAuthResponse).

(** The four kinds of response in the deduplication table. *)
Inductive kind := KOpen | KStore | KCreate | KDelete.
#[export] Instance kind_eq_dec : EqDecision kind.
Proof. solve_decision. Defined.

Definition entry_kind (e : dedupEntry) : kind :=
  match e with DOpen _ => KOpen | DStore _ => KStore | DCreate _ => KCreate | DDelete _ => KDelete end.

(** The client id, sequence number and kind under which a call is deduplicated. *)
Definition call_key (c : call) : option (string * Z * kind) :=
  match c with
  | CallOpen r => Some (or_ClientId r, or_ReqSeq r, KOpen)
  | CallStore s => r ← head (msgs s); Some (sr_ClientId r, sr_ReqSeq r, KStore)
  | CallCreate r => Some (cr_ClientId r, cr_ReqSeq r, KCreate)
  | CallDelete r => Some (dr_ClientId r, dr_ReqSeq r, KDelete)
  | CallClose _ | CallTestAuth _ => None
  end.

(** The response carries no error. *)
Definition reply_ok (r : reply) : Prop :=
  match r with
  | ReplyOpen r => op_Error r = ""
  | ReplyStore (Ok r) => sp_Error r = ""
  | ReplyStore (Err _) => False
  | ReplyCreate r => cp_Error r = ""
  | ReplyDelete r => dp_Error r = ""
  | ReplyClose r => clp_Error r = ""
  | ReplyTestAuth _ => True
  end.

Section Service.
  Context {N : Type} `{!PeerNet N}.

Definition serve (flt : OsFaults) (c : call) (h : Handler) (net : N) : outcome (reply * Handler * N) :=
  match c with
  | CallOpen req => '(r, h) ← Open flt req h; Ret (ReplyOpen r, h, net)
  | CallStore s => '(r, h, net) ← StoreFile flt s h net; Ret (ReplyStore r, h, net)
  | CallCreate req => '(r, h, net) ← CreateFile flt req h net; Ret (ReplyCreate r, h, net)
  | CallDelete req => '(r, h, net) ← DeleteFile flt req h net; Ret (ReplyDelete r, h, net)
  | CallClose req => let '(r, h) := CloseFile req h in Ret (ReplyClose r, h, net)
  | CallTestAuth req => Ret (ReplyTestAuth (TestAuth flt req h), h, net)
  end.

(** Calls one after another; the disk may fail differently in each. *)
Fixpoint serve_all (cs : list (OsFaults * call)) (h : Handler) (net : N)
    : outcome (list reply * Handler * N) :=
  match cs with
  | [] => Ret ([], h, net)
  | (flt, c) :: cs =>
      '(r, h, net) ← serve flt c h net;
      '(rs, h, net) ← serve_all cs h net;
      Ret (r :: rs, h, net)
  end.

(** ** No handler panics when a sequence number is used for one kind of call *)

Definition consistent (κ : string → Z → kind) (c : call) : Prop :=
  match call_key c with
  | Some (cid, seq, k) => κ cid seq = k
  | None => True
  end.

Definition dedup_ok (κ : string → Z → kind) (h : Handler) : Prop :=
  ∀ cid seq e, dedupTable h !! dedupKey cid seq = Some e → entry_kind e = κ cid seq.

Lemma dedup_ok_insert κ h h' cid seq e :
  dedup_ok κ h → entry_kind e = κ cid seq →
  dedupTable h' = <[dedupKey cid seq := e]> (dedupTable h) → dedup_ok κ h'.
Proof.
  intros Hok He Ht cid' seq' e'. rewrite Ht, lookup_insert. case_decide as Hk; [|by apply Hok].
  apply dedupKey_inj_aux in Hk as [<- <-]. by intros [= <-].
Qed.

(** What every call preserves. *)
Definition service_inv (κ : string → Z → kind) (h : Handler) : Prop :=
  disk_wf (disk h) ∧ dedup_ok κ h.

Lemma serve_inv κ flt c h (net : N) :
  service_inv κ h → consistent κ c →
  ∃ r h' net', serve flt c h net = Ret (r, h', net') ∧ service_inv κ h'.
Proof.
  intros [Hwf Hok] Hc. destruct c as [req|[[|c cs] rend]|req|req|req|req]; unfold serve;
    unfold consistent, call_key in Hc; simpl in Hc.
  - destruct (dedupTable h !! dedupKey (or_ClientId req) (or_ReqSeq req)) as [e|] eqn:Hdd.
    + apply Hok in Hdd as Hk. unfold Open. rewrite Hdd. destruct e; simplify_eq/=; try congruence.
      eexists _, _, _. by split.
    + destruct (Open_cases flt req h Hdd) as (resp & h' & -> & Hcase).
      eexists _, _, _. split; [done|].
      destruct Hcase as [(p & _ & _ & _ & ->)|[_ ->]]; [|by split]. split; [done|].
      by eapply dedup_ok_insert; [done| |done].
  - unfold StoreFile. destruct (isPrimary h); simpl; [destruct rend|]; by eexists _, _, _.
  - destruct (isPrimary h) eqn:Hprim.
    2: { unfold StoreFile. rewrite Hprim. by eexists _, _, _. }
    destruct (dedupTable h !! dedupKey (sr_ClientId c) (sr_ReqSeq c)) as [e|] eqn:Hdd.
    + apply Hok in Hdd as Hk. unfold StoreFile. rewrite Hprim. cbn [msgs recv_end StoreFile_loop].
      unfold StoreFile_step. cbn [sl_first]. unfold StoreFile_first. rewrite Hdd.
      destruct e; simplify_eq/=; try congruence. eexists _, _, _. by split.
    + destruct (StoreFile_returns flt c cs rend h net Hdd) as (r & h' & net' & E). rewrite E.
      eexists _, _, _. split; [done|].
      destruct (StoreFile_cases _ _ _ _ _ _ _ _ _ Hwf Hprim Hdd E) as [[Hwf' _] Hcase].
      split; [done|]. destruct Hcase as [(_ & _ & (_ & _ & ->) & _)|(_ & [_ ->] & _)]; [|done].
      by eapply dedup_ok_insert; [done| |done].
  - destruct (isPrimary h) eqn:Hprim.
    2: { unfold CreateFile. rewrite Hprim. by eexists _, _, _. }
    destruct (dedupTable h !! dedupKey (cr_ClientId req) (cr_ReqSeq req)) as [e|] eqn:Hdd.
    + apply Hok in Hdd as Hk. unfold CreateFile. rewrite Hprim, Hdd.
      destruct e; simplify_eq/=; try congruence. eexists _, _, _. by split.
    + destruct (CreateFile_cases flt req h net Hwf Hprim Hdd) as (r & h' & net' & -> & Hwf' & _ & Hcase).
      eexists _, _, _. split; [done|]. split; [done|].
      destruct Hcase as [(_ & (_ & _ & ->) & _)|(_ & -> & _)]; [|done]. by eapply dedup_ok_insert; [done| |done].
  - destruct (isPrimary h) eqn:Hprim.
    2: { unfold DeleteFile. rewrite Hprim. by eexists _, _, _. }
    destruct (dedupTable h !! dedupKey (dr_ClientId req) (dr_ReqSeq req)) as [e|] eqn:Hdd.
    + apply Hok in Hdd as Hk. unfold DeleteFile. rewrite Hprim, Hdd.
      destruct e; simplify_eq/=; try congruence. eexists _, _, _. by split.
    + destruct (DeleteFile_cases flt req h net Hwf Hprim Hdd) as (r & h' & net' & -> & Hwf' & _ & Hcase).
      eexists _, _, _. split; [done|]. split; [done|].
      destruct Hcase as [((_ & _ & ->) & _)|(_ & -> & _)]; [|done]. by eapply dedup_ok_insert; [done| |done].
  - unfold CloseFile. destruct (handles h !! clr_FileHandleId req); by eexists _, _, _.
  - by eexists _, _, _.
Qed.

Lemma serve_all_inv κ cs h (net : N) :
  service_inv κ h → Forall (λ c, consistent κ c.2) cs →
  ∃ rs h' net', serve_all cs h net = Ret (rs, h', net') ∧ service_inv κ h' ∧ length rs = length cs.
Proof.
  revert h net. induction cs as [|[flt c] cs IH]; intros h net Hinv Hc; simpl; [by eexists _, _, _|].
  inversion Hc as [|? ? Hc1 Hcs]; subst.
  destruct (serve_inv κ flt c h net Hinv Hc1) as (r & h1 & net1 & -> & Hinv1). go_step.
  destruct (IH h1 net1 Hinv1 Hcs) as (rs & h2 & net2 & -> & ? & ?). go_step.
  eexists _, _, _. split; [done|]. split; [done|]. simpl. lia.
Qed.

(** ** Replays *)

(** The entry a call leaves when it succeeds with the reply [r]. *)
Definition recorded (c : call) (r : reply) (h : Handler) : Prop :=
  match c, r with
  | CallOpen req, ReplyOpen p =>
      dedupTable h !! dedupKey (or_ClientId req) (or_ReqSeq req) = Some (DOpen p)
  | CallStore (mkRecv (c :: _) _), ReplyStore (Ok p) =>
      isPrimary h = true ∧ dedupTable h !! dedupKey (sr_ClientId c) (sr_ReqSeq c) = Some (DStore p)
  | CallCreate req, ReplyCreate p =>
      isPrimary h = true ∧ dedupTable h !! dedupKey (cr_ClientId req) (cr_ReqSeq req) = Some (DCreate p)
  | CallDelete req, ReplyDelete p =>
      isPrimary h = true ∧ dedupTable h !! dedupKey (dr_ClientId req) (dr_ReqSeq req) = Some (DDelete p)
  | _, _ => False
  end.

Lemma recorded_serve flt c r h (net : N) : recorded c r h → serve flt c h net = Ret (r, h, net).
Proof.
  destruct c as [req|[[|c cs] rend]|req|req|req|req], r as [r|[r|?]|r|r|r|r]; try done; cbn [recorded serve].
  - intros Hd. unfold Open. by rewrite Hd.
  - intros [Hp Hd]. unfold StoreFile. rewrite Hp. cbn [msgs recv_end StoreFile_loop].
    unfold StoreFile_step. cbn [sl_first]. unfold StoreFile_first. by rewrite Hd.
  - intros [Hp Hd]. unfold CreateFile. by rewrite Hp, Hd.
  - intros [Hp Hd]. unfold DeleteFile. by rewrite Hp, Hd.
Qed.


(** How the deduplication table evolves: entries are added, never changed. *)
Definition table_grows (h h' : Handler) : Prop :=
  dedupTable h ⊆ dedupTable h' ∧ isPrimary h' = isPrimary h.

Lemma table_grows_insert h h' k e :
  dedupTable h !! k = None → dedupTable h' = <[k := e]> (dedupTable h) →
  isPrimary h' = isPrimary h → table_grows h h'.
Proof. intros Hk E Hp. split; [rewrite E; by apply insert_subseteq|done]. Qed.

Lemma table_grows_refl h : table_grows h h.
Proof. by split. Qed.
#[local] Hint Resolve table_grows_refl : core.

Lemma table_grows_trans h1 h2 h3 : table_grows h1 h2 → table_grows h2 h3 → table_grows h1 h3.
Proof. intros [? E1] [? E2]. split; [by etrans|by rewrite E2]. Qed.

(** What one call guarantees of the handler it leaves. *)
Definition call_post (c : call) (r : reply) (h h' : Handler) : Prop :=
  disk_wf (disk h') ∧ table_grows h h' ∧ (reply_ok r → recorded c r h').

Lemma Open_post flt req h (net : N) r h' net' :
  disk_wf (disk h) → serve flt (CallOpen req) h net = Ret (r, h', net') → call_post (CallOpen req) r h h'.
Proof.
  intros Hwf E. unfold serve in E.
  destruct (dedupTable h !! dedupKey (or_ClientId req) (or_ReqSeq req)) as [e|] eqn:Hdd.
  - unfold Open in E. rewrite Hdd in E. by destruct e; simplify_eq/=.
  - destruct (Open_cases flt req h Hdd) as (resp & h1 & E1 & Hcase). rewrite E1 in E. simplify_eq/=.
    destruct Hcase as [(p & _ & _ & _ & ->)|[? ->]]; [|by split].
    split; [done|]. split; [by eapply table_grows_insert|]. simpl. by rewrite lookup_insert_eq.
Qed.

Lemma StoreFile_post flt c cs rend h (net : N) r h' net' :
  disk_wf (disk h) → serve flt (CallStore (mkRecv (c :: cs) rend)) h net = Ret (r, h', net') →
  call_post (CallStore (mkRecv (c :: cs) rend)) r h h'.
Proof.
  intros Hwf E. unfold serve in E. destruct (isPrimary h) eqn:Hprim.
  2: { unfold StoreFile in E. rewrite Hprim in E. by simplify_eq/=. }
  destruct (dedupTable h !! dedupKey (sr_ClientId c) (sr_ReqSeq c)) as [e|] eqn:Hdd.
  - unfold StoreFile in E. rewrite Hprim in E. cbn [msgs recv_end StoreFile_loop] in E.
    unfold StoreFile_step in E. cbn [sl_first] in E. unfold StoreFile_first in E.
    rewrite Hdd in E. by destruct e; simplify_eq/=.
  - apply outcome_bind_inv in E as ([[r1 h1] n1] & E & [= <- <- <-]).
    destruct (StoreFile_cases _ _ _ _ _ _ _ _ _ Hwf Hprim Hdd E) as [[Hwf' _] Hcase].
    split; [done|]. destruct Hcase as [(_ & -> & (_ & _ & ->) & _)|(Hf & [_ ->] & _)].
    + split; [by eapply table_grows_insert|]. simpl. by rewrite lookup_insert_eq.
    + split; [done|]. by destruct r1.
Qed.

Lemma CreateFile_post flt req h (net : N) r h' net' :
  disk_wf (disk h) → serve flt (CallCreate req) h net = Ret (r, h', net') →
  call_post (CallCreate req) r h h'.
Proof.
  intros Hwf E. unfold serve in E. destruct (isPrimary h) eqn:Hprim.
  2: { unfold CreateFile in E. rewrite Hprim in E. by simplify_eq/=. }
  destruct (dedupTable h !! dedupKey (cr_ClientId req) (cr_ReqSeq req)) as [e|] eqn:Hdd.
  - unfold CreateFile in E. rewrite Hprim, Hdd in E. by destruct e; simplify_eq/=.
  - destruct (CreateFile_cases flt req h net Hwf Hprim Hdd) as (r1 & h1 & n1 & E1 & Hwf' & _ & Hcase).
    rewrite E1 in E. simplify_eq/=. split; [done|].
    destruct Hcase as [(_ & (_ & _ & ->) & _)|(? & -> & _)]; [|by split].
    split; [by eapply table_grows_insert|]. simpl. by rewrite lookup_insert_eq.
Qed.

Lemma DeleteFile_post flt req h (net : N) r h' net' :
  disk_wf (disk h) → serve flt (CallDelete req) h net = Ret (r, h', net') →
  call_post (CallDelete req) r h h'.
Proof.
  intros Hwf E. unfold serve in E. destruct (isPrimary h) eqn:Hprim.
  2: { unfold DeleteFile in E. rewrite Hprim in E. by simplify_eq/=. }
  destruct (dedupTable h !! dedupKey (dr_ClientId req) (dr_ReqSeq req)) as [e|] eqn:Hdd.
  - unfold DeleteFile in E. rewrite Hprim, Hdd in E. by destruct e; simplify_eq/=.
  - destruct (DeleteFile_cases flt req h net Hwf Hprim Hdd) as (r1 & h1 & n1 & E1 & Hwf' & _ & Hcase).
    rewrite E1 in E. simplify_eq/=. split; [done|].
    destruct Hcase as [((_ & _ & ->) & _)|(? & -> & _)]; [|by split].
    split; [by eapply table_grows_insert|]. simpl. by rewrite lookup_insert_eq.
Qed.

Lemma serve_spec flt c h (net : N) r h' net' :
  disk_wf (disk h) → serve flt c h net = Ret (r, h', net') →
  disk_wf (disk h') ∧ table_grows h h' ∧ (is_Some (call_key c) → reply_ok r → recorded c r h').
Proof.
  intros Hwf E. destruct c as [req|[[|c cs] rend]|req|req|req|req].
  - by destruct (Open_post _ _ _ _ _ _ _ Hwf E) as (? & ? & ?).
  - simpl in E. unfold StoreFile in E. simpl in E.
    destruct (isPrimary h), rend; simplify_eq/=; split; try done; (split; [done|]); by intros [].
  - by destruct (StoreFile_post _ _ _ _ _ _ _ _ _ Hwf E) as (? & ? & ?).
  - by destruct (CreateFile_post _ _ _ _ _ _ _ Hwf E) as (? & ? & ?).
  - by destruct (DeleteFile_post _ _ _ _ _ _ _ Hwf E) as (? & ? & ?).
  - simpl in E. unfold CloseFile in E. destruct (handles h !! clr_FileHandleId req); simplify_eq/=;
      (split; [done|]); (split; [done|]); by intros [].
  - simplify_eq/=. split; [done|]. split; [done|]. by intros [].
Qed.

Lemma recorded_grows c r h h' : table_grows h h' → recorded c r h → recorded c r h'.
Proof.
  intros [Ht Hp].
  destruct c as [req|[[|c cs] rend]|req|req|req|req], r as [r|[r|?]|r|r|r|r]; try done; simpl;
    rewrite ?Hp; intros; destruct_and?; repeat split; try done; by eapply lookup_weaken.
Qed.

Lemma serve_all_grows cs h (net : N) rs h' net' :
  disk_wf (disk h) → serve_all cs h net = Ret (rs, h', net') → table_grows h h'.
Proof.
  revert h net rs. induction cs as [|[flt c] cs IH]; intros h net rs Hwf E; simpl in E; [by simplify_eq/=|].
  apply outcome_bind_inv in E as ([[r h1] n1] & E1 & E).
  apply outcome_bind_inv in E as ([[rs2 h2] n2] & E2 & [= <- <- <-]).
  destruct (serve_spec _ _ _ _ _ _ _ Hwf E1) as (Hwf1 & Hg & _).
  eapply table_grows_trans; [done|]. by eapply IH.
Qed.

End Service.
