(* ===== verification/ServerProps.v ===== *)
(** * Properties of the AFS server

    The claims about single servers: deduplication, atomic stores, replays, the
    absence of panics, what a client that fetches receives, and version
    checks.  Each has a witness on the small server [demo]. *)

From S2P Require Import Prelude GoLib GoText GoPath Disk AfsProto Server Handler HandlerSpec Service.

(** A network without peers, and a primary with one input file. *)
#[export] Instance no_peers : PeerNet unit := { net_Replicate _ _ _ n := (Err "no such peer", n) }.

Definition demo_disk : Disk :=
  new_file (os_MkdirAll no_faults (os_MkdirAll no_faults empty_disk "in").2 "out").2 "in/a.txt".
Definition demo : Handler :=
  mkHandler "in" "out" ∅ ∅ 0 ∅ "s1" "localhost:5001" true "localhost:5001" [] 0 false demo_disk.

Lemma demo_wf : disk_wf (disk demo).
Proof.
  apply disk_wf_new_file. repeat (eapply os_MkdirAll_spec; [|apply surjective_pairing]).
  apply disk_wf_empty.
Qed.

Definition demo_chunk : StoreFileRequest := mkStoreFileRequest "b.txt" (s2b "2 3 ") "c" 1.
Definition demo_chunks : list StoreFileRequest := [mkStoreFileRequest "" (s2b "5") "" 0].

(** two requests share a deduplication key only if they have the same
    client and the same sequence number, whatever colons and digits the client
    id contains. *)
Theorem dedupKey_injective c1 s1 c2 s2 :
  dedupKey c1 s1 = dedupKey c2 s2 → c1 = c2 ∧ s1 = s2.
Proof. apply dedupKey_inj_aux. Qed.

Lemma dedupKey_injective_witness : dedupKey "a:1" 2 = dedupKey "a:1" 2 ∧ "a:1" = "a:1".
Proof. split; [done|]. by apply (dedupKey_injective "a:1" 2 "a:1" 2). Defined.

Section Claims.
  Context {N : Type} `{!PeerNet N}.

(** C8: whatever the disk and the stream do, a new store on the primary either
    answers success with the next version, after which the file holds exactly
    the bytes received and every backup was sent it, or reports an error and
    leaves the file, its version, the deduplication table and the network as
    they were; no other file but the temporary one changes. *)
Theorem StoreFile_all_or_nothing flt c cs rend h (net : N) r h' net' :
  disk_wf (disk h) → isPrimary h = true →
  dedupTable h !! dedupKey (sr_ClientId c) (sr_ReqSeq c) = None →
  StoreFile flt (mkRecv (c :: cs) rend) h net = Ret (r, h', net') →
  let p := outPath h (sr_Path c) in
  only_file p h h' ∧
  (rend = None ∧ r = Ok (mkStoreFileResponse (i64 (version_of h p + 1)) "") ∧
     stored c (concat (sr_Data <$> c :: cs)) h h' ∧ store_sent flt c h h' net net' ∨
   store_failed r ∧ not_stored p h h' ∧ net' = net).
Proof. apply StoreFile_cases. Qed.

(** any sequence of calls in which a client uses one sequence number for
    one kind of call only runs to completion with one reply per call, on any
    disk failures: no handler's type assertion panics. *)
Theorem service_never_panics κ cs h (net : N) :
  disk_wf (disk h) → dedupTable h = ∅ → Forall (λ c, consistent κ c.2) cs →
  ∃ rs h' net', serve_all cs h net = Ret (rs, h', net') ∧ length rs = length cs.
Proof.
  intros Hwf Ht Hcs. destruct (serve_all_inv κ cs h net) as (rs & h' & net' & E & _ & Hl); [|done|by eauto 10].
  split; [done|]. intros ???. by rewrite Ht, lookup_empty.
Qed.

(** C20: a call that succeeded and is sent again, at any later time and with any
    calls of any clients in between, gets the same reply and changes nothing:
    a client may retry a lost answer. *)
Theorem replay_is_idempotent flt c h (net : N) r h1 net1 cs rs h2 net2 flt' :
  disk_wf (disk h) → is_Some (call_key c) →
  serve flt c h net = Ret (r, h1, net1) → reply_ok r →
  serve_all cs h1 net1 = Ret (rs, h2, net2) →
  serve flt' c h2 net2 = Ret (r, h2, net2).
Proof.
  intros Hwf Hk E Hr Es. destruct (serve_spec _ _ _ _ _ _ _ Hwf E) as (Hwf1 & _ & Hrec).
  apply recorded_serve. eapply recorded_grows; [by eapply serve_all_grows|]. by apply Hrec.
Qed.

End Claims.

Lemma StoreFile_all_or_nothing_witness :
  ∃ resp h' net', StoreFile no_faults (mkRecv (demo_chunk :: demo_chunks) None) demo tt =
                    Ret (Ok resp, h', net') ∧ only_file "out/b.txt" demo h'.
Proof.
  destruct (StoreFile_ok demo_chunk demo_chunks demo tt) as (resp & h' & net' & E & _);
    [apply demo_wf|done..|].
  exists resp, h', net'. split; [exact E|].
  by apply (StoreFile_all_or_nothing no_faults _ _ _ demo tt (Ok resp) h' net' demo_wf eq_refl eq_refl E).
Defined.

Definition demo_kinds (_ : string) (seq : Z) : kind :=
  if (seq =? 1)%Z then KStore else if (seq =? 2)%Z then KCreate else KOpen.
Definition demo_calls : list (OsFaults * call) :=
  [(no_faults, CallStore (mkRecv (demo_chunk :: demo_chunks) None));
   (no_faults, CallCreate (mkCreateFileRequest "c.txt" "c" 2));
   (no_faults, CallStore (mkRecv (demo_chunk :: demo_chunks) None));
   (no_faults, CallOpen (mkOpenRequest "c.txt" true "d" 3))].

Lemma service_never_panics_witness :
  ∃ rs h' net', serve_all demo_calls demo tt = Ret (rs, h', net') ∧ length rs = 4.
Proof.
  apply (service_never_panics demo_kinds demo_calls demo tt); [apply demo_wf|done|].
  repeat constructor.
Defined.

Lemma replay_is_idempotent_witness :
  ∃ h1 h2 rs, let c := CallCreate (mkCreateFileRequest "c.txt" "c" 2) in
  let r := ReplyCreate (mkCreateFileResponse 1 "") in
  serve no_faults c demo tt = Ret (r, h1, tt) ∧ serve_all demo_calls h1 tt = Ret (rs, h2, tt) ∧
  serve no_faults c h2 tt = Ret (r, h2, tt).
Proof.
  eexists _, _, _. cbn zeta.
  split; [vm_compute; reflexivity|]. split; [vm_compute; reflexivity|].
  eapply (replay_is_idempotent no_faults _ demo tt _ _ _ demo_calls); [apply demo_wf|done|..].
  - vm_compute; reflexivity.
  - done.
  - vm_compute; reflexivity.
Defined.

(** What a client collects from a fetch without error messages is a prefix
    of the file, and all of it when the call ends without an error, whatever
    fails on the disk or the stream; every message carries the file's version
    and between one byte and one chunk of data. *)
Theorem FetchFile_whole_or_error flt req q h e s p data :
  resolvePath flt h (fr_Path req) = Ok p → read_file (disk h) p = Some data →
  FetchFile flt req (mkSend [] q) h = (e, s) → error_free s →
  let got := concat (fp_Data <$> sent s) in
  got `prefix_of` data ∧ (e = None → got = data) ∧
  Forall (λ m, fp_Version m = version_of h p ∧ 0 < length (fp_Data m) ≤ chunkSize) (sent s).
Proof. apply FetchFile_cases. Qed.

Lemma FetchFile_whole_or_error_witness :
  let h := set_disk (set_content demo_disk 0 (s2b "91 7")) demo in
  ∃ s, FetchFile no_faults (mkFetchFileRequest "in/a.txt") open_stream h = (None, s) ∧
    concat (fp_Data <$> sent s) = s2b "91 7".
Proof.
  intros h. destruct (FetchFile_ok (mkFetchFileRequest "in/a.txt") h "in/a.txt" (s2b "91 7"))
    as (s & E & Hs); [by vm_compute..|].
  exists s. split; [exact E|].
  apply (FetchFile_whole_or_error no_faults (mkFetchFileRequest "in/a.txt") None h None s
           "in/a.txt" (s2b "91 7")); by vm_compute || done.
Defined.

(** After a successful store of a name that no input file has, a fetch of
    that name delivers exactly the stored bytes under the version the store
    returned; a cached copy is valid under that version and stale under every
    other one. *)
Theorem store_then_fetch {N} `{!PeerNet N} c cs flt h (net : N) resp h' net' :
  disk_wf (disk h) → isPrimary h = true →
  dedupTable h !! dedupKey (sr_ClientId c) (sr_ReqSeq c) = None →
  safe_name (Base (sr_Path c)) →
  names (disk h') !! PathJoin (inputDir h) (Base (sr_Path c)) = None →
  StoreFile flt (mkRecv (c :: cs) None) h net = Ret (Ok resp, h', net') → sp_Error resp = "" →
  (∃ s, FetchFile no_faults (mkFetchFileRequest (sr_Path c)) open_stream h' = (None, s) ∧
     concat (fp_Data <$> sent s) = concat (sr_Data <$> c :: cs) ∧
     Forall (λ m, fp_Version m = sp_Version resp ∧ fp_Error m = "") (sent s)) ∧
  ∀ v, TestAuth no_faults (mkTestAuthRequest (sr_Path c) v) h' =
         mkTestAuthResponse (sp_Version resp =? v)%Z (sp_Version resp).
Proof.
  intros Hwf Hprim Hdd Hb Hin E He.
  destruct (StoreFile_cases _ _ _ _ _ _ _ _ _ Hwf Hprim Hdd E) as [_ [(_ & [= ->] & (Hr & _ & Eh) & _)|[Hf _]]];
    [|done].
  assert (Hp : resolvePath no_faults h' (sr_Path c) = Ok (outPath h (sr_Path c))).
  { replace (outPath h (sr_Path c)) with (outPath h' (sr_Path c)) by by rewrite Eh.
    apply resolvePath_output; [done|by rewrite Eh|]. rewrite Eh at 2. by eexists. }
  assert (Hv : version_of h' (outPath h (sr_Path c)) = i64 (version_of h (outPath h (sr_Path c)) + 1)).
  { rewrite Eh. unfold version_of at 1. simpl. by rewrite lookup_insert_eq. }
  split.
  - destruct (FetchFile_ok (mkFetchFileRequest (sr_Path c)) h' _ _ Hp Hr) as (s & Es & Hs).
    destruct (FetchFile_cases _ (mkFetchFileRequest (sr_Path c)) _ _ _ _ _ _ Hp Hr Es Hs) as (_ & Hfull & Hall).
    exists s. split; [done|]. split; [by apply Hfull|].
    rewrite Hv in Hall. unfold error_free in Hs. rewrite Forall_forall in *. naive_solver.
  - intros v. unfold TestAuth. simpl. rewrite Hp. by rewrite Hv.
Qed.

Lemma store_then_fetch_witness :
  ∃ resp h' net', StoreFile no_faults (mkRecv (demo_chunk :: demo_chunks) None) demo tt =
                    Ret (Ok resp, h', net') ∧
  ∀ v, TestAuth no_faults (mkTestAuthRequest "b.txt" v) h' = mkTestAuthResponse (1 =? v)%Z 1.
Proof.
  eexists (mkStoreFileResponse 1 ""), _, tt. split; [vm_compute; reflexivity|].
  refine (proj2 (store_then_fetch demo_chunk demo_chunks no_faults demo tt (mkStoreFileResponse 1 "") _ tt
    demo_wf eq_refl eq_refl _ _ _ eq_refl)); [by vm_compute; set_solver|vm_compute; reflexivity..].
Defined.
