(* ===== verification/Overlap.v ===== *)
(** * Handlers that overlap in time

    gRPC runs every call in a goroutine of its own, and the mutexes of
    handler.go cover single accesses to the maps, not whole handlers.  Here each
    handler is a [thread] that is somewhere in its body; [step] runs it up to
    the next access to something shared: a lookup or an update under a mutex, a
    system call, the replication.  The states of one handler are in the order of
    its body and carry its local variables.  [resolvePath] and one
    [replicateStreamToAll] are single steps.  A [system] has the threads of the
    calls in progress and the shared server; [run] executes a schedule, a list
    of thread numbers. *)

From S2P Require Import Prelude GoLib GoText GoPath Disk AfsProto Server Handler HandlerSpec Service.

Inductive open_pc :=
  | OpenDedup
  | OpenResolve
  | OpenStat (fullPath : string)
  | OpenId (fullPath : string)
  | OpenHandle (fullPath : string) (id : Z)
  | OpenRecord (id : Z).

Inductive fetch_pc :=
  | FetchResolve (req : FetchFileRequest)
  | FetchOpen (fullPath : string)
  | FetchVersion (fullPath : string) (f : opened)
  | FetchRead (f : opened) (version : Z) (reads : nat).

Inductive test_pc := TestResolve | TestVersion (fullPath : string).

Inductive store_pc :=
  | StoreRole (s : recv_stream StoreFileRequest)
  | StoreRecv (s : recv_stream StoreFileRequest) (v : StoreLoop)
  | StoreCreate (chunk : StoreFileRequest) (s : recv_stream StoreFileRequest)
  | StoreWrite (data : bytes) (s : recv_stream StoreFileRequest) (v : StoreLoop)
  | StoreClean (tmpPath : string) (r : result StoreFileResponse)
  | StoreRename (v : StoreLoop)
  | StoreVersion (v : StoreLoop)
  | StoreReplicate (v : StoreLoop) (newVersion : Z)
  | StoreRecord (v : StoreLoop) (newVersion : Z).

Inductive create_pc :=
  | CreateRole
  | CreateDedup
  | CreateStat
  | CreateMake
  | CreateVersion
  | CreateId
  | CreateHandle (id : Z)
  | CreateReplicate (id : Z)
  | CreateRecord (id : Z).

Inductive delete_pc :=
  | DeleteRole
  | DeleteDedup
  | DeleteRemove
  | DeleteVersion
  | DeleteReplicate
  | DeleteRecord.

(** What a finished handler has sent. *)
Inductive answer :=
  | Reply (r : reply)
  | Fetched (e : error) (q : send_stream FetchFileResponse).

Inductive thread :=
  | InOpen (req : OpenRequest) (pc : open_pc)
  | InFetch (q : send_stream FetchFileResponse) (pc : fetch_pc)
  | InTest (req : TestAuthRequest) (pc : test_pc)
  | InStore (pc : store_pc)
  | InCreate (req : CreateFileRequest) (pc : create_pc)
  | InDelete (req : DeleteFileRequest) (pc : delete_pc)
  | InClose (req : CloseFileRequest)
  | Done (a : answer).

(** A call that has just arrived. *)
Definition start (c : call) : thread :=
  match c with
  | CallOpen req => InOpen req OpenDedup
  | CallStore s => InStore (StoreRole s)
  | CallCreate req => InCreate req CreateRole
  | CallDelete req => InDelete req DeleteRole
  | CallClose req => InClose req
  | CallTestAuth req => InTest req TestResolve
  end.

Definition start_fetch (req : FetchFileRequest) (q : send_stream FetchFileResponse) : thread :=
  InFetch q (FetchResolve req).

Section Steps.
  Context (flt : OsFaults).

(** ** Handlers that do not write files *)

Definition step_open (req : OpenRequest) (pc : open_pc) (h : Handler)
    : outcome (step_exit (open_pc * Handler) (OpenResponse * Handler)) :=
  match pc with
  | OpenDedup =>
      match dedupTable h !! dedupKey (or_ClientId req) (or_ReqSeq req) with
      | Some (DOpen r) => Ret (Return (r, h))
      | Some _ => Panic type_assertion
      | None => Ret (Continue (OpenResolve, h))
      end
  | OpenResolve =>
      match resolvePath flt h (or_Path req) with
      | Err e => Ret (Return (mkOpenResponse 0 e, h))
      | Ok fullPath => Ret (Continue (OpenStat fullPath, h))
      end
  | OpenStat fullPath =>
      match os_Stat flt (disk h) fullPath with
      | StatNotExist => Ret (Return (mkOpenResponse 0 ("file not found: " +:+ or_Path req), h))
      | _ => Ret (Continue (OpenId fullPath, h))
      end
  | OpenId fullPath =>
      let id := i64 (nextHandle h + 1) in Ret (Continue (OpenHandle fullPath id, set_nextHandle id h))
  | OpenHandle fullPath id =>
      Ret (Continue (OpenRecord id, set_handles (<[id := mkFileHandle fullPath (or_Write req)]> (handles h)) h))
  | OpenRecord id =>
      let resp := mkOpenResponse id "" in
      Ret (Return (resp, set_dedup (<[dedupKey (or_ClientId req) (or_ReqSeq req) := DOpen resp]> (dedupTable h)) h))
  end.

(** [reads] counts the reads so far: a fault stops them. *)
Definition step_fetch (q : send_stream FetchFileResponse) (pc : fetch_pc) (h : Handler)
    : step_exit (send_stream FetchFileResponse * fetch_pc) (error * send_stream FetchFileResponse) :=
  match pc with
  | FetchResolve req =>
      match resolvePath flt h (fr_Path req) with
      | Err e => Return (stream_Send q (mkFetchFileResponse [] 0 e))
      | Ok fullPath => Continue (q, FetchOpen fullPath)
      end
  | FetchOpen fullPath =>
      match os_Open flt (disk h) fullPath with
      | Err e => Return (stream_Send q (mkFetchFileResponse [] 0 ("open: " +:+ e)))
      | Ok f => Continue (q, FetchVersion fullPath f)
      end
  | FetchVersion fullPath f => Continue (q, FetchRead f (version_of h fullPath) 0)
  | FetchRead OpenDir _ _ => Return (Some "read: is a directory", q)
  | FetchRead (OpenFile fd) version reads =>
      let buf := take chunkSize (drop (fd_off fd) (content (disk h) (fd_ino fd))) in
      let fault := read_fault flt (fd_path fd) in
      let broken := match fault with Some (k, _) => bool_decide (k ≤ reads) | None => false end in
      if (broken || bool_decide (buf = []))%bool then Return (snd <$> fault, q)
      else match stream_Send q (mkFetchFileResponse buf version "") with
      | (Some e, q) => Return (Some e, q)
      | (None, q) =>
          Continue (q, FetchRead (OpenFile (mkFd (fd_ino fd) (fd_off fd + length buf) (fd_path fd) (fd_writable fd)))
                         version (S reads))
      end
  end.

Definition step_test (req : TestAuthRequest) (pc : test_pc) (h : Handler) : step_exit test_pc TestAuthResponse :=
  match pc with
  | TestResolve =>
      match resolvePath flt h (tr_Path req) with
      | Err _ => Return (mkTestAuthResponse false 0)
      | Ok fullPath => Continue (TestVersion fullPath)
      end
  | TestVersion fullPath =>
      let currentVersion := version_of h fullPath in
      Return (mkTestAuthResponse (currentVersion =? tr_CachedVersion req)%Z currentVersion)
  end.

(** ** Handlers that write files *)

Context {N : Type} `{!PeerNet N}.

Definition step_store (pc : store_pc) (h : Handler) (net : N)
    : outcome (step_exit (store_pc * Handler * N) (result StoreFileResponse * Handler * N)) :=
  match pc with
  | StoreRole s =>
      if isPrimary h then Ret (Continue (StoreRecv s (mkStoreLoop "" "" 0 None "" "" true), h, net))
      else Ret (Return (Ok (mkStoreFileResponse 0 not_primary), h, net))
  | StoreRecv (mkRecv (chunk :: chunks) rend) v =>
      let s := mkRecv chunks rend in
      if sl_first v then
        match dedupTable h !! dedupKey (sr_ClientId chunk) (sr_ReqSeq chunk) with
        | Some (DStore r) => Ret (Return (Ok r, h, net))
        | Some _ => Panic type_assertion
        | None => Ret (Continue (StoreCreate chunk s, h, net))
        end
      else Ret (Continue (StoreWrite (sr_Data chunk) s v, h, net))
  | StoreRecv (mkRecv [] (Some e)) v =>
      match sl_tmpFile v with
      | Some _ => Ret (Continue (StoreClean (sl_tmpPath v) (Err e), h, net))
      | None => Ret (Return (Err e, h, net))
      end
  | StoreRecv (mkRecv [] None) v =>
      match sl_tmpFile v with
      | Some _ => Ret (Continue (StoreRename v, h, net))
      | None => Ret (Return (Ok (mkStoreFileResponse 0 "no data received"), h, net))
      end
  | StoreCreate chunk s =>
      let fullPath := outPath h (sr_Path chunk) in
      let tmpPath := fullPath +:+ ".tmp" in
      match os_Create flt (disk h) tmpPath with
      | (Err e, d) => Ret (Return (Ok (mkStoreFileResponse 0 ("creating tmp: " +:+ e)), set_disk d h, net))
      | (Ok fd, d) =>
          Ret (Continue (StoreWrite (sr_Data chunk) s
            (mkStoreLoop (sr_Path chunk) (sr_ClientId chunk) (sr_ReqSeq chunk) (Some fd) fullPath tmpPath false),
            set_disk d h, net))
      end
  | StoreWrite data s v =>
      match sl_tmpFile v, data with
      | Some fd, _ :: _ =>
          match fd_Write flt (disk h) fd data with
          | (Ok fd, d) =>
              Ret (Continue (StoreRecv s (mkStoreLoop (sl_path v) (sl_clientID v) (sl_reqSeq v) (Some fd)
                (sl_fullPath v) (sl_tmpPath v) (sl_first v)), set_disk d h, net))
          | (Err e, d) =>
              Ret (Continue (StoreClean (sl_tmpPath v) (Ok (mkStoreFileResponse 0 ("writing chunk: " +:+ e))),
                set_disk d h, net))
          end
      | _, _ => Ret (Continue (StoreRecv s v, h, net))
      end
  | StoreClean tmpPath r => Ret (Return (r, set_disk (os_Remove flt (disk h) tmpPath).2 h, net))
  | StoreRename v =>
      match os_Rename flt (disk h) (sl_tmpPath v) (sl_fullPath v) with
      | (Some e, d) =>
          Ret (Continue (StoreClean (sl_tmpPath v) (Ok (mkStoreFileResponse 0 ("rename: " +:+ e))), set_disk d h, net))
      | (None, d) => Ret (Continue (StoreVersion v, set_disk d h, net))
      end
  | StoreVersion v =>
      let newVersion := i64 (version_of h (sl_fullPath v) + 1) in
      Ret (Continue (StoreReplicate v newVersion,
        set_versions (<[sl_fullPath v := newVersion]> (versions h)) h, net))
  | StoreReplicate v newVersion =>
      Ret (Continue (StoreRecord v newVersion, h,
        replicateStreamToAll flt h "store" (sl_path v) (sl_fullPath v) newVersion net))
  | StoreRecord v newVersion =>
      let resp := mkStoreFileResponse newVersion "" in
      Ret (Return (Ok resp,
        set_dedup (<[dedupKey (sl_clientID v) (sl_reqSeq v) := DStore resp]> (dedupTable h)) h, net))
  end.

Definition step_create (req : CreateFileRequest) (pc : create_pc) (h : Handler) (net : N)
    : outcome (step_exit (create_pc * Handler * N) (CreateFileResponse * Handler * N)) :=
  let key := dedupKey (cr_ClientId req) (cr_ReqSeq req) in
  let fullPath := outPath h (cr_Path req) in
  match pc with
  | CreateRole =>
      if isPrimary h then Ret (Continue (CreateDedup, h, net))
      else Ret (Return (mkCreateFileResponse 0 not_primary, h, net))
  | CreateDedup =>
      match dedupTable h !! key with
      | Some (DCreate r) => Ret (Return (r, h, net))
      | Some _ => Panic type_assertion
      | None => Ret (Continue (CreateStat, h, net))
      end
  | CreateStat =>
      match os_Stat flt (disk h) fullPath with
      | StatOk => Ret (Return (mkCreateFileResponse 0 ("file already exists: " +:+ cr_Path req), h, net))
      | _ => Ret (Continue (CreateMake, h, net))
      end
  | CreateMake =>
      match os_Create flt (disk h) fullPath with
      | (Err e, d) => Ret (Return (mkCreateFileResponse 0 ("creating file: " +:+ e), set_disk d h, net))
      | (Ok _, d) => Ret (Continue (CreateVersion, set_disk d h, net))
      end
  | CreateVersion => Ret (Continue (CreateId, set_versions (<[fullPath := 1%Z]> (versions h)) h, net))
  | CreateId =>
      let id := i64 (nextHandle h + 1) in Ret (Continue (CreateHandle id, set_nextHandle id h, net))
  | CreateHandle id =>
      Ret (Continue (CreateReplicate id, set_handles (<[id := mkFileHandle fullPath true]> (handles h)) h, net))
  | CreateReplicate id =>
      Ret (Continue (CreateRecord id, h, replicateStreamToAll flt h "create" (cr_Path req) fullPath 1 net))
  | CreateRecord id =>
      let resp := mkCreateFileResponse id "" in
      Ret (Return (resp, set_dedup (<[key := DCreate resp]> (dedupTable h)) h, net))
  end.

Definition step_delete (req : DeleteFileRequest) (pc : delete_pc) (h : Handler) (net : N)
    : outcome (step_exit (delete_pc * Handler * N) (DeleteFileResponse * Handler * N)) :=
  let key := dedupKey (dr_ClientId req) (dr_ReqSeq req) in
  let fullPath := outPath h (dr_Path req) in
  match pc with
  | DeleteRole =>
      if isPrimary h then Ret (Continue (DeleteDedup, h, net))
      else Ret (Return (mkDeleteFileResponse not_primary, h, net))
  | DeleteDedup =>
      match dedupTable h !! key with
      | Some (DDelete r) => Ret (Return (r, h, net))
      | Some _ => Panic type_assertion
      | None => Ret (Continue (DeleteRemove, h, net))
      end
  | DeleteRemove =>
      match os_Remove flt (disk h) fullPath with
      | (RemoveErr e, d) => Ret (Return (mkDeleteFileResponse ("deleting file: " +:+ e), set_disk d h, net))
      | (_, d) => Ret (Continue (DeleteVersion, set_disk d h, net))
      end
  | DeleteVersion => Ret (Continue (DeleteReplicate, set_versions (delete fullPath (versions h)) h, net))
  | DeleteReplicate =>
      Ret (Continue (DeleteRecord, h, replicateStreamToAll flt h "delete" (dr_Path req) fullPath 0 net))
  | DeleteRecord =>
      let resp := mkDeleteFileResponse "" in
      Ret (Return (resp, set_dedup (<[key := DDelete resp]> (dedupTable h)) h, net))
  end.

(** ** Any handler *)

Definition after {A R} (here : A → thread) (answered : R → answer)
    (x : step_exit (A * Handler * N) (R * Handler * N)) : thread * Handler * N :=
  match x with
  | Continue (a, h, net) => (here a, h, net)
  | Return (r, h, net) => (Done (answered r), h, net)
  end.

Definition with_net {A R} (net : N) (x : step_exit (A * Handler) (R * Handler))
    : step_exit (A * Handler * N) (R * Handler * N) :=
  match x with Continue (a, h) => Continue (a, h, net) | Return (r, h) => Return (r, h, net) end.

Definition step (t : thread) (h : Handler) (net : N) : outcome (thread * Handler * N) :=
  match t with
  | InOpen req pc => x ← step_open req pc h; Ret (after (InOpen req) (λ r, Reply (ReplyOpen r)) (with_net net x))
  | InFetch q pc =>
      match step_fetch q pc h with
      | Continue (q, pc) => Ret (InFetch q pc, h, net)
      | Return (e, q) => Ret (Done (Fetched e q), h, net)
      end
  | InTest req pc =>
      match step_test req pc h with
      | Continue pc => Ret (InTest req pc, h, net)
      | Return r => Ret (Done (Reply (ReplyTestAuth r)), h, net)
      end
  | InStore pc => x ← step_store pc h net; Ret (after InStore (λ r, Reply (ReplyStore r)) x)
  | InCreate req pc => x ← step_create req pc h net; Ret (after (InCreate req) (λ r, Reply (ReplyCreate r)) x)
  | InDelete req pc => x ← step_delete req pc h net; Ret (after (InDelete req) (λ r, Reply (ReplyDelete r)) x)
  | InClose req => let '(r, h) := CloseFile req h in Ret (Done (Reply (ReplyClose r)), h, net)
  | Done a => Ret (Done a, h, net)
  end.

Record system := mkSystem { threads : list thread; shared : Handler; network : N }.

(** Thread [i] takes a step; a number without a thread does nothing. *)
Definition sched (i : nat) (s : system) : outcome system :=
  match threads s !! i with
  | None => Ret s
  | Some t =>
      '(t, h, net) ← step t (shared s) (network s);
      Ret (mkSystem (<[i := t]> (threads s)) h net)
  end.

Fixpoint run (is_ : list nat) (s : system) : outcome system :=
  match is_ with
  | [] => Ret s
  | i :: is_ => s ← sched i s; run is_ s
  end.

(** One thread alone for [n] steps. *)
Fixpoint solo (n : nat) (t : thread) (h : Handler) (net : N) : outcome (thread * Handler * N) :=
  match n with
  | O => Ret (t, h, net)
  | S n => '(t, h, net) ← step t h net; solo n t h net
  end.

End Steps.

Arguments system N : clear implicits.
Arguments mkSystem {N} threads shared network.
