(* ===== verification/OverlapSpec.v ===== *)
(** * What overlapping handlers do

    Lemmas on Overlap.v: a handler that runs alone is the handler of Handler.v;
    the invariant of the whole system; and the rely-guarantee argument that a
    store is not disturbed by calls on other files. *)

From S2P Require Import Prelude GoLib GoText GoPath Disk AfsProto Server Handler HandlerSpec Service Overlap.

(** ** A handler that runs alone *)

Section Solo.
  Context (flt : OsFaults) {N : Type} `{!PeerNet N}.

(** Alone, the thread ends in [o]. *)
Definition ends (t : thread) (h : Handler) (net : N) (o : outcome (thread * Handler * N)) : Prop :=
  ∃ n, solo flt n t h net = o.

Lemma ends_done a h (net : N) : ends (Done a) h net (Ret (Done a, h, net)).
Proof. by exists 0. Qed.

Lemma ends_panic t h (net : N) msg : step flt t h net = Panic msg → ends t h net (Panic msg).
Proof. intros E. exists 1. simpl. by rewrite E. Qed.

Lemma ends_step t h (net : N) t1 h1 net1 o :
  step flt t h net = Ret (t1, h1, net1) → ends t1 h1 net1 o → ends t h net o.
Proof. intros E [n Hn]. exists (S n). simpl. by rewrite E. Qed.

Lemma run_app is1 is2 (s : system N) : run flt (is1 ++ is2) s = s1 ← run flt is1 s; run flt is2 s1.
Proof.
  revert s. induction is1 as [|i is1 IH]; intros s; [done|]. simpl. destruct (sched flt i s); [apply IH|done..].
Qed.

(** Threads do not disappear. *)
Lemma run_threads is_ (s s' : system N) i :
  run flt is_ s = Ret s' → is_Some (threads s !! i) → is_Some (threads s' !! i).
Proof.
  revert s. induction is_ as [|j is_ IH]; intros s E Hi; simpl in E; [by injection E as <-|].
  apply outcome_bind_inv in E as (s1 & E1 & E). apply (IH s1 E). unfold sched in E1.
  destruct (threads s !! j) eqn:Hj; [|by injection E1 as <-].
  apply outcome_bind_inv in E1 as ([[t1 h1] net1] & _ & [= <-]). simpl.
  by rewrite lookup_lt_is_Some, length_insert, <- lookup_lt_is_Some.
Qed.

(** Thread [i] runs without interruption. *)
Lemma run_replicate n i (s : system N) t t' h' net' :
  threads s !! i = Some t → solo flt n t (shared s) (network s) = Ret (t', h', net') →
  run flt (replicate n i) s = Ret (mkSystem (<[i := t']> (threads s)) h' net').
Proof.
  revert s t. induction n as [|n IH]; intros [ts h net] t Hi E; simpl in *.
  - injection E as <- <- <-. by rewrite list_insert_id.
  - apply outcome_bind_inv in E as ([[t1 h1] net1] & E1 & E). unfold sched. simpl. rewrite Hi, E1. go_step.
    erewrite IH; [| |exact E]; simpl; [by rewrite list_insert_insert_eq|].
    apply list_lookup_insert_eq. by eapply lookup_lt_Some.
Qed.

(** The answer of a handler as the end of its thread. *)
Definition finished (o : outcome (reply * Handler * N)) : outcome (thread * Handler * N) :=
  '(r, h, net) ← o; Ret (Done (Reply r), h, net).

(** Both sides make the same case distinctions. *)
Ltac overlap_simpl :=
  repeat (progress (cbn [serve solo step step_open step_test step_create step_delete step_store after with_net]; go_step)).
Ltac same_cases :=
  unfold start, finished;
  repeat (overlap_simpl; first [ reflexivity | case_match ]); congruence.

Lemma open_alone req h (net : N) :
  ends (start (CallOpen req)) h net (finished (serve flt (CallOpen req) h net)).
Proof. exists 6. unfold serve, Open. same_cases. Qed.

Lemma test_alone req h (net : N) :
  ends (start (CallTestAuth req)) h net (finished (serve flt (CallTestAuth req) h net)).
Proof.
  exists 2. unfold serve, TestAuth, start, finished. cbn [solo step step_test].
  by destruct (resolvePath flt h (tr_Path req)).
Qed.

Lemma close_alone req h (net : N) :
  ends (start (CallClose req)) h net (finished (serve flt (CallClose req) h net)).
Proof.
  exists 1. unfold serve, start, finished. cbn [solo step]. by destruct (CloseFile req h).
Qed.

Lemma create_alone req h (net : N) :
  ends (start (CallCreate req)) h net (finished (serve flt (CallCreate req) h net)).
Proof. exists 9. unfold serve, CreateFile. same_cases. Qed.

Lemma delete_alone req h (net : N) :
  ends (start (CallDelete req)) h net (finished (serve flt (CallDelete req) h net)).
Proof. exists 6. unfold serve, DeleteFile. same_cases. Qed.

(** The rest of [StoreFile] after its loop. *)
Definition store_finish (o : outcome (step_exit (StoreLoop * Handler) (result StoreFileResponse * Handler))) (net : N)
    : outcome (reply * Handler * N) :=
  x ← o;
  match x with
  | Return (r, h) => Ret (ReplyStore r, h, net)
  | Continue (v, h) => let '(r, h, net) := StoreFile_commit flt v h net in Ret (ReplyStore r, h, net)
  end.

Lemma commit_alone v h (net : N) :
  ends (InStore (StoreRecv (mkRecv [] None) v)) h net (finished (store_finish (Ret (Continue (v, h))) net)).
Proof.
  unfold finished, store_finish, StoreFile_commit. go_step.
  destruct (sl_tmpFile v) as [fd|] eqn:Hf; [|exists 1; cbn [solo step step_store]; by rewrite Hf].
  eapply ends_step; [cbn [step step_store]; by rewrite Hf|].
  destruct (os_Rename flt (disk h) (sl_tmpPath v) (sl_fullPath v)) as [[e|] d] eqn:Er.
  - exists 2. cbn [solo step step_store]. by rewrite Er.
  - exists 4. cbn [solo step step_store]. by rewrite Er.
Qed.

(** One chunk, after the first. *)
Lemma write_alone data s v h (net : N) o :
  match write_chunk flt (λ e, Ok (mkStoreFileResponse 0 ("writing chunk: " +:+ e))) h (sl_tmpFile v) (sl_tmpPath v) data with
  | Return (r, h) => finished (Ret (ReplyStore r, h, net)) = o
  | Continue (tmp, h) =>
      ends (InStore (StoreRecv s (mkStoreLoop (sl_path v) (sl_clientID v) (sl_reqSeq v) tmp
        (sl_fullPath v) (sl_tmpPath v) (sl_first v)))) h net o
  end →
  ends (InStore (StoreWrite data s v)) h net o.
Proof.
  unfold write_chunk. destruct v as [p cid sq tmp full tp fst]; cbn [sl_tmpFile sl_tmpPath sl_path sl_clientID sl_reqSeq sl_fullPath sl_first].
  destruct tmp as [fd|]; [|by apply ends_step]. destruct data as [|x data]; [by apply ends_step|].
  destruct (fd_Write flt (disk h) fd (x :: data)) as [[fd'|e] d] eqn:E.
  - apply ends_step. cbn [step step_store sl_tmpFile]. by rewrite E.
  - intros <-. exists 2. cbn [solo step step_store sl_tmpFile sl_tmpPath]. by rewrite E.
Qed.

Lemma store_loop_alone chunks rend v h (net : N) :
  sl_first v = false →
  ends (InStore (StoreRecv (mkRecv chunks rend) v)) h net
    (finished (store_finish (StoreFile_loop flt chunks rend v h) net)).
Proof.
  revert v h. induction chunks as [|c cs IH]; intros v h Hf.
  - destruct rend as [e|]; [|apply commit_alone]. cbn [StoreFile_loop]. unfold remove_tmp.
    destruct (sl_tmpFile v) eqn:Ht; [exists 2|exists 1]; cbn [solo step step_store]; by rewrite Ht.
  - eapply ends_step; [cbn [step step_store]; by rewrite Hf|]. apply write_alone.
    cbn [StoreFile_loop]. unfold StoreFile_step. rewrite Hf. go_step.
    destruct (write_chunk _ _ _ _ _ _) as [[tmp h1]|[r h1]]; go_step; [|done]. rewrite Hf. by apply IH.
Qed.

Lemma store_alone s h (net : N) :
  ends (start (CallStore s)) h net (finished (serve flt (CallStore s) h net)).
Proof.
  assert (E : serve flt (CallStore s) h net =
    if isPrimary h then store_finish (StoreFile_loop flt (msgs s) (recv_end s) (mkStoreLoop "" "" 0 None "" "" true) h) net
    else Ret (ReplyStore (Ok (mkStoreFileResponse 0 not_primary)), h, net)).
  { unfold serve, StoreFile, store_finish. destruct (isPrimary h); [|done].
    destruct (StoreFile_loop _ _ _ _ _) as [[[v h1]|[r h1]]| |]; go_step; [|done..].
    by destruct (StoreFile_commit flt v h1 net) as [[r h2] n2]. }
  rewrite E. unfold start. destruct (isPrimary h) eqn:Hp; [|exists 1; cbn [solo step step_store]; by rewrite Hp].
  eapply ends_step; [cbn [step step_store]; by rewrite Hp|]. destruct s as [[|c cs] rend]; cbn [msgs recv_end].
  { destruct rend; [by exists 1|apply commit_alone]. }
  cbn [StoreFile_loop]. unfold StoreFile_step. cbn [sl_first]. unfold StoreFile_first.
  destruct (dedupTable h !! dedupKey (sr_ClientId c) (sr_ReqSeq c)) as [[r|r|r|r]|] eqn:Hd;
    [exists 1; cbn [solo step step_store sl_first]; by rewrite Hd..|].
  eapply ends_step; [cbn [step step_store sl_first]; by rewrite Hd|].
  destruct (os_Create _ _ _) as [[fd|e] d] eqn:Ec; [|exists 1; cbn [solo step step_store]; by rewrite Ec].
  eapply ends_step; [cbn [step step_store]; by rewrite Ec|]. apply write_alone. go_step.
  destruct (write_chunk _ _ _ _ _ _) as [[tmp h1]|[r h1]]; go_step; [|done]. by apply store_loop_alone.
Qed.

(** ** A fetch that runs alone *)

(** The end of a fetch that still has the chunks [cs] to send. *)
Fixpoint fetch_rest (fault : option (nat * string)) (version : Z) (cs : list bytes) (reads : nat)
    (q : send_stream FetchFileResponse) : error * send_stream FetchFileResponse :=
  match cs with
  | [] => (snd <$> fault, q)
  | c :: cs =>
      if match fault with Some (k, _) => bool_decide (k ≤ reads) | None => false end then (snd <$> fault, q)
      else match stream_Send q (mkFetchFileResponse c version "") with
      | (Some e, q) => (Some e, q)
      | (None, q) => fetch_rest fault version cs (S reads) q
      end
  end.

Lemma fetch_rest_send_all fault version cs reads q :
  fetch_rest fault version cs reads q =
    let sent_cs := match fault with Some (k, _) => take (k - reads) cs | None => cs end in
    match send_all q ((λ c, mkFetchFileResponse c version "") <$> sent_cs) with
    | (Some e, q) => (Some e, q)
    | (None, q) => (snd <$> fault, q)
    end.
Proof.
  revert reads q. induction cs as [|c cs IH]; intros reads q; cbn [fetch_rest].
  { destruct fault as [[k e]|]; [by rewrite take_nil|done]. }
  destruct fault as [[k e]|].
  - case_bool_decide; [by rewrite (proj2 (Nat.sub_0_le k reads))|].
    replace (k - reads) with (S (k - S reads)) by lia. cbn [firstn fmap list_fmap send_all].
    destruct (stream_Send _ _) as [[e'|] q']; [done|]. by rewrite IH.
  - cbn [fmap list_fmap send_all]. destruct (stream_Send _ _) as [[e'|] q']; [done|]. by rewrite IH.
Qed.

Lemma fetch_read_alone fd version reads q h (net : N) :
  let r := fetch_rest (read_fault flt (fd_path fd)) version
    (chunks chunkSize (drop (fd_off fd) (content (disk h) (fd_ino fd)))) reads q in
  ends (InFetch q (FetchRead (OpenFile fd) version reads)) h net (Ret (Done (Fetched r.1 r.2), h, net)).
Proof.
  remember (length (drop (fd_off fd) (content (disk h) (fd_ino fd)))) as n eqn:Hn.
  revert fd reads q Hn. induction n as [n IH] using lt_wf_ind. intros fd reads q Hn. cbv zeta.
  set (d := drop (fd_off fd) (content (disk h) (fd_ino fd))) in *. pose proof chunkSize_pos as Hcs.
  destruct (decide (d = [])) as [Hd|Hd].
  { rewrite Hd. eapply ends_step; [|apply ends_done]. cbn [step step_fetch]. fold d.
    by rewrite Hd, take_nil, bool_decide_true, orb_true_r by done. }
  rewrite (chunks_cons chunkSize d Hcs Hd). cbn [fetch_rest].
  assert (Hb : bool_decide (take chunkSize d = []) = false).
  { apply bool_decide_false. destruct d; [done|]. by destruct chunkSize; [lia|]. }
  assert (Hstep : ∀ r, step_fetch flt q (FetchRead (OpenFile fd) version reads) h = Return r →
    ends (InFetch q (FetchRead (OpenFile fd) version reads)) h net (Ret (Done (Fetched r.1 r.2), h, net))).
  { intros [e q'] E. eapply ends_step; [|apply ends_done]. cbn [step]. by rewrite E. }
  destruct (match read_fault flt (fd_path fd) with Some (k, _) => bool_decide (k ≤ reads) | None => false end) eqn:Hf.
  { apply Hstep. cbn [step_fetch]. by rewrite Hf. }
  destruct (stream_Send q (mkFetchFileResponse (take chunkSize d) version "")) as [[e|] q'] eqn:Hs.
  { apply Hstep. cbn [step_fetch]. fold d. by rewrite Hf, Hb, Hs. }
  eapply ends_step; [cbn [step step_fetch]; fold d; by rewrite Hf, Hb, Hs|].
  set (fd' := mkFd (fd_ino fd) (fd_off fd + length (take chunkSize d)) (fd_path fd) (fd_writable fd)).
  assert (Hd' : drop (fd_off fd') (content (disk h) (fd_ino fd')) = drop chunkSize d).
  { unfold fd'. cbn [fd_off fd_ino]. rewrite <- drop_drop. fold d. rewrite length_take.
    destruct (decide (chunkSize ≤ length d)); [by rewrite Nat.min_l|]. rewrite Nat.min_r by lia. rewrite !drop_ge; [done|lia..]. }
  specialize (IH (length (drop chunkSize d))). rewrite <- Hd' in IH at 1.
  specialize (IH ltac:(rewrite Hd', length_drop, Hn; destruct d; [done|simpl; lia]) fd' (S reads) q').
  rewrite Hd' in IH. by apply IH.
Qed.

Lemma fetch_alone req q h (net : N) :
  let r := FetchFile flt req q h in
  ends (start_fetch req q) h net (Ret (Done (Fetched r.1 r.2), h, net)).
Proof.
  cbv zeta. unfold FetchFile, start_fetch.
  destruct (resolvePath flt h (fr_Path req)) as [p|e] eqn:Hr.
  2: { eapply ends_step; [|apply ends_done]. cbn [step step_fetch]. rewrite Hr. by destruct (stream_Send _ _). }
  eapply ends_step; [cbn [step step_fetch]; by rewrite Hr|].
  destruct (os_Open flt (disk h) p) as [f|e] eqn:Ho.
  2: { eapply ends_step; [|apply ends_done]. cbn [step step_fetch]. rewrite Ho. by destruct (stream_Send _ _). }
  eapply ends_step; [cbn [step step_fetch]; by rewrite Ho|]. eapply ends_step; [reflexivity|].
  destruct f as [fd|]; [|by eapply ends_step; [|apply ends_done]].
  pose proof (fetch_read_alone fd (version_of h p) 0 q h net) as Hf. cbv zeta in Hf. rewrite fetch_rest_send_all in Hf.
  unfold read_chunks. destruct (read_fault flt (fd_path fd)) as [[k e]|]; cbn [snd fmap option_fmap option_map] in *.
  - rewrite Nat.sub_0_r in Hf. by destruct (send_all _ _) as [[e'|] q'].
  - by destruct (send_all _ _) as [[e'|] q'].
Qed.

End Solo.

(** ** What others do to a file *)

(** A step of another handler leaves the file named [q] alone: its name and the
    content of its inode. *)
Record leaves (q : string) (d d' : Disk) : Prop := {
  leaves_name : names d' !! q = names d !! q;
  leaves_content i : names d !! q = Some (DFile i) → content d' i = content d i;
}.

#[export] Instance leaves_preorder q : PreOrder (leaves q).
Proof.
  split; [done|]. intros d1 d2 d3 [A1 A2] [B1 B2]. split; [by rewrite B1|].
  intros i Hi. rewrite B2 by (by rewrite A1). by apply A2.
Qed.

(** The inode is in use, and not by [p] or its temporary file. *)
Definition foreign (p : string) (d : Disk) (i : N) : Prop :=
  (i < next_ino d)%N ∧ names d !! p ≠ Some (DFile i) ∧ names d !! (p +:+ ".tmp") ≠ Some (DFile i).

Definition apart (p f : string) : Prop := f ≠ p ∧ f ≠ p +:+ ".tmp".

Lemma leaves_read_file q d d' : leaves q d d' → read_file d' q = read_file d q.
Proof.
  intros [Hn Hc]. unfold read_file. rewrite Hn. destruct (names d !! q) as [[i|]|] eqn:E; [|done..]. by rewrite (Hc i).
Qed.

Lemma leaves_writing p d d' fd data : leaves p d d' → writing d fd p data → writing d' fd p data.
Proof.
  intros [Hn Hc] (A & B & C & D & E). split; [by rewrite Hn|]. split; [done|]. split; [done|]. split; [done|].
  by rewrite (Hc _ A).
Qed.

(** The disk after a system call on a name or descriptor that [p] does not share. *)
Record beside (p : string) (d d' : Disk) : Prop := {
  beside_wf : disk_wf d';
  beside_ino : (next_ino d ≤ next_ino d')%N;
  beside_file : leaves p d d';
  beside_tmp : leaves (p +:+ ".tmp") d d';
}.

Lemma beside_refl p d : disk_wf d → beside p d d.
Proof. by split. Qed.
#[export] Hint Resolve beside_refl : go.

Lemma foreign_beside p d d' i : beside p d d' → foreign p d i → foreign p d' i.
Proof.
  intros [_ Hi [Hp _] [Ht _]] (A & B & C). split; [lia|]. by rewrite Hp, Ht.
Qed.

Lemma os_Create_leaves flt q f d r d' : disk_wf d → f ≠ q → os_Create flt d f = (r, d') → leaves q d d'.
Proof.
  intros [Hu Ha] Hf. unfold os_Create. destruct (create_fault flt f); [by intros [= <- <-]|].
  destruct (names d !! f) as [[j|]|] eqn:Hj; intros [= <- <-]; [|done|].
  - split; [done|]. intros i Hi. rewrite content_set, decide_False; [done|]. intros ->. by apply Hf, (Hu f q i).
  - split; [simpl; by rewrite lookup_insert_ne|]. intros i Hi%Ha. unfold content. simpl.
    rewrite lookup_insert_ne; [done|lia].
Qed.

Lemma os_Create_beside flt p f d r d' :
  disk_wf d → apart p f → os_Create flt d f = (r, d') →
  beside p d d' ∧ ∀ fd, r = Ok fd → foreign p d' (fd_ino fd).
Proof.
  intros Hwf [H1 H2] E. pose proof (os_Create_leaves _ p _ _ _ _ Hwf H1 E) as L1.
  pose proof (os_Create_leaves _ (p +:+ ".tmp") _ _ _ _ Hwf H2 E) as L2.
  destruct r as [fd|e]; [|apply os_Create_err in E; subst; split; [by apply beside_refl|done]].
  destruct (os_Create_spec _ _ _ _ _ Hwf E) as (Hwf' & (Hn & _) & _).
  assert (Hi : (next_ino d ≤ next_ino d')%N).
  { unfold os_Create in E. repeat case_match; simplify_eq/=; lia. }
  split; [by split|]. intros ? [= <-]. split; [by eapply wf_alloc|].
  split; intros E'; [apply H1|apply H2]; by eapply (wf_unique d').
Qed.

Lemma fd_Write_beside flt p d fd x r d' :
  disk_wf d → foreign p d (fd_ino fd) → fd_Write flt d fd x = (r, d') →
  beside p d d' ∧ ∀ fd', r = Ok fd' → fd_ino fd' = fd_ino fd.
Proof.
  intros Hwf (_ & H1 & H2). unfold fd_Write. destruct (write_fault _ _ _); [intros [= <- <-]; by split; [apply beside_refl|]|].
  destruct (fd_writable fd); intros [= <- <-]; [|by split; [apply beside_refl|]].
  split; [|by intros ? [= <-]]. split; [by apply disk_wf_set_content|done|..];
    (split; [done|]; intros i Hi; rewrite content_set, decide_False; [done|congruence]).
Qed.

Lemma os_Rename_beside flt p d f g e d' :
  disk_wf d → apart p f → apart p g → f ≠ g → os_Rename flt d f g = (e, d') → beside p d d'.
Proof.
  intros Hwf [F1 F2] [G1 G2] Hfg E. destruct (os_Rename_spec _ _ _ _ _ _ Hwf Hfg E) as [Hwf' _].
  unfold os_Rename in E. repeat case_match; simplify_eq/=; (split; [done..| |]);
    (split; [simpl; by rewrite ?lookup_insert_ne, ?lookup_delete_ne|done]).
Qed.

Lemma os_Remove_beside flt p d f r d' :
  disk_wf d → apart p f → os_Remove flt d f = (r, d') → beside p d d'.
Proof.
  intros Hwf [F1 F2] E. destruct (os_Remove_spec _ _ _ _ _ Hwf E) as [Hwf' _].
  unfold os_Remove in E. repeat case_match; simplify_eq/=; (split; [done..| |]);
    (split; [simpl; by rewrite ?lookup_delete_ne|done]).
Qed.

Section Apart.
  Context (od p key : string).   (* the output directory, our file and our deduplication key *)

Definition chunk_apart (c : StoreFileRequest) : Prop :=
  let f := PathJoin od (Base (sr_Path c)) in
  apart p f ∧ apart p (f +:+ ".tmp") ∧ dedupKey (sr_ClientId c) (sr_ReqSeq c) ≠ key.

Definition stream_apart (s : recv_stream StoreFileRequest) : Prop :=
  match msgs s with [] => True | c :: _ => chunk_apart c end.

(** A call on another file, with another deduplication key. *)
Definition call_apart (c : call) : Prop :=
  match c with
  | CallOpen req => dedupKey (or_ClientId req) (or_ReqSeq req) ≠ key
  | CallStore s => stream_apart s
  | CallCreate req =>
      apart p (PathJoin od (Base (cr_Path req))) ∧ dedupKey (cr_ClientId req) (cr_ReqSeq req) ≠ key
  | CallDelete req =>
      apart p (PathJoin od (Base (dr_Path req))) ∧ dedupKey (dr_ClientId req) (dr_ReqSeq req) ≠ key
  | CallClose _ | CallTestAuth _ => True
  end.

#[export] Instance call_apart_dec c : Decision (call_apart c).
Proof.
  destruct c as [req|[[|c cs] rend]|req|req|req|req]; unfold call_apart, stream_apart, chunk_apart, apart; simpl; apply _.
Defined.

Definition vars_apart (d : Disk) (v : StoreLoop) : Prop :=
  sl_first v = false ∧ sl_tmpPath v = sl_fullPath v +:+ ".tmp" ∧
  apart p (sl_fullPath v) ∧ apart p (sl_tmpPath v) ∧
  (∀ fd, sl_tmpFile v = Some fd → foreign p d (fd_ino fd)) ∧ dedupKey (sl_clientID v) (sl_reqSeq v) ≠ key.

Definition store_apart (d : Disk) (pc : store_pc) : Prop :=
  match pc with
  | StoreRole s => stream_apart s
  | StoreRecv s v => if sl_first v then sl_tmpFile v = None ∧ stream_apart s else vars_apart d v
  | StoreCreate c _ => chunk_apart c
  | StoreClean tmpPath _ => apart p tmpPath
  | StoreWrite _ _ v | StoreRename v | StoreVersion v | StoreReplicate v _ | StoreRecord v _ => vars_apart d v
  end.

Definition thread_apart (d : Disk) (t : thread) : Prop :=
  match t with
  | InOpen req _ => call_apart (CallOpen req)
  | InStore pc => store_apart d pc
  | InCreate req _ => call_apart (CallCreate req)
  | InDelete req _ => call_apart (CallDelete req)
  | InFetch _ _ | InTest _ _ | InClose _ | Done _ => True
  end.

Lemma start_apart d c : call_apart c → thread_apart d (start c).
Proof. by destruct c. Qed.

(** What a step of another handler keeps of the server. *)
Record others_step (h h' : Handler) : Prop := {
  os_dir : outputDir h' = outputDir h;
  os_disk : beside p (disk h) (disk h');
  os_version : versions h' !! p = versions h !! p;
  os_entry : dedupTable h' !! key = dedupTable h !! key;
}.

Lemma others_step_refl h : disk_wf (disk h) → others_step h h.
Proof. by split. Qed.

Lemma others_step_disk h d : beside p (disk h) d → others_step h (set_disk d h).
Proof. by split. Qed.

Lemma vars_apart_beside d d' v : beside p d d' → vars_apart d v → vars_apart d' v.
Proof.
  intros Hb (A & B & C & D & E & F). repeat (split; [done|]). split; [|done].
  intros fd Hfd. by eapply foreign_beside, E.
Qed.

Lemma thread_apart_beside d d' t : beside p d d' → thread_apart d t → thread_apart d' t.
Proof.
  intros Hb. destruct t as [| | |pc| | | |]; try done. destruct pc; simpl; try done;
    try (case_match; [done|]); by apply vars_apart_beside.
Qed.

Section Steps.
  Context (flt : OsFaults) {N : Type} `{!PeerNet N}.

Lemma step_store_apart pc h (net : N) t' h' net' :
  disk_wf (disk h) → outputDir h = od → store_apart (disk h) pc →
  step flt (InStore pc) h net = Ret (t', h', net') →
  others_step h h' ∧ thread_apart (disk h') t'.
Proof.
  intros Hwf Hod Hp E. pose proof (others_step_refl h Hwf) as Hrefl. cbn [step] in E.
  apply outcome_bind_inv in E as (x & E & [= Ex]).
  destruct pc as [s|[[|c cs] rend] v|c s|data s v|tp r|v|v|v n|v n]; cbn [step_store store_apart] in E, Hp.
  - destruct (isPrimary h); simplify_eq/=; by split.
  - destruct (sl_first v) eqn:Hf; [destruct Hp as [Ht _]|].
    + rewrite Ht in E. destruct rend; by simplify_eq/=.
    + destruct rend, (sl_tmpFile v); simplify_eq/=; split; try done. by apply Hp.
  - destruct (sl_first v); [|by simplify_eq/=; split]. destruct Hp as [_ Hp].
    destruct (dedupTable h !! _) as [[]|]; simplify_eq/=; by split.
  - destruct Hp as (Hp1 & Hp2 & Hk). unfold outPath in E. rewrite Hod in E.
    destruct (os_Create _ _ _) as [[fd|e] d] eqn:Ec; simplify_eq/=;
      destruct (os_Create_beside _ _ _ _ _ _ Hwf Hp2 Ec) as [Hb Hfd]; (split; [by apply others_step_disk|]); [|done].
    repeat (split; [done|]). split; [|done]. intros ? [= <-]. by apply Hfd.
  - pose proof Hp as (Hf & Ht & Hp1 & Hp2 & Hfor & Hk).
    destruct (sl_tmpFile v) as [fd|]; [destruct data as [|y data]|]; [simplify_eq/=; rewrite Hf; by split| |simplify_eq/=; rewrite Hf; by split].
    destruct (fd_Write _ _ _ _) as [[fd'|e] d] eqn:Ew; simplify_eq/=;
      destruct (fd_Write_beside _ _ _ _ _ _ _ Hwf (Hfor fd eq_refl) Ew) as [Hb Hi]; (split; [by apply others_step_disk|]); [|done].
    rewrite Hf. repeat (split; [done|]). split; [|done]. intros ? [= <-]. rewrite (Hi _ eq_refl).
    eapply foreign_beside; [done|by apply Hfor].
  - simplify_eq/=. split; [|done]. destruct (os_Remove _ _ _) as [r0 d] eqn:Er. apply others_step_disk.
    by eapply os_Remove_beside.
  - pose proof Hp as (Hf & Ht & Hp1 & Hp2 & Hfor & Hk).
    destruct (os_Rename _ _ _ _) as [e d] eqn:Er.
    assert (Hb : beside p (disk h) d).
    { eapply os_Rename_beside; [done|exact Hp2|exact Hp1| |done]. rewrite Ht. apply tmp_ne. }
    destruct e; simplify_eq/=; (split; [by apply others_step_disk|]); [done|]. by eapply vars_apart_beside.
  - simplify_eq/=. pose proof Hp as (_ & _ & [Hne _] & _). split; [|done]. split; try done.
    simpl. by rewrite lookup_insert_ne.
  - simplify_eq/=. by split.
  - simplify_eq/=. destruct Hp as (_ & _ & _ & _ & _ & Hk). split; [|done]. split; try done.
    simpl. by rewrite lookup_insert_ne.
Qed.

Lemma step_apart t h (net : N) t' h' net' :
  disk_wf (disk h) → outputDir h = od → thread_apart (disk h) t →
  step flt t h net = Ret (t', h', net') →
  others_step h h' ∧ thread_apart (disk h') t'.
Proof.
  intros Hwf Hod Hp E. pose proof (others_step_refl h Hwf) as Hrefl.
  destruct t as [req pc|q pc|req pc|pc|req pc|req pc|req|a].
  - cbn [step] in E. apply outcome_bind_inv in E as (x & E & [= Ex]).
    destruct pc; cbn [step_open] in E; repeat case_match; simplify_eq/=; split; try done;
      (split; try done); simpl; by rewrite lookup_insert_ne.
  - cbn [step] in E. destruct (step_fetch _ _ _ _) as [[q' pc']|[e q']]; simplify_eq/=; by split.
  - cbn [step] in E. destruct (step_test _ _ _ _); simplify_eq/=; by split.
  - by eapply step_store_apart.
  - cbn [step] in E. apply outcome_bind_inv in E as (x & E & [= Ex]). pose proof Hp as [Hf Hk].
    destruct pc; cbn [step_create] in E; unfold outPath in E; rewrite ?Hod in E.
    4: { destruct (os_Create _ _ _) as [r d] eqn:Ec. destruct (os_Create_beside _ _ _ _ _ _ Hwf Hf Ec) as [Hb _].
         destruct r; simplify_eq/=; (split; [by apply others_step_disk|done]). }
    all: repeat case_match; simplify_eq/=; split; try done; (split; try done);
      simpl; destruct Hf; by rewrite lookup_insert_ne.
  - cbn [step] in E. apply outcome_bind_inv in E as (x & E & [= Ex]). pose proof Hp as [Hf Hk].
    destruct pc; cbn [step_delete] in E; unfold outPath in E; rewrite ?Hod in E.
    3: { destruct (os_Remove _ _ _) as [r d] eqn:Ec. pose proof (os_Remove_beside _ _ _ _ _ _ Hwf Hf Ec) as Hb.
         destruct r; simplify_eq/=; (split; [by apply others_step_disk|done]). }
    all: repeat case_match; simplify_eq/=; split; try done; (split; try done);
      simpl; destruct Hf; by rewrite ?lookup_insert_ne, ?lookup_delete_ne.
  - cbn [step] in E. unfold CloseFile in E. repeat case_match; simplify_eq/=; split; try done;
      (by split).
  - cbn [step] in E. by simplify_eq/=.
Qed.

End Steps.

End Apart.

(** ** Our store, among others *)

Section Isolated.
  Context (flt : OsFaults) {N : Type} `{!PeerNet N}.
  Context (c : StoreFileRequest) (cs : list StoreFileRequest) (rend : error) (h0 : Handler).

Local Abbreviation p := (outPath h0 (sr_Path c)).
Local Abbreviation key := (dedupKey (sr_ClientId c) (sr_ReqSeq c)).
Local Abbreviation data := (concat (sr_Data <$> c :: cs)).
Local Abbreviation next := (i64 (version_of h0 p + 1)).

(** The file is as it was, or has the new content under the version [v]. *)
Definition file_old (h : Handler) : Prop :=
  read_file (disk h) p = read_file (disk h0) p ∧ versions h !! p = versions h0 !! p ∧ dedupTable h !! key = None.
Definition file_new (h : Handler) (v : option Z) (e : option dedupEntry) : Prop :=
  read_file (disk h) p = Some data ∧ versions h !! p = v ∧ dedupTable h !! key = e.

Definition our_vars (v : StoreLoop) : Prop :=
  sl_first v = false ∧ sl_fullPath v = p ∧ sl_tmpPath v = p +:+ ".tmp" ∧
  sl_clientID v = sr_ClientId c ∧ sl_reqSeq v = sr_ReqSeq c.

(** [got] has been written, [rest] is still to come. *)
Definition receiving_rest (h : Handler) (v : StoreLoop) (rest : bytes) (s : recv_stream StoreFileRequest) : Prop :=
  our_vars v ∧ recv_end s = rend ∧ file_old h ∧
  ∃ got fd, sl_tmpFile v = Some fd ∧ writing (disk h) fd (p +:+ ".tmp") got ∧
    got ++ rest ++ concat (sr_Data <$> msgs s) = data.

Definition our_store (h : Handler) (pc : store_pc) : Prop :=
  match pc with
  | StoreRole s => s = mkRecv (c :: cs) rend ∧ file_old h
  | StoreRecv s v =>
      if sl_first v then s = mkRecv (c :: cs) rend ∧ sl_tmpFile v = None ∧ file_old h
      else receiving_rest h v [] s
  | StoreCreate c' s => c' = c ∧ s = mkRecv cs rend ∧ file_old h
  | StoreWrite x s v => receiving_rest h v x s
  | StoreClean tmpPath r => tmpPath = p +:+ ".tmp" ∧ store_failed r ∧ file_old h
  | StoreRename v => receiving_rest h v [] (mkRecv [] rend) ∧ rend = None
  | StoreVersion v => our_vars v ∧ rend = None ∧ file_new h (versions h0 !! p) None
  | StoreReplicate v n | StoreRecord v n => our_vars v ∧ rend = None ∧ n = next ∧ file_new h (Some n) None
  end.

(** The answer tells what happened to the file. *)
Definition our_answer (h : Handler) (r : result StoreFileResponse) : Prop :=
  r = Ok (mkStoreFileResponse next "") ∧ rend = None ∧
    file_new h (Some next) (Some (DStore (mkStoreFileResponse next ""))) ∨
  store_failed r ∧ file_old h.

Definition our_thread (h : Handler) (t : thread) : Prop :=
  match t with
  | InStore pc => our_store h pc
  | Done (Reply (ReplyStore r)) => our_answer h r
  | _ => False
  end.

Lemma our_thread_others h h' t :
  others_step p key h h' → our_thread h t → our_thread h' t.
Proof.
  intros [_ [_ _ Lp Lt] Hv He].
  assert (Hold : file_old h → file_old h').
  { unfold file_old. by rewrite (leaves_read_file _ _ _ Lp), Hv, He. }
  assert (Hnew : ∀ v e, file_new h v e → file_new h' v e).
  { unfold file_new. by rewrite (leaves_read_file _ _ _ Lp), Hv, He. }
  assert (Hrest : ∀ v x s, receiving_rest h v x s → receiving_rest h' v x s).
  { intros v x s (A & B & C & got & fd & D & E & F). split; [done|]. split; [done|]. split; [by apply Hold|].
    exists got, fd. split; [done|]. split; [by eapply leaves_writing|done]. }
  destruct t as [| | |pc| | | |[[]|]]; try done; [|unfold our_thread, our_answer; naive_solver].
  destruct pc; cbn; try case_match; naive_solver.
Qed.

(** Other threads do not mind our steps on the disk. *)
Definition foreign_kept (d d' : Disk) : Prop := ∀ i, foreign p d i → foreign p d' i.

Lemma foreign_kept_thread d d' od' t : foreign_kept d d' → thread_apart od' p key d t → thread_apart od' p key d' t.
Proof.
  intros Hk. assert (Hv : ∀ v, vars_apart p key d v → vars_apart p key d' v).
  { intros v (A & B & C & D & E & F). repeat (split; [done|]). split; [|done]. intros fd Hfd. by apply Hk, E. }
  destruct t as [| | |pc| | | |]; try done. destruct pc; simpl; try done; try (case_match; [done|]); apply Hv.
Qed.

Lemma foreign_kept_create d r d' : disk_wf d → os_Create flt d (p +:+ ".tmp") = (r, d') → foreign_kept d d'.
Proof.
  intros Hwf E i Hi. unfold os_Create in E. repeat case_match; simplify_eq/=; try exact Hi.
  destruct Hi as (A & B & _). split; [simpl; lia|]. simpl. rewrite lookup_insert_ne by (apply tmp_ne).
  split; [done|]. rewrite lookup_insert_eq. intros [= <-]. lia.
Qed.

Lemma foreign_kept_rename d e d' : disk_wf d → os_Rename flt d (p +:+ ".tmp") p = (e, d') → foreign_kept d d'.
Proof.
  intros Hwf E i Hi. unfold os_Rename in E. repeat case_match; simplify_eq/=; try exact Hi;
    destruct Hi as (A & B & C); (split; [done|]); simpl;
    rewrite lookup_insert_eq, lookup_insert_ne, lookup_delete_eq by (intros ?; by eapply tmp_ne); naive_solver.
Qed.

Lemma foreign_kept_remove d r d' : os_Remove flt d (p +:+ ".tmp") = (r, d') → foreign_kept d d'.
Proof.
  intros E i Hi. unfold os_Remove in E. repeat case_match; simplify_eq/=; try exact Hi; destruct Hi as (A & B & C);
    (split; [done|]); simpl; rewrite lookup_delete_eq, lookup_delete_ne by (apply tmp_ne); done.
Qed.

Lemma foreign_kept_write d fd x r d' : fd_Write flt d fd x = (r, d') → foreign_kept d d'.
Proof. intros E i. unfold fd_Write in E. repeat case_match; by simplify_eq/=. Qed.

Lemma file_old_disk h d : read_file d p = read_file (disk h) p → file_old h → file_old (set_disk d h).
Proof. intros E (A & B). split; [simpl; by rewrite E|done]. Qed.

(** One step of our store: what it keeps for itself and for the others. *)
Record our_step (h h' : Handler) (t' : thread) : Prop := {
  our_wf : disk_wf (disk h');
  our_dir : outputDir h' = outputDir h;
  our_state : our_thread h' t';
  our_foreign : foreign_kept (disk h) (disk h');
}.

Lemma foreign_kept_refl d : foreign_kept d d.
Proof. by intros i. Qed.

(** It creates the temporary file. *)
Lemma our_create c' s h (net : N) t' h' net' :
  disk_wf (disk h) → outputDir h = outputDir h0 → our_store h (StoreCreate c' s) →
  step flt (InStore (StoreCreate c' s)) h net = Ret (t', h', net') → our_step h h' t'.
Proof.
  intros Hwf Hod (-> & -> & Hold) E. cbn [step] in E. apply outcome_bind_inv in E as (x & E & [= Ex]). pose proof foreign_kept_refl.
  cbn [step_store] in E. unfold outPath in E. rewrite Hod in E. fold (outPath h0 (sr_Path c)) in E.
  destruct (os_Create _ _ _) as [[fd|e] d] eqn:Ec; simplify_eq/=.
  - destruct (os_Create_spec _ _ _ _ _ Hwf Ec) as (Hwf' & Hw & Hr).
    split; [done|done| |by eapply foreign_kept_create]. split; [done|]. split; [done|]. split.
    { apply file_old_disk; [|done]. rewrite Hr, decide_False; [done|]. apply tmp_ne. }
    exists [], fd. by split.
  - apply os_Create_err in Ec as ->. split; [done|done| |done]. right. by split.
Qed.

(** It writes a chunk. *)
Lemma our_write x0 s v h (net : N) t' h' net' :
  disk_wf (disk h) → outputDir h = outputDir h0 → our_store h (StoreWrite x0 s v) →
  step flt (InStore (StoreWrite x0 s v)) h net = Ret (t', h', net') → our_step h h' t'.
Proof.
  intros Hwf Hod Ho E. cbn [step] in E. apply outcome_bind_inv in E as (x & E & [= Ex]). pose proof foreign_kept_refl.
  pose proof Ho as ((Hv & Hfull & Htmp & Hck) & He & Hold & got & fd & Hfd & Hw & Hdata). cbn [step_store] in E.
  rewrite Hfd in E. destruct x0 as [|y x0].
  { simplify_eq/=. split; try done. simpl. by rewrite Hv. }
  destruct (fd_Write _ _ _ _) as [[fd'|e] d] eqn:Ew; simplify_eq/=.
  - destruct (fd_Write_spec _ _ _ _ _ _ _ _ Hwf Hw Ew) as (Hwf' & Hw' & _ & Hr).
    split; [done|done| |by eapply foreign_kept_write]. simpl. rewrite Hv.
    split; [done|]. split; [done|]. split.
    { apply file_old_disk; [|done]. rewrite Hr, decide_False; [done|]. apply tmp_ne. }
    exists (got ++ y :: x0), fd'. split; [done|]. split; [done|]. by rewrite <- app_assoc.
  - apply fd_Write_err in Ew as ->. split; [done|done| |done]. split; [done|]. split; done.
Qed.

(** It renames the temporary file. *)
Lemma our_rename v h (net : N) t' h' net' :
  disk_wf (disk h) → outputDir h = outputDir h0 → our_store h (StoreRename v) →
  step flt (InStore (StoreRename v)) h net = Ret (t', h', net') → our_step h h' t'.
Proof.
  intros Hwf Hod Ho E. cbn [step] in E. apply outcome_bind_inv in E as (x & E & [= Ex]). pose proof foreign_kept_refl.
  destruct Ho as [((Hv & Hfull & Htmp & Hck) & He & Hold & got & fd & Hfd & Hw & Hdata) Hend]. cbn [step_store] in E.
  rewrite Htmp, Hfull in E. destruct (os_Rename _ _ _ _) as [e d] eqn:Er.
  destruct (commit_rename _ _ _ _ _ _ _ Hwf Hw Er) as [Hwf' Hc]. pose proof (foreign_kept_rename _ _ _ Hwf Er) as Hfk.
  destruct e as [e|]; simplify_eq/=; (split; [done|done| |done]); [done|].
  split; [done|]. split; [done|]. destruct Hold as (_ & Hov & Hoe).
  split; [|done]. simpl. rewrite (proj1 Hc p), decide_True by done. f_equal. etrans; [|exact Hdata]. simpl. by rewrite app_nil_r.
Qed.

(** Any of its steps. *)
Lemma step_our_store pc h (net : N) t' h' net' :
  disk_wf (disk h) → outputDir h = outputDir h0 → our_store h pc →
  step flt (InStore pc) h net = Ret (t', h', net') → our_step h h' t'.
Proof.
  intros Hwf Hod Ho E. pose proof E as Estep. cbn [step] in E. apply outcome_bind_inv in E as (x & E & [= Ex]).
  pose proof foreign_kept_refl.
  destruct pc as [s|s v|c' s|x0 s v|tp r|v|v|v n|v n]; cbn [our_store] in Ho.
  - destruct Ho as [-> Ho]. cbn [step_store] in E. destruct (isPrimary h); simplify_eq/=; split; try done. by right.
  - destruct (sl_first v) eqn:Hf.
    + destruct Ho as (-> & _ & Ho). cbn [step_store] in E. rewrite Hf in E. destruct Ho as (Ha & Hb & Hk).
      rewrite Hk in E. by simplify_eq/=.
    + destruct s as [[|m ms] e]; cbn [step_store] in E; [|rewrite Hf in E; simplify_eq/=; by split].
      pose proof Ho as ((Hv & Hfull & Htmp & _) & He & Hold & got & fd & Hfd & _). simpl in He. subst e.
      destruct rend as [e|] eqn:Hend; rewrite Hfd in E; simplify_eq/=; split; try done; split; try done; by rewrite Hend.
  - by eapply our_create.
  - by eapply our_write.
  - destruct Ho as (-> & Hr & Hold). cbn [step_store] in E. simplify_eq/=.
    destruct (os_Remove _ _ _) as [r0 d] eqn:Er. pose proof (os_Remove_same _ _ _ _ _ Hwf Er) as Hs.
    split; [by apply (os_Remove_spec _ _ _ _ _ Hwf Er)|done| |by eapply foreign_kept_remove].
    right. split; [done|]. apply file_old_disk; [|done]. apply Hs. intros Ep. by eapply tmp_ne.
  - by eapply our_rename.
  - destruct Ho as ((Hv & Hfull & Hrest) & He & Hr & Hver & Hent). cbn [step_store] in E. simplify_eq/=.
    split; [done|done| |done]. rewrite Hfull. unfold version_of. rewrite Hver. split; [done|]. split; [done|]. split; [done|].
    split; [done|]. split; [|done]. simpl. by rewrite lookup_insert_eq.
  - cbn [step_store] in E. simplify_eq/=. by split.
  - destruct Ho as ((Hv & Hfull & _ & Hcid & Hseq) & He & -> & Hr & Hver & Hent). cbn [step_store] in E. simplify_eq/=.
    split; [done|done| |done]. left. split; [done|]. split; [done|]. split; [done|]. split; [done|].
    simpl. rewrite Hcid, Hseq. by rewrite lookup_insert_eq.
Qed.

(** ** The whole system *)

(** Thread [i] is our store, and the others stay away from its file. *)
Record isolated (i : nat) (s : system N) : Prop := {
  iso_wf : disk_wf (disk (shared s));
  iso_dir : outputDir (shared s) = outputDir h0;
  iso_our t : threads s !! i = Some t → our_thread (shared s) t;
  iso_others j t : j ≠ i → threads s !! j = Some t → thread_apart (outputDir h0) p key (disk (shared s)) t;
}.

Lemma our_thread_step h (net : N) t t' h' net' :
  disk_wf (disk h) → outputDir h = outputDir h0 → our_thread h t → step flt t h net = Ret (t', h', net') →
  our_step h h' t'.
Proof.
  intros Hwf Hod Ho E. destruct t as [| | |pc| | | |a]; try done; [by eapply step_our_store|].
  cbn [step] in E. injection E as <- <- <-. split; try done. by intros i.
Qed.

Lemma isolated_sched i j s s' : isolated i s → sched flt j s = Ret s' → isolated i s'.
Proof.
  intros [Hwf Hod Hour Hoth] E. unfold sched in E. destruct (threads s !! j) as [t|] eqn:Hj; [|by injection E as <-].
  apply outcome_bind_inv in E as ([[t' h'] net'] & E & [= <-]). pose proof (lookup_lt_Some _ _ _ Hj) as Hlen.
  destruct (decide (j = i)) as [->|Hji].
  - destruct (our_thread_step _ _ _ _ _ _ Hwf Hod (Hour t Hj) E) as [Hwf' Hdir Hst Hfor].
    split; simpl; [done|by rewrite Hdir| |].
    + intros t0. rewrite list_lookup_insert_eq by done. by intros [= <-].
    + intros k t0 Hk. rewrite list_lookup_insert_ne by done. intros Hin. eapply foreign_kept_thread; [done|]. by eapply Hoth.
  - destruct (step_apart _ _ _ _ _ _ _ _ _ _ Hwf Hod (Hoth j t Hji Hj) E) as [Hos Hst].
    pose proof Hos as [Hdir Hb _ _]. split; simpl; [by apply Hb|by rewrite Hdir| |].
    + intros t0. rewrite list_lookup_insert_ne by done. intros Hin. eapply our_thread_others; [exact Hos|]. by apply Hour.
    + intros k t0 Hk. destruct (decide (k = j)) as [->|].
      * rewrite list_lookup_insert_eq by done. by intros [= <-].
      * rewrite list_lookup_insert_ne by done. intros Hin. eapply thread_apart_beside; [exact Hb|]. by eapply Hoth.
Qed.

Lemma isolated_run i is_ s s' : isolated i s → run flt is_ s = Ret s' → isolated i s'.
Proof.
  revert s. induction is_ as [|j is_ IH]; intros s Hs E; simpl in E; [by injection E as <-|].
  apply outcome_bind_inv in E as (s1 & E1 & E). eapply IH; [|exact E]. by eapply isolated_sched.
Qed.

(** What is visible of the file at any time. *)
Lemma our_thread_visible h t :
  our_thread h t → read_file (disk h) p = read_file (disk h0) p ∨ read_file (disk h) p = Some data.
Proof.
  destruct t as [| | |pc| | | |[[]|]]; try done; simpl; [|intros [(_ & _ & Hn & _)|[_ [Ho _]]]; auto].
  destruct pc; simpl; try case_match; unfold receiving_rest, file_old, file_new; naive_solver.
Qed.

End Isolated.
