(* ===== verification/OverlapInv.v ===== *)
(** * Invariants of overlapping handlers

    Whatever the schedule, no handler panics, and the disk and the deduplication
    table stay well formed. *)

From S2P Require Import Prelude GoLib GoText GoPath Disk AfsProto Server Handler HandlerSpec Service Overlap OverlapSpec.

(** ** Sequence numbers are used for one kind of call *)

Section Typed.
  Context (κ : string → Z → kind).

Definition stream_typed (s : recv_stream StoreFileRequest) : Prop :=
  match msgs s with [] => True | c :: _ => κ (sr_ClientId c) (sr_ReqSeq c) = KStore end.

Definition vars_typed (v : StoreLoop) : Prop := κ (sl_clientID v) (sl_reqSeq v) = KStore.

Definition store_typed (pc : store_pc) : Prop :=
  match pc with
  | StoreRole s => stream_typed s
  | StoreRecv s v => if sl_first v then sl_tmpFile v = None ∧ stream_typed s else vars_typed v
  | StoreCreate c _ => κ (sr_ClientId c) (sr_ReqSeq c) = KStore
  | StoreClean _ _ => True
  | StoreWrite _ _ v => sl_first v = false ∧ vars_typed v
  | StoreRename v | StoreVersion v | StoreReplicate v _ | StoreRecord v _ => vars_typed v
  end.

Definition thread_typed (t : thread) : Prop :=
  match t with
  | InOpen req _ => κ (or_ClientId req) (or_ReqSeq req) = KOpen
  | InStore pc => store_typed pc
  | InCreate req _ => κ (cr_ClientId req) (cr_ReqSeq req) = KCreate
  | InDelete req _ => κ (dr_ClientId req) (dr_ReqSeq req) = KDelete
  | _ => True
  end.

Lemma start_typed c : consistent κ c → thread_typed (start c).
Proof. by destruct c as [req|[[|c cs] rend]|req|req|req|req]. Qed.

Lemma os_Create_wf flt d p : disk_wf d → disk_wf (os_Create flt d p).2.
Proof.
  intros Hwf. destruct (os_Create flt d p) as [[fd|e] d'] eqn:E.
  - by apply (os_Create_spec _ _ _ _ _ Hwf E).
  - by apply os_Create_err in E as ->.
Qed.

Lemma fd_Write_wf flt d fd x : disk_wf d → disk_wf (fd_Write flt d fd x).2.
Proof. intros Hwf. unfold fd_Write. repeat case_match; try done. by apply disk_wf_set_content. Qed.

Lemma os_Rename_wf flt d f g : disk_wf d → disk_wf (os_Rename flt d f g).2.
Proof.
  intros [Hu Ha]. unfold os_Rename. repeat case_match; try done; (split; simpl; intros *;
    rewrite ?lookup_insert, ?lookup_delete; repeat case_decide; naive_solver).
Qed.

Lemma os_Remove_wf flt d f : disk_wf d → disk_wf (os_Remove flt d f).2.
Proof. intros Hwf. destruct (os_Remove flt d f) as [r d'] eqn:E. by apply (os_Remove_spec _ _ _ _ _ Hwf E). Qed.

Section Step.
  Context (flt : OsFaults) {N : Type} `{!PeerNet N}.

(** The outcome of a step that keeps the invariant. *)
Definition step_kept (o : outcome (thread * Handler * N)) : Prop :=
  ∃ t h net, o = Ret (t, h, net) ∧ service_inv κ h ∧ thread_typed t.

Lemma step_kept_Ret t h net : service_inv κ h → thread_typed t → step_kept (Ret (t, h, net)).
Proof. intros. by exists t, h, net. Qed.

Lemma inv_disk h d : service_inv κ h → disk_wf d → service_inv κ (set_disk d h).
Proof. by intros [_ H]. Qed.

Lemma inv_record h cid seq e :
  service_inv κ h → entry_kind e = κ cid seq →
  service_inv κ (set_dedup (<[dedupKey cid seq := e]> (dedupTable h)) h).
Proof. intros [Hwf Hok] He. split; [done|]. by eapply dedup_ok_insert. Qed.

(** A lookup of the deduplication table finds an entry of the right kind. *)
Lemma inv_lookup h cid seq e k :
  service_inv κ h → κ cid seq = k → dedupTable h !! dedupKey cid seq = Some e → entry_kind e = k.
Proof. intros [_ Hok] <- Hd. by apply Hok. Qed.

Lemma step_typed_store pc h net : service_inv κ h → store_typed pc → step_kept (step flt (InStore pc) h net).
Proof.
  intros Hinv Ht. pose proof Hinv as [Hwf _].
  destruct pc as [s|[[|c cs] rend] v|c s|data s v|tp r|v|v|v n|v n]; cbn [step step_store store_typed] in *.
  - destruct (isPrimary h); by apply step_kept_Ret.
  - destruct (sl_first v) eqn:Hf; [destruct Ht as [Hn _]; rewrite Hn|]; destruct rend; try (by apply step_kept_Ret);
      destruct (sl_tmpFile v); by apply step_kept_Ret.
  - destruct (sl_first v) eqn:Hf; [|by apply step_kept_Ret]. destruct Ht as [_ Ht].
    destruct (dedupTable h !! _) as [e|] eqn:Hd; [|by apply step_kept_Ret].
    pose proof (inv_lookup _ _ _ _ _ Hinv Ht Hd). destruct e; try done. by apply step_kept_Ret.
  - pose proof (os_Create_wf flt (disk h) (outPath h (sr_Path c) +:+ ".tmp") Hwf) as Hwf'.
    destruct (os_Create _ _ _) as [[fd|e] d]; (apply step_kept_Ret; [by apply inv_disk|done]).
  - destruct Ht as [Hf Ht]. assert (Hs : step_kept (Ret (InStore (StoreRecv s v), h, net))).
    { apply step_kept_Ret; [done|]. simpl. by rewrite Hf. }
    destruct (sl_tmpFile v) as [fd|]; [destruct data as [|x data]|]; [done| |done].
    pose proof (fd_Write_wf flt (disk h) fd (x :: data) Hwf) as Hwf'.
    destruct (fd_Write _ _ _ _) as [[fd'|e] d]; (apply step_kept_Ret; [by apply inv_disk|]); [|done]. simpl. by rewrite Hf.
  - apply step_kept_Ret; [|done]. apply inv_disk; [done|by apply os_Remove_wf].
  - pose proof (os_Rename_wf flt (disk h) (sl_tmpPath v) (sl_fullPath v) Hwf) as Hwf'.
    destruct (os_Rename _ _ _ _) as [[e|] d]; (apply step_kept_Ret; [by apply inv_disk|done]).
  - by apply step_kept_Ret.
  - by apply step_kept_Ret.
  - apply step_kept_Ret; [|done]. by apply inv_record.
Qed.

Lemma step_typed t h net : service_inv κ h → thread_typed t → step_kept (step flt t h net).
Proof.
  intros Hinv Ht. pose proof Hinv as [Hwf _]. destruct t as [req pc|q pc|req pc|pc|req pc|req pc|req|a]; cbn [thread_typed] in Ht.
  - destruct pc; cbn [step step_open]; try (by apply step_kept_Ret); try (case_match; by apply step_kept_Ret).
    + destruct (dedupTable h !! _) as [e|] eqn:Hd; [|by apply step_kept_Ret].
      pose proof (inv_lookup _ _ _ _ _ Hinv Ht Hd). destruct e; try done. by apply step_kept_Ret.
    + apply step_kept_Ret; [|done]. by apply inv_record.
  - cbn [step]. destruct (step_fetch _ _ _ _) as [[q' pc']|[e q']]; by apply step_kept_Ret.
  - cbn [step]. destruct (step_test _ _ _ _); by apply step_kept_Ret.
  - by apply step_typed_store.
  - destruct pc; cbn [step step_create]; try (by apply step_kept_Ret); try (case_match; by apply step_kept_Ret).
    + destruct (dedupTable h !! _) as [e|] eqn:Hd; [|by apply step_kept_Ret].
      pose proof (inv_lookup _ _ _ _ _ Hinv Ht Hd). destruct e; try done. by apply step_kept_Ret.
    + pose proof (os_Create_wf flt (disk h) (outPath h (cr_Path req)) Hwf) as Hwf'.
      destruct (os_Create _ _ _) as [[fd|e] d]; (apply step_kept_Ret; [by apply inv_disk|done]).
    + apply step_kept_Ret; [|done]. by apply inv_record.
  - destruct pc; cbn [step step_delete]; try (by apply step_kept_Ret); try (case_match; by apply step_kept_Ret).
    + destruct (dedupTable h !! _) as [e|] eqn:Hd; [|by apply step_kept_Ret].
      pose proof (inv_lookup _ _ _ _ _ Hinv Ht Hd). destruct e; try done. by apply step_kept_Ret.
    + pose proof (os_Remove_wf flt (disk h) (outPath h (dr_Path req)) Hwf) as Hwf'.
      destruct (os_Remove _ _ _) as [[]  d]; (apply step_kept_Ret; [by apply inv_disk|done]).
    + apply step_kept_Ret; [|done]. by apply inv_record.
  - cbn [step]. unfold CloseFile. destruct (handles h !! _); by apply step_kept_Ret.
  - by apply step_kept_Ret.
Qed.

Definition system_inv (s : system N) : Prop := service_inv κ (shared s) ∧ Forall thread_typed (threads s).

Lemma sched_inv i s : system_inv s → ∃ s', sched flt i s = Ret s' ∧ system_inv s'.
Proof.
  intros [Hinv Hall]. unfold sched. destruct (threads s !! i) as [t|] eqn:Hi; [|by exists s].
  pose proof (Forall_lookup_1 _ _ _ _ Hall Hi) as Ht.
  destruct (step_typed t (shared s) (network s) Hinv Ht) as (t' & h' & net' & -> & Hinv' & Ht').
  eexists. split; [done|]. split; [done|]. by apply Forall_insert.
Qed.

Lemma run_inv_system is_ s : system_inv s → ∃ s', run flt is_ s = Ret s' ∧ system_inv s'.
Proof.
  revert s. induction is_ as [|i is_ IH]; intros s Hs; [by exists s|]. simpl.
  destruct (sched_inv i s Hs) as (s1 & -> & Hs1). go_step. by apply IH.
Qed.

End Step.

End Typed.
