(* ===== verification/OverlapFetch.v ===== *)
(** * A fetch that overlaps other calls

    The inode a fetch has opened is [hidden] from the writers: only the name of
    the file may refer to it, and writers reach inodes through temporary names.
    So its content does not change while the fetch reads, and what a fetch
    delivers is the file as it was when it was opened. *)

From S2P Require Import Prelude GoLib GoText GoPath Disk AfsProto Server Handler HandlerSpec Service Overlap OverlapSpec.

Section Hidden.
  Context (p : string) (ρ : N).

Definition hidden (d : Disk) : Prop := (ρ < next_ino d)%N ∧ ∀ q, q ≠ p → names d !! q ≠ Some (DFile ρ).

(** A system call that leaves the hidden inode alone. *)
Definition hides (d d' : Disk) : Prop := content d' ρ = content d ρ ∧ hidden d'.

Lemma os_Create_hides flt d f r d' :
  hidden d → f ≠ p → os_Create flt d f = (r, d') → hides d d' ∧ ∀ fd, r = Ok fd → fd_ino fd ≠ ρ.
Proof.
  intros [Hlt Hn] Hf E. unfold os_Create in E. destruct (create_fault flt f); [by simplify_eq|].
  destruct (names d !! f) as [[j|]|] eqn:Hj; simplify_eq/=; [|done|].
  - assert (j ≠ ρ) by (intros ->; by eapply Hn). split; [|by intros ? [= <-]]. split; [|done].
    by rewrite content_set, decide_False.
  - split; [|intros ? [= <-]; simpl; lia]. split.
    + unfold content. simpl. rewrite lookup_insert_ne; [done|lia].
    + split; [simpl; lia|]. intros q Hq. simpl. rewrite lookup_insert. case_decide; [intros [= E]; lia|by apply Hn].
Qed.

Lemma fd_Write_hides flt d fd x r d' :
  hidden d → fd_ino fd ≠ ρ → fd_Write flt d fd x = (r, d') → hides d d' ∧ ∀ fd', r = Ok fd' → fd_ino fd' ≠ ρ.
Proof.
  intros Hh Hf E. unfold fd_Write in E. destruct (write_fault _ _ _); [by simplify_eq|].
  destruct (fd_writable fd); simplify_eq/=; [|done]. split; [|by intros ? [= <-]].
  split; [|done]. by rewrite content_set, decide_False.
Qed.

Lemma os_Rename_hides flt d f g e d' : hidden d → f ≠ p → os_Rename flt d f g = (e, d') → hides d d'.
Proof.
  intros Hh Hf E. unfold os_Rename in E. repeat case_match; simplify_eq/=; try (by split);
    destruct Hh as [Hlt Hn]; (split; [done|]); (split; [done|]);
    intros q Hq; simpl; rewrite lookup_insert, lookup_delete; (repeat case_decide;
    [intros [= ->]; by apply (Hn f)|done|by apply Hn]).
Qed.

Lemma os_Remove_hides flt d f r d' : hidden d → os_Remove flt d f = (r, d') → hides d d'.
Proof.
  intros Hh E. unfold os_Remove in E. repeat case_match; simplify_eq/=; try (by split);
    destruct Hh as [Hlt Hn]; (split; [done|]); (split; [done|]); intros q Hq; simpl;
    rewrite lookup_delete; (destruct (decide (f = q)); [done|by apply Hn]).
Qed.

(** The thread does not create [p] itself, and none of its descriptors is on
    the hidden inode. *)
Definition vars_spare (v : StoreLoop) : Prop :=
  sl_tmpPath v ≠ p ∧ ∀ fd, sl_tmpFile v = Some fd → fd_ino fd ≠ ρ.

Definition chunk_spares (od : string) (c : StoreFileRequest) : Prop := PathJoin od (Base (sr_Path c)) +:+ ".tmp" ≠ p.
Definition stream_spares (od : string) (s : recv_stream StoreFileRequest) : Prop :=
  match msgs s with [] => True | c :: _ => chunk_spares od c end.

Definition spares (od : string) (t : thread) : Prop :=
  match t with
  | InStore (StoreRole s) => stream_spares od s
  | InStore (StoreRecv s v) => if sl_first v then sl_tmpFile v = None ∧ stream_spares od s else vars_spare v
  | InStore (StoreCreate c _) => chunk_spares od c
  | InStore (StoreWrite _ _ v) => sl_first v = false ∧ vars_spare v
  | InStore (StoreRename v) => sl_tmpPath v ≠ p
  | InCreate req _ => PathJoin od (Base (cr_Path req)) ≠ p
  | _ => True
  end.

Section Step.
  Context (flt : OsFaults) {N : Type} `{!PeerNet N}.

Lemma hides_refl d : hidden d → hides d d.
Proof. by split. Qed.

Lemma step_store_hides pc h (net : N) t' h' net' :
  hidden (disk h) → spares (outputDir h) (InStore pc) → step flt (InStore pc) h net = Ret (t', h', net') →
  hides (disk h) (disk h') ∧ spares (outputDir h) t'.
Proof.
  intros Hh Hs E. pose proof (hides_refl _ Hh) as Hrefl. cbn [step] in E. apply outcome_bind_inv in E as (x & E & [= Ex]).
  destruct pc as [s|[[|c cs] rend] v|c s|data s v|tp r|v|v|v n|v n]; cbn [step_store spares] in E, Hs.
  - destruct (isPrimary h); simplify_eq/=; by split.
  - destruct (sl_first v); [destruct Hs as [Ht _]; rewrite Ht in E; destruct rend; by simplify_eq/=|].
    destruct rend, (sl_tmpFile v); simplify_eq/=; try done. split; [done|]. apply Hs.
  - destruct (sl_first v) eqn:Hf; [|by simplify_eq/=]. destruct Hs as [_ Hs].
    destruct (dedupTable h !! _) as [[]|]; by simplify_eq/=.
  - destruct (os_Create _ _ _) as [r d] eqn:Ec. destruct (os_Create_hides _ _ _ _ _ Hh Hs Ec) as [Hd Hfd].
    destruct r as [fd|e]; simplify_eq/=; [|done]. split; [done|]. split; [done|]. split; [done|].
    intros ? [= <-]. by apply Hfd.
  - destruct Hs as (Hf & Htp & Hs). assert (Hskip : Ret (Continue (StoreRecv s v, h, net)) = Ret x →
      hides (disk h) (disk h') ∧ spares (outputDir h) t').
    { intros [= <-]. simplify_eq/=. by rewrite Hf. }
    destruct (sl_tmpFile v) as [fd|] eqn:Hfd; [destruct data as [|y data]|]; [by apply Hskip| |by apply Hskip].
    destruct (fd_Write _ _ _ _) as [r d] eqn:Ew. destruct (fd_Write_hides _ _ _ _ _ _ Hh (Hs fd eq_refl) Ew) as [Hd Hi].
    destruct r as [fd'|e]; simplify_eq/=; [|done]. rewrite Hf. split; [done|]. split; [done|]. intros ? [= <-]. by apply Hi.
  - simplify_eq/=. split; [|done]. destruct (os_Remove _ _ _) as [r0 d] eqn:Er. by eapply os_Remove_hides.
  - destruct (os_Rename _ _ _ _) as [e d] eqn:Er.
    pose proof (os_Rename_hides _ _ _ _ _ _ Hh Hs Er). destruct e; by simplify_eq/=.
  - by simplify_eq/=.
  - by simplify_eq/=.
  - by simplify_eq/=.
Qed.

Lemma step_hides t h (net : N) t' h' net' :
  hidden (disk h) → spares (outputDir h) t → step flt t h net = Ret (t', h', net') →
  hides (disk h) (disk h') ∧ spares (outputDir h) t'.
Proof.
  intros Hh Hs E. pose proof (hides_refl _ Hh) as Hrefl. destruct t as [req pc|q pc|req pc|pc|req pc|req pc|req|a].
  - cbn [step] in E. apply outcome_bind_inv in E as (x & E & [= Ex]).
    destruct pc; cbn [step_open] in E; repeat case_match; by simplify_eq/=.
  - cbn [step] in E. destruct (step_fetch _ _ _ _) as [[q' pc']|[e q']]; by simplify_eq/=.
  - cbn [step] in E. destruct (step_test _ _ _ _); by simplify_eq/=.
  - by eapply step_store_hides.
  - cbn [step] in E. apply outcome_bind_inv in E as (x & E & [= Ex]).
    destruct pc; cbn [step_create] in E; try (repeat case_match; by simplify_eq/=).
    destruct (os_Create _ _ _) as [r d] eqn:Ec. destruct (os_Create_hides _ _ _ _ _ Hh Hs Ec) as [Hd _].
    destruct r; by simplify_eq/=.
  - cbn [step] in E. apply outcome_bind_inv in E as (x & E & [= Ex]).
    destruct pc; cbn [step_delete] in E; try (repeat case_match; by simplify_eq/=).
    destruct (os_Remove _ _ _) as [r d] eqn:Er. pose proof (os_Remove_hides _ _ _ _ _ Hh Er).
    destruct r; by simplify_eq/=.
  - cbn [step] in E. unfold CloseFile in E. repeat case_match; by simplify_eq/=.
  - by simplify_eq/=.
Qed.

Lemma step_dir t h (net : N) t' h' net' :
  step flt t h net = Ret (t', h', net') → outputDir h' = outputDir h.
Proof.
  intros E. destruct t as [req pc|q pc|req pc|pc|req pc|req pc|req|a]; cbn [step] in E;
    try (apply outcome_bind_inv in E as (x & E & [= Ex]); destruct pc).
  all: cbn [step_open step_store step_create step_delete] in E; unfold CloseFile in E;
    repeat case_match; by simplify_eq/=.
Qed.

Lemma solo_hides n t h (net : N) t' h' net' :
  hidden (disk h) → spares (outputDir h) t → solo flt n t h net = Ret (t', h', net') → hides (disk h) (disk h').
Proof.
  revert t h net. induction n as [|n IH]; intros t h net Hh Hs E; simpl in E; [injection E as <- <- <-; by split|].
  apply outcome_bind_inv in E as ([[t1 h1] net1] & E1 & E). destruct (step_hides _ _ _ _ _ _ Hh Hs E1) as [[Hc Hh1] Hs1].
  rewrite <- (step_dir _ _ _ _ _ _ E1) in Hs1. destruct (IH _ _ _ Hh1 Hs1 E) as [Hc' Hh']. split; [by rewrite Hc'|done].
Qed.

End Step.

End Hidden.

(** ** One fetch, our store, and others *)

Section Reader.
  Context (flt : OsFaults) {N : Type} `{!PeerNet N}.
  Context (c : StoreFileRequest) (cs : list StoreFileRequest) (rend : error) (h0 : Handler) (old : bytes).

Local Abbreviation p := (outPath h0 (sr_Path c)).
Local Abbreviation key := (dedupKey (sr_ClientId c) (sr_ReqSeq c)).
Local Abbreviation data := (concat (sr_Data <$> c :: cs)).

Definition whole (x : bytes) : Prop := x = old ∨ x = data.
Definition version_seen (v : Z) : Prop := v = version_of h0 p ∨ v = i64 (version_of h0 p + 1).

(** The messages so far deliver what is not left of the open file. *)
Definition delivering (d : Disk) (fd : Fd) (v : Z) (q : send_stream FetchFileResponse) : Prop :=
  hidden p (fd_ino fd) d ∧ whole (content d (fd_ino fd)) ∧ version_seen v ∧
  concat (fp_Data <$> sent q) ++ drop (fd_off fd) (content d (fd_ino fd)) = content d (fd_ino fd) ∧
  Forall (λ m, fp_Version m = v ∧ fp_Error m = "") (sent q).

Definition delivered (q : send_stream FetchFileResponse) : Prop :=
  ∃ v, whole (concat (fp_Data <$> sent q)) ∧ version_seen v ∧ Forall (λ m, fp_Version m = v) (sent q).

Definition reader (d : Disk) (t : thread) : Prop :=
  match t with
  | InFetch q (FetchOpen f) => f = p ∧ sent q = []
  | InFetch q (FetchVersion f (OpenFile fd)) =>
      f = p ∧ sent q = [] ∧ fd_off fd = 0 ∧ hidden p (fd_ino fd) d ∧ whole (content d (fd_ino fd))
  | InFetch q (FetchRead (OpenFile fd) v _) => delivering d fd v q
  | Done (Fetched e q) => e = None → error_free q → delivered q
  | _ => False
  end.

Definition open_inode (t : thread) : option BinNums.N :=
  match t with
  | InFetch _ (FetchVersion _ (OpenFile fd)) | InFetch _ (FetchRead (OpenFile fd) _ _) => Some (fd_ino fd)
  | _ => None
  end.

Lemma reader_hides d d' t :
  (∀ ρ, open_inode t = Some ρ → hides p ρ d d') → reader d t → reader d' t.
Proof.
  intros Hh Hr. destruct t as [| q pc| | | | | |a]; try done.
  destruct pc as [|f|f [fd|]|[fd|] v n]; try done; destruct (Hh _ eq_refl) as [Hc Hd]; simpl in *; unfold delivering in *;
    rewrite Hc; naive_solver.
Qed.

Lemma reader_hidden d t ρ : reader d t → open_inode t = Some ρ → hidden p ρ d.
Proof.
  destruct t as [| q pc| | | | | |a]; try done.
  destruct pc as [|f|f [fd|]|[fd|] v n]; simpl; try done; unfold delivering; naive_solver.
Qed.

(** What the writers do when a file is opened. *)
Lemma apart_spares d t ρ :
  thread_apart (outputDir h0) p key d t → names d !! p = Some (DFile ρ) → spares p ρ (outputDir h0) t.
Proof.
  intros Ha Hn. assert (Hv : ∀ v, vars_apart p key d v → vars_spare p ρ v).
  { intros v (_ & _ & _ & [Ht _] & Hf & _). split; [done|]. intros fd Hfd E.
    destruct (Hf fd Hfd) as (_ & Hp & _). by rewrite E in Hp. }
  assert (Hc : ∀ c', chunk_apart (outputDir h0) p key c' → chunk_spares p (outputDir h0) c') by (intros c' (_ & [Ht _] & _); exact Ht).
  destruct t as [| | |pc|req pc| | |]; try done; [|by destruct Ha as [[Ha _] _]].
  destruct pc as [s|s v|c' s|x s v|tp r|v|v|v n|v n]; simpl in *; try done.
  - unfold stream_apart, stream_spares in *. destruct (msgs s); [done|by apply Hc].
  - destruct (sl_first v); [|by apply Hv]. destruct Ha as [Ht Ha]. split; [done|].
    unfold stream_apart, stream_spares in *. destruct (msgs s); [done|by apply Hc].
  - by apply Hc.
  - split; [by destruct Ha|by apply Hv].
  - by apply Hv.
Qed.

Lemma our_spares h t ρ :
  disk_wf (disk h) → our_thread c cs rend h0 h t → names (disk h) !! p = Some (DFile ρ) → spares p ρ (outputDir h0) t.
Proof.
  intros Hwf Ho Hn. assert (Hr : ∀ v x s, receiving_rest c cs rend h0 h v x s → sl_first v = false ∧ vars_spare p ρ v).
  { intros v x s ((Hf & _ & Ht & _) & _ & _ & got & fd & Hfd & (Hw & _) & _). split; [done|]. split; [rewrite Ht; apply tmp_ne|].
    intros ? Hfd'. rewrite Hfd in Hfd'. injection Hfd' as <-. intros E. rewrite E in Hw.
    by apply (tmp_ne p), (wf_unique _ Hwf _ _ ρ). }
  assert (Hc : chunk_spares p (outputDir h0) c) by apply tmp_ne.
  destruct t as [| | |pc|req pc| | |]; try done.
  destruct pc as [s|s v|c' s|x s v|tp r|v|v|v n|v n]; simpl in *; try done.
  - by destruct Ho as [-> _].
  - destruct (sl_first v); [|by eapply Hr]. by destruct Ho as (-> & -> & _).
  - by destruct Ho as [-> _].
  - by eapply Hr.
  - destruct Ho as [Ho _]. by eapply Hr.
Qed.

Lemma our_version h t : our_thread c cs rend h0 h t → version_seen (version_of h p).
Proof.
  assert (Hv : versions h !! p = versions h0 !! p ∨ versions h !! p = Some (i64 (version_of h0 p + 1)) →
    version_seen (version_of h p)).
  { intros [E|E]; [left; unfold version_of|right; unfold version_of at 1]; by rewrite E. }
  intros Ho. apply Hv. destruct t as [| | |pc|req pc| | |[[]|]]; try done; simpl in Ho; [|unfold our_answer, file_old, file_new in Ho; naive_solver].
  destruct pc as [s|s v|c' s|x s v|tp r|v|v|v n|v n]; simpl in Ho; try case_match;
    unfold receiving_rest, file_old, file_new in Ho; naive_solver.
Qed.

(** ** The reader's own steps *)

Lemma take_drop_take {A} n (l : list A) : take n l ++ drop (length (take n l)) l = l.
Proof.
  rewrite length_take. destruct (decide (n ≤ length l)); [rewrite Nat.min_l by done; apply take_drop|].
  rewrite Nat.min_r by lia. rewrite take_ge, drop_ge by lia. apply app_nil_r.
Qed.

Lemma error_free_send q m (e : error) q' :
  sent q = [] → stream_Send q m = (e, q') → fp_Error m ≠ "" → e = None → error_free q' → False.
Proof.
  destruct q as [l k]. simpl. intros -> E Hm -> Hf. by destruct (stream_Send_error _ _ _ _ Hm E Hf).
Qed.

Lemma reader_step t (h : Handler) (net : N) t' h' net' :
  disk_wf (disk h) → read_file (disk h0) p = Some old →
  (read_file (disk h) p = read_file (disk h0) p ∨ read_file (disk h) p = Some data) →
  version_seen (version_of h p) → reader (disk h) t → step flt t h net = Ret (t', h', net') →
  h' = h ∧ reader (disk h) t' ∧
  ∀ ρ, open_inode t' = Some ρ → open_inode t = Some ρ ∨ names (disk h) !! p = Some (DFile ρ).
Proof.
  intros Hwf Hold Hvis Hver Hr E. destruct t as [| q pc| | | | | |a]; try done.
  2: { cbn [step] in E. injection E as <- <- <-. split; [done|]. split; [done|]. by left. }
  cbn [step] in E. destruct pc as [|f|f [fd|]|[fd|] v n]; try done; cbn [step_fetch] in E.
  - destruct Hr as [-> Hq]. assert (Hf : ∃ ρ, names (disk h) !! p = Some (DFile ρ) ∧ whole (content (disk h) ρ)).
    { unfold read_file in Hvis at 1 3. rewrite Hold in Hvis.
      destruct (names (disk h) !! p) as [[ρ|]|]; [|destruct Hvis; done..]. exists ρ. split; [done|].
      destruct Hvis as [[= ->]|[= ->]]; [by left|by right]. }
    destruct Hf as (ρ & Hn & Hw). destruct (os_Open flt (disk h) p) as [f|e] eqn:Eo.
    + simplify_eq/=. split; [done|]. unfold os_Open in Eo. destruct (open_fault _ _); [done|]. rewrite Hn in Eo. simplify_eq/=.
      split; [|intros ? [= <-]; by right]. split; [done|]. split; [done|]. split; [done|]. split; [|done].
      split; [by eapply wf_alloc|]. intros q' Hq' Hn'. apply Hq'. by eapply (wf_unique _ Hwf).
    + destruct (stream_Send _ _) as [e' q'] eqn:Es. simplify_eq/=. split; [done|]. split; [|done].
      intros He Hef. exfalso. by eapply error_free_send.
  - destruct Hr as (-> & Hq & Hoff & Hh & Hw). simplify_eq/=. split; [done|]. split; [|intros ? [= <-]; by left].
    cbn [reader]. unfold delivering. rewrite Hq, Hoff. by split.
  - destruct Hr as (Hh & Hw & Hv & Hcat & Hall). pose proof chunkSize_pos as Hcs.
    set (rest := drop (fd_off fd) (content (disk h) (fd_ino fd))) in *.
    destruct (_ || _)%bool eqn:Ht.
    + simplify_eq/=. split; [done|]. split; [|done].
      intros He _. exists v. split; [|split; [done|]].
      * destruct (read_fault flt (fd_path fd)) as [[k e]|]; [done|]. simpl in Ht. apply bool_decide_eq_true in Ht.
        assert (rest = []) as Hd by (destruct rest; [done|]; destruct chunkSize; [lia|done]).
        rewrite Hd, app_nil_r in Hcat. by rewrite Hcat.
      * eapply Forall_impl; [exact Hall|naive_solver].
    + destruct (stream_Send q _) as [[e|] q'] eqn:Es; simplify_eq/=; (split; [done|]).
      { by split. }
      split; [|intros ? [= <-]; by left]. unfold stream_Send in Es. assert (Hq' : sent q' = sent q ++ [mkFetchFileResponse (take chunkSize rest) v ""]).
      { destruct (quota q) as [[|k]|]; by simplify_eq/=. }
      split; [done|]. split; [done|]. split; [done|]. rewrite Hq', fmap_app, concat_app. simpl. split.
      * rewrite app_nil_r, <- app_assoc, <- drop_drop. fold rest. by rewrite take_drop_take.
      * apply Forall_app. split; [done|]. by repeat constructor.
Qed.

(** ** The whole system *)

(** Thread [i] is our store, thread [k] the fetch; no descriptor of another
    thread is on the inode the fetch has open. *)
Record watched (i k : nat) (s : system N) : Prop := {
  wat_iso : isolated c cs rend h0 i s;
  wat_old : read_file (disk h0) p = Some old;
  wat_our : is_Some (threads s !! i);
  wat_reader t : threads s !! k = Some t → reader (disk (shared s)) t;
  wat_spares t ρ : threads s !! k = Some t → open_inode t = Some ρ →
    ∀ j t', threads s !! j = Some t' → spares p ρ (outputDir h0) t';
}.

Lemma spares_opened i (s : system N) ρ j t :
  isolated c cs rend h0 i s → names (disk (shared s)) !! p = Some (DFile ρ) → threads s !! j = Some t →
  spares p ρ (outputDir h0) t.
Proof.
  intros [Hwf Hod Hour Hoth] Hn Hj. destruct (decide (j = i)) as [->|Hji].
  - eapply our_spares; [exact Hwf|by apply Hour|done].
  - eapply apart_spares; [by eapply Hoth|done].
Qed.

Lemma spares_fetch ρ q pc : spares p ρ (outputDir h0) (InFetch q pc).
Proof. done. Qed.

Lemma watched_sched i k j s s' : i ≠ k → watched i k s → sched flt j s = Ret s' → watched i k s'.
Proof.
  intros Hik [Hiso Hold [ti Hi] Hrd Hsp] E. pose proof (isolated_sched flt _ _ _ _ _ _ _ _ Hiso E) as Hiso'.
  pose proof Hiso as [Hwf Hod Hour _]. unfold sched in E.
  destruct (threads s !! j) as [t|] eqn:Hj; [|injection E as <-; split; [done|done|by exists ti|done..]].
  apply outcome_bind_inv in E as ([[t' h'] net'] & E & [= <-]). pose proof (lookup_lt_Some _ _ _ Hj) as Hlen.
  assert (Hi' : is_Some (<[j := t']> (threads s) !! i)).
  { destruct (decide (i = j)) as [->|]; [by rewrite list_lookup_insert_eq|]. rewrite list_lookup_insert_ne by done. by exists ti. }
  destruct (decide (j = k)) as [->|Hjk].
  - pose proof (our_thread_visible _ _ _ _ _ _ (Hour _ Hi)) as Hvis. pose proof (our_version _ _ (Hour _ Hi)) as Hver.
    destruct (reader_step _ _ _ _ _ _ Hwf Hold Hvis Hver (Hrd _ Hj) E) as (-> & Hrd' & Hino).
    split; [done|done|done|..]; simpl; rewrite list_lookup_insert_eq by done; [by intros ? [= <-]|].
    intros ? ρ [= <-] Hρ m tm Hm. destruct (decide (m = k)) as [->|Hmk].
    + rewrite list_lookup_insert_eq in Hm by done. injection Hm as <-.
      destruct t'; solve [discriminate Hρ|apply spares_fetch].
    + rewrite list_lookup_insert_ne in Hm by done.
      destruct (Hino ρ Hρ) as [Ho|Ho]; [by eapply (Hsp t)|by eapply (spares_opened i s)].
  - assert (Hkeep : ∀ tk ρ, threads s !! k = Some tk → open_inode tk = Some ρ →
      hides p ρ (disk (shared s)) (disk h') ∧ spares p ρ (outputDir h0) t').
    { intros tk ρ Hk Hρ. rewrite <- Hod. eapply step_hides; [by eapply reader_hidden, Hρ; apply Hrd| |exact E].
      rewrite Hod. by eapply (Hsp tk). }
    split; [done|done|done|..]; simpl; rewrite list_lookup_insert_ne by done.
    + intros tk Hk. eapply reader_hides; [|by apply Hrd]. intros ρ Hρ. by eapply Hkeep.
    + intros tk ρ Hk Hρ m tm Hm. destruct (decide (m = j)) as [->|Hmj].
      * rewrite list_lookup_insert_eq in Hm by done. injection Hm as <-. by eapply Hkeep.
      * rewrite list_lookup_insert_ne in Hm by done. by eapply (Hsp tk).
Qed.

Lemma watched_run i k is_ s s' : i ≠ k → watched i k s → run flt is_ s = Ret s' → watched i k s'.
Proof.
  intros Hik. revert s. induction is_ as [|j is_ IH]; intros s Hs E; simpl in E; [by injection E as <-|].
  apply outcome_bind_inv in E as (s1 & E1 & E). eapply IH; [|exact E]. by eapply watched_sched.
Qed.

End Reader.
