(* ===== verification/Cluster.v ===== *)
(** * A primary and its backups

    The network of src/afsfs/pkg/server/replication.go seen from outside: a
    finite map from addresses to nodes, each a [Handler] with its own disk
    failures and a link that may break in the middle of a stream.  A server
    that is down is absent from the map.  The main lemma is that replicating an
    operation applies one function to the node of every peer, so that the
    order in which the goroutines of [replicateStreamToAll] run is irrelevant;
    the main invariant is [mirrors]: every healthy backup holds the primary's
    output files under the primary's versions. *)

From S2P Require Import Prelude GoLib GoText GoPath Disk AfsProto Server Handler HandlerSpec Service.

Record Node := mkNode {
  node_flt : OsFaults;
  node_cut : option nat;    (* messages delivered before the link breaks *)
  node_srv : Handler;
}.

Definition deliver (cut : option nat) (chunks : list ReplicateRequest) (err : error)
    : recv_stream ReplicateRequest :=
  match cut with
  | Some k => if decide (k ≤ length chunks) then mkRecv (take k chunks) (Some "transport is closing")
              else mkRecv chunks err
  | None => mkRecv chunks err
  end.

Definition node_receive (chunks : list ReplicateRequest) (err : error) (nd : Node)
    : result ReplicateResponse * Node :=
  let s := deliver (node_cut nd) chunks err in
  let '(r, h) := Replicate (node_flt nd) s (node_srv nd) in
  (match recv_end s with Some e => Err e | None => r end, mkNode (node_flt nd) (node_cut nd) h).

#[export] Instance cluster_net : PeerNet (gmap string Node) := {
  net_Replicate addr chunks err net :=
    match net !! addr with
    | None => (Err "connection refused", net)
    | Some nd => let '(r, nd) := node_receive chunks err nd in (r, <[addr := nd]> net)
    end
}.

(** ** Replication is one function, applied at every peer *)

(** The messages [replicateStreamToPeer] sends, and how it ends its stream. *)
Definition sent_stream (flt : OsFaults) (h : Handler) (operation path fullPath : string) (version : Z)
    : list ReplicateRequest * error :=
  if decide (operation = "delete" ∨ operation = "create") then
    ([mkReplicateRequest operation path version []], None)
  else
    match os_Open flt (disk h) fullPath with
    | Err _ => ([], Some "context canceled")
    | Ok f =>
        let '(cs, e) := read_chunks flt chunkSize (disk h) f in
        (replicate_chunks operation path version cs,
         match e with Some _ => Some "context canceled" | None => None end)
    end.

Definition receive (s : list ReplicateRequest * error) (nd : Node) : Node :=
  (node_receive s.1 s.2 nd).2.

Lemma net_Replicate_alter addr cs e (net : gmap string Node) :
  (net_Replicate addr cs e net).2 = alter (receive (cs, e)) addr net.
Proof.
  simpl. unfold receive. destruct (net !! addr) as [nd|] eqn:E; simpl.
  - destruct (node_receive cs e nd) as [r nd'] eqn:Er. simpl. apply map_eq. intros i.
    destruct (decide (addr = i)) as [<-|Hne].
    + rewrite lookup_insert_eq, lookup_alter_eq, E. simpl. by rewrite Er.
    + by rewrite lookup_insert_ne, lookup_alter_ne.
  - symmetry. apply map_eq. intros i. destruct (decide (addr = i)) as [<-|Hne].
    + by rewrite lookup_alter_eq, E.
    + by rewrite lookup_alter_ne.
Qed.

Lemma replicateStreamToPeer_alter flt h p op path full v (net : gmap string Node) :
  (replicateStreamToPeer flt h p op path full v net).2 =
  alter (receive (sent_stream flt h op path full v)) (peer_addr p) net.
Proof.
  unfold replicateStreamToPeer, sent_stream. case_decide as Hop.
  - rewrite <- net_Replicate_alter. destruct (net_Replicate _ _ _ _) as [[resp|e] n]; [|done].
    by case_decide.
  - destruct (os_Open flt (disk h) full) as [f|e].
    2: { rewrite <- net_Replicate_alter. by destruct (net_Replicate _ _ _ _) as [? n]. }
    destruct (read_chunks flt chunkSize (disk h) f) as [cs [e|]]; rewrite <- net_Replicate_alter.
    + by destruct (net_Replicate _ _ _ _) as [? n].
    + destruct (net_Replicate _ _ _ _) as [[resp|e] n]; [|done]. by case_decide.
Qed.

(** Applying [f] at each address of a list. *)
Fixpoint alter_all (f : Node → Node) (addrs : list string) (net : gmap string Node) : gmap string Node :=
  match addrs with
  | [] => net
  | a :: addrs => alter_all f addrs (alter f a net)
  end.

Lemma replicate_to_peers_alter flt h ps op path full v (net : gmap string Node) :
  replicate_to_peers flt h ps op path full v net =
  alter_all (receive (sent_stream flt h op path full v)) (peer_addr <$> ps) net.
Proof.
  revert net. induction ps as [|p ps IH]; intros net; [done|]. simpl.
  rewrite <- (replicateStreamToPeer_alter flt h p op path full v net).
  destruct (replicateStreamToPeer _ _ _ _ _ _ _ _) as [e n]. apply IH.
Qed.

#[export] Instance alter_all_Permutation f :
  Proper (Permutation ==> eq ==> eq) (alter_all f).
Proof.
  intros l1 l2 Hl net ? <-. revert net.
  induction Hl as [|a l1 l2 _ IH|a b l|l1 l2 l3 _ IH1 _ IH2]; intros net; simpl; [done|auto|..].
  - destruct (decide (a = b)) as [->|Hne]; [done|]. by rewrite alter_alter_ne.
  - by rewrite IH1.
Qed.

Lemma alter_all_lookup_not f addrs net a : a ∉ addrs → alter_all f addrs net !! a = net !! a.
Proof.
  revert net. induction addrs as [|b addrs IH]; intros net; [done|].
  intros [Hne Ha]%not_elem_of_cons. simpl. rewrite IH by done. by apply lookup_alter_ne.
Qed.

Lemma alter_all_lookup f addrs net a :
  NoDup addrs → a ∈ addrs → alter_all f addrs net !! a = f <$> net !! a.
Proof.
  revert net. induction addrs as [|b addrs IH]; intros net Hnd Ha; [by apply not_elem_of_nil in Ha|].
  apply NoDup_cons in Hnd as [Hb Hnd]. simpl. apply elem_of_cons in Ha as [->|Ha].
  - rewrite alter_all_lookup_not by done. apply lookup_alter_eq.
  - rewrite IH by done. by rewrite lookup_alter_ne by (by intros ->).
Qed.

(** ** One backup *)

Definition out_name (h : Handler) (b : string) : string := PathJoin (outputDir h) b.

(** A healthy backup: its disk and link work, and its output directory has no
    subdirectories. *)
Record node_ok (nd : Node) : Prop := {
  ok_flt : node_flt nd = no_faults;
  ok_cut : node_cut nd = None;
  ok_wf : disk_wf (disk (node_srv nd));
  ok_dirs b : safe_name b → names (disk (node_srv nd)) !! out_name (node_srv nd) b ≠ Some DDir;
}.

(** A name that is no file's temporary. *)
Definition plain (b : string) : Prop := safe_name b ∧ ∀ b', b ≠ b' +:+ ".tmp".

(** The backup holds the primary's output files under the primary's versions. *)
Definition mirror (h bh : Handler) : Prop :=
  ∀ b, plain b →
    read_file (disk bh) (out_name bh b) = read_file (disk h) (out_name h b) ∧
    versions bh !! out_name bh b = versions h !! out_name h b.

(** An operation on the file named [b0] that leaves content [data] and version
    [v]; the other files stay. *)
Definition changes (b0 : string) (data : option bytes) (v : option Z) (h h' : Handler) : Prop :=
  outputDir h' = outputDir h ∧
  ∀ b, plain b →
    read_file (disk h') (out_name h b) =
      (if decide (b = b0) then data else read_file (disk h) (out_name h b)) ∧
    versions h' !! out_name h b = (if decide (b = b0) then v else versions h !! out_name h b).

Lemma out_name_ext h h' b : outputDir h' = outputDir h → out_name h' b = out_name h b.
Proof. unfold out_name. by intros ->. Qed.

Lemma mirror_changes b0 data v h h' bh bh' :
  mirror h bh → changes b0 data v h h' → changes b0 data v bh bh' → mirror h' bh'.
Proof.
  intros Hm [Eo H1] [Eo' H2] b Hb. rewrite (out_name_ext h h'), (out_name_ext bh bh') by done.
  destruct (H1 b Hb) as [-> ->], (H2 b Hb) as [-> ->], (Hm b Hb). by case_decide.
Qed.

Lemma mirror_unchanged h h' bh :
  mirror h bh → outputDir h' = outputDir h → versions h' = versions h →
  (∀ b, plain b → read_file (disk h') (out_name h b) = read_file (disk h) (out_name h b)) →
  mirror h' bh.
Proof.
  intros Hm Eo Ev Hr b Hb. rewrite (out_name_ext h h'), Ev, Hr by done. by apply Hm.
Qed.

Lemma out_name_inj h b b' : safe_name b → safe_name b' → out_name h b = out_name h b' → b = b'.
Proof. apply PathJoin_safe_inj. Qed.

Lemma out_name_tmp h b b' : plain b → safe_name b' → out_name h b ≠ out_name h b' +:+ ".tmp".
Proof.
  intros [Hb Hpl] Hb' E. symmetry in E. apply PathJoin_tmp_inj in E; [|done..]. by eapply Hpl.
Qed.

(** From what the lemmas about handlers say to [changes]. *)
Lemma only_file_changes b0 data v h h' :
  safe_name b0 → outputDir h' = outputDir h → only_file (out_name h b0) h h' →
  read_file (disk h') (out_name h b0) = data →
  versions h' = partial_alter (λ _, v) (out_name h b0) (versions h) →
  changes b0 data v h h'.
Proof.
  intros Hb0 Eo [_ Hq] Hd Hv. split; [done|]. intros b Hb.
  assert (Hneq : b ≠ b0 → out_name h b ≠ out_name h b0).
  { intros Hne E. by apply out_name_inj in E; [|apply Hb|]. }
  rewrite Hv. case_decide as Hbb; [subst b|].
  - split; [done|]. apply lookup_partial_alter_eq.
  - split; [apply Hq; [by apply Hneq|by apply out_name_tmp]|].
    apply lookup_partial_alter_ne. intros E. by apply Hneq.
Qed.

Lemma insert_partial_alter {A} (m : gmap string A) k x :
  <[k := x]> m = partial_alter (λ _, Some x) k m.
Proof. done. Qed.
Lemma delete_partial_alter {A} (m : gmap string A) k :
  delete k m = partial_alter (λ _, None) k m.
Proof. done. Qed.

(** ** [Replicate] creates no directory *)

Lemma write_chunk_dirs {R} flt (fail : string → R) h tmp p x :
  match write_chunk flt fail h tmp p x with
  | Continue (_, h') | Return (_, h') => dirs_kept (disk h) (disk h')
  end.
Proof.
  unfold write_chunk. destruct tmp as [fd|], x as [|c x]; try done.
  pose proof (fd_Write_dirs flt (disk h) fd (c :: x)) as Hw.
  destruct (fd_Write _ _ _ _) as [[fd'|e] d]; simpl in *; [done|].
  by etrans; [exact Hw|auto with go].
Qed.

Lemma Replicate_step_dirs flt chunk v h :
  match Replicate_step flt chunk v h with
  | Continue (_, h') | Return (_, h') => dirs_kept (disk h) (disk h')
  end.
Proof.
  unfold Replicate_step.
  assert (H1 : match (if rl_first v then Replicate_first flt chunk h else Continue (v, h)) with
    | Continue (_, h') | Return (_, h') => dirs_kept (disk h) (disk h') end).
  { destruct (rl_first v); [|done]. unfold Replicate_first. repeat case_decide.
    - pose proof (os_Remove_dirs flt (disk h) (outPath h (rr_Path chunk))) as Hd.
      by destruct (os_Remove _ _ _).
    - unfold os_WriteFile_empty. pose proof (os_Create_dirs flt (disk h) (outPath h (rr_Path chunk))) as Hd.
      by destruct (os_Create _ _ _) as [[fd|e] d].
    - pose proof (os_Create_dirs flt (disk h) (outPath h (rr_Path chunk) +:+ ".tmp")) as Hd.
      by destruct (os_Create _ _ _) as [[fd|e] d]. }
  destruct (if rl_first v then _ else _) as [[v1 h1]|[r h1]]; [|done].
  pose proof (write_chunk_dirs flt (λ e, Ok (mkReplicateResponse ("write chunk: " +:+ e))) h1
    (rl_tmpFile v1) (rl_tmpPath v1) (rr_Data chunk)) as H2.
  destruct (write_chunk _ _ _ _ _ _) as [[? ?]|[? ?]]; by etrans.
Qed.

Lemma Replicate_loop_dirs flt chunks rend v h :
  match Replicate_loop flt chunks rend v h with
  | Continue (_, h') | Return (_, h') => dirs_kept (disk h) (disk h')
  end.
Proof.
  revert v h. induction chunks as [|chunk chunks IH]; intros v h; simpl.
  - destruct rend; [|done]. unfold remove_tmp. destruct (rl_tmpFile v); [|done]. apply os_Remove_dirs.
  - pose proof (Replicate_step_dirs flt chunk v h) as H1.
    destruct (Replicate_step _ _ _ _) as [[v1 h1]|[r h1]]; [|done].
    specialize (IH v1 h1). destruct (Replicate_loop _ _ _ _ _) as [[? ?]|[? ?]]; by etrans.
Qed.

Lemma Replicate_dirs flt s h : dirs_kept (disk h) (disk (Replicate flt s h).2).
Proof.
  unfold Replicate.
  pose proof (Replicate_loop_dirs flt (msgs s) (recv_end s) (mkReplicateLoop "" 0 None "" "" true) h) as H1.
  destruct (Replicate_loop _ _ _ _ _) as [[v h1]|[r h1]]; [|done].
  destruct (rl_tmpFile v); [|done].
  pose proof (os_Rename_dirs flt (disk h1) (rl_tmpPath v) (rl_fullPath v)) as H2.
  destruct (os_Rename _ _ _ _) as [[e|] d]; simpl in *; [|by etrans].
  etrans; [exact H1|]. etrans; [exact H2|]. apply os_Remove_dirs.
Qed.

(** ** What one replicated operation does to a healthy backup *)

Lemma replicate_chunks_data op path v cs : rr_Data <$> replicate_chunks op path v cs = cs.
Proof.
  unfold replicate_chunks. rewrite fmap_imap. etrans; [|apply list_fmap_id].
  rewrite <- (imap_const id cs). apply imap_ext. intros i x _. simpl. unfold replicate_chunk.
  by case_bool_decide.
Qed.

Lemma replicate_chunks_cons op path v c cs :
  ∃ rest, replicate_chunks op path v (c :: cs) = mkReplicateRequest op path v c :: rest.
Proof. unfold replicate_chunks. rewrite imap_cons. by eexists. Qed.

Lemma Replicate_delete flt c cs rend h :
  rr_Operation c = "delete" →
  Replicate flt (mkRecv (c :: cs) rend) h =
    (Ok (mkReplicateResponse ""),
     set_versions (delete (outPath h (rr_Path c)) (versions h))
       (set_disk (os_Remove flt (disk h) (outPath h (rr_Path c))).2 h)).
Proof.
  intros E. unfold Replicate. cbn [msgs recv_end Replicate_loop]. unfold Replicate_step.
  cbn [rl_first]. unfold Replicate_first. rewrite E. cbn [decide]. by destruct (os_Remove _ _ _).
Qed.

Lemma Replicate_create flt c cs rend h :
  rr_Operation c = "create" →
  Replicate flt (mkRecv (c :: cs) rend) h =
    (Ok (mkReplicateResponse ""),
     set_versions (<[outPath h (rr_Path c) := rr_Version c]> (versions h))
       (set_disk (os_Create flt (disk h) (outPath h (rr_Path c))).2 h)).
Proof.
  intros E. unfold Replicate. cbn [msgs recv_end Replicate_loop]. unfold Replicate_step.
  cbn [rl_first]. unfold Replicate_first. rewrite E. unfold os_WriteFile_empty.
  by destruct (os_Create _ _ _) as [[fd|e] d].
Qed.

Lemma Replicate_wf flt s h :
  disk_wf (disk h) →
  disk_wf (disk (Replicate flt s h).2) ∧ outputDir (Replicate flt s h).2 = outputDir h.
Proof.
  intros Hwf. destruct s as [[|c cs] rend].
  { unfold Replicate. simpl. by destruct rend. }
  destruct (decide (rr_Operation c = "delete")) as [Hd|Hd].
  { rewrite Replicate_delete by done. split; [|done].
    destruct (os_Remove _ _ _) eqn:E. by apply (os_Remove_spec _ _ _ _ _ Hwf E). }
  destruct (decide (rr_Operation c = "create")) as [Hc|Hc].
  { rewrite Replicate_create by done. split; [|done].
    destruct (os_Create _ _ _) as [[fd|e] d] eqn:E; [by apply (os_Create_spec _ _ _ _ _ Hwf E)|].
    by apply os_Create_err in E as ->. }
  destruct (Replicate flt (mkRecv (c :: cs) rend) h) as [r h'] eqn:E.
  destruct (Replicate_store _ _ _ _ _ _ _ Hwf (conj Hd Hc) E) as [[Eh [Hwf' _]] _].
  split; [done|]. simpl. by rewrite Eh.
Qed.

Lemma receive_srv s nd : node_ok nd →
  receive s nd = mkNode no_faults None (Replicate no_faults (mkRecv s.1 s.2) (node_srv nd)).2.
Proof.
  intros [Hf Hc _ _]. unfold receive, node_receive, deliver. rewrite Hf, Hc.
  by destruct (Replicate _ _ _).
Qed.

Lemma receive_ok s nd : node_ok nd → node_ok (receive s nd).
Proof.
  intros Hok. rewrite receive_srv by done. destruct Hok as [_ _ Hwf Hd].
  destruct (Replicate_wf no_faults (mkRecv s.1 s.2) _ Hwf) as [Hwf' Eo].
  split; simpl; try done. intros b Hb Hn. apply Replicate_dirs in Hn. revert Hn.
  unfold out_name. rewrite Eo. by apply Hd.
Qed.

Lemma tmp_not_dir nd b : node_ok nd → safe_name b →
  names (disk (node_srv nd)) !! (out_name (node_srv nd) b +:+ ".tmp") ≠ Some DDir.
Proof.
  intros Hok Hb. unfold out_name. rewrite PathJoin_safe, string_app_assoc by done.
  rewrite <- PathJoin_safe by by apply safe_name_tmp. by apply (ok_dirs nd), safe_name_tmp.
Qed.

Lemma receive_store path v c cs nd :
  node_ok nd → safe_name (Base path) →
  changes (Base path) (Some (concat (c :: cs))) (Some v) (node_srv nd)
    (node_srv (receive (replicate_chunks "store" path v (c :: cs), None) nd)).
Proof.
  intros Hok Hb. rewrite receive_srv by done. simpl.
  pose proof (replicate_chunks_data "store" path v (c :: cs)) as Hdata.
  destruct (replicate_chunks_cons "store" path v c cs) as [rest Er]. rewrite Er in *.
  pose proof (Replicate_store_ok (mkReplicateRequest "store" path v c) rest (node_srv nd) (ok_wf _ Hok)
    ltac:(done) (ok_dirs _ Hok _ Hb) (tmp_not_dir _ _ Hok Hb)) as Hr.
  destruct (Replicate no_faults _ _) as [r h'] eqn:E. simpl in Hr. subst r.
  apply Replicate_store in E as [[Eh Hof] [(_ & _ & Hp & Hv)|[? _]]]; [|done|by apply Hok|done].
  rewrite Hdata in Hp. cbn [snd]. apply only_file_changes; try done. by rewrite Eh.
Qed.

Lemma receive_create path v nd :
  node_ok nd → safe_name (Base path) →
  changes (Base path) (Some []) (Some v) (node_srv nd)
    (node_srv (receive ([mkReplicateRequest "create" path v []], None) nd)).
Proof.
  intros Hok Hb. rewrite receive_srv by done. cbn [fst snd node_srv]. rewrite Replicate_create by done.
  destruct (os_Create_ok _ _ (ok_dirs _ Hok _ Hb)) as (fd & d & E).
  destruct (os_Create_spec _ _ _ _ _ (ok_wf _ Hok) E) as (Hwf & _ & Hr).
  apply only_file_changes; try done.
  - split; simpl; unfold outPath; fold (out_name (node_srv nd) (Base path)); rewrite E; [done|].
    intros q Hq _. by apply (os_Create_same _ _ _ _ _ (ok_wf _ Hok) E).
  - simpl. unfold outPath. fold (out_name (node_srv nd) (Base path)). rewrite E. simpl.
    by rewrite Hr, decide_True.
Qed.

Lemma receive_delete path v nd :
  node_ok nd → safe_name (Base path) →
  changes (Base path) None None (node_srv nd)
    (node_srv (receive ([mkReplicateRequest "delete" path v []], None) nd)).
Proof.
  intros Hok Hb. rewrite receive_srv by done. cbn [fst snd node_srv]. rewrite Replicate_delete by done. simpl.
  change (outPath (node_srv nd) path) with (out_name (node_srv nd) (Base path)).
  destruct (os_Remove no_faults (disk (node_srv nd)) (out_name (node_srv nd) (Base path))) as [r d] eqn:E.
  pose proof (os_Remove_same _ _ _ _ _ (ok_wf _ Hok) E) as Hs.
  destruct (os_Remove_spec _ _ _ _ _ (ok_wf _ Hok) E) as [Hwf Hr].
  apply only_file_changes; try done.
  - split; [done|]. intros q Hq _. by apply Hs.
  - simpl. destruct r; [by rewrite Hr, decide_True|by destruct Hr as [-> ?]|].
    exfalso. apply (ok_dirs _ Hok _ Hb). unfold os_Remove in E. simpl in E. by repeat case_match.
Qed.

(** ** What the primary sends *)

(** The primary can read back what it committed. *)
Definition readable (flt : OsFaults) : Prop :=
  (∀ p, open_fault flt p = None) ∧ (∀ p, read_fault flt p = None).

Lemma sent_stream_store flt h path full v data :
  readable flt → read_file (disk h) full = Some data → data ≠ [] →
  ∃ c cs, sent_stream flt h "store" path full v = (replicate_chunks "store" path v (c :: cs), None) ∧
    concat (c :: cs) = data.
Proof.
  intros [Ho Hrd] Hd Hne. unfold sent_stream, os_Open, read_file in *. simpl. rewrite Ho.
  destruct (names (disk h) !! full) as [[i|]|]; try done. injection Hd as Hd.
  unfold read_chunks. simpl. rewrite Hrd, drop_0, Hd.
  destruct (chunks chunkSize data) as [|c cs] eqn:E; [by apply chunks_nil in E; [|apply chunkSize_pos]|].
  exists c, cs. split; [done|]. by rewrite <- (chunks_concat chunkSize data chunkSize_pos), E.
Qed.

(** ** The invariant of a cluster *)

Definition cluster_ok (h : Handler) (net : gmap string Node) : Prop :=
  disk_wf (disk h) ∧ NoDup (peer_addr <$> peers h) ∧
  ∀ p nd, p ∈ peers h → net !! peer_addr p = Some nd → node_ok nd ∧ mirror h (node_srv nd).

Lemma cluster_ok_replicated s b0 data v h h' net :
  (∀ nd, node_ok nd → changes b0 data v (node_srv nd) (node_srv (receive s nd))) →
  cluster_ok h net → changes b0 data v h h' → peers h' = peers h → disk_wf (disk h') →
  cluster_ok h' (alter_all (receive s) (peer_addr <$> peers h) net).
Proof.
  intros Hs (_ & Hnd & Hall) Hch Hp Hwf. split; [done|]. rewrite Hp. split; [done|].
  intros p nd Hin Hlk. rewrite alter_all_lookup in Hlk; [|done|by apply list_elem_of_fmap_2].
  apply fmap_Some in Hlk as (nd0 & Hlk & ->).
  destruct (Hall p nd0 Hin Hlk) as [Hok Hm]. split; [by apply receive_ok|].
  eapply mirror_changes; [exact Hm|exact Hch|]. by apply Hs.
Qed.

Lemma cluster_ok_unchanged h h' net :
  cluster_ok h net → disk_wf (disk h') → peers h' = peers h → outputDir h' = outputDir h →
  versions h' = versions h →
  (∀ b, plain b → read_file (disk h') (out_name h b) = read_file (disk h) (out_name h b)) →
  cluster_ok h' net.
Proof.
  intros (_ & Hnd & Hall) Hwf Hp Ho Hv Hr. split; [done|]. rewrite Hp. split; [done|].
  intros p nd Hin Hlk. destruct (Hall p nd Hin Hlk) as [? Hm]. split; [done|].
  by eapply mirror_unchanged.
Qed.

(** A call that names a file of the output directory and stores some data. *)
Definition call_safe (c : call) : Prop :=
  match c with
  | CallStore (mkRecv (c :: cs) _) =>
      safe_name (Base (sr_Path c)) ∧ concat (sr_Data <$> c :: cs) ≠ []
  | CallCreate req => safe_name (Base (cr_Path req))
  | CallDelete req => safe_name (Base (dr_Path req))
  | _ => True
  end.

Section Preserve.
  Context (flt : OsFaults) (Hflt : readable flt).

Lemma StoreFile_cluster c cs rend h net r h' net' :
  cluster_ok h net → call_safe (CallStore (mkRecv (c :: cs) rend)) →
  dedupTable h !! dedupKey (sr_ClientId c) (sr_ReqSeq c) = None → isPrimary h = true →
  StoreFile flt (mkRecv (c :: cs) rend) h net = Ret (r, h', net') → cluster_ok h' net'.
Proof.
  intros Hcl [Hb Hne] Hdd Hprim E. pose proof Hcl as (Hwf & _).
  change (outPath h (sr_Path c)) with (out_name h (Base (sr_Path c))) in *.
  destruct (StoreFile_cases _ _ _ _ _ _ _ _ _ Hwf Hprim Hdd E)
    as [Hof [(_ & _ & Hst & ->)|(_ & [Hr Eh] & ->)]].
  - pose proof Hst as (Hdata & _ & Eh). unfold replicateStreamToAll.
    rewrite replicate_to_peers_alter. cbn [peers set_versions set_disk].
    set (hc := set_versions _ _).
    destruct (sent_stream_store flt hc (sr_Path c) (outPath h (sr_Path c))
      (i64 (version_of h (outPath h (sr_Path c)) + 1)) _ Hflt Hdata Hne) as (ch & chs & -> & Hcat).
    eapply (cluster_ok_replicated _ (Base (sr_Path c)) (Some (concat (ch :: chs))));
      [|done|..|by apply Hof].
    + intros nd Hok. by apply receive_store.
    + apply only_file_changes; [done|by rewrite Eh|done| |by rewrite Eh].
      rewrite Hcat. exact Hdata.
    + by rewrite Eh.
  - pose proof Hof as [Hwf' Hq]. eapply cluster_ok_unchanged; [done|done|by rewrite Eh..|].
    intros b Hpl. destruct (decide (b = Base (sr_Path c))) as [->|Hbb]; [done|].
    apply Hq; [|by apply out_name_tmp]. intros H. apply Hbb. apply (out_name_inj h); [apply Hpl|done|done].
Qed.

Lemma CreateFile_cluster req h net r h' net' :
  cluster_ok h net → safe_name (Base (cr_Path req)) →
  dedupTable h !! dedupKey (cr_ClientId req) (cr_ReqSeq req) = None → isPrimary h = true →
  CreateFile flt req h net = Ret (r, h', net') → cluster_ok h' net'.
Proof.
  intros Hcl Hb Hdd Hprim E. pose proof Hcl as (Hwf & _).
  destruct (CreateFile_cases flt req h net Hwf Hprim Hdd) as (r1 & h1 & n1 & E1 & Hwf' & Hs & Hcase).
  rewrite E1 in E. simplify_eq/=.
  destruct Hcase as [(_ & (_ & Hr & Eh) & ->)|(_ & -> & ->)]; [|done].
  unfold replicateStreamToAll. rewrite replicate_to_peers_alter.
  cbn [peers set_handles set_nextHandle set_versions set_disk].
  eapply cluster_ok_replicated; [|done| |by rewrite Eh|done].
  - intros nd Hok. by apply receive_create.
  - apply only_file_changes; [done|by rewrite Eh| |done|by rewrite Eh].
    split; [done|]. intros q Hq _. by apply Hs.
Qed.

Lemma DeleteFile_cluster req h net r h' net' :
  cluster_ok h net → safe_name (Base (dr_Path req)) →
  dedupTable h !! dedupKey (dr_ClientId req) (dr_ReqSeq req) = None → isPrimary h = true →
  DeleteFile flt req h net = Ret (r, h', net') → cluster_ok h' net'.
Proof.
  intros Hcl Hb Hdd Hprim E. pose proof Hcl as (Hwf & _).
  destruct (DeleteFile_cases flt req h net Hwf Hprim Hdd) as (r1 & h1 & n1 & E1 & Hwf' & Hs & Hcase).
  rewrite E1 in E. simplify_eq/=.
  destruct Hcase as [((_ & Hr & Eh) & ->)|(_ & -> & ->)]; [|done].
  unfold replicateStreamToAll. rewrite replicate_to_peers_alter.
  cbn [peers set_handles set_nextHandle set_versions set_disk].
  eapply cluster_ok_replicated; [|done| |by rewrite Eh|done].
  - intros nd Hok. by apply receive_delete.
  - apply only_file_changes; [done|by rewrite Eh| |done|by rewrite Eh].
    split; [done|]. intros q Hq _. by apply Hs.
Qed.

(** A call that changes neither files nor versions. *)
Lemma cluster_ok_same h h' net :
  cluster_ok h net → disk h' = disk h → versions h' = versions h → peers h' = peers h →
  outputDir h' = outputDir h → cluster_ok h' net.
Proof.
  intros Hcl Ed Ev Ep Eo. pose proof Hcl as (? & _).
  eapply (cluster_ok_unchanged h); rewrite ?Ed; done.
Qed.

End Preserve.

Lemma Open_same flt req h r h' :
  Open flt req h = Ret (r, h') →
  disk h' = disk h ∧ versions h' = versions h ∧ peers h' = peers h ∧ outputDir h' = outputDir h.
Proof.
  unfold Open. destruct (dedupTable h !! _) as [[]|]; try done; [by intros [= <- <-]|].
  destruct (resolvePath flt h (or_Path req)); [destruct (os_Stat _ _ _)|]; by intros [= <- <-].
Qed.

Lemma serve_cluster flt c h net r h' net' :
  readable flt → cluster_ok h net → call_safe c →
  serve flt c h net = Ret (r, h', net') → cluster_ok h' net'.
Proof.
  intros Hflt Hcl Hsafe E.
  destruct (call_key c) as [[[cid seq] k]|] eqn:Hk.
  2: { destruct c as [req|[[|c cs] rend]|req|req|req|req]; simpl in *; try done.
       - unfold StoreFile in E. simpl in E. destruct (isPrimary h), rend; by simplify_eq/=.
       - unfold CloseFile in E. destruct (handles h !! _); simplify_eq/=; by eapply cluster_ok_same.
       - by simplify_eq/=. }
  destruct c as [req|[[|c cs] rend]|req|req|req|req]; simpl in Hk; try done.
  - unfold serve in E. destruct (Open flt req h) as [[r1 h1]|?|] eqn:E1; simplify_eq/=.
    apply Open_same in E1 as (? & ? & ? & ?). by eapply cluster_ok_same.
  - unfold serve in E. apply outcome_bind_inv in E as ([[r1 h1] n1] & E & [= <- <- <-]).
    destruct (isPrimary h) eqn:Hprim; [|unfold StoreFile in E; rewrite Hprim in E; by simplify_eq/=].
    destruct (dedupTable h !! dedupKey (sr_ClientId c) (sr_ReqSeq c)) as [e|] eqn:Hdd;
      [|by eapply StoreFile_cluster].
    unfold StoreFile in E. rewrite Hprim in E. cbn [msgs recv_end StoreFile_loop] in E.
    unfold StoreFile_step in E. cbn [sl_first] in E. unfold StoreFile_first in E.
    rewrite Hdd in E. by destruct e; simplify_eq/=.
  - unfold serve in E. destruct (CreateFile flt req h net) as [[[r1 h1] n1]|?|] eqn:E1; simplify_eq/=.
    destruct (isPrimary h) eqn:Hprim; [|unfold CreateFile in E1; rewrite Hprim in E1; by simplify_eq/=].
    destruct (dedupTable h !! dedupKey (cr_ClientId req) (cr_ReqSeq req)) as [e|] eqn:Hdd;
      [|by eapply CreateFile_cluster].
    unfold CreateFile in E1. rewrite Hprim, Hdd in E1. by destruct e; simplify_eq/=.
  - unfold serve in E. destruct (DeleteFile flt req h net) as [[[r1 h1] n1]|?|] eqn:E1; simplify_eq/=.
    destruct (isPrimary h) eqn:Hprim; [|unfold DeleteFile in E1; rewrite Hprim in E1; by simplify_eq/=].
    destruct (dedupTable h !! dedupKey (dr_ClientId req) (dr_ReqSeq req)) as [e|] eqn:Hdd;
      [|by eapply DeleteFile_cluster].
    unfold DeleteFile in E1. rewrite Hprim, Hdd in E1. by destruct e; simplify_eq/=.
Qed.
