(* ===== verification/ClusterProps.v ===== *)
(** * Properties of a primary with its backups *)

From S2P Require Import Prelude GoLib GoText GoPath Disk AfsProto Server Handler HandlerSpec Service Cluster.

Lemma serve_all_cluster cs h net rs h' net' :
  Forall (λ x, readable x.1 ∧ call_safe x.2) cs → cluster_ok h net →
  serve_all cs h net = Ret (rs, h', net') → cluster_ok h' net'.
Proof.
  revert h net rs. induction cs as [|[flt c] cs IH]; intros h net rs Hcs Hcl E; simpl in E; [by simplify_eq/=|].
  inversion Hcs as [|? ? [Hflt Hc] Hcs']; subst.
  apply outcome_bind_inv in E as ([[r h1] n1] & E1 & E).
  apply outcome_bind_inv in E as ([[rs2 h2] n2] & E2 & [= <- <- <-]).
  eapply IH; [done| |done]. by eapply serve_cluster.
Qed.

(** C9: from a state in which every reachable backup mirrors the primary's
    output directory, any sequence of client calls on the primary, each with its
    own failures of the primary's disk, ends in such a state: the same contents
    under the same versions everywhere. *)
Theorem backups_mirror_primary cs h net rs h' net' :
  cluster_ok h net → Forall (λ x, readable x.1 ∧ call_safe x.2) cs →
  serve_all cs h net = Ret (rs, h', net') → cluster_ok h' net'.
Proof. intros. by eapply serve_all_cluster. Qed.

(** C29: a store that reaches a backup, over a link that may break after any
    message and with any failures of the backup's disk, leaves there either the
    complete new content under the new version or the old file under the old
    version, never a part; no other file than the temporary one changes. *)
Theorem backup_store_all_or_nothing path v c cs e nd :
  disk_wf (disk (node_srv nd)) →
  let h := node_srv nd in
  let h' := node_srv (receive (replicate_chunks "store" path v (c :: cs), e) nd) in
  let p := outPath h path in
  local_change p h h' ∧
  (replicated p (concat (c :: cs)) v h h' ∨ untouched p h h').
Proof.
  intros Hwf h h' p.
  pose proof (replicate_chunks_data "store" path v (c :: cs)) as Hdata.
  destruct (replicate_chunks_cons "store" path v c cs) as [rest Er].
  assert (Hsame : local_change p h h ∧ untouched p h h).
  { split; [split; [by destruct h|by split]|by split]. }
  unfold h', receive, node_receive. cbn [fst snd].
  set (s := deliver _ _ _).
  destruct (Replicate (node_flt nd) s (node_srv nd)) as [r h1] eqn:E. cbn [snd node_srv].
  assert (Hs : s = mkRecv (mkReplicateRequest "store" path v c :: rest) e ∨
    ∃ k err, s = mkRecv (take k (mkReplicateRequest "store" path v c :: rest)) (Some err)) by
    (unfold s, deliver; rewrite Er; destruct (node_cut nd) as [k|]; [case_decide|]; eauto).
  destruct Hs as [Hs|([|k] & err & Hs)]; rewrite Hs in E.
  - apply Replicate_store in E as [Hl Hcase]; [|done..]. rewrite <- Er, Hdata in Hcase.
    split; [done|]. destruct Hcase as [(_ & _ & ?)|[_ ?]]; [by left|by right].
  - injection E as _ <-. split; [apply Hsame|right; apply Hsame].
  - apply Replicate_store in E as [Hl [(? & _)|[_ ?]]]; [done| |done..]. split; [done|by right].
Qed.

(** the order in which the goroutines of [replicateStreamToAll] reach the
    peers does not matter: every permutation of the peers leaves the same
    cluster. *)
Theorem replication_order_irrelevant flt h ps ps' op path full v net :
  Permutation ps ps' →
  replicate_to_peers flt h ps op path full v net = replicate_to_peers flt h ps' op path full v net.
Proof.
  intros Hp. rewrite !replicate_to_peers_alter. by rewrite (fmap_Permutation peer_addr _ _ Hp).
Qed.

(** After a successful store on the primary, every reachable backup that
    mirrored it would answer a fetch of that name with the stored bytes and the
    version the client was given: a backup that takes over serves the last
    write. *)
Theorem failover_serves_last_write c cs flt h net resp h' net' p nd :
  readable flt → cluster_ok h net → isPrimary h = true →
  dedupTable h !! dedupKey (sr_ClientId c) (sr_ReqSeq c) = None →
  plain (Base (sr_Path c)) → concat (sr_Data <$> c :: cs) ≠ [] →
  StoreFile flt (mkRecv (c :: cs) None) h net = Ret (Ok resp, h', net') → sp_Error resp = "" →
  p ∈ peers h → net' !! peer_addr p = Some nd →
  let bh := node_srv nd in
  names (disk bh) !! PathJoin (inputDir bh) (Base (sr_Path c)) = None →
  ∃ s, FetchFile no_faults (mkFetchFileRequest (sr_Path c)) open_stream bh = (None, s) ∧
    concat (fp_Data <$> sent s) = concat (sr_Data <$> c :: cs) ∧
    Forall (λ m, fp_Version m = sp_Version resp) (sent s).
Proof.
  intros Hflt Hcl Hprim Hdd Hpl Hne E He Hin Hnd bh Hinp. pose proof Hcl as (Hwf & _).
  pose proof Hpl as [Hb _].
  pose proof (StoreFile_cluster flt Hflt _ _ _ _ _ _ _ _ Hcl (conj Hb Hne) Hdd Hprim E) as (_ & _ & Hcl').
  destruct (StoreFile_cases _ _ _ _ _ _ _ _ _ Hwf Hprim Hdd E) as [_ [(_ & [= ->] & (Hr & _ & Eh) & _)|[Hf _]]];
    [|done].
  destruct (Hcl' p nd) as [Hok Hm]; [by rewrite Eh|done|].
  destruct (Hm _ Hpl) as [Hd Hv]. rewrite Eh in Hv. rewrite (out_name_ext h h') in Hd by by rewrite Eh.
  change (out_name h (Base (sr_Path c))) with (outPath h (sr_Path c)) in *.
  rewrite Hr in Hd. simpl in Hv. rewrite lookup_insert_eq in Hv.
  assert (Hp : resolvePath no_faults bh (sr_Path c) = Ok (outPath bh (sr_Path c))).
  { apply resolvePath_output; [done..|]. by eexists. }
  destruct (FetchFile_ok (mkFetchFileRequest (sr_Path c)) bh _ _ Hp Hd) as (s & Es & Hs).
  destruct (FetchFile_cases _ (mkFetchFileRequest (sr_Path c)) _ _ _ _ _ _ Hp Hd Es Hs) as (_ & Hfull & Hall).
  exists s. split; [done|]. split; [by apply Hfull|]. eapply Forall_impl; [exact Hall|].
  intros m [-> _]. subst bh. unfold version_of at 1, outPath at 1. unfold out_name in Hv. by rewrite Hv.
Qed.

(** ** Witnesses: a primary and one mirroring backup *)

Definition cluster_disk : Disk := (os_MkdirAll no_faults empty_disk "out").2.
Definition member (id addr : string) (ps : list peerClient) (prim : bool) : Handler :=
  mkHandler "in" "out" ∅ ∅ 0 ∅ id addr prim "a:1" ps 0 false cluster_disk.
Definition demo_primary : Handler := member "s1" "a:1" [mkPeer "s2" "b:1" 0] true.
Definition demo_backup : Node := mkNode no_faults None (member "s2" "b:1" [mkPeer "s1" "a:1" 0] false).
Definition demo_net : gmap string Node := {[ "b:1" := demo_backup ]}.

Lemma cluster_disk_wf : disk_wf cluster_disk.
Proof. eapply os_MkdirAll_spec; [apply disk_wf_empty|apply surjective_pairing]. Qed.

Lemma demo_backup_ok : node_ok demo_backup.
Proof.
  split; [done|done|apply cluster_disk_wf|]. intros b Hb. change (out_name (node_srv demo_backup) b) with (PathJoin "out" b).
  rewrite PathJoin_safe by done.
  change (names (disk (node_srv demo_backup))) with ({["out" := DDir]} : gmap string dirent).
  rewrite lookup_singleton_ne; [done|]. intros E. apply (f_equal s2b) in E. rewrite s2b_app in E. by vm_compute in E.
Qed.

Lemma demo_cluster_ok : cluster_ok demo_primary demo_net.
Proof.
  split; [apply cluster_disk_wf|]. split; [by apply NoDup_singleton|].
  intros p nd Hp Hnd. apply list_elem_of_singleton in Hp as ->.
  unfold demo_net in Hnd. rewrite lookup_singleton_eq in Hnd. injection Hnd as <-.
  split; [apply demo_backup_ok|]. by intros b _.
Qed.

Definition demo_write : StoreFileRequest := mkStoreFileRequest "r.txt" (s2b "2 3") "c" 1.

Definition demo_cluster_calls : list (OsFaults * call) :=
  [(no_faults, CallStore (mkRecv [demo_write] None));
   (no_faults, CallDelete (mkDeleteFileRequest "q" "c" 2))].

Lemma demo_cluster_calls_safe : Forall (λ x, readable x.1 ∧ call_safe x.2) demo_cluster_calls.
Proof.
  constructor; [|constructor; [|constructor]]; (split; [done|]).
  - split; [decide_now|done].
  - decide_now.
Qed.

Lemma backups_mirror_primary_witness :
  ∃ rs h' net', serve_all demo_cluster_calls demo_primary demo_net = Ret (rs, h', net') ∧
    cluster_ok h' net'.
Proof.
  destruct (serve_all_inv (λ _ s, if (s =? 1)%Z then KStore else KDelete) demo_cluster_calls
    demo_primary demo_net) as (rs & h' & net' & E & _);
    [by split; [apply cluster_disk_wf|]|by repeat constructor|].
  exists rs, h', net'. split; [exact E|].
  exact (backups_mirror_primary _ _ _ _ _ _ demo_cluster_ok demo_cluster_calls_safe E).
Defined.

Lemma backup_store_all_or_nothing_witness :
  let nd := mkNode no_faults (Some 1) (node_srv demo_backup) in
  disk_wf (disk (node_srv nd)) ∧
  local_change "out/r.txt" (node_srv nd)
    (node_srv (receive (replicate_chunks "store" "r.txt" 1 [s2b "2"; s2b "3"], None) nd)).
Proof.
  split; [apply cluster_disk_wf|].
  by apply (backup_store_all_or_nothing "r.txt" 1 (s2b "2") [s2b "3"] None
    (mkNode no_faults (Some 1) (node_srv demo_backup)) cluster_disk_wf).
Defined.

Lemma replication_order_irrelevant_witness :
  let a := mkPeer "a" "b:1" 0 in let b := mkPeer "b" "c:1" 0 in
  Permutation [a; b] [b; a] ∧
  replicate_to_peers no_faults demo_primary [a; b] "create" "x" "out/x" 1 demo_net =
  replicate_to_peers no_faults demo_primary [b; a] "create" "x" "out/x" 1 demo_net.
Proof. split; [constructor|]. apply (replication_order_irrelevant no_faults). constructor. Defined.

Lemma failover_serves_last_write_witness :
  ∃ resp h' net' nd, StoreFile no_faults (mkRecv [demo_write] None) demo_primary demo_net =
                       Ret (Ok resp, h', net') ∧ net' !! "b:1" = Some nd ∧
  ∃ s, FetchFile no_faults (mkFetchFileRequest "r.txt") open_stream (node_srv nd) = (None, s) ∧
    concat (fp_Data <$> sent s) = s2b "2 3" ∧ Forall (λ m, fp_Version m = sp_Version resp) (sent s).
Proof.
  eexists (mkStoreFileResponse 1 ""), _, _, _. split; [vm_compute; reflexivity|].
  split; [vm_compute; reflexivity|].
  eapply (failover_serves_last_write demo_write [] no_faults demo_primary demo_net
    (mkStoreFileResponse 1 "") _ _ (mkPeer "s2" "b:1" 0)); try done.
  - apply demo_cluster_ok.
  - split; [decide_now|]. intros b' E. apply (f_equal (λ s, rev (s2b s))) in E.
    rewrite s2b_app, rev_app_distr in E. by vm_compute in E.
  - apply list_elem_of_here.
Defined.
