(* ===== verification/OverlapProps.v ===== *)
(** * Properties of calls that overlap in time

    What holds for every interleaving of the handlers of one server, and three
    schedules in which the service does not do what the README says of it. *)

From S2P Require Import Prelude GoLib GoText GoPath Disk AfsProto Server Handler HandlerSpec Service ServerProps Cluster ClusterProps Overlap OverlapSpec OverlapInv OverlapFetch.

(** ** Single handlers *)

(** C18: A handler that nothing overlaps does what the function of Handler.v says:
    the steps are a refinement of it, with the same reply, server and network,
    or the same panic. *)
Theorem alone_is_serve {N} `{!PeerNet N} flt h (net : N) :
  (∀ c, ∃ n, solo flt n (start c) h net =
     '(r, h', net') ← serve flt c h net; Ret (Done (Reply r), h', net')) ∧
  ∀ req q, ∃ n, solo flt n (start_fetch req q) h net =
     let '(e, q') := FetchFile flt req q h in Ret (Done (Fetched e q'), h, net).
Proof.
  split.
  - intros [req|s|req|req|req|req];
      [apply open_alone|apply store_alone|apply create_alone|apply delete_alone|apply close_alone|apply test_alone].
  - intros req q. destruct (fetch_alone flt req q h net) as [n E]. exists n. rewrite E.
    by destruct (FetchFile flt req q h).
Qed.

(** ** Every interleaving *)

Section Interleavings.
  Context {N : Type} `{!PeerNet N}.

(** A thread that has just started, with a call that uses its sequence number
    as [κ] says. *)
Definition arrives (κ : string → Z → kind) (t : thread) : Prop :=
  (∃ c, t = start c ∧ consistent κ c) ∨ ∃ req q, t = start_fetch req q.

Lemma arrives_typed κ t : arrives κ t → thread_typed κ t.
Proof. intros [(c & -> & Hc)|(req & q & ->)]; [by apply start_typed|done]. Qed.

(** C22: For every schedule of overlapping calls no handler panics and the server
    stays well formed: no two names share an inode and each deduplication entry
    has the type of response its key was used for. *)
Theorem overlapping_calls_keep_invariant κ flt is_ (s : system N) :
  service_inv κ (shared s) → Forall (arrives κ) (threads s) →
  ∃ s', run flt is_ s = Ret s' ∧ service_inv κ (shared s').
Proof.
  intros Hinv Hall. destruct (run_inv_system κ flt is_ s) as (s' & E & Hinv' & _); [|by exists s'].
  split; [done|]. eapply Forall_impl; [exact Hall|]. apply arrives_typed.
Qed.

(** The threads other than [i] fetch, or work on other files than the store of
    [c] and under other deduplication keys. *)
Definition others_apart (c : StoreFileRequest) (i : nat) (s : system N) : Prop :=
  ∀ j t, j ≠ i → threads s !! j = Some t →
    (∃ call, t = start call ∧
       call_apart (outputDir (shared s)) (outPath (shared s) (sr_Path c)) (dedupKey (sr_ClientId c) (sr_ReqSeq c)) call) ∨
    ∃ q pc, t = InFetch q pc.

Lemma isolated_start c cs rend i (s : system N) :
  disk_wf (disk (shared s)) → dedupTable (shared s) !! dedupKey (sr_ClientId c) (sr_ReqSeq c) = None →
  threads s !! i = Some (start (CallStore (mkRecv (c :: cs) rend))) → others_apart c i s →
  isolated c cs rend (shared s) i s.
Proof.
  intros Hwf Hd Hi Hoth. split; [done|done|..].
  - rewrite Hi. by intros t [= <-].
  - intros j t Hj Ht. destruct (Hoth j t Hj Ht) as [(call & -> & Hc)|(q & pc & ->)]; [by apply start_apart|done].
Qed.

(** C16: Atomic stores, in spite of overlapping calls on other files and fetches of
    any file, failing disks and streams: at every moment the file has its old
    content or all of the new one, and the answer says which; a successful
    answer has the version after the old one. *)
Theorem overlapping_store_is_isolated flt c cs rend i is_ (s s' : system N) :
  let p := outPath (shared s) (sr_Path c) in
  let data := concat (sr_Data <$> c :: cs) in
  let v := i64 (version_of (shared s) p + 1) in
  disk_wf (disk (shared s)) → dedupTable (shared s) !! dedupKey (sr_ClientId c) (sr_ReqSeq c) = None →
  threads s !! i = Some (start (CallStore (mkRecv (c :: cs) rend))) → others_apart c i s →
  run flt is_ s = Ret s' →
  (read_file (disk (shared s')) p = read_file (disk (shared s)) p ∨ read_file (disk (shared s')) p = Some data) ∧
  ∀ r, threads s' !! i = Some (Done (Reply (ReplyStore r))) →
    r = Ok (mkStoreFileResponse v "") ∧ rend = None ∧
      read_file (disk (shared s')) p = Some data ∧ version_of (shared s') p = v ∨
    store_failed r ∧ read_file (disk (shared s')) p = read_file (disk (shared s)) p ∧
      version_of (shared s') p = version_of (shared s) p.
Proof.
  intros p data v Hwf Hd Hi Hoth E.
  pose proof (isolated_run flt _ _ _ _ _ _ _ _ (isolated_start _ _ _ _ _ Hwf Hd Hi Hoth) E) as [_ _ Hour _].
  assert (Hlen : is_Some (threads s' !! i)) by by eapply run_threads.
  destruct Hlen as [t Ht]. split; [by apply (our_thread_visible c cs rend (shared s) (shared s') t), Hour|].
  intros r Hr. specialize (Hour _ Hr). simpl in Hour. unfold our_answer, file_new, file_old in Hour.
  destruct Hour as [(-> & -> & A & B & _)|(A & B & C & _)]; [left|right]; (split; [done|]).
  - split; [done|]. split; [done|]. unfold version_of. fold p in B. by rewrite B.
  - split; [done|]. unfold version_of. fold p in C. by rewrite C.
Qed.

(** C19: A fetch that overlaps one store of its file, and any calls on other files,
    delivers the old or the new content as a whole, never a mixture, under the
    version before or after the store. *)
Theorem overlapping_fetch_is_whole flt c cs rend i k is_ (s s' : system N) old q :
  let p := outPath (shared s) (sr_Path c) in
  let v := version_of (shared s) p in
  disk_wf (disk (shared s)) → dedupTable (shared s) !! dedupKey (sr_ClientId c) (sr_ReqSeq c) = None →
  threads s !! i = Some (start (CallStore (mkRecv (c :: cs) rend))) → others_apart c i s →
  threads s !! k = Some (InFetch open_stream (FetchOpen p)) → read_file (disk (shared s)) p = Some old →
  run flt is_ s = Ret s' → threads s' !! k = Some (Done (Fetched None q)) → error_free q →
  (concat (fp_Data <$> sent q) = old ∨ concat (fp_Data <$> sent q) = concat (sr_Data <$> c :: cs)) ∧
  ∃ u, (u = v ∨ u = i64 (v + 1)) ∧ Forall (λ m, fp_Version m = u) (sent q).
Proof.
  intros p v Hwf Hd Hi Hoth Hk Hold E Hq He.
  assert (Hik : i ≠ k) by (intros ->; by rewrite Hi in Hk).
  assert (Hw : watched c cs rend (shared s) old i k s).
  { split; [by apply isolated_start|done|by eexists|..]; rewrite Hk; [by intros t [= <-]|by intros t ρ [= <-]]. }
  pose proof (watched_run flt _ _ _ _ _ _ _ _ _ _ Hik Hw E) as [_ _ _ Hrd _].
  destruct (Hrd _ Hq eq_refl He) as (u & Hwhole & Hu & Hall). split; [done|]. by exists u.
Qed.

End Interleavings.

(** ** Where overlapping breaks the promises *)

Section Stale.
  Context {N : Type} `{!PeerNet N}.

(** C23: The cache is not consistent under overlap: for every store there is a
    schedule in which a fetch opens the file before the store commits and reads
    its version after.  The client gets the old content under the new version,
    and [TestAuth] confirms that stale copy as valid from then on. *)
Theorem overlapping_fetch_is_stale c cs h (net : N) old :
  let p := outPath h (sr_Path c) in
  let v := i64 (version_of h p + 1) in
  disk_wf (disk h) → isPrimary h = true →
  dedupTable h !! dedupKey (sr_ClientId c) (sr_ReqSeq c) = None → safe_name (Base (sr_Path c)) →
  names (disk h) !! PathJoin (inputDir h) (Base (sr_Path c)) = None →
  names (disk h) !! (p +:+ ".tmp") ≠ Some DDir → read_file (disk h) p = Some old →
  ∃ is_ s' ms,
    run no_faults is_
      (mkSystem [start_fetch (mkFetchFileRequest (sr_Path c)) open_stream; start (CallStore (mkRecv (c :: cs) None))] h net) = Ret s' ∧
    threads s' = [Done (Fetched None (mkSend ms None)); Done (Reply (ReplyStore (Ok (mkStoreFileResponse v ""))))] ∧
    concat (fp_Data <$> ms) = old ∧ Forall (λ m, fp_Version m = v) ms ∧
    read_file (disk (shared s')) p = Some (concat (sr_Data <$> c :: cs)) ∧
    TestAuth no_faults (mkTestAuthRequest (sr_Path c) v) (shared s') = mkTestAuthResponse true v.
Proof.
  intros p v Hwf Hprim Hd Hsafe Hin Htmp Hold.
  assert (Hp : resolvePath no_faults h (sr_Path c) = Ok p) by (by apply resolvePath_output; [| |exists old]).
  assert (Hno : ∃ ρ, names (disk h) !! p = Some (DFile ρ) ∧ content (disk h) ρ = old).
  { unfold read_file in Hold. destruct (names (disk h) !! p) as [[ρ|]|]; simplify_eq/=. by exists ρ. }
  destruct Hno as (ρ & Hn & Hc).
  destruct (StoreFile_ok c cs h net Hwf Hprim Hd) as (resp & h' & net' & Es & He); [by fold p; rewrite Hn|done|].
  destruct (StoreFile_cases _ _ _ _ _ _ _ _ _ Hwf Hprim Hd Es) as [[_ Hof] [(_ & Hr & (Hnew & Htn & Eh) & _)|[Hf _]]]; [|done].
  injection Hr as ->. fold p v in Eh, Hnew, Htn, Hof.
  destruct (store_alone no_faults (mkRecv (c :: cs) None) h net) as [n Hs]. unfold finished, serve in Hs. rewrite Es in Hs.
  assert (Hhid : hidden p ρ (disk h)).
  { split; [by eapply wf_alloc|]. intros q Hq Hnq. apply Hq. by eapply (wf_unique _ Hwf). }
  assert (Hsp : spares p ρ (outputDir h) (start (CallStore (mkRecv (c :: cs) None)))) by apply tmp_ne.
  destruct (solo_hides p ρ no_faults _ _ _ _ _ _ _ Hhid Hsp Hs) as [Hc' _].
  assert (Hv : version_of h' p = v) by (rewrite Eh; unfold version_of at 1; simpl; by rewrite lookup_insert_eq).
  set (fd := mkFd ρ 0 p false).
  destruct (fetch_read_alone no_faults fd v 0 open_stream h' net') as [m Hm]. rewrite fetch_rest_send_all in Hm.
  unfold open_stream in Hm. rewrite send_all_open in Hm. cbn [snd fst app fmap option_fmap option_map fd fd_off fd_ino] in Hm.
  rewrite drop_0, Hc', Hc in Hm.
  eexists (replicate 2 0 ++ replicate n 1 ++ [0] ++ replicate m 0), _, _. split; [|split; [|split; [|split; [|split]]]].
  - rewrite run_app. erewrite run_replicate; [|done|]; cycle 1.
    { cbn [shared network solo start_fetch step step_fetch fr_Path]. rewrite Hp. go_step. cbn [step step_fetch]. unfold os_Open. cbn. rewrite Hn. reflexivity. }
    go_step. cbn [list_insert threads]. rewrite run_app. erewrite run_replicate; [|done|exact Hs]. go_step. cbn.
    rewrite Hv. eapply (run_replicate no_faults m 0); [done|exact Hm].
  - done.
  - rewrite <- list_fmap_compose. rewrite (list_fmap_ext _ id), list_fmap_id; [apply chunks_concat, chunkSize_pos|done].
  - apply Forall_fmap, Forall_true. done.
  - done.
  - cbn [shared]. unfold TestAuth. cbn [tr_Path tr_CachedVersion].
    assert (resolvePath no_faults h' (sr_Path c) = Ok p) as ->.
    { replace p with (outPath h' (sr_Path c)) by by rewrite Eh. apply resolvePath_output; [done| |rewrite Eh at 2; by eexists].
      replace (inputDir h') with (inputDir h) by by rewrite Eh.
      destruct (decide (PathJoin (inputDir h) (Base (sr_Path c)) = p +:+ ".tmp")) as [->|Hne]; [done|].
      destruct (Hof (PathJoin (inputDir h) (Base (sr_Path c)))) as [_ ->]; [|done|done]. intros E. by rewrite E, Hn in Hin. }
    rewrite Hv. by rewrite Z.eqb_refl.
Qed.

End Stale.

(** C27: Two overlapping stores of one file share the temporary file: a schedule in
    which both streams end cleanly leaves a content that neither client sent,
    although one of them was told that its store succeeded. *)
Theorem overlapping_stores_mix :
  let a := [mkStoreFileRequest "b.txt" (s2b "22 ") "c1" 1; mkStoreFileRequest "" (s2b "33 ") "" 0] in
  let b := [mkStoreFileRequest "b.txt" (s2b "5 7 11 13 ") "c2" 1] in
  ∃ is_ s' e,
    run no_faults is_ (mkSystem [start (CallStore (mkRecv a None)); start (CallStore (mkRecv b None))] demo tt) = Ret s' ∧
    threads s' = [Done (Reply (ReplyStore (Ok (mkStoreFileResponse 1 "")))); Done (Reply (ReplyStore (Ok (mkStoreFileResponse 0 e))))] ∧
    e ≠ "" ∧ read_file (disk (shared s')) "out/b.txt" = Some (s2b "5 733  13 ").
Proof.
  exists (replicate 4 0 ++ replicate 4 1 ++ replicate 20 0 ++ replicate 20 1). eexists _, _.
  split; [vm_compute; reflexivity|]. split; [reflexivity|]. split; [discriminate|vm_compute; reflexivity].
Qed.

(** A retry that overlaps the call it repeats is executed again: both find no
    deduplication entry, and the one store raises the version twice. *)
Theorem overlapping_retry_runs_twice :
  let s := mkRecv (demo_chunk :: demo_chunks) None in
  ∃ is_ s',
    run no_faults is_ (mkSystem [start (CallStore s); start (CallStore s)] demo tt) = Ret s' ∧
    threads s' = [Done (Reply (ReplyStore (Ok (mkStoreFileResponse 1 "")))); Done (Reply (ReplyStore (Ok (mkStoreFileResponse 2 ""))))] ∧
    version_of (shared s') "out/b.txt" = 2%Z.
Proof.
  exists (replicate 2 1 ++ replicate 20 0 ++ replicate 20 1). eexists _.
  split; [vm_compute; reflexivity|]. split; [reflexivity|vm_compute; reflexivity].
Qed.

(** A create and a delete of one file, with the create's replication last. *)
Definition create_delete : system (gmap string Node) :=
  mkSystem [start (CallCreate (mkCreateFileRequest "r.txt" "c1" 1)); start (CallDelete (mkDeleteFileRequest "r.txt" "c2" 1))]
    demo_primary demo_net.
Definition create_last : list nat := replicate 7 0 ++ replicate 6 1 ++ replicate 9 0.
Definition create_last_end : system (gmap string Node) :=
  match run no_faults create_last create_delete with Ret s => s | _ => create_delete end.

(** C28: Replication is not ordered: a file is created and deleted again, both calls
    succeed, and with no call in progress the primary does not have the file
    while its healthy backup does, so it reappears after a failover. *)
Theorem overlapping_replication_diverges :
  ∃ is_ s' id,
    run no_faults is_ create_delete = Ret s' ∧
    threads s' = [Done (Reply (ReplyCreate (mkCreateFileResponse id ""))); Done (Reply (ReplyDelete (mkDeleteFileResponse "")))] ∧
    read_file (disk (shared s')) "out/r.txt" = None ∧
    (nd ← network s' !! "b:1"; read_file (disk (node_srv nd)) "out/r.txt") = Some [].
Proof.
  exists create_last, create_last_end, 1%Z. split; [vm_compute; reflexivity|]. split; [vm_compute; reflexivity|].
  split; vm_compute; reflexivity.
Qed.

(** ** Witnesses *)

(** A primary that has the file b.txt. *)
Definition demo_old : bytes := s2b "7 ".
Definition demo_file : Handler :=
  set_versions {["out/b.txt" := 1%Z]} (set_disk (set_content (new_file demo_disk "out/b.txt") 1 demo_old) demo).

Lemma demo_file_wf : disk_wf (disk demo_file).
Proof. apply disk_wf_set_content, disk_wf_new_file, demo_wf. Qed.

Definition demo_overlap : system unit :=
  mkSystem [start (CallStore (mkRecv (demo_chunk :: demo_chunks) None));
            InFetch open_stream (FetchOpen "out/b.txt");
            start (CallStore (mkRecv [mkStoreFileRequest "x.txt" (s2b "9") "d" 1] None));
            start (CallDelete (mkDeleteFileRequest "y.txt" "d" 2))] demo_file tt.

(** The calls take turns. *)
Definition demo_schedule : list nat := concat (replicate 15 [0; 1; 2; 3]).

Lemma demo_others_apart : others_apart demo_chunk 0 demo_overlap.
Proof.
  assert (Hx : ∀ call, bool_decide (call_apart (outputDir demo_file) "out/b.txt" (dedupKey "c" 1) call) = true →
    ∃ call', start call = start call' ∧ call_apart (outputDir demo_file) "out/b.txt" (dedupKey "c" 1) call').
  { intros call H. exists call. split; [done|]. by apply bool_decide_eq_true in H. }
  intros [|[|[|[|j]]]] t Hj Ht; simplify_eq/=; [right; by eexists _, _|left; apply (Hx (CallStore _))|left; apply (Hx (CallDelete _))];
    vm_compute; reflexivity.
Qed.

Definition overlap_kinds (_ : string) (seq : Z) : kind := if (seq =? 1)%Z then KStore else KDelete.

Definition demo_calls_only : system unit :=
  mkSystem (start <$> [CallStore (mkRecv (demo_chunk :: demo_chunks) None);
                       CallStore (mkRecv [mkStoreFileRequest "b.txt" (s2b "9") "d" 1] None);
                       CallDelete (mkDeleteFileRequest "b.txt" "d" 2)]) demo_file tt.

Lemma demo_arrives : Forall (arrives overlap_kinds) (threads demo_calls_only).
Proof.
  apply Forall_fmap. apply (Forall_impl (consistent overlap_kinds)); [by repeat constructor|].
  intros c Hc. left. by exists c.
Qed.

Lemma overlapping_calls_keep_invariant_witness :
  ∃ s', run no_faults demo_schedule demo_calls_only = Ret s' ∧ service_inv overlap_kinds (shared s').
Proof.
  apply (overlapping_calls_keep_invariant overlap_kinds no_faults demo_schedule demo_calls_only);
    [split; [apply demo_file_wf|done]|apply demo_arrives].
Defined.

Definition demo_end : system unit :=
  match run no_faults demo_schedule demo_overlap with Ret s => s | _ => demo_overlap end.
Definition demo_fetched : send_stream FetchFileResponse :=
  match threads demo_end !! 1 with Some (Done (Fetched _ q)) => q | _ => open_stream end.

Lemma demo_runs : run no_faults demo_schedule demo_overlap = Ret demo_end.
Proof. vm_compute; reflexivity. Qed.

Lemma overlapping_store_is_isolated_witness :
  run no_faults demo_schedule demo_overlap = Ret demo_end ∧
  (read_file (disk (shared demo_end)) "out/b.txt" = Some demo_old ∨
   read_file (disk (shared demo_end)) "out/b.txt" = Some (s2b "2 3 5")).
Proof.
  split; [exact demo_runs|].
  exact (proj1 (overlapping_store_is_isolated no_faults demo_chunk demo_chunks None 0 demo_schedule demo_overlap demo_end
    demo_file_wf eq_refl eq_refl demo_others_apart demo_runs)).
Defined.

Lemma demo_fetch_done : threads demo_end !! 1 = Some (Done (Fetched None demo_fetched)).
Proof. vm_compute; reflexivity. Qed.

Lemma demo_fetched_clean : error_free demo_fetched.
Proof. unfold error_free. apply (bool_decide_unpack _). vm_compute. exact I. Qed.

Lemma overlapping_fetch_is_whole_witness :
  run no_faults demo_schedule demo_overlap = Ret demo_end ∧
  (concat (fp_Data <$> sent demo_fetched) = demo_old ∨ concat (fp_Data <$> sent demo_fetched) = s2b "2 3 5").
Proof.
  split; [exact demo_runs|].
  exact (proj1 (overlapping_fetch_is_whole no_faults demo_chunk demo_chunks None 0 1 demo_schedule demo_overlap demo_end
    demo_old demo_fetched demo_file_wf eq_refl eq_refl demo_others_apart eq_refl eq_refl demo_runs demo_fetch_done
    demo_fetched_clean)).
Defined.

Lemma overlapping_fetch_is_stale_witness :
  ∃ is_ s' ms,
    run no_faults is_ (mkSystem [start_fetch (mkFetchFileRequest "b.txt") open_stream;
      start (CallStore (mkRecv (demo_chunk :: demo_chunks) None))] demo_file tt) = Ret s' ∧
    threads s' = [Done (Fetched None (mkSend ms None)); Done (Reply (ReplyStore (Ok (mkStoreFileResponse 2 ""))))] ∧
    concat (fp_Data <$> ms) = demo_old ∧ Forall (λ m, fp_Version m = 2%Z) ms ∧
    read_file (disk (shared s')) "out/b.txt" = Some (s2b "2 3 5") ∧
    TestAuth no_faults (mkTestAuthRequest "b.txt" 2) (shared s') = mkTestAuthResponse true 2.
Proof.
  apply (overlapping_fetch_is_stale demo_chunk demo_chunks demo_file tt demo_old demo_file_wf eq_refl eq_refl).
  - apply (bool_decide_unpack _). by vm_compute.
  - reflexivity.
  - discriminate.
  - reflexivity.
Defined.
