(* ===== verification/Sync.v ===== *)
(** * A recovering backup: [SyncState] and [syncFromPrimaryWithRetry]

    src/afsfs/pkg/server/handler.go.  The primary streams every output file,
    chunk by chunk ([SyncState]); the backup writes each to a temporary file and
    renames it when the next file starts or the stream ends ([sync_loop]).
    [syncFromPrimaryWithRetry] repeats this up to 30 times. *)

From S2P Require Import Prelude GoLib GoText GoPath Disk AfsProto Server Handler.

(** ** The primary's side *)

Section SyncState.
  Context (flt : OsFaults).

(** One file as it goes on the wire: the first chunk carries the name. *)
Definition sync_entry (name : string) (version : Z) (firstChunk : bool) (data : bytes) : SyncFileEntry :=
  mkSyncFileEntry (if firstChunk then name else "") data version.
Definition sync_entries (name : string) (version : Z) (cs : list bytes) : list SyncFileEntry :=
  imap (λ i c, sync_entry name version (bool_decide (i = 0)) c) cs.

Fixpoint SyncState_files (entries : list (string * dirent)) (h : Handler)
    (stream : send_stream SyncFileEntry) : error * send_stream SyncFileEntry :=
  match entries with
  | [] => (None, stream)
  | (_, DDir) :: entries => SyncState_files entries h stream
  | (name, DFile _) :: entries =>
      let fullPath := PathJoin (outputDir h) name in
      let version := version_of h fullPath in
      match os_Open flt (disk h) fullPath with
      | Err _ => SyncState_files entries h stream
      | Ok f =>
          let '(cs, rd_err) := read_chunks flt chunkSize (disk h) f in
          match send_all stream (sync_entries name version cs) with
          | (Some e, stream) => (Some e, stream)
          | (None, stream) =>
              match rd_err with
              | Some e => (Some e, stream)
              | None => SyncState_files entries h stream
              end
          end
      end
  end.

Definition SyncState (h : Handler) (stream : send_stream SyncFileEntry)
    : error * send_stream SyncFileEntry :=
  match os_ReadDir flt (disk h) (outputDir h) with
  | DirOk entries => SyncState_files entries h stream
  | _ => (None, stream)
  end.

(** ** The backup's side *)

Record SyncLoop := mkSyncLoop {
  sy_curPath : string; sy_curVersion : Z; sy_curTmp : option Fd;
  sy_curFull : string; sy_curTmpPath : string; sy_synced : Z;
}.
Definition sync_start : SyncLoop := mkSyncLoop "" 0 None "" "" 0.

(** Closing a file: the error of [os.Rename] is dropped. *)
Definition sync_finalize (v : SyncLoop) (h : Handler) : SyncLoop * Handler :=
  match sy_curTmp v with
  | Some _ =>
      let '(_, d) := os_Rename flt (disk h) (sy_curTmpPath v) (sy_curFull v) in
      (mkSyncLoop (sy_curPath v) (sy_curVersion v) None (sy_curFull v) (sy_curTmpPath v) (sy_synced v + 1),
       set_versions (<[sy_curFull v := sy_curVersion v]> (versions h)) (set_disk d h))
  | None => (v, h)
  end.

(** A new file starts: [false] when its chunks are to be skipped. *)
Definition sync_new_file (chunk : SyncFileEntry) (v : SyncLoop) (h : Handler)
    : bool * SyncLoop * Handler :=
  let '(v, h) := sync_finalize v h in
  let curFull := PathJoin (outputDir h) (Base (se_Path chunk)) in
  let curTmpPath := curFull +:+ ".tmp" in
  let skip := mkSyncLoop "" (se_Version chunk) None curFull curTmpPath (sy_synced v) in
  if (match versions h !! curFull with
      | Some existingVer => (existingVer >=? se_Version chunk)%Z
      | None => false
      end) then (false, skip, h)
  else
    match os_Create flt (disk h) curTmpPath with
    | (Err _, d) => (false, skip, set_disk d h)
    | (Ok fd, d) =>
        (true, mkSyncLoop (se_Path chunk) (se_Version chunk) (Some fd) curFull curTmpPath (sy_synced v),
         set_disk d h)
    end.

Definition sync_write (chunk : SyncFileEntry) (v : SyncLoop) (h : Handler) : SyncLoop * Handler :=
  match sy_curTmp v, se_Data chunk with
  | Some fd, _ :: _ =>
      match fd_Write flt (disk h) fd (se_Data chunk) with
      | (Ok fd, d) =>
          (mkSyncLoop (sy_curPath v) (sy_curVersion v) (Some fd) (sy_curFull v) (sy_curTmpPath v)
             (sy_synced v), set_disk d h)
      | (Err _, d) =>
          (mkSyncLoop "" (sy_curVersion v) None (sy_curFull v) (sy_curTmpPath v) (sy_synced v),
           set_disk (os_Remove flt d (sy_curTmpPath v)).2 h)
      end
  | _, _ => (v, h)
  end.

Definition sync_step (chunk : SyncFileEntry) (v : SyncLoop) (h : Handler) : SyncLoop * Handler :=
  if decide (se_Path chunk ≠ "" ∧ se_Path chunk ≠ sy_curPath v) then
    match sync_new_file chunk v h with
    | (true, v, h) => sync_write chunk v h
    | (false, v, h) => (v, h)
    end
  else sync_write chunk v h.

Fixpoint sync_loop (chunks : list SyncFileEntry) (v : SyncLoop) (h : Handler) : SyncLoop * Handler :=
  match chunks with
  | [] => (v, h)
  | chunk :: chunks => let '(v, h) := sync_step chunk v h in sync_loop chunks v h
  end.

(** One attempt, once the stream is open: whether it [failed], and the server. *)
Definition sync_receive (stream : recv_stream SyncFileEntry) (h : Handler) : bool * Handler :=
  let '(v, h) := sync_loop (msgs stream) sync_start h in
  let '(v, h) := sync_finalize v h in
  (bool_decide (recv_end stream ≠ None), h).

(** ** The retry loop *)

(** What an attempt finds on the network: the peers' answers to [GetPrimary]
    (in the order of [peers]) and, when the primary could be dialled, the
    stream [SyncState] opened. *)
Record SyncEnv := mkSyncEnv {
  env_getPrimary : peerClient → result string;
  env_dial : string → bool;
  env_sync : string → result (recv_stream SyncFileEntry);
}.

Fixpoint first_primary (get : peerClient → result string) (ps : list peerClient) : string :=
  match ps with
  | [] => ""
  | p :: ps =>
      match get p with
      | Ok addr => if decide (addr = "") then first_primary get ps else addr
      | Err _ => first_primary get ps
      end
  end.

Definition resolvePrimaryAddr (get : peerClient → result string) (h : Handler) : string :=
  let known := knownPrimaryAddr h in
  if decide (known ≠ "" ∧ known ≠ serverAddr h) then known else first_primary get (peers h).

Inductive sync_result := SyncDone | SyncNotNeeded | SyncRetry.

(** One iteration of the retry loop. *)
Definition sync_attempt (env : SyncEnv) (h : Handler) : sync_result * Handler :=
  let primaryAddr := resolvePrimaryAddr (env_getPrimary env) h in
  if decide (primaryAddr = "") then (SyncRetry, h)
  else if decide (primaryAddr = serverAddr h) then (SyncNotNeeded, h)
  else if (bool_decide (primaryAddr ∈ peer_addr <$> peers h) || env_dial env primaryAddr)%bool then
    match env_sync env primaryAddr with
    | Err _ => (SyncRetry, h)
    | Ok stream =>
        let '(failed, h) := sync_receive stream h in
        (if failed then SyncRetry else SyncDone, h)
    end
  else (SyncRetry, h).

(** [envs] is what the successive attempts find; the code makes 30. *)
Fixpoint sync_attempts (envs : list SyncEnv) (h : Handler) : bool * Handler :=
  match envs with
  | [] => (false, h)
  | env :: envs =>
      match sync_attempt env h with
      | (SyncRetry, h) => sync_attempts envs h
      | (_, h) => (true, h)
      end
  end.

Definition syncFromPrimaryWithRetry (env : nat → SyncEnv) (h : Handler) : bool * Handler :=
  sync_attempts (env <$> seq 0 30) h.

End SyncState.
