(* ===== verification/SyncSpec.v ===== *)
(** * What a synchronisation leaves on the backup

    [sync_target] is the abstract specification: the contents and versions a
    backup should have after receiving a list of files.  [sync_receive_spec]
    shows that the loop of [syncFromPrimaryWithRetry] implements it, and
    [SyncState_sends] that the primary sends its non-empty output files. *)

From S2P Require Import Prelude GoLib GoText GoPath Disk AfsProto Server Handler HandlerSpec Service Cluster Sync.

(** A server whose disk is well formed and whose output directory holds no
    directories. *)
Definition srv_ok (h : Handler) : Prop :=
  disk_wf (disk h) ∧ ∀ b, safe_name b → names (disk h) !! out_name h b ≠ Some DDir.

Lemma srv_ok_tmp h b : srv_ok h → safe_name b → names (disk h) !! (out_name h b +:+ ".tmp") ≠ Some DDir.
Proof.
  intros [_ Hd] Hb. unfold out_name. rewrite PathJoin_safe, string_app_assoc by done.
  rewrite <- PathJoin_safe by by apply safe_name_tmp. by apply Hd, safe_name_tmp.
Qed.

Lemma srv_ok_dirs h h' :
  srv_ok h → outputDir h' = outputDir h → disk_wf (disk h') → dirs_kept (disk h) (disk h') → srv_ok h'.
Proof.
  intros [_ Hd] Eo Hwf Hk. split; [done|]. intros b Hb Hn. apply Hk in Hn.
  rewrite (out_name_ext h) in Hn by done. by apply (Hd b).
Qed.

(** ** A file that is being received *)

(** The loop writes the file [b], of which [data] has arrived; [h0] is the
    server before the file began. *)
Record in_file (b : string) (data : bytes) (h0 : Handler) (v : SyncLoop) (h : Handler) : Prop := {
  in_safe : safe_name b;
  in_full : sy_curFull v = out_name h0 b;
  in_tmp : sy_curTmpPath v = out_name h0 b +:+ ".tmp";
  in_fd : ∃ fd, sy_curTmp v = Some fd ∧ writing (disk h) fd (sy_curTmpPath v) data;
  in_touch : touches_only (sy_curTmpPath v) h0 h;
  in_dirs : dirs_kept (disk h0) (disk h);
}.

Lemma sync_finalize_in_file b data h0 v h :
  srv_ok h0 → in_file b data h0 v h →
  let r := sync_finalize no_faults v h in
  sy_curTmp r.1 = None ∧ sy_curPath r.1 = sy_curPath v ∧ srv_ok r.2 ∧
  only_file (out_name h0 b) h0 r.2 ∧ read_file (disk r.2) (out_name h0 b) = Some data ∧
  versions r.2 = <[out_name h0 b := sy_curVersion v]> (versions h0) ∧
  outputDir r.2 = outputDir h0.
Proof.
  intros Hok [Hb Hfull Htmp (fd & Hfd & Hw) Hto Hdirs]. pose proof Hto as (Eh & Hwf & Hsame).
  unfold sync_finalize. rewrite Hfd, Hfull. rewrite Htmp in *.
  destruct (os_Rename no_faults (disk h) (out_name h0 b +:+ ".tmp") (out_name h0 b)) as [e d] eqn:Er.
  pose proof (os_Rename_dirs no_faults (disk h) (out_name h0 b +:+ ".tmp") (out_name h0 b)) as Hd.
  rewrite Er in Hd. simpl in Hd.
  assert (e = None) as ->.
  { change e with (e, d).1. rewrite <- Er. destruct Hw as (Hn & _). eapply os_Rename_ok; [exact Hn|].
    intros Hn'. apply Hdirs in Hn'. by apply Hok in Hn'. }
  destruct (commit_rename _ _ _ _ _ _ _ Hwf Hw Er) as [Hwf' [Hr Hnm]]. simpl.
  assert (Eo : outputDir h = outputDir h0) by by rewrite Eh.
  split; [done|]. split; [done|]. split; [split; [done|]|split; [split; [done|]|]].
  - intros b' Hb' Hn. unfold out_name in Hn. simpl in Hn. rewrite Eo in Hn.
    pose proof (Hdirs _ (Hd _ Hn)) as Hn'. by apply Hok in Hn'.
  - intros q Hq Hqt. simpl. rewrite Hr, Hnm, !decide_False by done. by apply Hsame.
  - split; [simpl; by rewrite Hr, decide_True|]. split; [by rewrite Eh|done].
Qed.

(** Chunks that continue a file. *)
Definition continuation (ver : Z) (cs : list bytes) : list SyncFileEntry :=
  (λ c, mkSyncFileEntry "" c ver) <$> cs.

Lemma sync_entries_cons name ver c cs :
  sync_entries name ver (c :: cs) = mkSyncFileEntry name c ver :: continuation ver cs.
Proof.
  unfold sync_entries, continuation. rewrite imap_cons. f_equal.
  rewrite <- (imap_const (λ c, mkSyncFileEntry "" c ver) cs). apply imap_ext. intros i x _. done.
Qed.

Lemma sync_write_in_file b data h0 v h c :
  in_file b data h0 v h →
  let r := sync_write no_faults c v h in
  in_file b (data ++ se_Data c) h0 r.1 r.2 ∧ sy_curPath r.1 = sy_curPath v ∧
  sy_curVersion r.1 = sy_curVersion v.
Proof.
  intros [Hb Hfull Htmp (fd & Hfd & Hw) Hto Hdirs]. pose proof Hto as (Eh & Hwf & Hsame).
  unfold sync_write. rewrite Hfd. destruct (se_Data c) as [|x l] eqn:Ed.
  { rewrite app_nil_r. split; [|done]. split; try done. by exists fd. }
  pose proof Hw as (_ & _ & Hwr & _).
  destruct (fd_Write_ok (disk h) fd (x :: l) Hwr) as (fd' & d' & Ew). rewrite Ew. simpl.
  destruct (fd_Write_spec _ _ _ _ _ _ _ _ Hwf Hw Ew) as (Hwf' & Hw' & _ & _).
  pose proof (fd_Write_same _ _ _ _ _ _ _ _ Hwf Hw Ew) as Hs.
  pose proof (fd_Write_dirs no_faults (disk h) fd (x :: l)) as Hk. rewrite Ew in Hk.
  split; [|done]. split; try done; simpl.
  - by exists fd'.
  - eapply touches_only_trans; [done|]. by split.
  - by etrans.
Qed.

Lemma sync_step_continuation c ver v h :
  sync_step no_faults (mkSyncFileEntry "" c ver) v h = sync_write no_faults (mkSyncFileEntry "" c ver) v h.
Proof. unfold sync_step. cbn [se_Path]. by rewrite decide_False by naive_solver. Qed.

Lemma sync_loop_in_file ver cs b data h0 v h :
  in_file b data h0 v h →
  let r := sync_loop no_faults (continuation ver cs) v h in
  in_file b (data ++ concat cs) h0 r.1 r.2 ∧ sy_curPath r.1 = sy_curPath v ∧
  sy_curVersion r.1 = sy_curVersion v.
Proof.
  revert data v h. induction cs as [|c cs IH]; intros data v h Hin; simpl; [by rewrite app_nil_r|].
  rewrite sync_step_continuation.
  destruct (sync_write_in_file _ _ _ _ _ (mkSyncFileEntry "" c ver) Hin) as (Hin' & Hp & Hv).
  destruct (sync_write no_faults _ v h) as [v1 h1]. simpl in *.
  destruct (IH _ _ _ Hin') as (? & Hp' & Hv'). rewrite Hp', Hv', app_assoc. done.
Qed.

Lemma sync_loop_skipping ver cs v h :
  sy_curTmp v = None → sync_loop no_faults (continuation ver cs) v h = (v, h).
Proof.
  intros Hv. induction cs as [|c cs IH]; [done|]. simpl. rewrite sync_step_continuation.
  unfold sync_write. rewrite Hv. done.
Qed.

(** ** One file *)

(** The backup takes a file it has no version of, or an older one. *)
Definition wants (h : Handler) (b : string) (ver : Z) : bool :=
  match versions h !! out_name h b with Some existing => (existing <? ver)%Z | None => true end.

(** Between two files: nothing is open, or the last file is complete. *)
Definition boundary (v : SyncLoop) (h hs : Handler) : Prop :=
  srv_ok hs ∧
  (sy_curTmp v = None ∧ hs = h ∨
   ∃ b data h0, srv_ok h0 ∧ in_file b data h0 v h ∧ hs = (sync_finalize no_faults v h).2).

Lemma boundary_finalize v h hs : boundary v h hs →
  ∃ v', sync_finalize no_faults v h = (v', hs) ∧ sy_curTmp v' = None.
Proof.
  intros [_ [[Hv ->]|(b & data & h0 & Hok & Hin & ->)]].
  - exists v. unfold sync_finalize. by rewrite Hv.
  - destruct (sync_finalize_in_file _ _ _ _ _ Hok Hin) as (Hn & _).
    destruct (sync_finalize no_faults v h) as [v' h']. by exists v'.
Qed.

Lemma sync_file_spec name ver c cs v h hs :
  boundary v h hs → plain name → name ≠ sy_curPath v →
  let r := sync_loop no_faults (sync_entries name ver (c :: cs)) v h in
  ∃ hs', boundary r.1 r.2 hs' ∧ (sy_curPath r.1 = "" ∨ sy_curPath r.1 = name) ∧
    if wants hs name ver then changes name (Some (concat (c :: cs))) (Some ver) hs hs'
    else hs' = hs.
Proof.
  intros Hbd [Hb Hpl] Hne. pose proof (Base_safe _ Hb) as Hbase. destruct (boundary_finalize _ _ _ Hbd) as (v0 & Ef & Hv0).
  destruct Hbd as [Hok _]. rewrite sync_entries_cons. cbn [sync_loop]. unfold sync_step. cbn [se_Path].
  rewrite decide_True by (split; [apply Hb|done]).
  unfold sync_new_file. rewrite Ef. simpl. rewrite Hbase. fold (out_name hs name).
  unfold wants. destruct (versions hs !! out_name hs name) as [ex|] eqn:Hver.
  1: rewrite Z.geb_leb; destruct (Z.leb_spec ver ex), (Z.ltb_spec ex ver); try lia.
  1: { rewrite sync_loop_skipping by done. exists hs. split; [|by split; [left|]].
       split; [done|]. by left. }
  all: destruct (os_Create_ok _ _ (srv_ok_tmp _ _ Hok Hb)) as (fd & d & Ec); rewrite Ec.
  all: pose proof Hok as [Hwf _]; destruct (os_Create_touches _ _ _ _ _ Hwf Ec) as [Hto Hw].
  all: pose proof (os_Create_dirs no_faults (disk hs) (out_name hs name +:+ ".tmp")) as Hk; rewrite Ec in Hk.
  all: set (v1 := mkSyncLoop name ver (Some fd) _ _ _).
  all: assert (Hin : in_file name [] hs v1 (set_disk d hs)) by (split; try done; by exists fd).
  all: destruct (sync_write_in_file _ _ _ _ _ (mkSyncFileEntry name c ver) Hin) as (Hin2 & Hp2 & Hve2).
  all: destruct (sync_write no_faults _ v1 _) as [v2 h2]; simpl in *.
  all: destruct (sync_loop_in_file ver cs _ _ _ _ _ Hin2) as (Hin3 & Hp3 & Hve3).
  all: destruct (sync_loop no_faults (continuation ver cs) v2 h2) as [v3 h3]; simpl in *.
  all: destruct (sync_finalize_in_file _ _ _ _ _ Hok Hin3) as (_ & _ & Hok' & Hof & Hd & Hvs & Ho).
  all: exists (sync_finalize no_faults v3 h3).2; split; [split; [done|]; right; exists name, (([] ++ c) ++ concat cs), hs; done|].
  all: split; [right; by rewrite Hp3, Hp2|].
  all: apply only_file_changes; try done; by rewrite Hvs, Hve3, Hve2.
Qed.

(** ** A list of files *)

Definition file_tx : Type := string * Z * list bytes.
Definition wire (files : list file_tx) : list SyncFileEntry :=
  concat ((λ f, sync_entries f.1.1 f.1.2 f.2) <$> files).

(** What the backup holds of the file [b]. *)
Definition held (h : Handler) (b : string) : option bytes * option Z :=
  (read_file (disk h) (out_name h b), versions h !! out_name h b).

(** What it should hold after receiving [files]. *)
Fixpoint sync_target (files : list file_tx) (h : Handler) (b : string) : option bytes * option Z :=
  match files with
  | [] => held h b
  | (name, ver, cs) :: files =>
      if decide (b = name) then
        if wants h b ver then (Some (concat cs), Some ver) else held h b
      else sync_target files h b
  end.

Lemma sync_target_ext files h h' b :
  held h' b = held h b → sync_target files h' b = sync_target files h b.
Proof.
  intros E. induction files as [|[[name ver] cs] files IH]; simpl; [done|].
  assert (wants h' b ver = wants h b ver) as ->.
  { unfold wants. injection E as _ ->. done. }
  by rewrite E, IH.
Qed.

Lemma sync_target_not files h b : b ∉ (λ f : file_tx, f.1.1) <$> files → sync_target files h b = held h b.
Proof.
  induction files as [|[[name ver] cs] files IH]; [done|]. simpl.
  intros [Hb Hf]%not_elem_of_cons. rewrite decide_False by done. auto.
Qed.

Lemma held_changes b0 data v h h' b :
  plain b → changes b0 data v h h' → held h' b = if decide (b = b0) then (data, v) else held h b.
Proof.
  intros Hb [Eo Hc]. unfold held. rewrite (out_name_ext h h') by done.
  destruct (Hc b Hb) as [-> ->]. by case_decide.
Qed.

Lemma sync_loop_app xs ys v h :
  sync_loop no_faults (xs ++ ys) v h =
  let '(v, h) := sync_loop no_faults xs v h in sync_loop no_faults ys v h.
Proof.
  revert v h. induction xs as [|x xs IH]; intros v h; simpl; [done|].
  destruct (sync_step no_faults x v h). apply IH.
Qed.

Definition sendable (f : file_tx) : Prop := plain f.1.1 ∧ f.2 ≠ [].

Lemma sync_files_spec files v h hs :
  boundary v h hs → Forall sendable files → NoDup ((λ f : file_tx, f.1.1) <$> files) →
  Forall (λ f : file_tx, f.1.1 ≠ sy_curPath v) files →
  let r := sync_loop no_faults (wire files) v h in
  ∃ hs', boundary r.1 r.2 hs' ∧ outputDir hs' = outputDir hs ∧
    ∀ b, plain b → held hs' b = sync_target files hs b.
Proof.
  revert v h hs. induction files as [|[[name ver] cs] files IH]; intros v h hs Hbd Hs Hnd Hne; [by exists hs|].
  apply Forall_cons in Hs as [[Hpl Hcs] Hs]. simpl in Hpl, Hcs.
  apply NoDup_cons in Hnd as [Hnin Hnd]. simpl in Hnin. apply Forall_cons in Hne as [Hne _]. simpl in Hne.
  destruct cs as [|c cs]; [done|].
  unfold wire. cbn [fmap list_fmap concat fst snd]. rewrite sync_loop_app.
  destruct (sync_file_spec name ver c cs v h hs Hbd Hpl Hne) as (hs1 & Hbd1 & Hp1 & Hch).
  destruct (sync_loop no_faults (sync_entries name ver (c :: cs)) v h) as [v1 h1]. simpl in Hbd1, Hp1.
  destruct (IH v1 h1 hs1) as (hs2 & Hbd2 & Ho2 & Hspec); [done|done|done| |].
  { apply Forall_forall. intros f Hf. rewrite Forall_forall in Hs. destruct (Hs f Hf) as [[(? & _) _] _].
    destruct Hp1 as [->| ->]; [done|]. intros Ef. apply Hnin. rewrite <- Ef.
    by apply (list_elem_of_fmap_2 (λ f : file_tx, f.1.1)). }
  exists hs2. split; [done|].
  assert (Ho1 : outputDir hs1 = outputDir hs) by (destruct (wants hs name ver); [apply Hch|by rewrite Hch]).
  split; [by rewrite Ho2|]. intros b Hb. rewrite (Hspec b Hb). simpl.
  case_decide as Hbn; [subst b|].
  - rewrite sync_target_not by done. destruct (wants hs name ver).
    + rewrite (held_changes _ _ _ _ _ _ Hpl Hch). by rewrite decide_True.
    + by rewrite Hch.
  - apply sync_target_ext. destruct (wants hs name ver); [|by rewrite Hch].
    rewrite (held_changes _ _ _ _ _ _ Hb Hch). by rewrite decide_False.
Qed.

Lemma sync_receive_spec files hb e :
  srv_ok hb → Forall sendable files → NoDup ((λ f : file_tx, f.1.1) <$> files) →
  let r := sync_receive no_faults (mkRecv (wire files) e) hb in
  r.1 = bool_decide (e ≠ None) ∧ srv_ok r.2 ∧ outputDir r.2 = outputDir hb ∧
  ∀ b, plain b → held r.2 b = sync_target files hb b.
Proof.
  intros Hok Hs Hnd. unfold sync_receive. cbn [msgs recv_end].
  destruct (sync_files_spec files sync_start hb hb) as (hs & Hbd & Ho & Hspec); [|done|done| |].
  - split; [done|]. by left.
  - eapply Forall_impl; [exact Hs|]. intros f [[(? & _) _] _]. done.
  - destruct (sync_loop no_faults (wire files) sync_start hb) as [v h].
    simpl in Hbd. destruct (boundary_finalize _ _ _ Hbd) as (v' & -> & _). simpl.
    split; [done|]. split; [apply Hbd|]. done.
Qed.

(** ** What the primary sends *)

Definition tx_of (h : Handler) (x : string * dirent) : option file_tx :=
  match read_file (disk h) (out_name h x.1) with
  | Some (c :: data) => Some (x.1, version_of h (out_name h x.1), chunks chunkSize (c :: data))
  | _ => None
  end.

Lemma SyncState_files_sends h entries ys :
  Forall (λ x, names (disk h) !! out_name h x.1 = Some x.2) entries →
  SyncState_files no_faults entries h (mkSend ys None) =
    (None, mkSend (ys ++ wire (omap (tx_of h) entries)) None).
Proof.
  revert ys. induction entries as [|[name e] entries IH]; intros ys Hn; simpl; [by rewrite app_nil_r|].
  apply Forall_cons in Hn as [Hname Hn]. simpl in Hname. unfold tx_of at 1, read_file. simpl.
  rewrite Hname. destruct e as [i|]; [|by apply IH].
  fold (out_name h name). unfold os_Open. simpl. rewrite Hname. unfold read_chunks. simpl.
  rewrite drop_0, send_all_open, IH by done. destruct (content (disk h) i) as [|x data]; [|].
  - unfold chunks. simpl. by rewrite app_nil_r.
  - unfold wire at 2. cbn [fmap list_fmap concat fst snd]. by rewrite <- app_assoc.
Qed.
