(* ===== verification/SyncProps.v ===== *)
(** * Properties of the synchronisation of a recovering backup *)

From S2P Require Import Prelude GoLib GoText GoPath Disk AfsProto Server Handler HandlerSpec Service Cluster Sync SyncSpec.

(** What the primary offers of the file [b]: the stream leaves out names that
    are not files and empty files. *)
Definition offered (hp : Handler) (b : string) : option (bytes * Z) :=
  match read_file (disk hp) (out_name hp b) with
  | Some (c :: data) => Some (c :: data, version_of hp (out_name hp b))
  | _ => None
  end.

Lemma listing_spec hp entries :
  os_ReadDir no_faults (disk hp) (outputDir hp) = DirOk entries →
  NoDup entries.*1 ∧ ∀ b e, safe_name b → (b, e) ∈ entries ↔ names (disk hp) !! out_name hp b = Some e.
Proof.
  unfold os_ReadDir. simpl. destruct (names (disk hp) !! dir_key (outputDir hp)) as [[]|]; try done.
  intros [= <-]. split; [apply children_NoDup|]. intros b e Hb.
  rewrite children_spec. unfold out_name. rewrite PathJoin_safe by done.
  split; [by intros (? & _)|]. intros ?. split; [done|]. split; apply Hb.
Qed.

Lemma omap_tx_names hp entries b :
  b ∈ (λ f : file_tx, f.1.1) <$> omap (tx_of hp) entries → b ∈ entries.*1.
Proof.
  intros ([[b' v] cs] & -> & ([b0 e] & Hin & Htx)%list_elem_of_omap)%list_elem_of_fmap.
  unfold tx_of in Htx. destruct (read_file _ _) as [[|c data]|]; try done. injection Htx as <- _ _.
  by apply (list_elem_of_fmap_2 fst) in Hin.
Qed.

Lemma omap_tx_NoDup hp entries :
  NoDup entries.*1 → NoDup ((λ f : file_tx, f.1.1) <$> omap (tx_of hp) entries).
Proof.
  induction entries as [|[b e] entries IH]; intros Hnd; [constructor|].
  apply NoDup_cons in Hnd as [Hb Hnd]. simpl in Hb. simpl.
  destruct (tx_of hp (b, e)) as [[[b' v] cs]|] eqn:Htx; [|by apply IH].
  cbn [fmap list_fmap]. apply NoDup_cons. split; [|by apply IH]. intros Hin.
  apply omap_tx_names in Hin. apply Hb. unfold tx_of in Htx. simpl in *.
  destruct (read_file _ _) as [[|c data]|]; try done. by injection Htx as <- _ _.
Qed.

Lemma sync_target_offered hp hb entries b :
  os_ReadDir no_faults (disk hp) (outputDir hp) = DirOk entries → safe_name b →
  sync_target (omap (tx_of hp) entries) hb b =
  match offered hp b with
  | Some (data, ver) => if wants hb b ver then (Some data, Some ver) else held hb b
  | None => held hb b
  end.
Proof.
  intros Hdir Hb. destruct (listing_spec _ _ Hdir) as [Hnd Hin].
  specialize (Hin b). assert (Hin' : ∀ e, (b, e) ∈ entries ↔ names (disk hp) !! out_name hp b = Some e)
    by (intros e; by apply Hin). clear Hin Hdir.
  unfold offered. destruct (names (disk hp) !! out_name hp b) as [e|] eqn:Hn.
  - assert (Hmem : (b, e) ∈ entries) by by apply Hin'. clear Hin'.
    induction entries as [|[b0 e0] entries IH]; [by apply not_elem_of_nil in Hmem|].
    apply NoDup_cons in Hnd as [Hb0 Hnd]. simpl in Hb0.
    apply elem_of_cons in Hmem as [[= <- <-]|Hmem].
    + simpl. unfold tx_of at 1. simpl. unfold read_file. rewrite Hn. destruct e as [i|].
      * destruct (content (disk hp) i) as [|c data] eqn:Hc.
        -- apply sync_target_not. by intros ?%omap_tx_names.
        -- cbn [sync_target]. rewrite decide_True by done.
           by rewrite chunks_concat by apply chunkSize_pos.
      * apply sync_target_not. by intros ?%omap_tx_names.
    + assert (b ≠ b0) by (intros ->; apply Hb0; by apply (list_elem_of_fmap_2 fst) in Hmem).
      simpl. unfold tx_of at 1. simpl. destruct (read_file _ (out_name hp b0)) as [[|c data]|];
        cbn [sync_target]; rewrite ?decide_False by done; auto.
  - unfold read_file. rewrite Hn. apply sync_target_not. intros Hm. apply omap_tx_names in Hm.
    apply list_elem_of_fmap in Hm as ([b' e] & -> & Hm). simpl in *. apply Hin' in Hm. by simplify_eq.
Qed.

(** C17: a complete synchronisation leaves the backup, for every name, with the
    primary's content and version when the primary has a non-empty file that is
    newer than the backup's or unknown to it, and with what it had otherwise. *)
Theorem sync_catches_up hp hb entries :
  os_ReadDir no_faults (disk hp) (outputDir hp) = DirOk entries →
  Forall (λ x, plain x.1) entries → srv_ok hb →
  let stream := (SyncState no_faults hp open_stream).2 in
  let r := sync_receive no_faults (mkRecv (sent stream) None) hb in
  r.1 = false ∧ srv_ok r.2 ∧
  ∀ b, plain b → held r.2 b =
    match offered hp b with
    | Some (data, ver) => if wants hb b ver then (Some data, Some ver) else held hb b
    | None => held hb b
    end.
Proof.
  intros Hdir Hpl Hok stream r. destruct (listing_spec _ _ Hdir) as [Hnd Hin].
  assert (Es : sent stream = wire (omap (tx_of hp) entries)).
  { unfold stream, SyncState. rewrite Hdir. unfold open_stream.
    rewrite SyncState_files_sends; [done|]. apply Forall_forall. intros [b e] Hbe. apply Hin; [|done].
    rewrite Forall_forall in Hpl. by destruct (Hpl _ Hbe). }
  destruct (sync_receive_spec (omap (tx_of hp) entries) hb None) as (Hr & Hok' & _ & Hspec); [done| |..].
  { apply Forall_forall. intros [[b v] cs] ([b0 e] & Hbe & Htx)%list_elem_of_omap.
    rewrite Forall_forall in Hpl. unfold tx_of in Htx.
    destruct (read_file _ _) as [[|c data]|]; try done. injection Htx as <- _ <-.
    split; [by apply (Hpl _ Hbe)|]. by intros H%chunks_nil; [|apply chunkSize_pos]. }
  { by apply omap_tx_NoDup. }
  unfold r. rewrite Es. split; [done|]. split; [done|]. intros b Hb. rewrite (Hspec b Hb).
  by apply sync_target_offered; [|apply Hb].
Qed.

(** C38: a stream that breaks inside a file leaves the part received under the
    file's final name and under the primary's version; the attempt counts as
    failed, but when a later attempt receives the whole file the backup takes
    the part for up to date and keeps it. *)
Theorem sync_truncated_file_persists name ver c cs e hb c' cs' :
  srv_ok hb → plain name → wants hb name ver = true →
  let r := sync_receive no_faults (mkRecv (sync_entries name ver (c :: cs)) (Some e)) hb in
  let r' := sync_receive no_faults (mkRecv (sync_entries name ver (c' :: cs')) None) r.2 in
  r.1 = true ∧ held r.2 name = (Some (concat (c :: cs)), Some ver) ∧
  r'.1 = false ∧ held r'.2 name = (Some (concat (c :: cs)), Some ver).
Proof.
  intros Hok Hpl Hw r r'.
  assert (Hone : ∀ x xs h err, srv_ok h →
    let q := sync_receive no_faults (mkRecv (sync_entries name ver (x :: xs)) err) h in
    q.1 = bool_decide (err ≠ None) ∧ srv_ok q.2 ∧
    held q.2 name = if wants h name ver then (Some (concat (x :: xs)), Some ver) else held h name).
  { intros x xs h err Hh. replace (sync_entries name ver (x :: xs)) with (wire [(name, ver, x :: xs)])
      by (unfold wire; simpl; by rewrite app_nil_r).
    destruct (sync_receive_spec [(name, ver, x :: xs)] h err) as (H1 & H2 & _ & H3);
      [done|by apply Forall_singleton; split|by apply NoDup_singleton|].
    split; [done|]. split; [done|]. rewrite H3 by done. simpl. by rewrite decide_True. }
  destruct (Hone c cs hb (Some e) Hok) as (H1 & Hok1 & H2). rewrite Hw in H2.
  destruct (Hone c' cs' r.2 None Hok1) as (H3 & _ & H4).
  split; [exact H1|]. split; [exact H2|]. split; [exact H3|].
  fold r' in H4. rewrite H4. fold r in H2. rewrite H2.
  assert (wants r.2 name ver = false) as ->; [|done].
  unfold wants. injection H2 as _ ->. apply Z.ltb_irrefl.
Qed.

(** ** Witnesses *)

Definition out_disk : Disk := (os_MkdirAll no_faults empty_disk "out").2.
Definition out_server (id : string) (d : Disk) (vs : gmap string Z) : Handler :=
  mkHandler "in" "out" ∅ vs 0 ∅ id "" false "" [] 0 false d.
Definition new_backup : Handler := out_server "s2" out_disk ∅.
Definition old_primary : Handler :=
  out_server "s1" (set_content (new_file out_disk "out/p.txt") 0 (s2b "2 3 5")) {["out/p.txt" := 4%Z]}.

Lemma new_backup_ok : srv_ok new_backup.
Proof.
  split; [eapply os_MkdirAll_spec; [apply disk_wf_empty|apply surjective_pairing]|].
  intros b Hb. change (out_name new_backup b) with (PathJoin "out" b). rewrite PathJoin_safe by done.
  change (names (disk new_backup)) with ({["out" := DDir]} : gmap string dirent).
  rewrite lookup_singleton_ne; [done|]. intros E. apply (f_equal s2b) in E. rewrite s2b_app in E.
  by vm_compute in E.
Qed.

Lemma plain_p_txt : plain "p.txt".
Proof.
  split; [decide_now|]. intros b' E. apply (f_equal (λ s, rev (s2b s))) in E.
  rewrite s2b_app, rev_app_distr in E. by vm_compute in E.
Qed.

Lemma sync_catches_up_witness :
  held (sync_receive no_faults (mkRecv (sent (SyncState no_faults old_primary open_stream).2) None)
          new_backup).2 "p.txt" = (Some (s2b "2 3 5"), Some 4%Z).
Proof.
  destruct (sync_catches_up old_primary new_backup [("p.txt", DFile 0)]) as (_ & _ & H);
    [vm_compute; reflexivity|apply Forall_singleton, plain_p_txt|apply new_backup_ok|].
  rewrite (H "p.txt" plain_p_txt). by vm_compute.
Defined.

Lemma sync_truncated_file_persists_witness :
  srv_ok new_backup ∧ wants new_backup "p.txt" 4 = true ∧
  held (sync_receive no_faults (mkRecv (sync_entries "p.txt" 4 [s2b "2 "]) (Some "reset")) new_backup).2
    "p.txt" = (Some (s2b "2 "), Some 4%Z).
Proof.
  split; [apply new_backup_ok|]. split; [done|].
  destruct (sync_truncated_file_persists "p.txt" 4 (s2b "2 ") [] "reset" new_backup (s2b "2 ") [s2b "3 5"]
    new_backup_ok plain_p_txt eq_refl) as (_ & H & _). rewrite H. by vm_compute.
Defined.
