(* ===== verification/Election.v ===== *)
(** * Failure detection and election: election.go and heartbeat.go

    The servers that are up form a map from addresses to [Handler]s
    ([Servers]); an address outside the map refuses connections.  [GetPrimary]
    calls the same handler on other servers, which may call further ones: its
    fuel is the number of nested calls that fit into the deadline of the call
    at the root, and a chain that is deeper answers [Deadline].

    The goroutines (heartbeat sender, heartbeat monitor) are in [Process] and
    its step relation [gstep]. *)

From S2P Require Import Prelude Disk AfsProto Server.

Abbreviation Servers := (gmap string Handler).

(** How a unary call ends at its caller. *)
Inductive rpc :=
  | Replied (PrimaryAddr : string)
  | Failed
  | Deadline.

Definition set_known (addr : string) (h : Handler) : Handler := set_role (primary h) addr h.

(** [for _, peer := range h.copyPeers() { resp, err := peer.stub.GetPrimary ... }] *)
Fixpoint ask_peers (call : string → Servers → rpc * Servers) (ps : list peerClient) (cl : Servers)
    : rpc * Servers :=
  match ps with
  | [] => (Replied "", cl)
  | p :: ps =>
      match call (peer_addr p) cl with
      | (Replied addr, cl) => if decide (addr = "") then ask_peers call ps cl else (Replied addr, cl)
      | (Failed, cl) => ask_peers call ps cl
      | (Deadline, cl) => (Deadline, cl)
      end
  end.

(** The two attempts to verify [known]: over the peer's connection, then over
    a fresh one.  [None]: the deadline passed. *)
Definition verify_known (call : string → Servers → rpc * Servers) (dial : string → bool)
    (ps : list peerClient) (known : string) (cl : Servers) : option bool * Servers :=
  let fresh cl :=
    if dial known then
      match call known cl with
      | (Replied _, cl) => (Some true, cl)
      | (Failed, cl) => (Some false, cl)
      | (Deadline, cl) => (None, cl)
      end
    else (Some false, cl) in
  if decide (known ∈ peer_addr <$> ps) then
    match call known cl with
    | (Replied _, cl) => (Some true, cl)
    | (Failed, cl) => fresh cl
    | (Deadline, cl) => (None, cl)
    end
  else fresh cl.

(** A [GetPrimary] call to the server at [self]. *)
Fixpoint GetPrimary (fuel : nat) (dial : string → bool) (self : string) (cl : Servers) : rpc * Servers :=
  match cl !! self with
  | None => (Failed, cl)
  | Some h =>
      match fuel with
      | O => (Deadline, cl)
      | S fuel =>
          if primary h then (Replied (serverAddr h), cl)
          else
            let call := GetPrimary fuel dial in
            let known := knownPrimaryAddr h in
            let ask cl := ask_peers call (peers h) cl in
            if decide (known = "") then ask cl
            else
              match verify_known call dial (peers h) known cl with
              | (None, cl) => (Deadline, cl)
              | (Some true, cl) => (Replied known, cl)
              | (Some false, cl) => ask (alter (set_known "") self cl)
              end
      end
  end.

Definition isAlive (fuel : nat) (dial : string → bool) (peer : peerClient) (cl : Servers) : bool * Servers :=
  match GetPrimary fuel dial (peer_addr peer) cl with
  | (Replied _, cl) => (true, cl)
  | (_, cl) => (false, cl)
  end.

(** ** Roles *)

Definition setKnownPrimary (addr : string) (h : Handler) : Handler :=
  set_role (bool_decide (addr = serverAddr h)) addr h.

Definition resetHeartbeat (now : Z) (h : Handler) : Handler := set_lastHeartbeat now h.

(** [promoteToPrimary]; the boolean: a heartbeat sender is started. *)
Definition promoteToPrimary (now : Z) (h : Handler) : bool * Handler :=
  let h := resetHeartbeat now (set_role true (serverAddr h) h) in
  if senderRunning h then (false, h) else (true, set_senderRunning true h).

(** [AnnouncePrimary], up to the synchronisation it starts (Sync.v). *)
Definition AnnouncePrimary (req : AnnouncePrimaryRequest) (h : Handler) : Handler :=
  setKnownPrimary (ar_PrimaryAddr req) h.

Definition Heartbeat (now : Z) (req : HeartbeatRequest) (h : Handler) : HeartbeatResponse * Handler :=
  let h := set_lastHeartbeat now h in
  let h :=
    if primary h then h
    else match list_find (λ p, peer_id p = hr_ServerId req) (peers h) with
         | Some (_, p) => set_known (peer_addr p) h
         | None => h
         end in
  (mkHeartbeatResponse (primary h), h).

(** [sendHeartbeat]'s bookkeeping of a peer. *)
Definition sendHeartbeat (delivered : bool) (peer : peerClient) : peerClient :=
  mkPeer (peer_id peer) (peer_addr peer) (if delivered then 0 else peer_failCount peer + 1).

(** ** The election *)

(** The loop over the peers: who is alive, and the winner so far. *)
Fixpoint poll_peers (fuel : nat) (dial : string → bool) (ps : list peerClient) (cl : Servers)
    : list peerClient * Servers :=
  match ps with
  | [] => ([], cl)
  | p :: ps =>
      let '(alive, cl) := isAlive fuel dial p cl in
      let '(live, cl) := poll_peers fuel dial ps cl in
      (if alive then p :: live else live, cl)
  end.

(** [if peer.id < winnerID { winnerID = peer.id; winnerAddr = peer.addr }] *)
Definition better (winner : string * string) (p : peerClient) : string * string :=
  if String.ltb (peer_id p) winner.1 then (peer_id p, peer_addr p) else winner.
Definition elect (self : string * string) (live : list peerClient) : string * string :=
  fold_left better live self.

(** What follows the poll: the new handler, whether a sender is started, and
    the announcements sent ([broadcastAnnouncePrimary]). *)
Definition decide_election (now : Z) (live : list peerClient) (h : Handler)
    : bool * list (string * AnnouncePrimaryRequest) * Handler :=
  let '(winnerID, winnerAddr) := elect (serverID h, serverAddr h) live in
  if decide (winnerID = serverID h) then
    let '(sender, h) := promoteToPrimary now h in
    (sender, (λ p, (peer_addr p, mkAnnouncePrimaryRequest (serverAddr h) (serverID h))) <$> live, h)
  else (false, [], setKnownPrimary winnerAddr h).

Definition startElection (fuel : nat) (dial : string → bool) (now : Z) (self : string) (cl : Servers)
    : list (string * AnnouncePrimaryRequest) * Servers :=
  match cl !! self with
  | None => ([], cl)
  | Some h =>
      let '(live, cl) := poll_peers fuel dial (peers h) cl in
      match cl !! self with
      | None => ([], cl)
      | Some h =>
          let '(_, msgs, h) := decide_election now live h in
          (msgs, <[self := h]> cl)
      end
  end.

Definition heartbeatInterval : Z := 1000000000.
Definition heartbeatTimeout : Z := 3000000000.
Definition monitorPoll : Z := 500000000.
Definition startupGrace : Z := 6000000000.

(** Does the monitor's poll at [now] start an election? *)
Definition monitor_fires (now : Z) (h : Handler) : bool :=
  (negb (primary h) && (heartbeatTimeout <? now - lastHeartbeat h)%Z)%bool.

(** ** The goroutines of one server *)

Record Process := mkProcess {
  pr_handler : Handler;
  pr_senders : nat;       (* heartbeat senders running *)
  pr_monitor : bool;      (* the heartbeat monitor is running *)
}.

(** [NewHandler]'s end: the goroutine it starts. *)
Definition start_process (h : Handler) : Process :=
  if primary h then mkProcess h 1 false else mkProcess h 0 true.

Inductive event :=
  | EvHeartbeat (now : Z) (req : HeartbeatRequest)
  | EvAnnounce (req : AnnouncePrimaryRequest)
  | EvSenderTick
  | EvMonitorTick (now : Z) (live : list peerClient)
  | EvForget.                              (* [GetPrimary] dropping a dead primary *)

(** One step of the server's goroutines and handlers. *)
Definition process_step (ev : event) (p : Process) : Process :=
  let h := pr_handler p in
  match ev with
  | EvHeartbeat now req => mkProcess (Heartbeat now req h).2 (pr_senders p) (pr_monitor p)
  | EvAnnounce req => mkProcess (AnnouncePrimary req h) (pr_senders p) (pr_monitor p)
  | EvSenderTick =>
      if primary h then p else mkProcess h (pr_senders p - 1) (pr_monitor p)
  | EvMonitorTick now live =>
      if pr_monitor p then
        if primary h then mkProcess h (pr_senders p) false
        else if monitor_fires now h then
          let '(sender, _, h) := decide_election now live (resetHeartbeat now h) in
          if primary h then mkProcess h (if sender then S (pr_senders p) else pr_senders p) false
          else mkProcess (resetHeartbeat now h) (pr_senders p) true
        else p
      else p
  | EvForget => if primary h then p else mkProcess (set_known "" h) (pr_senders p) (pr_monitor p)
  end.

Inductive gstep : Process → Process → Prop :=
  | gstep_event ev p : gstep p (process_step ev p).
