(* ===== verification/ElectionProps.v ===== *)
(** * Properties of failure detection and election *)

From S2P Require Import Prelude Disk AfsProto Server Election.

(** ** The winner of an election *)

Lemma ltb_leb s t : String.ltb s t = negb (String.leb t s).
Proof.
  unfold String.ltb, String.leb. rewrite (String.compare_antisym s t).
  by destruct (String.compare t s).
Qed.

Lemma elect_spec live self :
  let w := elect self live in
  (w = self ∨ w ∈ (λ p, (peer_id p, peer_addr p)) <$> live) ∧
  String.le w.1 self.1 ∧ Forall (λ p, String.le w.1 (peer_id p)) live.
Proof.
  revert self. unfold elect. induction live as [|p live IH]; intros self; simpl.
  { split; [by left|]. by split. }
  destruct (IH (better self p)) as (Hin & Hle & Hall). unfold better in Hin, Hle at 2.
  unfold better in *. rewrite ltb_leb in *.
  destruct (String.leb self.1 (peer_id p)) eqn:Hp; simpl in *.
  - assert (String.le self.1 (peer_id p)) by (unfold String.le; by rewrite Hp).
    split; [destruct Hin as [->|?]; [by left|by right; right]|]. split; [done|].
    constructor; [by etrans|done].
  - assert (String.le (peer_id p) self.1).
    { destruct (String.leb_total self.1 (peer_id p)) as [E|E]; [by rewrite E in Hp|].
      unfold String.le. by rewrite E. }
    split; [right; destruct Hin as [->|?]; [by left|by right]|]. split; [by etrans|]. by constructor.
Qed.

(** The (id, address) pairs a server takes into account: itself and the peers
    it found alive. *)
Definition candidates (h : Handler) (live : list peerClient) : list (string * string) :=
  (serverID h, serverAddr h) :: ((λ p, (peer_id p, peer_addr p)) <$> live).

(** the winner is the candidate with the smallest id. *)
Theorem elect_smallest_id h live :
  let w := elect (serverID h, serverAddr h) live in
  w ∈ candidates h live ∧ Forall (λ c, String.le w.1 c.1) (candidates h live).
Proof.
  destruct (elect_spec live (serverID h, serverAddr h)) as (Hin & Hle & Hall).
  split; [by apply elem_of_cons|]. constructor; [done|]. by apply Forall_fmap.
Qed.

Lemma elect_unique h1 live1 h2 live2 :
  Permutation (candidates h1 live1) (candidates h2 live2) → NoDup (candidates h1 live1).*1 →
  elect (serverID h1, serverAddr h1) live1 = elect (serverID h2, serverAddr h2) live2.
Proof.
  intros Hp Hnd.
  assert (Hs : ∀ h live, let w := elect (serverID h, serverAddr h) live in
    w ∈ candidates h live ∧ Forall (λ c, String.le w.1 c.1) (candidates h live)).
  { intros h live. destruct (elect_spec live (serverID h, serverAddr h)) as (Hin & Hle & Hall).
    split; [by apply elem_of_cons|]. constructor; [done|]. by apply Forall_fmap. }
  destruct (Hs h1 live1) as [Hin1 Hle1], (Hs h2 live2) as [Hin2 Hle2].
  set (w1 := elect _ live1) in *. set (w2 := elect _ live2) in *. rewrite <- Hp in Hin2, Hle2.
  rewrite Forall_forall in Hle1, Hle2.
  assert (Heq : w1.1 = w2.1) by (apply (anti_symm String.le); auto).
  apply list_elem_of_lookup in Hin1 as [i Hi], Hin2 as [j Hj].
  assert (i = j) as ->; [|congruence].
  eapply NoDup_lookup; [exact Hnd|rewrite list_lookup_fmap, Hi; done|].
  rewrite list_lookup_fmap, Hj. simpl. by rewrite Heq.
Qed.

(** With distinct ids, an election makes the winner's address the known primary. *)
Lemma decide_election_role now live h :
  NoDup (candidates h live).*1 →
  let w := elect (serverID h, serverAddr h) live in let r := (decide_election now live h).2 in
  knownPrimaryAddr r = w.2 ∧ primary r = bool_decide (w.2 = serverAddr h) ∧ serverAddr r = serverAddr h.
Proof.
  intros Hnd w r. destruct (elect_spec live (serverID h, serverAddr h)) as (Hin & _). fold w in Hin.
  unfold r, decide_election. fold w. destruct w as [wid waddr]. simpl.
  assert (H : wid = serverID h → waddr = serverAddr h).
  { intros ->. destruct Hin as [[= ->]|Hin]; [done|]. apply NoDup_cons in Hnd as [Hn _].
    exfalso. apply Hn. by apply (list_elem_of_fmap_2 fst) in Hin. }
  case_decide as Hid; [|done]. rewrite (H Hid), bool_decide_eq_true_2 by done.
  unfold promoteToPrimary. by destruct (senderRunning _).
Qed.

(** C34: two servers that find the same servers alive, with distinct ids,
    decide for the same winner, so at most one of them is primary afterwards
    and both know its address. *)
Theorem election_agreement now h1 live1 h2 live2 :
  Permutation (candidates h1 live1) (candidates h2 live2) → NoDup (candidates h1 live1).*1 →
  serverAddr h1 ≠ serverAddr h2 →
  let r1 := (decide_election now live1 h1).2 in let r2 := (decide_election now live2 h2).2 in
  knownPrimaryAddr r1 = knownPrimaryAddr r2 ∧ ¬ (primary r1 = true ∧ primary r2 = true).
Proof.
  intros Hp Hnd Haddr. cbn zeta. pose proof (elect_unique _ _ _ _ Hp Hnd) as Hw.
  destruct (decide_election_role now live1 h1 Hnd) as (-> & -> & _).
  destruct (decide_election_role now live2 h2) as (-> & -> & _); [by rewrite <- Hp|].
  rewrite <- Hw. split; [done|]. intros [E1%bool_decide_eq_true E2%bool_decide_eq_true]. congruence.
Qed.

(** ** [GetPrimary] *)

(** Every server is reached under its own address. *)
Definition servers_wf (cl : Servers) : Prop := ∀ a h, cl !! a = Some h → serverAddr h = a ∧ a ≠ "".

(** What a call may change: addresses that are up stay up, and of a server only
    its belief about the primary changes, to "nobody". *)
Definition calls_keep (cl cl' : Servers) : Prop :=
  ∀ a, cl' !! a = cl !! a ∨ ∃ h, cl !! a = Some h ∧ primary h = false ∧ cl' !! a = Some (set_known "" h).

Lemma calls_keep_refl cl : calls_keep cl cl.
Proof. intros a. by left. Qed.
Lemma set_known_twice h : set_known "" (set_known "" h) = set_known "" h.
Proof. done. Qed.
Lemma calls_keep_trans cl1 cl2 cl3 : calls_keep cl1 cl2 → calls_keep cl2 cl3 → calls_keep cl1 cl3.
Proof.
  intros H1 H2 a. destruct (H2 a) as [->|(h & Hh & Hp & ->)]; [apply H1|].
  right. destruct (H1 a) as [E|(h0 & Hh0 & Hp0 & E)]; [exists h; by rewrite <- E|].
  exists h0. rewrite E in Hh. by injection Hh as <-.
Qed.
Lemma calls_keep_up cl cl' a : calls_keep cl cl' → is_Some (cl' !! a) ↔ is_Some (cl !! a).
Proof. intros H. destruct (H a) as [->|(h & -> & _ & ->)]; [done|]. by split. Qed.
Lemma calls_keep_wf cl cl' : calls_keep cl cl' → servers_wf cl → servers_wf cl'.
Proof.
  intros H Hwf a h Hh. destruct (H a) as [E|(h0 & E0 & _ & E)].
  - apply Hwf. by rewrite <- E.
  - rewrite E in Hh. injection Hh as <-. by apply (Hwf a h0).
Qed.
Lemma calls_keep_forget cl a h :
  cl !! a = Some h → primary h = false → calls_keep cl (alter (set_known "") a cl).
Proof.
  intros Hh Hp b. destruct (decide (a = b)) as [<-|Hne].
  - right. exists h. by rewrite lookup_alter_eq, Hh.
  - left. by rewrite lookup_alter_ne.
Qed.

(** The specification of a call, as far as the calls it makes satisfy it. *)
Definition call_sound (call : string → Servers → rpc * Servers) : Prop :=
  ∀ a cl, servers_wf cl → calls_keep cl (call a cl).2 ∧
    ∀ p, (call a cl).1 = Replied p → is_Some (cl !! a) ∧ (p = "" ∨ is_Some (cl !! p)).

Lemma ask_peers_sound call ps cl :
  call_sound call → servers_wf cl → calls_keep cl (ask_peers call ps cl).2 ∧
    ∀ p, (ask_peers call ps cl).1 = Replied p → p = "" ∨ is_Some (cl !! p).
Proof.
  intros Hcall. revert cl. induction ps as [|q ps IH]; intros cl Hwf; simpl.
  { split; [apply calls_keep_refl|]. intros p [= <-]. by left. }
  destruct (Hcall (peer_addr q) cl Hwf) as [Hk Hr].
  destruct (call (peer_addr q) cl) as [[addr| |] cl1]; simpl in Hk, Hr; [case_decide| |done].
  2: { split; [done|]. intros p [= <-]. by apply Hr. }
  all: destruct (IH cl1) as [Hk1 Hr1]; [by eapply calls_keep_wf|].
  all: split; [by eapply calls_keep_trans|]; intros p Hp; destruct (Hr1 p Hp) as [?|?]; [by left|right].
  all: by apply (calls_keep_up cl cl1).
Qed.

Lemma verify_known_sound call dial ps known cl :
  call_sound call → servers_wf cl → calls_keep cl (verify_known call dial ps known cl).2 ∧
    ((verify_known call dial ps known cl).1 = Some true → is_Some (cl !! known)).
Proof.
  intros Hcall Hwf. unfold verify_known.
  assert (Hfresh : ∀ cl, servers_wf cl →
    let r := if dial known then match call known cl with
      | (Replied _, cl) => (Some true, cl) | (Failed, cl) => (Some false, cl)
      | (Deadline, cl) => (None, cl) end else (Some false, cl) in
    calls_keep cl r.2 ∧ (r.1 = Some true → is_Some (cl !! known))).
  { intros cl0 Hwf0. destruct (dial known); [|split; [apply calls_keep_refl|done]].
    destruct (Hcall known cl0 Hwf0) as [Hk Hr].
    destruct (call known cl0) as [[addr| |] cl1]; simpl in *; split; try done.
    intros _. by apply (Hr addr). }
  case_decide; [|by apply Hfresh].
  destruct (Hcall known cl Hwf) as [Hk Hr].
  destruct (call known cl) as [[addr| |] cl1]; simpl in *; [|..|done].
  - split; [done|]. intros _. by apply (Hr addr).
  - destruct (Hfresh cl1) as [Hk1 Hr1]; [by eapply calls_keep_wf|].
    split; [by eapply calls_keep_trans|]. intros H1. by apply (calls_keep_up cl cl1), Hr1.
Qed.

Lemma GetPrimary_sound fuel dial : call_sound (GetPrimary fuel dial).
Proof.
  induction fuel as [|fuel IH]; intros a cl Hwf; simpl; destruct (cl !! a) as [h|] eqn:Ha;
    try (split; [apply calls_keep_refl|done]).
  destruct (primary h) eqn:Hprim.
  { split; [apply calls_keep_refl|]. intros p [= <-]. split; [done|]. right.
    destruct (Hwf a h Ha) as [-> _]. by rewrite Ha. }
  assert (Hask : ∀ cl1, calls_keep cl cl1 →
    let r := ask_peers (GetPrimary fuel dial) (peers h) cl1 in
    calls_keep cl r.2 ∧ ∀ p, r.1 = Replied p → is_Some (Some h) ∧ (p = "" ∨ is_Some (cl !! p))).
  { intros cl1 Hk1. destruct (ask_peers_sound _ (peers h) cl1 IH) as [Hk Hr]; [by eapply calls_keep_wf|].
    split; [by eapply calls_keep_trans|]. intros p Hp. split; [done|].
    destruct (Hr p Hp); [by left|right]. by apply (calls_keep_up cl cl1). }
  case_decide as Hkn; [by apply Hask, calls_keep_refl|].
  destruct (verify_known_sound _ dial (peers h) (knownPrimaryAddr h) cl IH Hwf) as [Hk Hr].
  destruct (verify_known _ _ _ _ _) as [[[]|] cl1]; simpl in *.
  - split; [done|]. intros p [= <-]. split; [done|]. right. by apply Hr.
  - apply Hask. destruct (Hk a) as [E|(h0 & E0 & Hp0 & E)].
    + eapply calls_keep_trans; [done|]. eapply (calls_keep_forget _ _ h); [by rewrite E|done].
    + eapply calls_keep_trans; [done|]. eapply calls_keep_forget; [exact E|done].
  - split; [done|]. done.
Qed.

(** an answer of [GetPrimary] names a server that is up (or nobody): a
    client or a recovering backup is never sent to a dead primary, and the call
    changes nothing but stale beliefs. *)
Theorem GetPrimary_names_live_server fuel dial self cl p cl' :
  servers_wf cl → GetPrimary fuel dial self cl = (Replied p, cl') →
  (p = "" ∨ is_Some (cl !! p)) ∧ calls_keep cl cl'.
Proof.
  intros Hwf E. destruct (GetPrimary_sound fuel dial self cl Hwf) as [Hk Hr].
  rewrite E in Hk, Hr. simpl in *. by destruct (Hr p eq_refl).
Qed.

(** ** When a primary is known, and when there is none *)

Lemma GetPrimary_primary fuel dial a cl h :
  cl !! a = Some h → primary h = true → GetPrimary (S fuel) dial a cl = (Replied (serverAddr h), cl).
Proof. intros Ha Hp. simpl. by rewrite Ha, Hp. Qed.

(** a server answers its own address when it is primary, and the address
    of the primary it knows when that one is up and primary, with one nested
    call and without any change. *)
Theorem GetPrimary_finds_primary fuel dial self cl h hp :
  servers_wf cl → cl !! self = Some h → cl !! knownPrimaryAddr h = Some hp → primary hp = true →
  (∀ a, dial a = true) → (primary h = true → knownPrimaryAddr h = serverAddr h) →
  GetPrimary (S (S fuel)) dial self cl = (Replied (knownPrimaryAddr h), cl).
Proof.
  intros Hwf Hh Hp Hprim Hdial Hrole. destruct (primary h) eqn:Eh.
  { rewrite (GetPrimary_primary _ _ _ _ _ Hh Eh). by rewrite (Hrole eq_refl). }
  remember (S fuel) as n. simpl. rewrite Hh, Eh. destruct (Hwf _ _ Hp) as [_ Hne].
  rewrite decide_False by done. unfold verify_known. rewrite Hdial. subst n.
  rewrite (GetPrimary_primary _ _ _ _ _ Hp Hprim). by case_decide.
Qed.

(** No server is primary, what the servers believe is dead, and each has a peer
    that is up: the situation after a primary died. *)
Definition leaderless (cl : Servers) : Prop :=
  ∀ a h, cl !! a = Some h →
    primary h = false ∧ cl !! knownPrimaryAddr h = None ∧
    ∃ p, p ∈ peers h ∧ is_Some (cl !! peer_addr p).

Lemma leaderless_keep cl cl' : calls_keep cl cl' → leaderless cl → servers_wf cl → leaderless cl'.
Proof.
  intros Hk Hl Hwf a h' Ha.
  assert (H0 : ∃ h, cl !! a = Some h ∧ (h' = h ∨ h' = set_known "" h)).
  { destruct (Hk a) as [E|(h & E & _ & E')]; [exists h'; rewrite <- E; auto|].
    exists h. rewrite E' in Ha. injection Ha as <-. auto. }
  destruct H0 as (h & Eh & Hh'). destruct (Hl a h Eh) as (Hp & Hkn & p & Hin & Hup).
  assert (Hdown : ∀ b, cl !! b = None → cl' !! b = None).
  { intros b Hb. destruct (Hk b) as [->|(h0 & E & _)]; [done|congruence]. }
  assert (Hempty : cl !! "" = None).
  { destruct (cl !! "") as [h0|] eqn:E0; [|done]. by destruct (Hwf _ _ E0). }
  assert (Hup' : is_Some (cl' !! peer_addr p)) by by apply (calls_keep_up cl).
  destruct Hh' as [->| ->]; split_and!; eauto.
Qed.

Lemma GetPrimary_down fuel dial a cl : cl !! a = None → GetPrimary fuel dial a cl = (Failed, cl).
Proof. intros Ha. destruct fuel; simpl; by rewrite Ha. Qed.

Lemma GetPrimary_leaderless_aux fuel dial a cl :
  servers_wf cl → leaderless cl → is_Some (cl !! a) →
  (GetPrimary fuel dial a cl).1 = Deadline.
Proof.
  revert a cl. induction fuel as [|fuel IH]; intros a cl Hwf Hl [h Ha]; simpl; rewrite Ha; [done|].
  destruct (Hl a h Ha) as (Hp & Hkn & Hpeer). rewrite Hp.
  assert (Hask : ∀ ps cl1, calls_keep cl cl1 → (∃ p, p ∈ ps ∧ is_Some (cl !! peer_addr p)) →
    (ask_peers (GetPrimary fuel dial) ps cl1).1 = Deadline).
  { induction ps as [|q ps IHps]; intros cl1 Hk1 (p & Hin & Hup); [by apply not_elem_of_nil in Hin|].
    simpl. destruct (cl !! peer_addr q) as [hq|] eqn:Hq.
    - assert (E : (GetPrimary fuel dial (peer_addr q) cl1).1 = Deadline).
      { apply IH; [by eapply calls_keep_wf|by eapply leaderless_keep|].
        apply (calls_keep_up cl); [done|]. by rewrite Hq. }
      destruct (GetPrimary fuel dial (peer_addr q) cl1) as [[| |] cl2]; done.
    - assert (Hq1 : cl1 !! peer_addr q = None).
      { destruct (cl1 !! peer_addr q) eqn:E; [|done].
        destruct (proj1 (calls_keep_up cl cl1 (peer_addr q) Hk1) ltac:(by eexists)). congruence. }
      rewrite GetPrimary_down by done. apply IHps; [done|]. exists p. split; [|done].
      apply elem_of_cons in Hin as [->|]; [|done]. rewrite Hq in Hup. by destruct Hup. }
  case_decide as Hk0; [by apply Hask; [apply calls_keep_refl|]|].
  unfold verify_known. rewrite !GetPrimary_down by done.
  assert (Hf : calls_keep cl (alter (set_known "") a cl)) by by eapply calls_keep_forget.
  repeat case_match; simplify_eq/=; by apply Hask.
Qed.

(** C33: when no server is primary and the servers that are up are each
    connected to one that is, [GetPrimary] on any of them does not answer within
    any number of nested calls: each server asks the next one until the caller's
    deadline passes. *)
Theorem GetPrimary_never_answers_without_primary fuel dial a cl :
  servers_wf cl → leaderless cl → is_Some (cl !! a) →
  (GetPrimary fuel dial a cl).1 = Deadline.
Proof. apply GetPrimary_leaderless_aux. Qed.

Lemma poll_peers_leaderless fuel dial ps cl :
  servers_wf cl → leaderless cl →
  (poll_peers fuel dial ps cl).1 = [] ∧ calls_keep cl (poll_peers fuel dial ps cl).2.
Proof.
  revert cl. induction ps as [|p ps IH]; intros cl Hwf Hl; simpl; [by split; [|apply calls_keep_refl]|].
  unfold isAlive. destruct (GetPrimary_sound fuel dial (peer_addr p) cl Hwf) as [Hk _].
  assert (Hno : ∀ addr, (GetPrimary fuel dial (peer_addr p) cl).1 ≠ Replied addr).
  { intros addr H. destruct (cl !! peer_addr p) eqn:E.
    - rewrite GetPrimary_leaderless_aux in H; [done..|by rewrite E].
    - by rewrite GetPrimary_down in H. }
  destruct (GetPrimary fuel dial (peer_addr p) cl) as [[addr| |] cl1]; simpl in *; [by destruct (Hno addr)|..].
  all: destruct (IH cl1) as [H1 H2]; [by eapply calls_keep_wf|by eapply leaderless_keep|].
  all: destruct (poll_peers fuel dial ps cl1) as [live cl2]; simpl in *; subst live.
  all: split; [done|]; by eapply calls_keep_trans.
Qed.

(** C32: after the primary died, every surviving server that polls its peers
    before one of them has promoted itself finds nobody alive, promotes itself
    and announces it to nobody: two servers that poll in the same interval both
    become primary. *)
Theorem simultaneous_elections_split_brain fuel dial now cl a b ha hb :
  servers_wf cl → leaderless cl → cl !! a = Some ha → cl !! b = Some hb → a ≠ b →
  let live_a := (poll_peers fuel dial (peers ha) cl).1 in
  let cl1 := (poll_peers fuel dial (peers ha) cl).2 in
  let live_b := (poll_peers fuel dial (peers hb) cl1).1 in
  let ra := decide_election now live_a ha in
  let rb := decide_election now live_b hb in
  primary ra.2 = true ∧ primary rb.2 = true ∧ ra.1.2 = [] ∧ rb.1.2 = [].
Proof.
  intros Hwf Hl Ha Hb Hab. destruct (poll_peers_leaderless fuel dial (peers ha) cl Hwf Hl) as [H1 Hk1].
  destruct (poll_peers_leaderless fuel dial (peers hb) (poll_peers fuel dial (peers ha) cl).2) as [H2 _];
    [by eapply calls_keep_wf|by eapply leaderless_keep|].
  cbn zeta. rewrite H1, H2. unfold decide_election. simpl. rewrite !decide_True by done.
  unfold promoteToPrimary. by destruct (senderRunning _), (senderRunning _).
Qed.

(** ** The goroutines of one server *)

(** A server believes it is primary exactly when its own address is the known
    primary's; its peers have other addresses. *)
Definition role_ok (h : Handler) : Prop :=
  primary h = bool_decide (knownPrimaryAddr h = serverAddr h) ∧
  serverAddr h ≠ "" ∧ serverAddr h ∉ peer_addr <$> peers h.

Lemma list_find_peer ps id i p : list_find (λ p, peer_id p = id) ps = Some (i, p) → p ∈ ps.
Proof. intros (H & _)%list_find_Some. by eapply list_elem_of_lookup_2. Qed.

Lemma decide_election_role_ok now live h :
  role_ok h → role_ok (decide_election now live h).2.
Proof.
  intros (_ & Ha & Hp). unfold decide_election. destruct (elect _ _) as [wid waddr].
  case_decide; [|done]. unfold promoteToPrimary, role_ok.
  destruct (senderRunning _); simpl; by rewrite bool_decide_eq_true_2.
Qed.

Lemma process_step_role ev p :
  role_ok (pr_handler p) → role_ok (pr_handler (process_step ev p)).
Proof.
  destruct p as [h s m]. cbn [pr_handler]. intros Hr. pose proof Hr as (Hp & Hne & Hnin).
  destruct ev as [now req|req| |now live|]; cbn [process_step pr_handler pr_senders pr_monitor].
  - unfold Heartbeat, role_ok. simpl. destruct (primary h) eqn:E; simpl; [by rewrite E|].
    destruct (list_find _ _) as [[i q]|] eqn:Eq; simpl; rewrite E; [|done].
    split; [|done]. symmetry. apply bool_decide_eq_false_2. intros Hq.
    apply Hnin. rewrite <- Hq. by apply (list_elem_of_fmap_2 peer_addr), (list_find_peer _ _ _ _ Eq).
  - done.
  - by destruct (primary h).
  - destruct m, (primary h) eqn:E; simpl; try done.
    destruct (monitor_fires now h); [|done].
    pose proof (decide_election_role_ok now live (resetHeartbeat now h) Hr) as H1.
    destruct (decide_election _ _ _) as [[sender msgs] h']. simpl in *.
    by destruct (primary h').
  - destruct (primary h) eqn:E; [done|]. unfold role_ok. simpl. rewrite E. split; [|done]. symmetry.
    by apply bool_decide_eq_false_2.
Qed.

(** A server as [NewHandler] leaves it. *)
Definition initial (h : Handler) : Prop :=
  knownPrimaryAddr h = (if primary h then serverAddr h else "") ∧ senderRunning h = false ∧
  serverAddr h ≠ "" ∧ serverAddr h ∉ peer_addr <$> peers h.

Lemma initial_role_ok h : initial h → role_ok h.
Proof.
  intros (Hk & _ & Hne & Hnin). split; [|done]. rewrite Hk. destruct (primary h); symmetry.
  - by apply bool_decide_eq_true_2.
  - by apply bool_decide_eq_false_2.
Qed.

Lemma reachable_role p p' : rtc gstep p p' → role_ok (pr_handler p) → role_ok (pr_handler p').
Proof. induction 1 as [|p1 p2 p3 [ev] _ IH]; [done|]. intros. by apply IH, process_step_role. Qed.

(** in every state a server reaches from its start, by any interleaving of
    heartbeats, announcements, elections and [GetPrimary] calls, it takes itself
    for the primary exactly when the primary it would name is itself. *)
Theorem role_invariant h p :
  initial h → rtc gstep (start_process h) p →
  isPrimary (pr_handler p) = bool_decide (knownPrimaryAddr (pr_handler p) = serverAddr (pr_handler p)).
Proof.
  intros Hi Hs. apply reachable_role in Hs as [? _]; [done|].
  unfold start_process. destruct (primary h) eqn:E; simpl; by apply initial_role_ok.
Qed.

Inductive not_appointed (addr : string) : event → Prop :=
  | na_heartbeat now req : not_appointed addr (EvHeartbeat now req)
  | na_announce req : ar_PrimaryAddr req ≠ addr → not_appointed addr (EvAnnounce req)
  | na_sender : not_appointed addr EvSenderTick
  | na_monitor now live : not_appointed addr (EvMonitorTick now live)
  | na_forget : not_appointed addr EvForget.

Lemma decide_election_addr now live h : serverAddr (decide_election now live h).2 = serverAddr h.
Proof.
  unfold decide_election. destruct (elect _ _) as [wid waddr]. case_decide; [|done].
  unfold promoteToPrimary. by destruct (senderRunning _).
Qed.

(** A server without a monitor that is not primary (a demoted primary)
    watches nobody from then on: whatever happens it starts no election, and it
    never becomes primary again unless another server appoints it. *)
Theorem demoted_primary_stays_passive evs p :
  pr_monitor p = false → primary (pr_handler p) = false →
  Forall (not_appointed (serverAddr (pr_handler p))) evs →
  let p' := foldl (λ p ev, process_step ev p) p evs in
  pr_monitor p' = false ∧ primary (pr_handler p') = false ∧ pr_senders p' ≤ pr_senders p.
Proof.
  revert p. induction evs as [|ev evs IH]; intros p Hm Hp Hev; [done|].
  apply Forall_cons in Hev as [Hev Hevs]. simpl.
  assert (H1 : pr_monitor (process_step ev p) = false ∧ primary (pr_handler (process_step ev p)) = false ∧
    serverAddr (pr_handler (process_step ev p)) = serverAddr (pr_handler p) ∧
    pr_senders (process_step ev p) ≤ pr_senders p).
  { destruct p as [h s m]. simpl in *. subst m. destruct Hev as [now req|req Hne| |now live|]; simpl.
    - unfold Heartbeat. simpl. rewrite Hp. simpl. destruct (list_find _ _) as [[]|]; done.
    - split; [done|]. split; [by apply bool_decide_eq_false_2|]. done.
    - rewrite Hp. simpl. split_and!; try done. lia.
    - done.
    - by rewrite Hp. }
  destruct H1 as (H1 & H2 & H3 & H4). destruct (IH (process_step ev p) H1 H2) as (? & ? & ?); [by rewrite H3|].
  split_and!; try done. lia.
Qed.

(** a backup's monitor runs until the backup is primary: as long as a
    server that started as a backup has not become primary, it watches the
    primary and starts an election as soon as a poll finds no heartbeat for more
    than three seconds. *)
Theorem backup_keeps_watching h evs :
  primary h = false →
  (∀ evs', evs' `prefix_of` evs →
     primary (pr_handler (foldl (λ p ev, process_step ev p) (start_process h) evs')) = false) →
  let p := foldl (λ p ev, process_step ev p) (start_process h) evs in
  pr_monitor p = true ∧
  ∀ now, (now - lastHeartbeat (pr_handler p) > heartbeatTimeout)%Z → monitor_fires now (pr_handler p) = true.
Proof.
  intros Hb Hnever. cbn zeta.
  assert (Hm : pr_monitor (foldl (λ p ev, process_step ev p) (start_process h) evs) = true).
  { revert Hnever. induction evs as [|ev evs IH] using rev_ind; intros Hnever.
    { simpl. unfold start_process. by rewrite Hb. }
    assert (Hpre : evs `prefix_of` evs ++ [ev]) by by apply prefix_app_r.
    pose proof (Hnever evs Hpre) as H1. pose proof (Hnever (evs ++ [ev]) (reflexivity _)) as H2.
    rewrite foldl_app in *. simpl in *.
    rewrite <- IH; [|by intros evs' Hp; apply Hnever; etrans].
    specialize (IH ltac:(by intros evs' Hp; apply Hnever; etrans)).
    destruct (foldl _ _ evs) as [h1 s m]. simpl in *. subst m.
    destruct ev as [now req|req| |now live|]; simpl in *; try done; rewrite ?H1 in *; try done.
    revert H2. destruct (monitor_fires now h1); [|done].
    destruct (decide_election _ _ _) as [[sender msgs] h']. by destruct (primary h') eqn:E; simpl; rewrite ?E. }
  split; [done|]. intros now Hnow. unfold monitor_fires.
  rewrite (Hnever evs (reflexivity _)). simpl. apply Z.ltb_lt. lia.
Qed.

(** ** Witnesses: two servers [a:1] and [b:1] whose primary was [p:1] *)

Definition demo_server (id addr known : string) (prim : bool) (ps : list peerClient) : Handler :=
  mkHandler "in" "out" ∅ ∅ 0 ∅ id addr prim known ps 0 false empty_disk.
Definition peer_p := mkPeer "s1" "p:1" 0.
Definition peer_a := mkPeer "s2" "a:1" 0.
Definition peer_b := mkPeer "s3" "b:1" 0.
Definition server_a : Handler := demo_server "s2" "a:1" "p:1" false [peer_p; peer_b].
Definition server_b : Handler := demo_server "s3" "b:1" "p:1" false [peer_p; peer_a].
Definition server_p : Handler := demo_server "s1" "p:1" "p:1" true [peer_a; peer_b].
Definition dead_primary : Servers := <["a:1" := server_a]> (<["b:1" := server_b]> ∅).
Definition with_primary : Servers := <["p:1" := server_p]> dead_primary.
Definition dial_all (_ : string) : bool := true.

Lemma dead_primary_wf : servers_wf dead_primary.
Proof.
  intros a h; unfold dead_primary; intros [[<- <-]|[_ [[<- <-]|[_ H]]%lookup_insert_Some]]%lookup_insert_Some; [done..|].
  by rewrite lookup_empty in H.
Qed.

Lemma with_primary_wf : servers_wf with_primary.
Proof. intros a h; unfold with_primary; intros [[<- <-]|[_ H]]%lookup_insert_Some; [done|]. by apply dead_primary_wf. Qed.

Lemma dead_primary_leaderless : leaderless dead_primary.
Proof.
  intros a h; unfold dead_primary; intros [[<- <-]|[_ [[<- <-]|[_ H]]%lookup_insert_Some]]%lookup_insert_Some.
  - split; [done|]. split; [done|]. exists peer_b. split; [right; left|by eexists].
  - split; [done|]. split; [done|]. exists peer_a. split; [right; left|by eexists].
  - by rewrite lookup_empty in H.
Qed.

Lemma election_agreement_witness :
  let r1 := (decide_election 5 [peer_b] server_a).2 in let r2 := (decide_election 5 [peer_a] server_b).2 in
  knownPrimaryAddr r1 = knownPrimaryAddr r2 ∧ ¬ (primary r1 = true ∧ primary r2 = true).
Proof.
  apply (election_agreement 5 server_a [peer_b] server_b [peer_a]); [constructor| |done]. decide_now.
Defined.

Lemma GetPrimary_names_live_server_witness :
  ("p:1" = "" ∨ is_Some (with_primary !! "p:1")) ∧ calls_keep with_primary with_primary.
Proof.
  apply (GetPrimary_names_live_server 2 dial_all "a:1" with_primary "p:1" with_primary with_primary_wf).
  by vm_compute.
Defined.

Lemma GetPrimary_finds_primary_witness :
  GetPrimary 2 dial_all "a:1" with_primary = (Replied "p:1", with_primary).
Proof.
  by apply (GetPrimary_finds_primary 0 dial_all "a:1" with_primary server_a server_p with_primary_wf).
Defined.

Lemma GetPrimary_never_answers_without_primary_witness :
  (GetPrimary 7 dial_all "a:1" dead_primary).1 = Deadline.
Proof.
  by apply (GetPrimary_never_answers_without_primary 7 dial_all "a:1" dead_primary dead_primary_wf
    dead_primary_leaderless).
Defined.

Lemma simultaneous_elections_split_brain_witness :
  primary (decide_election 5 (poll_peers 7 dial_all (peers server_a) dead_primary).1 server_a).2 = true.
Proof.
  by apply (simultaneous_elections_split_brain 7 dial_all 5 dead_primary "a:1" "b:1" server_a server_b
    dead_primary_wf dead_primary_leaderless).
Defined.

Definition fresh_b : Handler := demo_server "s3" "b:1" "" false [peer_p; peer_a].

Lemma role_invariant_witness :
  ∃ p, rtc gstep (start_process fresh_b) p ∧
  isPrimary (pr_handler p) = bool_decide (knownPrimaryAddr (pr_handler p) = serverAddr (pr_handler p)).
Proof.
  assert (H : rtc gstep (start_process fresh_b)
    (process_step (EvMonitorTick 4000000000 []) (start_process fresh_b))) by (apply rtc_once; constructor).
  eexists. split; [exact H|].
  apply (role_invariant fresh_b); [|exact H].
  split; [done|]. split; [done|]. split; [done|]. decide_now.
Defined.

Lemma demoted_primary_stays_passive_witness :
  let p := mkProcess server_a 1 false in
  let p' := foldl (λ p ev, process_step ev p) p
    [EvSenderTick; EvMonitorTick 99000000000 []; EvForget; EvHeartbeat 3 (mkHeartbeatRequest "s1")] in
  pr_monitor p' = false ∧ primary (pr_handler p') = false ∧ pr_senders p' ≤ 1.
Proof.
  apply (demoted_primary_stays_passive _ (mkProcess server_a 1 false)); [done|done|].
  repeat constructor.
Defined.

Lemma backup_keeps_watching_witness :
  monitor_fires 3000000002
    (pr_handler (foldl (λ p ev, process_step ev p) (start_process fresh_b)
       [EvHeartbeat 1 (mkHeartbeatRequest "s1")])) = true.
Proof.
  apply (backup_keeps_watching fresh_b [EvHeartbeat 1 (mkHeartbeatRequest "s1")]); [done| |done].
  intros evs' Hp. destruct evs' as [|e [|e' evs']]; [done| |].
  - apply prefix_cons_inv_1 in Hp as ->. done.
  - apply prefix_cons_inv_2, prefix_nil_inv in Hp. done.
Defined.
