(* ===== verification/Cache.v ===== *)
(** * The client's cache: src/afsfs/pkg/afs/cache.go

    [cacheManager] keeps what was fetched (path to version) and the open files
    (client handle to local descriptor).  The descriptor is a pointer to an
    [os.File] in the source; here the entry owns it, and reading or writing
    through a handle stores the moved descriptor back. *)

From S2P Require Import Prelude GoLib Disk.

Record cacheEntry := mkCacheEntry { ce_localPath : string; cachedVersion : Z }.
Record openEntry := mkOpenEntry {
  localFd : Fd; dirty : bool; serverHandleID : Z; oe_path : string;
}.
Record cacheManager := mkCache {
  cacheDir : string;
  cached : gmap string cacheEntry;
  openFiles : gmap Z openEntry;
  cm_nextHandle : Z;
}.

Definition newCacheManager (flt : OsFaults) (dir : string) (d : Disk) : result cacheManager * Disk :=
  match os_MkdirAll flt d dir with
  | (Some e, d) => (Err e, d)
  | (None, d) => (Ok (mkCache dir ∅ ∅ 0), d)
  end.

Definition isCached (path : string) (cm : cacheManager) : option Z :=
  cachedVersion <$> cached cm !! path.

Definition localPath (path : string) (cm : cacheManager) : string := cacheDir cm +:+ "/" +:+ path.

Definition set_cached (m : gmap string cacheEntry) (cm : cacheManager) : cacheManager :=
  mkCache (cacheDir cm) m (openFiles cm) (cm_nextHandle cm).
Definition set_openFiles (m : gmap Z openEntry) (cm : cacheManager) : cacheManager :=
  mkCache (cacheDir cm) (cached cm) m (cm_nextHandle cm).

Definition storeCacheEntry (path : string) (version : Z) (cm : cacheManager) : cacheManager :=
  set_cached (<[path := mkCacheEntry (localPath path cm) version]> (cached cm)) cm.

Definition updateVersion (path : string) (version : Z) (cm : cacheManager) : cacheManager :=
  match cached cm !! path with
  | Some e => set_cached (<[path := mkCacheEntry (ce_localPath e) version]> (cached cm)) cm
  | None => cm
  end.

Definition deleteCacheEntry (path : string) (cm : cacheManager) : cacheManager :=
  set_cached (delete path (cached cm)) cm.

Definition openFile (path : string) (fd : Fd) (serverHandle : Z) (cm : cacheManager) : Z * cacheManager :=
  let id := i64 (cm_nextHandle cm + 1) in
  (id, mkCache (cacheDir cm) (cached cm) (<[id := mkOpenEntry fd false serverHandle path]> (openFiles cm)) id).

Definition getOpenEntry (handleID : Z) (cm : cacheManager) : option openEntry := openFiles cm !! handleID.

Definition set_fd (handleID : Z) (fd : Fd) (cm : cacheManager) : cacheManager :=
  match openFiles cm !! handleID with
  | Some e => set_openFiles (<[handleID := mkOpenEntry fd (dirty e) (serverHandleID e) (oe_path e)]> (openFiles cm)) cm
  | None => cm
  end.

Definition markDirty (handleID : Z) (cm : cacheManager) : cacheManager :=
  match openFiles cm !! handleID with
  | Some e => set_openFiles (<[handleID := mkOpenEntry (localFd e) true (serverHandleID e) (oe_path e)]> (openFiles cm)) cm
  | None => cm
  end.

Definition closeFile (handleID : Z) (cm : cacheManager) : option openEntry * cacheManager :=
  match openFiles cm !! handleID with
  | Some e => (Some e, set_openFiles (delete handleID (openFiles cm)) cm)
  | None => (None, cm)
  end.

(** ** Reading through a descriptor *)

Inductive read_result := ReadData (data : bytes) | ReadEOF | ReadErr (e : string).

(** [f.Read(buf)] with a buffer of [n] bytes. *)
Definition fd_Read (flt : OsFaults) (d : Disk) (fd : Fd) (n : nat) : read_result * Fd :=
  match read_fault flt (fd_path fd) with
  | Some (_, e) => (ReadErr e, fd)
  | None =>
      match take n (drop (fd_off fd) (content d (fd_ino fd))) with
      | [] => (if decide (n = 0) then ReadData [] else ReadEOF, fd)
      | data => (ReadData data, mkFd (fd_ino fd) (fd_off fd + length data) (fd_path fd) (fd_writable fd))
      end
  end.
