(* ===== verification/Client.v ===== *)
(** * The AFS client library: src/afsfs/pkg/afs/client.go

    The client reaches servers through the interface [AfsService]: one
    operation per RPC, addressed to a server, on a world [W] that the call may
    change.  A connection is the address it leads to; [None] is a connection
    that [reconnectToPrimary] closed and could not replace, on which every call
    fails.  [svc_sleep] is what happens in the world while the client waits. *)

From S2P Require Import Prelude GoLib GoText Disk AfsProto Server Cache.

(** The RPCs of the service as a client sees them; an [Err] is a failed call. *)
Class AfsService (W : Type) := {
  svc_GetPrimary : string → W → result string * W;
  svc_Heartbeat : string → HeartbeatRequest → W → result HeartbeatResponse * W;
  svc_Open : string → OpenRequest → W → result OpenResponse * W;
  svc_TestAuth : string → TestAuthRequest → W → result TestAuthResponse * W;
  svc_FetchFile : string → FetchFileRequest → W → result (recv_stream FetchFileResponse) * W;
  (* the messages sent, and whether the stream was closed or abandoned *)
  svc_StoreFile : string → list StoreFileRequest → error → W → result StoreFileResponse * W;
  svc_CreateFile : string → CreateFileRequest → W → result CreateFileResponse * W;
  svc_DeleteFile : string → DeleteFileRequest → W → result DeleteFileResponse * W;
  svc_CloseFile : string → CloseFileRequest → W → result CloseFileResponse * W;
  svc_dial : string → bool;
  svc_sleep : W → W;
}.

Record Client := mkClient {
  grpcConn : option string;
  cache : cacheManager;
  clientId : string;
  reqSeq : Z;
  serverAddrs : list string;
  primaryAddr : string;
  cdisk : Disk;
}.

Definition set_conn (conn : option string) (c : Client) : Client :=
  mkClient conn (cache c) (clientId c) (reqSeq c) (serverAddrs c) (primaryAddr c) (cdisk c).
Definition set_primary (addr : string) (c : Client) : Client :=
  mkClient (Some addr) (cache c) (clientId c) (reqSeq c) (serverAddrs c) addr (cdisk c).
Definition set_cache (cm : cacheManager) (c : Client) : Client :=
  mkClient (grpcConn c) cm (clientId c) (reqSeq c) (serverAddrs c) (primaryAddr c) (cdisk c).
Definition set_seq (seq : Z) (c : Client) : Client :=
  mkClient (grpcConn c) (cache c) (clientId c) seq (serverAddrs c) (primaryAddr c) (cdisk c).
Definition set_cdisk (d : Disk) (c : Client) : Client :=
  mkClient (grpcConn c) (cache c) (clientId c) (reqSeq c) (serverAddrs c) (primaryAddr c) d.

(** [CloseConn]: later calls on the connection fail. *)
Definition CloseConn (c : Client) : Client := set_conn None c.

Definition conn_closing : string := "rpc error: grpc: the client connection is closing".

Section Client.
  Context (flt : OsFaults) {W : Type} `{!AfsService W}.

(** ** Connecting *)

Fixpoint connect_loop (addrs : list string) (c : Client) (w : W) : bool * Client * W :=
  match addrs with
  | [] => (false, c, w)
  | addr :: addrs =>
      if svc_dial addr then
        match svc_GetPrimary addr w with
        | (Ok p, w) =>
            if decide (p = "") then connect_loop addrs c w
            else if svc_dial p then
              match svc_Heartbeat p (mkHeartbeatRequest "client") w with
              | (Ok _, w) => (true, set_primary p c, w)
              | (Err _, w) => connect_loop addrs c w
              end
            else connect_loop addrs c w
        | (Err _, w) => connect_loop addrs c w
        end
      else connect_loop addrs c w
  end.

Definition connectToPrimary (c : Client) (w : W) : bool * Client * W :=
  connect_loop (serverAddrs c) c w.

(** The attempts of [reconnectToPrimary]; it sleeps before all but the first. *)
Fixpoint reconnect_loop (attempts : nat) (first : bool) (c : Client) (w : W) : bool * Client * W :=
  match attempts with
  | O => (false, c, w)
  | S attempts =>
      let w := if first then w else svc_sleep w in
      match connectToPrimary c w with
      | (true, c, w) => (true, c, w)
      | (false, c, w) => reconnect_loop attempts false c w
      end
  end.

Definition reconnectToPrimary (c : Client) (w : W) : bool * Client * W :=
  reconnect_loop 10 true (set_conn None c) w.

Definition NewClient (addrs : list string) (dir clientID : string) (d : Disk) (w : W)
    : result Client * Disk * W :=
  match addrs with
  | [] => (Err "need at least one server address", d, w)
  | _ =>
      match newCacheManager flt dir d with
      | (Err e, d) => (Err ("creating cache manager: " +:+ e), d, w)
      | (Ok cm, d) =>
          match connectToPrimary (mkClient None cm clientID 0 addrs "" d) w with
          | (true, c, w) => (Ok c, d, w)
          | (false, _, w) => (Err "finding primary: could not find primary", d, w)
          end
      end
  end.

(** ** Retrying *)

(** An RPC on the client's connection. *)
Definition on_conn {A} (call : string → W → result A * W) (c : Client) (w : W) : result A * W :=
  match grpcConn c with
  | Some addr => call addr w
  | None => (Err conn_closing, w)
  end.

Definition after_retries (n : string) (lastErr : string) : string :=
  "after " +:+ n +:+ " retries: " +:+ lastErr.

Fixpoint failover_loop {A} (attempts : nat) (first : bool) (lastErr : string)
    (fn : Client → W → result A * W) (getAppError : A → string) (c : Client) (w : W)
    : result A * Client * W :=
  match attempts with
  | O => (Err (after_retries "8" lastErr), c, w)
  | S attempts =>
      let w := if first then w else svc_sleep w in
      match fn c w with
      | (Err e, w) =>
          let '(_, c, w) := reconnectToPrimary c w in
          failover_loop attempts false e fn getAppError c w
      | (Ok r, w) =>
          if Contains (getAppError r) "not primary" then
            let '(_, c, w) := reconnectToPrimary c w in
            failover_loop attempts false ("not primary: " +:+ getAppError r) fn getAppError c w
          else (Ok r, c, w)
      end
  end.

Definition retryWithFailover {A} (fn : Client → W → result A * W) (getAppError : A → string)
    (c : Client) (w : W) : result A * Client * W := failover_loop 8 true "" fn getAppError c w.

Fixpoint retry_loop {A} (attempts : nat) (first : bool) (lastErr : string)
    (fn : Client → W → result A * W) (c : Client) (w : W) : result A * W :=
  match attempts with
  | O => (Err (after_retries "3" lastErr), w)
  | S attempts =>
      let w := if first then w else svc_sleep w in
      match fn c w with
      | (Ok r, w) => (Ok r, w)
      | (Err e, w) => retry_loop attempts false e fn c w
      end
  end.

Definition retryRPC {A} (fn : Client → W → result A * W) (c : Client) (w : W) : result A * W :=
  retry_loop 3 true "" fn c w.

(** [retryWithFailoverRaw]: [fn] may change the client's disk, and a variable
    [s] captured by the closure. *)
Fixpoint raw_loop {S} (attempts : nat) (first : bool) (lastErr : string)
    (fn : S → Client → W → error * S * Client * W) (s : S) (c : Client) (w : W)
    : error * S * Client * W :=
  match attempts with
  | O => (Some (after_retries "8" lastErr), s, c, w)
  | Datatypes.S attempts =>
      let '(c, w) :=
        if first then (c, w) else let '(_, c, w) := reconnectToPrimary c (svc_sleep w) in (c, w) in
      match fn s c w with
      | (None, s, c, w) => (None, s, c, w)
      | (Some e, s, c, w) => raw_loop attempts false e fn s c w
      end
  end.

Definition retryWithFailoverRaw {S} (fn : S → Client → W → error * S * Client * W)
    (s : S) (c : Client) (w : W) : error * S * Client * W := raw_loop 8 true "" fn s c w.

(** ** Opening a file *)

(** A directory can be opened but not read: the error comes at once here. *)
Definition openLocalFile (path : string) (write : bool) (d : Disk) : result Fd * Disk :=
  if write then os_OpenRW flt d path
  else match os_Open flt d path with
       | Ok (OpenFile fd) => (Ok fd, d)
       | Ok OpenDir => (Err ("read " +:+ path +:+ ": is a directory"), d)
       | Err e => (Err e, d)
       end.

(** [if len(chunk.Data) > 0 { f.Write(chunk.Data) }] *)
Definition fetch_write (d : Disk) (fd : Fd) (data : bytes) : result Fd * Disk :=
  match data with [] => (Ok fd, d) | _ => fd_Write flt d fd data end.

(** The receive loop of a fetch: the version seen last, and the new disk. *)
Fixpoint fetch_loop (chunks : list FetchFileResponse) (rend : error) (fd : Fd) (tmpPath : string)
    (fetchVersion : Z) (d : Disk) : error * Z * Disk :=
  match chunks with
  | [] =>
      match rend with
      | None => (None, fetchVersion, d)
      | Some e => (Some ("recv chunk: " +:+ e), fetchVersion, (os_Remove flt d tmpPath).2)
      end
  | chunk :: chunks =>
      if decide (fp_Error chunk ≠ "") then
        (Some ("server error: " +:+ fp_Error chunk), fetchVersion, (os_Remove flt d tmpPath).2)
      else
        match fetch_write d fd (fp_Data chunk) with
        | (Err e, d) => (Some ("write chunk: " +:+ e), fetchVersion, (os_Remove flt d tmpPath).2)
        | (Ok fd, d) =>
            let fetchVersion := if (fp_Version chunk >? 0)%Z then fp_Version chunk else fetchVersion in
            fetch_loop chunks rend fd tmpPath fetchVersion d
        end
  end.

Definition fetch_attempt (path : string) (fetchVersion : Z) (c : Client) (w : W)
    : error * Z * Client * W :=
  let local := localPath path (cache c) in
  match on_conn (λ a, svc_FetchFile a (mkFetchFileRequest path)) c w with
  | (Err e, w) => (Some ("FetchFile stream: " +:+ e), fetchVersion, c, w)
  | (Ok stream, w) =>
      let tmpPath := local +:+ ".tmp" in
      match os_Create flt (cdisk c) tmpPath with
      | (Err e, d) => (Some ("create tmp: " +:+ e), fetchVersion, set_cdisk d c, w)
      | (Ok fd, d) =>
          match fetch_loop (msgs stream) (recv_end stream) fd tmpPath fetchVersion d with
          | (Some e, v, d) => (Some e, v, set_cdisk d c, w)
          | (None, v, d) =>
              let '(e, d) := os_Rename flt d tmpPath local in (e, v, set_cdisk d c, w)
          end
      end
  end.

(** The end of [Open]: a descriptor and a client handle. *)
Definition open_local (context path : string) (write : bool) (serverHandle : Z) (c : Client)
    : result Z * Client :=
  match openLocalFile (localPath path (cache c)) write (cdisk c) with
  | (Err e, d) => (Err (context +:+ e), set_cdisk d c)
  | (Ok fd, d) =>
      let '(id, cm) := openFile path fd serverHandle (cache c) in
      (Ok id, set_cache cm (set_cdisk d c))
  end.

Definition fetch_and_open (path : string) (write : bool) (serverHandle : Z) (c : Client) (w : W)
    : result Z * Client * W :=
  match retryWithFailoverRaw (fetch_attempt path) 0%Z c w with
  | (Some e, _, c, w) => (Err ("FetchFile RPC failed: " +:+ e), c, w)
  | (None, fetchVersion, c, w) =>
      let c := set_cache (storeCacheEntry path fetchVersion (cache c)) c in
      let '(r, c) := open_local "opening local cache file: " path write serverHandle c in
      (r, c, w)
  end.

Definition client_Open (path : string) (write : bool) (c : Client) (w : W) : result Z * Client * W :=
  let seq := i64 (reqSeq c + 1) in
  let c := set_seq seq c in
  match retryWithFailover
          (λ c, on_conn (λ a, svc_Open a (mkOpenRequest path write (clientId c) seq)) c) op_Error c w with
  | (Err e, c, w) => (Err ("Open RPC failed: " +:+ e), c, w)
  | (Ok openResp, c, w) =>
      if decide (op_Error openResp ≠ "") then (Err ("Open RPC error: " +:+ op_Error openResp), c, w)
      else
        let serverHandle := op_FileHandleId openResp in
        match isCached path (cache c) with
        | Some cachedVersion =>
            match retryRPC (on_conn (λ a, svc_TestAuth a (mkTestAuthRequest path cachedVersion))) c w with
            | (Ok authResp, w) =>
                if tp_IsValid authResp then
                  let '(r, c) := open_local "opening local cache: " path write serverHandle c in (r, c, w)
                else fetch_and_open path write serverHandle c w
            | (Err _, w) => fetch_and_open path write serverHandle c w
            end
        | None => fetch_and_open path write serverHandle c w
        end
  end.

(** ** Reading and writing *)

Definition unknown_handle (handleID : Z) : string := "unknown handle: " +:+ fmt_d handleID.

Definition client_Read (handleID : Z) (n : nat) (c : Client) : read_result * Client :=
  match getOpenEntry handleID (cache c) with
  | None => (ReadErr (unknown_handle handleID), c)
  | Some entry =>
      let '(r, fd) := fd_Read flt (cdisk c) (localFd entry) n in
      let c := set_cache (set_fd handleID fd (cache c)) c in
      match r with
      | ReadErr e => (ReadErr ("reading local file: " +:+ e), c)
      | _ => (r, c)
      end
  end.

Definition client_Write (handleID : Z) (data : bytes) (c : Client) : result nat * Client :=
  match getOpenEntry handleID (cache c) with
  | None => (Err (unknown_handle handleID), c)
  | Some entry =>
      match fd_Write flt (cdisk c) (localFd entry) data with
      | (Err e, d) => (Err ("writing local file: " +:+ e), set_cdisk d c)
      | (Ok fd, d) =>
          (Ok (length data), set_cache (markDirty handleID (set_fd handleID fd (cache c))) (set_cdisk d c))
      end
  end.

(** ** Closing a file *)

(** The chunks of a store: the first one carries the request. *)
Definition store_chunk (path cid : string) (seq : Z) (first : bool) (data : bytes) : StoreFileRequest :=
  if first then mkStoreFileRequest path data cid seq else mkStoreFileRequest "" data "" 0.
Definition store_chunks (path cid : string) (seq : Z) (cs : list bytes) : list StoreFileRequest :=
  imap (λ i, store_chunk path cid seq (bool_decide (i = 0))) cs.

Definition store_attempt (path : string) (seq : Z) (storeVersion : Z) (c : Client) (w : W)
    : error * Z * Client * W :=
  match grpcConn c with
  | None => (Some ("StoreFile stream: " +:+ conn_closing), storeVersion, c, w)
  | Some addr =>
      match os_Open flt (cdisk c) (localPath path (cache c)) with
      | Err e =>
          let '(_, w) := svc_StoreFile addr [] (Some "context canceled") w in
          (Some ("open local cache: " +:+ e), storeVersion, c, w)
      | Ok f =>
          let '(cs, rd_err) := read_chunks flt chunkSize (cdisk c) f in
          let reqs := store_chunks path (clientId c) seq cs in
          match rd_err with
          | Some e =>
              let '(_, w) := svc_StoreFile addr reqs (Some "context canceled") w in
              (Some e, storeVersion, c, w)
          | None =>
              match svc_StoreFile addr reqs None w with
              | (Err e, w) => (Some ("CloseAndRecv: " +:+ e), storeVersion, c, w)
              | (Ok resp, w) =>
                  if Contains (sp_Error resp) "not primary" then
                    (Some ("not primary: " +:+ sp_Error resp), storeVersion, c, w)
                  else if decide (sp_Error resp ≠ "") then
                    (Some ("StoreFile error: " +:+ sp_Error resp), storeVersion, c, w)
                  else (None, sp_Version resp, c, w)
              end
          end
      end
  end.

(** The last call of [Close]: its errors are only logged. *)
Definition close_handle (serverHandle : Z) (c : Client) (w : W) : W :=
  (on_conn (λ a, svc_CloseFile a (mkCloseFileRequest serverHandle)) c w).2.

Definition client_Close (handleID : Z) (c : Client) (w : W) : error * Client * W :=
  match closeFile handleID (cache c) with
  | (None, _) => (Some (unknown_handle handleID), c, w)
  | (Some entry, cm) =>
      let c := set_cache cm c in
      if dirty entry then
        let seq := i64 (reqSeq c + 1) in
        let c := set_seq seq c in
        match retryWithFailoverRaw (store_attempt (oe_path entry) seq) 0%Z c w with
        | (Some e, _, c, w) => (Some ("StoreFile RPC failed: " +:+ e), c, w)
        | (None, storeVersion, c, w) =>
            let c := set_cache (updateVersion (oe_path entry) storeVersion (cache c)) c in
            (None, c, close_handle (serverHandleID entry) c w)
        end
      else (None, c, close_handle (serverHandleID entry) c w)
  end.

(** ** Creating and deleting *)

Definition client_CreateFile (path : string) (c : Client) (w : W) : result Z * Client * W :=
  let seq := i64 (reqSeq c + 1) in
  let c := set_seq seq c in
  match retryWithFailover
          (λ c, on_conn (λ a, svc_CreateFile a (mkCreateFileRequest path (clientId c) seq)) c) cp_Error c w with
  | (Err e, c, w) => (Err ("CreateFile RPC failed: " +:+ e), c, w)
  | (Ok resp, c, w) =>
      if decide (cp_Error resp ≠ "") then (Err ("CreateFile RPC error: " +:+ cp_Error resp), c, w)
      else
        match os_WriteFile_empty flt (cdisk c) (localPath path (cache c)) with
        | (Some e, d) => (Err ("creating local cache file: " +:+ e), set_cdisk d c, w)
        | (None, d) =>
            let c := set_cache (storeCacheEntry path 1 (cache c)) (set_cdisk d c) in
            let '(r, c) := open_local "opening local cache file: " path true (cp_FileHandleId resp) c in
            (r, c, w)
        end
  end.

Definition client_DeleteFile (path : string) (c : Client) (w : W) : error * Client * W :=
  let seq := i64 (reqSeq c + 1) in
  let c := set_seq seq c in
  match retryWithFailover
          (λ c, on_conn (λ a, svc_DeleteFile a (mkDeleteFileRequest path (clientId c) seq)) c) dp_Error c w with
  | (Err e, c, w) => (Some ("DeleteFile RPC failed: " +:+ e), c, w)
  | (Ok resp, c, w) =>
      if decide (dp_Error resp ≠ "") then (Some ("DeleteFile RPC error: " +:+ dp_Error resp), c, w)
      else
        let '(_, d) := os_Remove flt (cdisk c) (localPath path (cache c)) in
        (None, set_cache (deleteCacheEntry path (cache c)) (set_cdisk d c), w)
  end.

End Client.
