(* ===== verification/AfsSpec.v ===== *)
(** * What the client relies on: an abstract file service

    [AfsView] gives the abstract state of the service as a client sees it (the
    files of the output directory with their versions, which servers are
    ready, which sequence numbers are unused) and [AfsLaws] what its calls
    promise.  Client theorems are proved against these laws; AfsWorld.v
    discharges them for the handlers of Handler.v.  A service may also be
    watched: calls of the users [svc_user] that leave contents [svc_content]
    keep what [svc_past] says of its history (Moments.v). *)

From S2P Require Import Prelude Disk AfsProto Server Cache Client.

Class AfsView (W : Type) := {
  svc_ready : W → string → Prop;              (* the server at the address is primary and answers *)
  svc_unused : W → string → Z → Prop;         (* the client has used no number above this one *)
  svc_name : W → string → Prop;               (* a name of the output directory *)
  svc_known : W → string → Prop;              (* a name of either directory *)
  svc_file : W → string → option (bytes * Z); (* the file a name stands for, with its version *)
  svc_side : Type;
  svc_rest : W → svc_side;                    (* what is beside the service *)
  svc_past : W → Prop;                        (* what is known of its history *)
  svc_user : string → Prop;                   (* a client whose calls keep it *)
  svc_content : string → option bytes → Prop; (* what a call may leave under the name *)
}.

(** A service that nobody watches. *)
Class AfsUnwatched (W : Type) `{!AfsView W} := {
  any_past (w : W) : svc_past w;
  any_user c : svc_user (W := W) c;
  any_content p data : svc_content (W := W) p data;
}.

(** What every successful call of client [cid] with number [n + 1] keeps. *)
Record call_keeps {W} `{AfsView W} (cid : string) (n : Z) (w w' : W) : Prop := {
  keeps_ready a : svc_ready w a → svc_ready w' a;
  keeps_unused c k : svc_unused w c k → svc_unused w' c (if decide (c = cid) then Z.max k (n + 1) else k)%Z;
  keeps_name m : svc_name w m → svc_name w' m;
  keeps_known m : svc_known w m → svc_known w' m;
  keeps_rest : svc_rest w' = svc_rest w;
  keeps_past : svc_past w → svc_past w';
}.

(** The files after an operation on [p]. *)
Definition file_update {W} `{AfsView W} (p : string) (f : option (bytes * Z)) (w w' : W) : Prop :=
  ∀ m, svc_known w m → svc_file w' m = if decide (m = p) then f else svc_file w m.

Definition seq_ok (n : Z) : Prop := (0 ≤ n < 2 ^ 63 - 1)%Z.

(** What a call keeps that changes no file. *)
Definition call_reads {W} `{AfsView W} (w w' : W) : Prop :=
  (∀ b, svc_ready w b → svc_ready w' b) ∧ (∀ c k, svc_unused w c k → svc_unused w' c k) ∧
  (∀ m, svc_name w m → svc_name w' m) ∧
  (∀ m, svc_known w m → svc_known w' m ∧ svc_file w' m = svc_file w m) ∧ svc_rest w' = svc_rest w ∧
  (svc_past w → svc_past w').

#[export] Instance call_reads_preorder {W} `{AfsView W} : PreOrder (call_reads (W := W)).
Proof.
  split; [intros w; repeat (split; [done|]); done|].
  intros w1 w2 w3 (A1 & A2 & A3 & A4 & A5 & A6) (B1 & B2 & B3 & B4 & B5 & B6).
  split; [auto|]. split; [auto|]. split; [auto|]. split; [|split; [congruence|auto]]. intros m Hm.
  destruct (A4 m Hm) as [Hm2 <-]. by apply B4.
Qed.

(** The version a store gives: one more than the file had. *)
Definition next_version {W} `{AfsView W} (w : W) (p : string) (v : Z) : Prop :=
  ∀ data v0, svc_file w p = Some (data, v0) → v = i64 (v0 + 1).

(** What a client relies on, call by call. *)
Section Laws.
  Context (W : Type) `{!AfsService W, !AfsView W}.

Definition connect_law : Prop := ∀ w a,
  svc_ready w a → a ≠ "" ∧ svc_dial a = true ∧ (∃ w', svc_GetPrimary a w = (Ok a, w') ∧ call_reads w w') ∧
  ∃ r w', svc_Heartbeat a (mkHeartbeatRequest "client") w = (Ok r, w') ∧ call_reads w w'.
Definition open_law : Prop := ∀ w a cid n p write data v,
  svc_user (W := W) cid → svc_ready w a → svc_unused w cid n → seq_ok n → svc_known w p → svc_file w p = Some (data, v) →
  ∃ id w', svc_Open a (mkOpenRequest p write cid (n + 1)) w = (Ok (mkOpenResponse id ""), w') ∧
    call_keeps cid n w w' ∧ file_update p (Some (data, v)) w w'.
Definition open_missing_law : Prop := ∀ w a cid n p write,
  svc_ready w a → svc_unused w cid n → seq_ok n → svc_known w p → svc_file w p = None →
  ∃ w', svc_Open a (mkOpenRequest p write cid (n + 1)) w = (Ok (mkOpenResponse 0 ("file not found: " +:+ p)), w') ∧
    call_reads w w'.
Definition create_law : Prop := ∀ w a cid n p,
  svc_user (W := W) cid → svc_content (W := W) p (Some []) → svc_ready w a → svc_unused w cid n → seq_ok n → svc_name w p → svc_file w p = None →
  ∃ id w', svc_CreateFile a (mkCreateFileRequest p cid (n + 1)) w = (Ok (mkCreateFileResponse id ""), w') ∧
    call_keeps cid n w w' ∧ file_update p (Some ([], 1%Z)) w w'.
Definition delete_law : Prop := ∀ w a cid n p,
  svc_user (W := W) cid → svc_content (W := W) p None → svc_ready w a → svc_unused w cid n → seq_ok n → svc_name w p →
  ∃ w', svc_DeleteFile a (mkDeleteFileRequest p cid (n + 1)) w = (Ok (mkDeleteFileResponse ""), w') ∧
    call_keeps cid n w w' ∧ file_update p None w w'.
Definition store_law : Prop := ∀ w a cid n p c cs,
  svc_user (W := W) cid → svc_content (W := W) p (Some (concat (c :: cs))) → svc_ready w a → svc_unused w cid n → seq_ok n → svc_name w p →
  concat (c :: cs) ≠ [] →
  ∃ v w', svc_StoreFile a (store_chunks p cid (n + 1) (c :: cs)) None w = (Ok (mkStoreFileResponse v ""), w') ∧
    call_keeps cid n w w' ∧ file_update p (Some (concat (c :: cs), v)) w w' ∧ next_version w p v.
Definition store_empty_law : Prop := ∀ w a resp w',
  svc_StoreFile a [] None w = (Ok resp, w') → sp_Error resp ≠ "".
Definition fetch_law : Prop := ∀ w a p data v,
  svc_ready w a → svc_known w p → svc_file w p = Some (data, v) →
  ∃ ms w', svc_FetchFile a (mkFetchFileRequest p) w = (Ok (mkRecv ms None), w') ∧ call_reads w w' ∧
    concat (fp_Data <$> ms) = data ∧ Forall (λ m, fp_Error m = "" ∧ fp_Version m = v) ms.
Definition testauth_law : Prop := ∀ w a p data v k,
  svc_ready w a → svc_known w p → svc_file w p = Some (data, v) →
  ∃ w', svc_TestAuth a (mkTestAuthRequest p k) w = (Ok (mkTestAuthResponse (v =? k)%Z v), w') ∧ call_reads w w'.
Definition close_law : Prop := ∀ w a id,
  svc_ready w a → call_reads w (svc_CloseFile a (mkCloseFileRequest id) w).2.

End Laws.

Class AfsLaws (W : Type) `{!AfsService W, !AfsView W} := {
  law_name_known w m : svc_name w m → svc_known w m;
  law_unused_mono w cid k k' : (k ≤ k')%Z → svc_unused w cid k → svc_unused w cid k';
  law_connect : connect_law W;
  law_open : open_law W;
  law_open_missing : open_missing_law W;
  law_create : create_law W;
  law_delete : delete_law W;
  law_store : store_law W;
  law_store_empty : store_empty_law W;
  law_fetch : fetch_law W;
  law_testauth : testauth_law W;
  law_close : close_law W;
}.

(** What the calls of the client [cid] do to the rest of the world: only the
    files [ps] may change. *)
Record svc_effect {W} `{AfsView W} (cid : string) (ps : list string) (w w' : W) : Prop := {
  eff_ready b : svc_ready w b → svc_ready w' b;
  eff_unused c k : c ≠ cid → svc_unused w c k → svc_unused w' c k;
  eff_name m : svc_name w m → svc_name w' m;
  eff_known m : svc_known w m → svc_known w' m;
  eff_file m : svc_known w m → m ∉ ps → svc_file w' m = svc_file w m;
  eff_rest : svc_rest w' = svc_rest w;
  eff_past : svc_past w → svc_past w';
}.

#[export] Instance svc_effect_preorder {W} `{AfsView W} cid ps : PreOrder (svc_effect (W := W) cid ps).
Proof.
  split; [done|]. intros w1 w2 w3 [A1 A2 A3 A4 A5 A6 A7] [B1 B2 B3 B4 B5 B6 B7].
  split; [auto..| |congruence|auto]. intros m Hm Hp. rewrite B5; auto.
Qed.

Lemma svc_effect_mono {W} `{AfsView W} cid ps qs (w w' : W) :
  ps ⊆ qs → svc_effect cid ps w w' → svc_effect cid qs w w'.
Proof. intros Hsub [A1 A2 A3 A4 A5 A6 A7]. split; [done..| |done|done]. intros m Hm Hq. apply A5; [done|set_solver]. Qed.

Lemma call_reads_effect {W} `{AfsView W} cid (w w' : W) : call_reads w w' → svc_effect cid [] w w'.
Proof.
  intros (A1 & A2 & A3 & A4 & A5 & A6).
  split; [done|auto|done|by intros m Hm; apply A4|by intros m Hm _; apply A4|done|done].
Qed.

Lemma call_keeps_effect {W} `{AfsView W} cid n p f (w w' : W) :
  call_keeps cid n w w' → file_update p f w w' → svc_effect cid [p] w w'.
Proof.
  intros [A1 A2 A3 A4 A5 A6] Hu. split; [done| |done|done| |done|done].
  - intros c k Hc Hk. apply A2 in Hk. by rewrite decide_False in Hk.
  - intros m Hm Hp. rewrite (Hu m Hm). rewrite decide_False; [done|set_solver].
Qed.

Lemma call_keeps_read_effect {W} `{AfsView W} cid n p (w w' : W) :
  call_keeps cid n w w' → file_update p (svc_file w p) w w' → svc_effect cid [] w w'.
Proof.
  intros Hk Hu. destruct (call_keeps_effect _ _ _ _ _ _ Hk Hu) as [B1 B2 B3 B4 B5 B6 B7]. split; [done..| |done|done].
  intros m Hm _. rewrite (Hu m Hm). by case_decide; subst.
Qed.

Lemma call_reads_after {W} `{AfsView W} cid n p f (w w1 w2 : W) :
  call_keeps cid n w w1 → file_update p f w w1 → call_reads w1 w2 → call_keeps cid n w w2 ∧ file_update p f w w2.
Proof.
  intros [A1 A2 A3 A4 A5 A6] Hu (B1 & B2 & B3 & B4 & B5 & B6). split.
  - split; [auto..| | |auto]; [|congruence]. intros m Hm. by apply B4, A4.
  - intros m Hm. destruct (B4 m (A4 m Hm)) as [_ ->]. by apply Hu.
Qed.

(** What the calls of other clients keep: they have the ids [ids] and write the
    files [writes] only. *)
Record others_keep {W} `{!AfsView W} (ids writes : string → Prop) (w w' : W) : Prop := {
  ok_ready b : svc_ready w b → svc_ready w' b;
  ok_ids c k : ¬ ids c → svc_unused w c k → svc_unused w' c k;
  ok_names m : svc_name w m → svc_name w' m;
  ok_known m : svc_known w m → svc_known w' m;
  ok_files m : svc_known w m → ¬ writes m → svc_file w' m = svc_file w m;
  ok_history : svc_past w → svc_past w';
}.

#[export] Instance others_keep_preorder {W} `{!AfsView W} ids writes : PreOrder (others_keep (W := W) ids writes).
Proof.
  split; [done|]. intros w1 w2 w3 [A1 A2 A3 A4 A5 A6] [B1 B2 B3 B4 B5 B6]. split; [auto..| |auto].
  intros m Hm Hw. rewrite B5; auto.
Qed.

(** A call of one of the others. *)
Lemma call_others_keep {W} `{!AfsView W} (ids writes : string → Prop) cid n p f (w w' : W) :
  ids cid → writes p ∨ f = svc_file w p → call_keeps cid n w w' → file_update p f w w' →
  others_keep ids writes w w'.
Proof.
  intros Hid Hp [H1 H2 H3 H4 H5 H6] Hu. split; [done| |done|done| |done].
  - intros c k Hc Hk. apply H2 in Hk. by rewrite decide_False in Hk by (by intros ->).
  - intros m Hm Hw. rewrite (Hu m Hm). case_decide as Em; [|done]. subst m. destruct Hp as [Hp|Hp]; done.
Qed.

(** ** Clients that work *)

Section ClientSpec.
  Context {W : Type} `{!AfsService W, !AfsView W, !AfsLaws W}.

(** Connected to a ready primary, with the disk of the cache directory usable
    for the name [p]. *)
Record client_ok (c : Client) (w : W) : Prop := {
  ok_conn : ∃ a, grpcConn c = Some a ∧ svc_ready w a;
  ok_unused : svc_unused w (clientId c) (reqSeq c);
  ok_seq : seq_ok (reqSeq c);
  ok_cdisk : disk_wf (cdisk c);
  ok_user : svc_user (W := W) (clientId c);
  ok_past : svc_past w;
}.

(** What writing a whole file may leave: it deletes the file, creates it and
    stores its content. *)
Definition may_write (p : string) (data : bytes) : Prop :=
  svc_content (W := W) p None ∧ svc_content (W := W) p (Some []) ∧ svc_content (W := W) p (Some data).

Lemma may_write_any `{!AfsUnwatched W} p data : may_write p data.
Proof. split_and!; apply any_content. Qed.

(** Calls of other clients keep a client working. *)
Lemma client_ok_effect cid ps c (w w' : W) :
  svc_effect cid ps w w' → clientId c ≠ cid → client_ok c w → client_ok c w'.
Proof.
  intros He Hid [(a & Hc & Hr) Hu Hs Hwf Hus Hpast].
  split; [exists a; split; [done|by apply He]|by apply He|done..|by apply He].
Qed.

Lemma client_ok_reads c (w w' : W) : call_reads w w' → client_ok c w → client_ok c w'.
Proof.
  intros (A1 & A2 & A3 & A4 & A5 & A6) [(a & Hc & Hr) Hu Hs Hwf Hus Hpast].
  split; [exists a; split; [done|by apply A1]|by apply A2|done..|by apply A6].
Qed.

Lemma localPath_below p cm : below (cacheDir cm) (localPath p cm).
Proof. by exists p. Qed.

Definition local_free (c : Client) (p : string) : Prop :=
  names (cdisk c) !! localPath p (cache c) ≠ Some DDir ∧
  names (cdisk c) !! (localPath p (cache c) +:+ ".tmp") ≠ Some DDir.

(** A successful first attempt is the answer. *)
Lemma failover_first {A} (fn : Client → W → result A * W) app c w r w' :
  fn c w = (Ok r, w') → app r = "" → retryWithFailover fn app c w = (Ok r, c, w').
Proof.
  intros E Ha. unfold retryWithFailover. cbn [failover_loop]. rewrite E, Ha. done.
Qed.

Lemma raw_first {S} (fn : S → Client → W → error * S * Client * W) s c w s' c' w' :
  fn s c w = (None, s', c', w') → retryWithFailoverRaw fn s c w = (None, s', c', w').
Proof. intros E. unfold retryWithFailoverRaw. cbn [raw_loop]. by rewrite E. Qed.

Lemma retry_first {A} (fn : Client → W → result A * W) c w r w' :
  fn c w = (Ok r, w') → retryRPC fn c w = (Ok r, w').
Proof. intros E. unfold retryRPC. cbn [retry_loop]. by rewrite E. Qed.

Lemma seq_next n : seq_ok n → i64 (n + 1) = (n + 1)%Z.
Proof. intros [? ?]. apply i64_small. lia. Qed.

(** ** The client's disk *)

Lemma os_OpenRW_file d p data :
  read_file d p = Some data →
  ∃ i, os_OpenRW no_faults d p = (Ok (mkFd i 0 p true), d) ∧ names d !! p = Some (DFile i) ∧ content d i = data.
Proof.
  unfold read_file, os_OpenRW. simpl. destruct (names d !! p) as [[i|]|]; try done. intros [= <-].
  by exists i.
Qed.

Lemma os_Open_ok d p data :
  read_file d p = Some data →
  ∃ i, os_Open no_faults d p = Ok (OpenFile (mkFd i 0 p false)) ∧ names d !! p = Some (DFile i) ∧ content d i = data.
Proof.
  unfold read_file, os_Open. simpl. destruct (names d !! p) as [[i|]|]; try done. intros [= <-].
  by exists i.
Qed.

Lemma write_at_empty data : write_at [] 0 data = data.
Proof. unfold write_at. simpl. destruct (length data); simpl; by rewrite ?drop_nil, ?app_nil_r. Qed.

(** ** Fetching *)

(** The version a fetch leaves in [fetchVersion]: an empty file has no message
    and leaves the old value. *)
Definition seen_version (ms : list FetchFileResponse) (ver v : Z) : Z :=
  match ms with [] => ver | _ => if (v >? 0)%Z then v else ver end.

Lemma fetch_write_ok d fd tmp got x :
  disk_wf d → writing d fd tmp got →
  ∃ fd1 d1, fetch_write no_faults d fd x = (Ok fd1, d1) ∧
    disk_wf d1 ∧ writing d1 fd1 tmp (got ++ x) ∧ names d1 = names d ∧ same_except tmp d d1.
Proof.
  intros Hwf Hw. destruct x as [|y l].
  - exists fd, d. rewrite app_nil_r. done.
  - pose proof Hw as (_ & _ & Hwr & _). destruct (fd_Write_ok d fd (y :: l) Hwr) as (fd1 & d1 & E).
    destruct (fd_Write_spec _ _ _ _ _ _ _ _ Hwf Hw E) as (Hwf1 & Hw1 & Hn1 & _).
    exists fd1, d1. split; [done|]. split; [done|]. split; [done|]. split; [done|].
    by eapply fd_Write_same.
Qed.

Lemma fetch_loop_ok ms fd tmp ver v d got :
  disk_wf d → writing d fd tmp got → Forall (λ m, fp_Error m = "" ∧ fp_Version m = v) ms →
  ∃ d' fd', fetch_loop no_faults ms None fd tmp ver d = (None, seen_version ms ver v, d') ∧ disk_wf d' ∧
    writing d' fd' tmp (got ++ concat (fp_Data <$> ms)) ∧ names d' = names d ∧ same_except tmp d d'.
Proof.
  revert fd ver d got. induction ms as [|m ms IH]; intros fd ver d got Hwf Hw Hms; simpl.
  { rewrite app_nil_r. by exists d, fd. }
  apply Forall_cons in Hms as [[He Hv] Hms]. rewrite decide_False by (rewrite He; naive_solver).
  destruct (fetch_write_ok d fd tmp got (fp_Data m) Hwf Hw) as (fd1 & d1 & -> & Hwf1 & Hw1 & Hn1 & Hs1).
  rewrite Hv.
  destruct (IH fd1 (if (v >? 0)%Z then v else ver) d1 _ Hwf1 Hw1 Hms)
    as (d2 & fd2 & -> & Hwf2 & Hw2 & Hn2 & Hs2).
  rewrite <- app_assoc in Hw2. exists d2, fd2. split.
  { do 2 f_equal. destruct ms; simpl; by destruct (v >? 0)%Z. }
  split; [done|]. split; [done|]. split; [by rewrite Hn2|]. by eapply same_except_trans.
Qed.

(** A fetch from a ready server puts the file's content into the cache. *)
Lemma fetch_attempt_ok c w a p data v ver :
  grpcConn c = Some a → svc_ready w a → svc_known w p → svc_file w p = Some (data, v) →
  disk_wf (cdisk c) → local_free c p →
  ∃ d ver' w', fetch_attempt no_faults p ver c w = (None, ver', set_cdisk d c, w') ∧ call_reads w w' ∧ disk_wf d ∧
    read_file d (localPath p (cache c)) = Some data ∧ kept_beside (cacheDir (cache c)) (cdisk c) d ∧
    (data ≠ [] → (0 < v)%Z → ver' = v).
Proof.
  intros Hc Hr Hname Hf Hwf [Hl Ht]. unfold fetch_attempt, on_conn. rewrite Hc.
  destruct (law_fetch w a p data v Hr Hname Hf) as (ms & w' & -> & Hk & Hdata & Hms). cbn [msgs recv_end].
  set (local := localPath p (cache c)) in *.
  destruct (os_Create_ok _ _ Ht) as (fd & d0 & Ec). rewrite Ec.
  destruct (os_Create_spec _ _ _ _ _ Hwf Ec) as (Hwf0 & Hw0 & _).
  pose proof (os_Create_same _ _ _ _ _ Hwf Ec) as Hs0.
  destruct (fetch_loop_ok ms fd _ ver v d0 [] Hwf0 Hw0 Hms) as (d1 & fd1 & -> & Hwf1 & Hw1 & Hn1 & Hs1).
  simpl in Hw1. rewrite Hdata in Hw1. destruct (os_Rename _ _ _ _) as [e d2] eqn:Er.
  assert (e = None) as ->.
  { change e with (e, d2).1. rewrite <- Er. destruct Hw1 as (Hn & _). eapply os_Rename_ok; [exact Hn|].
    rewrite Hn1. destruct (Hs0 local) as [_ ->]; [|done]. intros E. by destruct (tmp_ne local). }
  destruct (os_Rename_spec _ _ _ _ _ _ Hwf1 (tmp_ne local) Er) as [Hwf2 [_ Hr2]].
  exists d2, (seen_version ms ver v), w'. split; [done|]. split; [done|]. split; [done|]. split.
  - rewrite Hr2, decide_True by done. destruct Hw1 as (Hn' & _ & _ & _ & Hc').
    unfold read_file. by rewrite Hn', Hc'.
  - split.
    { pose proof (localPath_below p (cache c)) as Hb. fold local in Hb.
      pose proof (os_Create_kept no_faults (cdisk c) _ _ (below_tmp _ _ Hb)) as K1. rewrite Ec in K1.
      pose proof (os_Rename_kept no_faults d1 _ _ _ (below_tmp _ _ Hb) Hb) as K2. rewrite Er in K2.
      etrans; [exact K1|]. etrans; [|exact K2]. by apply kept_beside_names. }
    intros Hne Hv. destruct ms; [by rewrite <- Hdata in Hne|]. simpl.
    rewrite Z.gtb_ltb. destruct (Z.ltb_spec 0 v); [done|lia].
Qed.

(** ** Handles *)

(** The handle [id] of [c] is open on the file [p], whose local copy holds
    [data]; it is at the end of it. *)
Definition editing (c : Client) (id : Z) (p : string) (data : bytes) (dty : bool) : Prop :=
  ∃ e, openFiles (cache c) !! id = Some e ∧ oe_path e = p ∧ dirty e = dty ∧
    writing (cdisk c) (localFd e) (localPath p (cache c)) data ∧ is_Some (cached (cache c) !! p).

(** The handle [id] is open at the start of [data]. *)
Definition reading (c : Client) (id : Z) (p : string) (data : bytes) : Prop :=
  ∃ e, openFiles (cache c) !! id = Some e ∧ oe_path e = p ∧ dirty e = false ∧
    drop (fd_off (localFd e)) (content (cdisk c) (fd_ino (localFd e))) = data.

(** What the operations keep of a client. *)
Definition same_client (c c' : Client) : Prop :=
  (grpcConn c' = grpcConn c ∧ serverAddrs c' = serverAddrs c) ∧ clientId c' = clientId c ∧
  cacheDir (cache c') = cacheDir (cache c) ∧ kept_beside (cacheDir (cache c)) (cdisk c) (cdisk c').

#[export] Instance same_client_preorder : PreOrder same_client.
Proof.
  split; [intros c; by split|].
  intros c1 c2 c3 ([A1 A5] & A2 & A3 & A4) ([B1 B5] & B2 & B3 & B4).
  split; [split; congruence|]. split; [congruence|]. split; [congruence|]. rewrite A3 in B4. by etrans.
Qed.

Lemma same_client_free c c' p : same_client c c' → local_free c p → local_free c' p.
Proof.
  intros (_ & _ & Hd & [Hk _]) [Hl Ht]. unfold local_free, localPath in *. rewrite Hd.
  split; intros Hx; [apply Hl|apply Ht]; by apply Hk.
Qed.

Lemma client_CreateFile_ok c w p :
  client_ok c w → svc_name w p → svc_file w p = None → svc_content (W := W) p (Some []) → local_free c p →
  seq_ok (reqSeq c + 1) →
  ∃ id c' w', client_CreateFile no_faults p c w = (Ok id, c', w') ∧ client_ok c' w' ∧ same_client c c' ∧
    reqSeq c' = (reqSeq c + 1)%Z ∧ editing c' id p [] false ∧
    call_keeps (clientId c) (reqSeq c) w w' ∧ file_update p (Some ([], 1%Z)) w w'.
Proof.
  intros [(a & Hc & Hr) Hu Hs Hwf Hus Hpast] Hn Hf Hco [Hl _] Hs'. unfold client_CreateFile.
  rewrite seq_next by done.
  destruct (law_create w a (clientId c) (reqSeq c) p Hus Hco Hr Hu Hs Hn Hf) as (id & w' & E & Hk & Hup).
  rewrite (failover_first _ _ _ _ (mkCreateFileResponse id "") w') by
    (unfold on_conn; simpl; by rewrite ?Hc).
  cbn [cp_Error]. rewrite decide_False by naive_solver. unfold os_WriteFile_empty.
  cbn [cdisk cache set_seq]. destruct (os_Create_ok _ _ Hl) as (fd & d & Ec). rewrite Ec.
  destruct (os_Create_spec _ _ _ _ _ Hwf Ec) as (Hwf' & Hw & Hrd).
  unfold open_local, openLocalFile. cbn [cdisk cache set_seq set_cdisk set_cache].
  change (localPath p (storeCacheEntry p 1 (cache c))) with (localPath p (cache c)).
  assert (Hrl : read_file d (localPath p (cache c)) = Some []) by by rewrite Hrd, decide_True.
  destruct (os_OpenRW_file _ _ _ Hrl) as (i & -> & Hni & Hci).
  eexists _, _, _. split; [reflexivity|]. split.
  { split; simpl; [exists a; split; [done|by apply Hk]| |done..|by apply Hk].
    pose proof (keeps_unused _ _ _ _ Hk _ _ Hu) as Hu'. rewrite decide_True in Hu' by done.
    by rewrite Z.max_r in Hu' by lia. }
  split.
  { pose proof (os_Create_kept no_faults (cdisk c) _ _ (localPath_below p (cache c))) as K. rewrite Ec in K. done. }
  split; [done|]. split; [|done].
  eexists. simpl. rewrite lookup_insert_eq. split; [done|]. split; [done|]. split; [done|].
  split; [by split|]. rewrite lookup_insert_eq. by eexists.
Qed.

Lemma client_Write_ok c w id p data dty x :
  client_ok c w → editing c id p data dty →
  ∃ c', client_Write no_faults id x c = (Ok (length x), c') ∧ client_ok c' w ∧ same_client c c' ∧
    reqSeq c' = reqSeq c ∧ editing c' id p (data ++ x) true.
Proof.
  intros [Hc Hu Hs Hwf Hus Hpast] (e & He & Hp & Hd & Hw & Hca). unfold client_Write, getOpenEntry. rewrite He.
  pose proof Hw as (_ & _ & Hwr & _). destruct (fd_Write_ok (cdisk c) (localFd e) x Hwr) as (fd & d & E).
  destruct (fd_Write_spec _ _ _ _ _ _ _ _ Hwf Hw E) as (Hwf' & Hw' & _ & _). rewrite E.
  unfold set_fd, markDirty. rewrite He. simpl. rewrite lookup_insert_eq. simpl.
  eexists. split; [reflexivity|]. split; [by split|]. split.
  { pose proof (fd_Write_kept no_faults (cdisk c) (cacheDir (cache c)) (localFd e) x) as K. rewrite E in K. done. }
  split; [done|]. eexists. simpl. rewrite lookup_insert_eq. done.
Qed.

Lemma concat_chunks_data data : data ≠ [] →
  ∃ c cs, chunks chunkSize data = c :: cs ∧ concat (c :: cs) = data.
Proof.
  intros Hne. destruct (chunks chunkSize data) as [|c cs] eqn:E.
  - apply chunks_nil in E; [done|apply chunkSize_pos].
  - exists c, cs. by rewrite <- E, chunks_concat by apply chunkSize_pos.
Qed.

Lemma store_attempt_ok c w a p data ver n :
  grpcConn c = Some a → svc_ready w a → svc_name w p → svc_unused w (clientId c) n → seq_ok n →
  read_file (cdisk c) (localPath p (cache c)) = Some data → data ≠ [] →
  svc_user (W := W) (clientId c) → svc_content (W := W) p (Some data) →
  ∃ v w', store_attempt no_faults p (n + 1) ver c w = (None, v, c, w') ∧
    call_keeps (clientId c) n w w' ∧ file_update p (Some (data, v)) w w' ∧ next_version w p v.
Proof.
  intros Hc Hr Hn Hu Hs Hd Hne Hus Hco. unfold store_attempt. rewrite Hc.
  destruct (os_Open_ok _ _ _ Hd) as (i & -> & _ & Hci). unfold read_chunks. simpl.
  rewrite drop_0, Hci. destruct (concat_chunks_data data Hne) as (ch & chs & -> & Hcat).
  rewrite <- Hcat in Hco, Hne. destruct (law_store w a (clientId c) n p ch chs Hus Hco Hr Hu Hs Hn Hne) as (v & w' & -> & Hk & Hup & Hv).
  cbn [sp_Error sp_Version]. rewrite decide_False by naive_solver. rewrite Hcat in Hup.
  by exists v, w'.
Qed.

Lemma client_Close_ok c w id p data :
  client_ok c w → svc_name w p → svc_content (W := W) p (Some data) → editing c id p data true → data ≠ [] →
  seq_ok (reqSeq c + 1) →
  ∃ v c' w', client_Close no_faults id c w = (None, c', w') ∧ client_ok c' w' ∧ same_client c c' ∧
    reqSeq c' = (reqSeq c + 1)%Z ∧ openFiles (cache c') !! id = None ∧
    svc_file w' p = Some (data, v) ∧ svc_effect (clientId c) [p] w w' ∧
    read_file (cdisk c') (localPath p (cache c')) = Some data ∧ next_version w p v.
Proof.
  intros [(a & Hc & Hr) Hu Hs Hwf Hus Hpast] Hn Hco (e & He & Hp & Hd & Hw & [ce Hca]) Hne Hs'.
  unfold client_Close, closeFile. rewrite He. cbv beta iota zeta. rewrite Hd, Hp.
  cbn [reqSeq set_cache]. rewrite seq_next by done.
  assert (Hrl : read_file (cdisk c) (localPath p (cache c)) = Some data).
  { destruct Hw as (Hn' & _ & _ & _ & Hc'). unfold read_file. by rewrite Hn', Hc'. }
  set (c1 := set_seq _ _).
  destruct (store_attempt_ok c1 w a p data 0 (reqSeq c)) as (v & w1 & E & Hk & Hup & Hv); try done.
  rewrite (raw_first _ _ _ _ _ _ _ E). unfold close_handle, on_conn. cbn [grpcConn set_cache c1 set_seq].
  rewrite Hc. destruct (law_close w1 a (serverHandleID e) (keeps_ready _ _ _ _ Hk a Hr)) as (Hk1 & Hk2 & Hk3 & Hk4 & Hk5 & Hk6).
  set (w2 := (svc_CloseFile _ _ w1).2) in *.
  exists v. eexists _, w2. split; [reflexivity|]. split.
  { split; simpl; [exists a; split; [done|by apply Hk1, Hk]| |done..|by apply Hk6, Hk].
    pose proof (keeps_unused _ _ _ _ Hk _ _ Hu) as Hu'. rewrite decide_True in Hu' by done.
    rewrite Z.max_r in Hu' by lia. by apply Hk2. }
  assert (He1 : svc_effect (clientId c) [p] w w1) by by eapply call_keeps_effect.
  assert (He2 : svc_effect (clientId c) [p] w1 w2).
  { eapply (svc_effect_mono _ []); [set_solver|]. apply call_reads_effect. by repeat (split; [done|]). }
  unfold updateVersion. cbn [cached set_openFiles cache set_cache c1 set_seq]. rewrite Hca.
  split; [done|]. split; [done|]. split; [simpl; by rewrite lookup_delete_eq|].
  pose proof (law_name_known w p Hn) as Hkn.
  split; [|split; [by etrans|done]].
  destruct (Hk4 p) as [_ ->]; [by apply Hk|]. by rewrite (Hup p Hkn), decide_True.
Qed.

(** What the client reads of a file: its copy, if that was cached under the
    version of the file and the server confirms it, or else the file. *)
Definition reader_sees (c : Client) (p : string) (data : bytes) (v : Z) : option bytes :=
  if decide (isCached p (cache c) = Some v) then read_file (cdisk c) (localPath p (cache c)) else Some data.

(** The client has a copy under the version [v]. *)
Definition holds_copy (c : Client) (p : string) (x : bytes) (v : Z) : Prop :=
  isCached p (cache c) = Some v ∧ read_file (cdisk c) (localPath p (cache c)) = Some x.

Lemma holds_copy_sees c p x v data : holds_copy c p x v → reader_sees c p data v = Some x.
Proof. intros [Hv Hx]. unfold reader_sees. by rewrite decide_True. Qed.

Lemma uncached_sees c p data v : isCached p (cache c) = None → reader_sees c p data v = Some data.
Proof. intros E. unfold reader_sees. by rewrite E, decide_False. Qed.

(** The cached copy of [p], if the server would confirm it, is the file. *)
Definition coherent (c : Client) (p : string) (data : bytes) (v : Z) : Prop :=
  ∀ e, cached (cache c) !! p = Some e → cachedVersion e = v →
    read_file (cdisk c) (localPath p (cache c)) = Some data.

Lemma coherent_sees c p data v : coherent c p data v → reader_sees c p data v = Some data.
Proof.
  intros Hco. unfold reader_sees. case_decide as Hv; [|done]. unfold isCached in Hv.
  apply fmap_Some in Hv as (e & He & ->). by apply (Hco e).
Qed.

Lemma open_local_ok context p sh c data :
  read_file (cdisk c) (localPath p (cache c)) = Some data →
  ∃ id c', open_local no_faults context p false sh c = (Ok id, c') ∧ cdisk c' = cdisk c ∧
    same_client c c' ∧ reqSeq c' = reqSeq c ∧ reading c' id p data ∧ cached (cache c') = cached (cache c).
Proof.
  intros Hd. unfold open_local, openLocalFile. destruct (os_Open_ok _ _ _ Hd) as (i & -> & _ & Hci).
  eexists _, _. split; [reflexivity|]. split; [done|]. split; [done|]. split; [done|]. split; [|done].
  eexists. simpl. rewrite lookup_insert_eq. split; [done|]. split; [done|]. split; [done|].
  simpl. by rewrite drop_0.
Qed.

(** The client [c] has opened the file [p] in the world [w]; it has [x] to read,
    and a copy of it. *)
Definition opens_file (c : Client) (w : W) (p : string) (data : bytes) (v : Z) (x : bytes) (id : Z) (c' : Client) (w' : W) : Prop :=
  client_ok c' w' ∧ same_client c c' ∧ reqSeq c' = (reqSeq c + 1)%Z ∧ reading c' id p x ∧
  call_keeps (clientId c) (reqSeq c) w w' ∧ file_update p (Some (data, v)) w w' ∧
  (∀ q, q ≠ p → cached (cache c') !! q = cached (cache c) !! q) ∧
  (data ≠ [] → (0 < v)%Z → holds_copy c' p x v).

(** After the answer to the first call. *)
Record open_answered (c : Client) (w : W) (a p : string) (data : bytes) (v : Z) (w' : W) : Prop := {
  oa_ok : client_ok (set_seq (reqSeq c + 1) c) w';
  oa_conn : grpcConn c = Some a;
  oa_ready : svc_ready w' a;
  oa_known : svc_known w' p;
  oa_file : svc_file w' p = Some (data, v);
  oa_keeps : call_keeps (clientId c) (reqSeq c) w w';
  oa_update : file_update p (Some (data, v)) w w';
}.

Lemma Open_answered c w a p data v w' :
  client_ok c w → grpcConn c = Some a → svc_ready w a → svc_known w p → seq_ok (reqSeq c + 1) →
  call_keeps (clientId c) (reqSeq c) w w' → file_update p (Some (data, v)) w w' → open_answered c w a p data v w'.
Proof.
  intros [_ Hu Hs Hwf Hus Hpast] Hc Hr Hn Hs' Hk Hup. split; [|done|by apply Hk|by apply Hk| |done|done].
  - split; [exists a; split; [done|by apply Hk]| |done..|by apply Hk].
    pose proof (keeps_unused _ _ _ _ Hk _ _ Hu) as Hu'. rewrite decide_True in Hu' by done. by rewrite Z.max_r in Hu' by lia.
  - rewrite (Hup p Hn). by apply decide_True.
Qed.

(** The content is in the cache, as it was or fetched: it is opened there. *)
Lemma opens_cached c w a p data v w' w2 context sh d cm x :
  open_answered c w a p data v w' → call_reads w' w2 → disk_wf d → kept_beside (cacheDir (cache c)) (cdisk c) d →
  cacheDir cm = cacheDir (cache c) → read_file d (localPath p cm) = Some x →
  (∀ q, q ≠ p → cached cm !! q = cached (cache c) !! q) → (data ≠ [] → (0 < v)%Z → isCached p cm = Some v) →
  ∃ id c', open_local no_faults context p false sh (set_cache cm (set_cdisk d (set_seq (reqSeq c + 1) c))) = (Ok id, c') ∧
    opens_file c w p data v x id c' w2.
Proof.
  intros [Hok Hc Hr Hn Hf Hk Hup] Hk2 Hwfd Hkd Hdir Hd Hcq Hver.
  destruct (call_reads_after _ _ _ _ _ _ _ Hk Hup Hk2) as [Hk' Hup'].
  destruct (open_local_ok context p sh (set_cache cm (set_cdisk d (set_seq (reqSeq c + 1) c))) x Hd)
    as (id & c' & E & Ed & ((Hg & Hg') & Hi & Hdir' & _) & Hq & Hrd & Hca).
  exists id, c'. split; [exact E|]. split; [|split; [|split; [done|split; [done|split; [done|split; [done|split; [by rewrite Hca|]]]]]]].
  - destruct Hok as [_ Hu Hs _ Hus Hp]. apply (client_ok_reads _ w'); [done|].
    split; [exists a; by rewrite Hg|by rewrite Hi, Hq|by rewrite Hq|by rewrite Ed|by rewrite Hi|done].
  - split; [by rewrite Hg, Hg'|]. split; [by rewrite Hi|]. split; [by rewrite Hdir'|by rewrite Ed].
  - intros Hne Hv. split; [unfold isCached; rewrite Hca; by apply Hver|]. unfold localPath. by rewrite Ed, Hdir'.
Qed.

Lemma opens_fetched c w a p data v w' w1 sh :
  open_answered c w a p data v w' → call_reads w' w1 → local_free c p →
  ∃ id c' w2, fetch_and_open no_faults p false sh (set_seq (reqSeq c + 1) c) w1 = (Ok id, c', w2) ∧ opens_file c w p data v data id c' w2.
Proof.
  intros Ha Hk1 Hl. pose proof Ha as [Hok Hc Hr Hn Hf _ _]. pose proof Hk1 as (B1 & _ & _ & B4 & _).
  destruct (B4 p Hn) as [Hn1 Hf1]. rewrite <- Hf1 in Hf. unfold fetch_and_open.
  destruct (fetch_attempt_ok (set_seq (reqSeq c + 1) c) w1 a p data v 0 Hc (B1 a Hr) Hn1 Hf (ok_cdisk _ _ Hok) Hl)
    as (d & ver & w2 & E1 & Hk2 & Hwfd & Hd & Hkd & Hver).
  rewrite (raw_first _ _ _ _ _ _ _ E1).
  destruct (opens_cached c w a p data v w' w2 "opening local cache file: " sh d (storeCacheEntry p ver (cache c)) data Ha)
    as (id & c' & Eo & H); [by etrans|done..| | |].
  - intros q Hq. simpl. by rewrite lookup_insert_ne.
  - intros Hne Hv. unfold isCached. simpl. rewrite lookup_insert_eq. simpl. f_equal. by apply Hver.
  - exists id, c', w2. split; [|exact H]. simpl. simpl in Eo. by rewrite Eo.
Qed.

(** Opening: the client has what it sees of the file. *)
Lemma client_Open_sees c w p data v x :
  client_ok c w → svc_known w p → svc_file w p = Some (data, v) → local_free c p →
  reader_sees c p data v = Some x → seq_ok (reqSeq c + 1) →
  ∃ id c' w', client_Open no_faults p false c w = (Ok id, c', w') ∧ opens_file c w p data v x id c' w'.
Proof.
  intros Hok Hn Hf Hl Hco Hs'. pose proof Hok as [(a & Hc & Hr) Hu Hs Hwf Hus Hpast]. unfold client_Open. rewrite seq_next by done.
  destruct (law_open w a (clientId c) (reqSeq c) p false data v Hus Hr Hu Hs Hn Hf) as (sh & w' & E & Hk & Hup).
  pose proof (Open_answered c w a p data v w' Hok Hc Hr Hn Hs' Hk Hup) as Ha.
  rewrite (failover_first _ _ _ _ (mkOpenResponse sh "") w') by (unfold on_conn; simpl; by rewrite ?Hc).
  cbn [op_Error op_FileHandleId]. rewrite decide_False by naive_solver. set (c1 := set_seq (reqSeq c + 1) c).
  unfold reader_sees in Hco. change (cache c) with (cache c1) in Hco.
  destruct (isCached p (cache c1)) as [k|] eqn:Hic;
    [|rewrite decide_False in Hco by done; injection Hco as <-; by apply (opens_fetched c w a p data v w' w')].
  destruct (law_testauth w' a p data v k (oa_ready _ _ _ _ _ _ _ Ha) (oa_known _ _ _ _ _ _ _ Ha) (oa_file _ _ _ _ _ _ _ Ha)) as (w1 & Et & Hk1).
  rewrite (retry_first _ _ _ (mkTestAuthResponse (v =? k)%Z v) w1) by (unfold on_conn; simpl; by rewrite Hc).
  cbn [tp_IsValid]. destruct (Z.eqb_spec v k) as [->|Hvk].
  2: { rewrite decide_False in Hco by congruence. injection Hco as <-. by apply (opens_fetched c w a p data v w' w1). }
  rewrite decide_True in Hco by done.
  destruct (opens_cached c w a p data k w' w1 "opening local cache: " sh (cdisk c) (cache c) x Ha Hk1 Hwf (reflexivity _) eq_refl
    Hco (λ q _, eq_refl) (λ _ _, Hic)) as (id & c' & Eo & H).
  change (set_cache (cache c) (set_cdisk (cdisk c) (set_seq (reqSeq c + 1) c))) with c1 in Eo.
  exists id, c', w1. split; [|exact H]. by rewrite Eo.
Qed.

Lemma client_Open_ok c w p data v :
  client_ok c w → svc_known w p → svc_file w p = Some (data, v) → local_free c p →
  coherent c p data v → seq_ok (reqSeq c + 1) →
  ∃ id c' w', client_Open no_faults p false c w = (Ok id, c', w') ∧ opens_file c w p data v data id c' w'.
Proof. intros Hok Hn Hf Hl Hco. apply client_Open_sees; [done..|by apply coherent_sees]. Qed.

(** Reading on from an offset. *)
Lemma client_Read_ok c w id p data n :
  client_ok c w → reading c id p data → (0 < n) →
  ∃ c', client_ok c' w ∧ same_client c c' ∧ reqSeq c' = reqSeq c ∧ reading c' id p (drop n data) ∧
    client_Read no_faults id n c = (match take n data with [] => ReadEOF | got => ReadData got end, c').
Proof.
  intros [Hc Hu Hs Hwf Hus Hpast] (e & He & Hp & Hd & Hdata) Hn. unfold client_Read, getOpenEntry. rewrite He.
  unfold fd_Read. simpl. rewrite Hdata.
  assert (Hset : ∀ fd, drop (fd_off fd) (content (cdisk c) (fd_ino fd)) = drop n data →
    reading (set_cache (set_fd id fd (cache c)) c) id p (drop n data)).
  { intros fd Hfd. unfold set_fd. rewrite He. eexists. simpl. rewrite lookup_insert_eq. done. }
  destruct (take n data) as [|x got] eqn:Et.
  - rewrite decide_False by lia. eexists. split; [|split; [|split; [|split; [|reflexivity]]]]; try done.
    + unfold set_fd. rewrite He. by split.
    + apply Hset. rewrite Hdata. destruct n, data; simpl in *; try done.
  - eexists. split; [|split; [|split; [|split; [|reflexivity]]]].
    + unfold set_fd. rewrite He. by split.
    + unfold set_fd. by rewrite He.
    + unfold set_fd. by rewrite He.
    + apply Hset. cbn [fd_off fd_ino]. change (S (length got)) with (length (x :: got)).
      rewrite <- drop_drop, Hdata, <- Et, length_take.
      destruct (decide (n ≤ length data)); [by rewrite Nat.min_l by lia|].
      by rewrite !drop_ge by lia.
Qed.

End ClientSpec.

Arguments may_write W {_} p data.
#[export] Hint Resolve may_write_any any_past any_user any_content : core.
