(* ===== verification/AfsWorld.v ===== *)
(** * One primary as the file service of its clients

    [World] is a server at an address with the network behind it;
    [world_service] dispatches the RPCs of [AfsService] to the handlers of
    Handler.v, and [world_laws] shows that a ready primary keeps the laws the
    client theorems rely on.  A handler that panics takes the server down. *)

From S2P Require Import Prelude GoLib GoText GoPath Disk AfsProto Server Handler HandlerSpec Service Cluster Sync SyncSpec Election Cache Client AfsSpec.

Record World (N : Type) := mkWorld {
  wd_addr : string; wd_flt : OsFaults; wd_up : bool; wd_now : Z; wd_srv : Handler; wd_net : N;
}.
Arguments mkWorld {N} _ _ _ _ _ _.
Arguments wd_addr {N} _.
Arguments wd_flt {N} _.
Arguments wd_up {N} _.
Arguments wd_now {N} _.
Arguments wd_srv {N} _.
Arguments wd_net {N} _.

Definition unavailable : string := "rpc error: connection refused".

Section World.
  Context {N : Type} `{!PeerNet N}.

Definition with_server (up : bool) (h : Handler) (net : N) (w : World N) : World N :=
  mkWorld (wd_addr w) (wd_flt w) up (wd_now w) h net.

(** A call reaches the server if it is up at that address. *)
Definition run {A} (addr : string) (o : outcome (A * Handler * N)) (w : World N) : result A * World N :=
  if (bool_decide (addr = wd_addr w) && wd_up w)%bool then
    match o with
    | Ret (r, h, net) => (Ok r, with_server true h net w)
    | _ => (Err "rpc error: transport is closing", with_server false (wd_srv w) (wd_net w) w)
    end
  else (Err unavailable, w).

Definition flatten {A} (x : result (result A) * World N) : result A * World N :=
  match x with (Ok r, w) => (r, w) | (Err e, w) => (Err e, w) end.

#[export] Instance world_service : AfsService (World N) := {
  svc_GetPrimary a w :=
    run a (Ret (if isPrimary (wd_srv w) then serverAddr (wd_srv w) else "", wd_srv w, wd_net w)) w;
  svc_Heartbeat a req w :=
    run a (let '(r, h) := Heartbeat (wd_now w) req (wd_srv w) in Ret (r, h, wd_net w)) w;
  svc_Open a req w := run a ('(r, h) ← Open (wd_flt w) req (wd_srv w); Ret (r, h, wd_net w)) w;
  svc_TestAuth a req w := run a (Ret (TestAuth (wd_flt w) req (wd_srv w), wd_srv w, wd_net w)) w;
  svc_FetchFile a req w :=
    run a (let '(e, s) := FetchFile (wd_flt w) req open_stream (wd_srv w) in
           Ret (mkRecv (sent s) e, wd_srv w, wd_net w)) w;
  svc_StoreFile a reqs err w :=
    flatten (run a (StoreFile (wd_flt w) (mkRecv reqs err) (wd_srv w) (wd_net w)) w);
  svc_CreateFile a req w := run a (CreateFile (wd_flt w) req (wd_srv w) (wd_net w)) w;
  svc_DeleteFile a req w := run a (DeleteFile (wd_flt w) req (wd_srv w) (wd_net w)) w;
  svc_CloseFile a req w := run a (let '(r, h) := CloseFile req (wd_srv w) in Ret (r, h, wd_net w)) w;
  svc_dial _ := true;
  svc_sleep w := w;
}.

(** Input and output files have different names. *)
Definition apart (h : Handler) : Prop :=
  ∀ b b', safe_name b → safe_name b' → PathJoin (inputDir h) b ≠ out_name h b'.

(** The input directory holds files only. *)
Definition inputs_ok (h : Handler) : Prop :=
  ∀ b, safe_name b → names (disk h) !! PathJoin (inputDir h) b ≠ Some DDir.

Definition world_ready (w : World N) (a : string) : Prop :=
  wd_addr w = a ∧ wd_up w = true ∧ wd_flt w = no_faults ∧ isPrimary (wd_srv w) = true ∧
  srv_ok (wd_srv w) ∧ apart (wd_srv w) ∧ inputs_ok (wd_srv w) ∧ serverAddr (wd_srv w) = a ∧ a ≠ "".

(** The path a name stands for: input files come first. *)
Definition rpath (h : Handler) (m : string) : string :=
  match names (disk h) !! PathJoin (inputDir h) m with
  | Some _ => PathJoin (inputDir h) m
  | None => out_name h m
  end.

#[export] Instance world_view : AfsView (World N) := {
  svc_ready := world_ready;
  svc_unused w cid n := ∀ seq, (n < seq)%Z → dedupTable (wd_srv w) !! dedupKey cid seq = None;
  svc_name w m := plain m ∧ names (disk (wd_srv w)) !! PathJoin (inputDir (wd_srv w)) m = None;
  svc_known w m := plain m;
  svc_file w m :=
    data ← read_file (disk (wd_srv w)) (rpath (wd_srv w) m);
    Some (data, version_of (wd_srv w) (rpath (wd_srv w) m));
  svc_side := unit;
  svc_rest _ := tt;
  svc_past _ := True;
  svc_user _ := True;
  svc_content _ _ := True;
}.

#[export] Instance world_unwatched : AfsUnwatched (World N).
Proof. done. Qed.

Lemma rpath_name (w : World N) p : svc_name w p → rpath (wd_srv w) p = out_name (wd_srv w) p.
Proof. intros [_ Hn]. unfold rpath. by rewrite Hn. Qed.

Lemma resolvePath_rpath h m :
  safe_name m → is_Some (read_file (disk h) (rpath h m)) → resolvePath no_faults h m = Ok (rpath h m).
Proof.
  intros Hm Hr. unfold resolvePath. rewrite (Base_safe m Hm). destruct Hm as (Hne & Hd & Hdd & Hsl).
  rewrite decide_False by naive_solver. unfold rpath in *. unfold os_Stat. simpl. fold (out_name h m).
  destruct (names (disk h) !! PathJoin (inputDir h) m) as [e|] eqn:Hi; [done|].
  destruct Hr as [d Hd']. unfold read_file in Hd'. by destruct (names (disk h) !! out_name h m).
Qed.

Lemma run_ready {A} a (w : World N) (r : A) h net :
  world_ready w a → run a (Ret (r, h, net)) w = (Ok r, with_server true h net w).
Proof. intros (<- & Hup & _). unfold run. by rewrite bool_decide_eq_true_2, Hup. Qed.

Lemma out_name_dot_tmp h b : safe_name b → out_name h b +:+ ".tmp" = out_name h (b +:+ ".tmp").
Proof.
  intros Hb. unfold out_name. rewrite !PathJoin_safe by (by apply safe_name_tmp || done).
  by rewrite string_app_assoc.
Qed.

(** ** What an operation on the output file [p] keeps *)

(** The handler after a successful operation of the client [cid] on the file
    [p]. *)
Record op_on (p cid : string) (n : Z) (h h' : Handler) : Prop := {
  op_wf : disk_wf (disk h');
  op_frame q : q ≠ out_name h p → q ≠ out_name h p +:+ ".tmp" →
    read_file (disk h') q = read_file (disk h) q ∧ names (disk h') !! q = names (disk h) !! q;
  op_p : names (disk h') !! out_name h p ≠ Some DDir;
  op_tmp : names (disk h') !! (out_name h p +:+ ".tmp") ≠ Some DDir;
  op_dirs : inputDir h' = inputDir h ∧ outputDir h' = outputDir h ∧ isPrimary h' = isPrimary h ∧
    serverAddr h' = serverAddr h;
  op_versions q : q ≠ out_name h p → versions h' !! q = versions h !! q;
  op_dedup k : k ≠ dedupKey cid (n + 1) → dedupTable h' !! k = dedupTable h !! k;
}.

(** Input files are not touched. *)
Lemma op_on_input p cid n (w : World N) h' a m :
  world_ready w a → safe_name p → safe_name m → op_on p cid n (wd_srv w) h' →
  let q := PathJoin (inputDir (wd_srv w)) m in
  q ≠ out_name (wd_srv w) p ∧
  read_file (disk h') q = read_file (disk (wd_srv w)) q ∧ names (disk h') !! q = names (disk (wd_srv w)) !! q.
Proof.
  intros (_ & _ & _ & _ & _ & Hapart & _) Hp Hm Hop q.
  assert (Hq : q ≠ out_name (wd_srv w) p) by by apply Hapart. split; [done|].
  apply (op_frame _ _ _ _ _ Hop); [done|]. rewrite out_name_dot_tmp by done.
  apply Hapart; [done|by apply safe_name_tmp].
Qed.

Lemma op_on_keeps p cid n (w : World N) h' net' a :
  world_ready w a → safe_name p → op_on p cid n (wd_srv w) h' →
  call_keeps cid n w (with_server true h' net' w).
Proof.
  intros Hready Hp Hop. pose proof (λ m Hm, op_on_input p cid n w h' a m Hready Hp Hm Hop) as Hin.
  destruct Hop as [Hwf Hfr Hnp Hnt (Hi & Ho & Hpr & Hsa) Hv Hd]. split; simpl.
  - intros b (Ha & Hup & Hf & Hprim & [Hwf0 Hdirs] & Hap & Hins & Hsrv & Hne).
    split; [done|]. split; [done|]. split; [done|].
    split; [simpl; by rewrite Hpr|]. split; [|split; [|split; [|simpl; by rewrite Hsa]]].
    + split; [done|]. intros b' Hb'. unfold out_name at 1. simpl. rewrite Ho.
      fold (out_name (wd_srv w) b').
      destruct (decide (out_name (wd_srv w) b' = out_name (wd_srv w) p)) as [->|H1]; [done|].
      destruct (decide (out_name (wd_srv w) b' = out_name (wd_srv w) p +:+ ".tmp")) as [->|H2]; [done|].
      destruct (Hfr _ H1 H2) as [_ ->]. by apply Hdirs.
    + intros b1 b2 Hb1 Hb2. unfold out_name. simpl. rewrite Hi, Ho. by apply Hap.
    + intros b' Hb'. simpl. rewrite Hi. destruct (Hin b' Hb') as (_ & _ & ->). by apply Hins.
  - intros c k Hk seq Hseq. rewrite Hd.
    + apply Hk. case_decide; lia.
    + intros E. apply dedupKey_inj_aux in E as [-> ->]. rewrite decide_True in Hseq by done. lia.
  - intros m [Hpl Hm]. split; [done|]. rewrite Hi. destruct (Hin m) as (_ & _ & ->); [apply Hpl|done].
  - done.
  - done.
  - done.
Qed.

(** The abstract files after it. *)
Lemma op_on_update p cid n (w : World N) h' net' a data v :
  world_ready w a → svc_name w p → op_on p cid n (wd_srv w) h' →
  read_file (disk h') (out_name (wd_srv w) p) = data →
  (is_Some data → versions h' !! out_name (wd_srv w) p = Some v) →
  file_update p (data ≫= λ d, Some (d, v)) w (with_server true h' net' w).
Proof.
  intros Hready Hname Hop Hdata Hver m Hpl. pose proof Hname as [[Hp _] Hnone].
  pose proof (op_on_input p cid n w h' a m Hready Hp (proj1 Hpl) Hop) as (Hq & Hrd & Hnm).
  destruct Hop as [Hwf Hfr Hnp Hnt (Hi & Ho & Hpr & _) Hv Hd]. simpl.
  assert (Hrp : rpath h' m = rpath (wd_srv w) m).
  { unfold rpath. rewrite Hi, Hnm. by rewrite (out_name_ext (wd_srv w) h') by done. }
  rewrite Hrp. unfold version_of. case_decide as Hm; [subst m|].
  - rewrite (rpath_name w p Hname), Hdata. destruct data as [d|]; simpl; [|done]. by rewrite Hver.
  - unfold rpath. destruct (names (disk (wd_srv w)) !! PathJoin (inputDir (wd_srv w)) m) as [e|].
    + rewrite Hrd. by rewrite Hv.
    + assert (H1 : out_name (wd_srv w) m ≠ out_name (wd_srv w) p).
      { intros E. apply Hm. by apply (out_name_inj (wd_srv w)); [apply Hpl|..]. }
      destruct (Hfr _ H1 (out_name_tmp _ _ _ Hpl Hp)) as [-> _]. by rewrite Hv.
Qed.

(** ** The operations *)

Section Ops.
  Context (w : World N) (a : string) (cid : string) (n : Z) (p : string).
  Context (Hready : world_ready w a) (Hunused : svc_unused w cid n) (Hseq : seq_ok n) (Hknown : svc_known w p).

Let h := wd_srv w.

Lemma world_facts : wd_flt w = no_faults ∧ isPrimary h = true ∧ srv_ok h ∧ wd_up w = true.
Proof. destruct Hready as (_ & Hup & Hf & Hp & Hok & _). done. Qed.
Lemma world_safe : safe_name p.
Proof. apply Hknown. Qed.
Lemma world_base : Base p = p.
Proof. apply Base_safe, world_safe. Qed.
Lemma world_fresh : dedupTable h !! dedupKey cid (n + 1) = None.
Proof. apply Hunused. lia. Qed.
Lemma world_out : outPath h p = out_name h p.
Proof. unfold outPath. by rewrite world_base. Qed.

(** A file that is there resolves to its path. *)
Lemma world_resolve data v :
  svc_file w p = Some (data, v) →
  read_file (disk h) (rpath h p) = Some data ∧ version_of h (rpath h p) = v ∧
  resolvePath no_faults h p = Ok (rpath h p).
Proof.
  clear cid n Hunused Hseq. intros Hf. simpl in Hf. fold h in Hf.
  destruct (read_file (disk h) (rpath h p)) as [d|] eqn:Hd; [|done]. injection Hf as -> Hv.
  split; [done|]. split; [done|]. apply resolvePath_rpath; [apply world_safe|by eexists].
Qed.

Lemma world_open write data v :
  svc_file w p = Some (data, v) →
  ∃ id w', svc_Open a (mkOpenRequest p write cid (n + 1)) w = (Ok (mkOpenResponse id ""), w') ∧
    call_keeps cid n w w' ∧ file_update p (Some (data, v)) w w'.
Proof.
  intros Hf. destruct (world_resolve data v Hf) as (Hd & _ & Hres).
  destruct world_facts as (Hflt & _ & Hok & _). cbn [svc_Open world_service]. rewrite Hflt. fold h.
  unfold Open. cbn [or_ClientId or_ReqSeq or_Path or_Write]. rewrite world_fresh, Hres.
  unfold os_Stat. simpl. unfold read_file in Hd. destruct (names (disk h) !! rpath h p) as [e|] eqn:Hn; [|done].
  go_step. rewrite (run_ready a w) by done. eexists _, _. split; [reflexivity|].
  assert (Hop : op_on p cid n h (set_dedup (<[dedupKey cid (n + 1) := DOpen (mkOpenResponse (i64 (nextHandle h + 1)) "")]> (dedupTable h))
     (set_handles (<[i64 (nextHandle h + 1) := mkFileHandle (rpath h p) write]> (handles h))
       (set_nextHandle (i64 (nextHandle h + 1)) h)))).
  { split; simpl; try done; [by apply Hok|by apply Hok, world_safe|by apply srv_ok_tmp; [|apply world_safe]|].
    intros k Hk. by rewrite lookup_insert_ne. }
  split; [by eapply op_on_keeps; [|apply world_safe|]|].
  intros m Hm. case_decide as Hmp; [subst m; exact Hf|done].
Qed.

Lemma world_open_missing write :
  svc_file w p = None →
  svc_Open a (mkOpenRequest p write cid (n + 1)) w = (Ok (mkOpenResponse 0 ("file not found: " +:+ p)), w).
Proof.
  intros Hf. destruct world_facts as (Hflt & _ & Hok & Hup). cbn [svc_Open world_service]. rewrite Hflt. fold h.
  assert (Hnone : names (disk h) !! PathJoin (inputDir h) p = None ∧ names (disk h) !! out_name h p = None).
  { pose proof (proj2 Hok p world_safe) as Ho. destruct Hready as (_ & _ & _ & _ & _ & _ & Hins & _).
    specialize (Hins p world_safe). simpl in Hf. fold h in Hf, Hins, Ho. unfold rpath, read_file in Hf.
    destruct (names (disk h) !! PathJoin (inputDir h) p) as [[i|]|] eqn:Hi; [|done|].
    - by rewrite Hi in Hf.
    - by destruct (names (disk h) !! out_name h p) as [[i|]|]. }
  destruct Hnone as [Hi Ho]. unfold Open. cbn [or_ClientId or_ReqSeq or_Path or_Write]. rewrite world_fresh.
  assert (Hres : resolvePath no_faults h p = Ok (PathJoin (inputDir h) p)).
  { unfold resolvePath. rewrite world_base. pose proof world_safe as (_ & Hd & Hdd & _).
    rewrite decide_False by naive_solver. unfold os_Stat. simpl. fold (out_name h p). by rewrite Hi, Ho. }
  rewrite Hres. unfold os_Stat. simpl. rewrite Hi. go_step. rewrite (run_ready a w) by done.
  f_equal. unfold with_server, h. rewrite <- Hup. by destruct w.
Qed.

Lemma world_fetch data v :
  svc_file w p = Some (data, v) →
  ∃ ms, svc_FetchFile a (mkFetchFileRequest p) w = (Ok (mkRecv ms None), w) ∧
    concat (fp_Data <$> ms) = data ∧ Forall (λ m, fp_Error m = "" ∧ fp_Version m = v) ms.
Proof.
  intros Hf. destruct (world_resolve data v Hf) as (Hd & Hv & Hres). clear cid n Hunused Hseq.
  destruct world_facts as (Hflt & _ & _ & Hup). cbn [svc_FetchFile world_service]. rewrite Hflt. fold h.
  destruct (FetchFile_ok (mkFetchFileRequest p) h _ _ Hres Hd) as (s & E & Hs). rewrite E.
  destruct (FetchFile_cases _ (mkFetchFileRequest p) _ _ _ _ _ _ Hres Hd E Hs) as (_ & Hfull & Hall).
  rewrite (run_ready a w) by done. exists (sent s). split.
  { unfold with_server, h. rewrite <- Hup. by destruct w. }
  split; [by apply Hfull|]. unfold error_free in Hs. rewrite Forall_forall in *. intros m Hm.
  split; [by apply Hs|]. destruct (Hall m Hm) as [-> _]. done.
Qed.

Lemma world_testauth data v k :
  svc_file w p = Some (data, v) →
  svc_TestAuth a (mkTestAuthRequest p k) w = (Ok (mkTestAuthResponse (v =? k)%Z v), w).
Proof.
  intros Hf. destruct (world_resolve data v Hf) as (_ & Hv & Hres). clear cid n Hunused Hseq.
  destruct world_facts as (Hflt & _ & _ & Hup). cbn [svc_TestAuth world_service].
  rewrite (run_ready a w) by done. unfold TestAuth. cbn [tr_Path tr_CachedVersion].
  rewrite Hflt. fold h. rewrite Hres, Hv. f_equal. unfold with_server, h. rewrite <- Hup. by destruct w.
Qed.

(** Operations on an output file. *)
Section Changes.
  Context (Hname : svc_name w p).

Lemma world_create :
  svc_file w p = None →
  ∃ id w', svc_CreateFile a (mkCreateFileRequest p cid (n + 1)) w = (Ok (mkCreateFileResponse id ""), w') ∧
    call_keeps cid n w w' ∧ file_update p (Some ([], 1%Z)) w w'.
Proof.
  intros Hf. simpl in Hf. rewrite (rpath_name w p Hname) in Hf. fold h in Hf. destruct world_facts as (Hflt & Hprim & Hok0 & _). pose proof Hok0 as [Hwf Hdirs].
  cbn [svc_CreateFile world_service]. rewrite Hflt. fold h.
  assert (Hnone : names (disk h) !! out_name h p = None).
  { pose proof (Hdirs p world_safe) as Hnd. fold h in Hnd. unfold read_file in Hf.
    destruct (names (disk h) !! out_name h p) as [[]|]; done. }
  destruct (CreateFile_cases no_faults (mkCreateFileRequest p cid (n + 1)) h (wd_net w) Hwf Hprim world_fresh)
    as (resp & h' & net' & E & Hwf' & Hs & Hcase).
  cbn [cr_Path] in *. rewrite world_out in *.
  rewrite E, (run_ready a w) by done.
  assert (Hstat : os_Stat no_faults (disk h) (out_name h p) = StatNotExist) by (unfold os_Stat; simpl; by rewrite Hnone).
  assert (Hok : cp_Error resp = "").
  { unfold CreateFile in E. rewrite Hprim in E. cbn [cr_ClientId cr_ReqSeq cr_Path] in E.
    rewrite world_fresh, world_out, Hstat in E.
    destruct (os_Create_ok (disk h) (out_name h p)) as (fd & d & Ec); [by rewrite Hnone|].
    rewrite Ec in E. by injection E as <- _ _. }
  destruct Hcase as [(_ & (-> & Hr & Eh) & _)|[? _]]; [|done].
  cbn [cr_ClientId cr_ReqSeq cr_Path] in *. rewrite world_out in *. eexists _, _. split; [reflexivity|].
  assert (Hop : op_on p cid n h h').
  { split.
    - done.
    - intros q Hq _. by apply Hs.
    - intros Hd. unfold read_file in Hr. by rewrite Hd in Hr.
    - destruct (Hs (out_name h p +:+ ".tmp") (tmp_ne _)) as [_ ->]. apply srv_ok_tmp; [done|apply world_safe].
    - by rewrite Eh.
    - intros q Hq. rewrite Eh. simpl. by rewrite lookup_insert_ne.
    - intros k Hk. rewrite Eh. simpl. by rewrite lookup_insert_ne. }
  split; [by eapply op_on_keeps; [|apply world_safe|]|].
  apply (op_on_update p cid n w h' net' a (Some []) 1); [done..|].
  intros _. rewrite Eh. simpl. by rewrite lookup_insert_eq.
Qed.

Lemma world_delete :
  ∃ w', svc_DeleteFile a (mkDeleteFileRequest p cid (n + 1)) w = (Ok (mkDeleteFileResponse ""), w') ∧
    call_keeps cid n w w' ∧ file_update p None w w'.
Proof.
  destruct world_facts as (Hflt & Hprim & Hok0 & _). pose proof Hok0 as [Hwf Hdirs].
  cbn [svc_DeleteFile world_service]. rewrite Hflt. fold h.
  destruct (DeleteFile_cases no_faults (mkDeleteFileRequest p cid (n + 1)) h (wd_net w) Hwf Hprim world_fresh)
    as (resp & h' & net' & E & Hwf' & Hs & Hcase).
  cbn [dr_Path] in *. rewrite world_out in *.
  rewrite E, (run_ready a w) by done.
  assert (Hok : dp_Error resp = "").
  { unfold DeleteFile in E. rewrite Hprim in E. cbn [dr_ClientId dr_ReqSeq dr_Path] in E.
    rewrite world_fresh, world_out in E. pose proof (Hdirs p world_safe) as Hnd. fold h in Hnd.
    unfold os_Remove in E. simpl in E.
    destruct (names (disk h) !! out_name h p) as [[i|]|]; [by injection E as <- _ _|done|by injection E as <- _ _]. }
  destruct Hcase as [((-> & Hr & Eh) & _)|[? _]]; [|done].
  cbn [dr_ClientId dr_ReqSeq dr_Path] in *. rewrite world_out in *. eexists. split; [reflexivity|].
  assert (Hop : op_on p cid n h h').
  { split.
    - done.
    - intros q Hq _. by apply Hs.
    - intros Hd. pose proof (os_Remove_dirs no_faults (disk h) (out_name h p)) as Hk.
      rewrite Eh in Hd. simpl in Hd.
      apply (Hdirs p world_safe). fold h. apply Hk.
      unfold DeleteFile in E. rewrite Hprim in E. cbn [dr_ClientId dr_ReqSeq dr_Path] in E.
      rewrite world_fresh, world_out in E.
      destruct (os_Remove no_faults (disk h) (out_name h p)) as [[| |e] d]; by simplify_eq/=.
    - destruct (Hs (out_name h p +:+ ".tmp") (tmp_ne _)) as [_ ->]. apply srv_ok_tmp; [done|apply world_safe].
    - by rewrite Eh.
    - intros q Hq. rewrite Eh. simpl. by rewrite lookup_delete_ne.
    - intros k Hk. rewrite Eh. simpl. by rewrite lookup_insert_ne. }
  split; [by eapply op_on_keeps; [|apply world_safe|]|].
  apply (op_on_update p cid n w h' net' a None 0); [done..|]. by intros [].
Qed.

Lemma world_store c cs :
  ∃ v w', svc_StoreFile a (store_chunks p cid (n + 1) (c :: cs)) None w = (Ok (mkStoreFileResponse v ""), w') ∧
    call_keeps cid n w w' ∧ file_update p (Some (concat (c :: cs), v)) w w' ∧ next_version w p v.
Proof.
  destruct world_facts as (Hflt & Hprim & Hok & _). pose proof Hok as [Hwf Hdirs].
  cbn [svc_StoreFile world_service]. rewrite Hflt. fold h.
  assert (Hreqs : ∃ rest, store_chunks p cid (n + 1) (c :: cs) = mkStoreFileRequest p c cid (n + 1) :: rest ∧
    sr_Data <$> (mkStoreFileRequest p c cid (n + 1) :: rest) = c :: cs).
  { unfold store_chunks. rewrite imap_cons. eexists. split; [reflexivity|]. simpl. f_equal.
    rewrite fmap_imap. etrans; [|apply list_fmap_id]. rewrite <- (imap_const id cs).
    apply imap_ext. intros i x _. done. }
  destruct Hreqs as (rest & -> & Hdata).
  set (c0 := mkStoreFileRequest p c cid (n + 1)) in *.
  destruct (StoreFile_ok c0 rest h (wd_net w) Hwf Hprim world_fresh) as (resp & h' & net' & E & He).
  { simpl. rewrite world_out. by apply Hdirs, world_safe. }
  { simpl. rewrite world_out. apply srv_ok_tmp; [done|apply world_safe]. }
  destruct (StoreFile_cases no_faults c0 rest None h (wd_net w) _ _ _ Hwf Hprim world_fresh E)
    as [[Hwf' Hfr] [(_ & [= ->] & (Hr & Ht & Eh) & _)|[? _]]]; [|done].
  cbn [sr_Path sr_ClientId sr_ReqSeq c0] in *. rewrite world_out in *.
  rewrite E, (run_ready a w) by done. eexists _, _. split; [reflexivity|].
  assert (Hop : op_on p cid n h h').
  { split.
    - done.
    - done.
    - intros Hd. unfold read_file in Hr. by rewrite Hd in Hr.
    - by rewrite Ht.
    - by rewrite Eh.
    - intros q Hq. rewrite Eh. simpl. by rewrite lookup_insert_ne.
    - intros k Hk. rewrite Eh. simpl. by rewrite lookup_insert_ne. }
  split; [by eapply op_on_keeps; [|apply world_safe|]|]. split; cycle 1.
  { intros d v0 Hf. destruct (world_resolve d v0 Hf) as (_ & Hv0 & _).
    unfold h in Hv0. rewrite (rpath_name w p Hname) in Hv0. by rewrite <- Hv0. }
  rewrite <- Hdata.
  apply (op_on_update p cid n w h' net' a (Some (concat (sr_Data <$> c0 :: rest)))); [done..|].
  intros _. rewrite Eh. simpl. by rewrite lookup_insert_eq.
Qed.

End Changes.
End Ops.

(** A store without messages fails, at a primary and elsewhere. *)
Lemma world_store_empty : store_empty_law (World N).
Proof.
  intros w a resp w'. cbn [svc_StoreFile world_service]. unfold run.
  destruct (_ && _)%bool; [|done]. unfold StoreFile. simpl.
  by destruct (isPrimary (wd_srv w)); simpl; intros [= <- _].
Qed.

Lemma world_close (w : World N) a id : call_reads w (svc_CloseFile a (mkCloseFileRequest id) w).2.
Proof.
  cbn [svc_CloseFile world_service]. unfold CloseFile. cbn [clr_FileHandleId].
  unfold run. destruct (bool_decide _ && _)%bool eqn:Eb; [|done].
  apply andb_true_iff in Eb as [_ Hup].
  destruct (handles (wd_srv w) !! id); simpl; (split; [|done]); intros b (Ha & _ & Hf & Hp & Hok & Hap); done.
Qed.

Lemma world_connect (w : World N) a :
  world_ready w a →
  a ≠ "" ∧ svc_dial (W := World N) a = true ∧ svc_GetPrimary a w = (Ok a, w) ∧
  ∃ r w', svc_Heartbeat a (mkHeartbeatRequest "client") w = (Ok r, w') ∧ call_reads w w'.
Proof.
  intros Hr. pose proof Hr as (_ & Hup & _ & Hp & _ & _ & _ & Hsa & Hne). split; [done|]. split; [done|].
  unfold isPrimary in Hp. split.
  - cbn [svc_GetPrimary world_service]. unfold isPrimary. rewrite Hp, Hsa. rewrite (run_ready a w) by done. f_equal.
    unfold with_server. rewrite <- Hup. by destruct w.
  - cbn [svc_Heartbeat world_service]. unfold Heartbeat.
    change (primary (set_lastHeartbeat (wd_now w) (wd_srv w))) with (primary (wd_srv w)).
    rewrite Hp, (run_ready a w) by done. eexists _, _. split; [reflexivity|].
    split; [|done]. intros b (Ha & _ & Hf & Hrest). done.
Qed.

(** A ready primary keeps the laws of the file service. *)
#[export] Instance world_laws : AfsLaws (World N).
Proof.
  split.
  - intros w m [Hm _]. done.
  - intros w cid k k' Hk Hu seq Hseq. apply Hu. lia.
  - intros w a Hr. destruct (world_connect w a Hr) as (H1 & H2 & H3 & H4). split; [done|]. split; [done|].
    split; [|done]. exists w. split; [done|reflexivity].
  - intros w a cid n p write data v _ Hr Hu _ Hn Hf. by eapply world_open.
  - intros w a cid n p write Hr Hu _ Hn Hf. exists w. split; [by apply world_open_missing|reflexivity].
  - intros w a cid n p _ _ Hr Hu _ Hn Hf. eapply world_create; [done|done|apply Hn|done|done].
  - intros w a cid n p _ _ Hr Hu _ Hn. eapply world_delete; [done|done|apply Hn|done].
  - intros w a cid n p c cs _ _ Hr Hu _ Hn _. eapply world_store; [done|done|apply Hn|done].
  - exact world_store_empty.
  - intros w a p data v Hr Hn Hf. destruct (world_fetch w a p Hr Hn data v Hf) as (ms & E & H).
    exists ms, w. split; [done|]. split; [reflexivity|done].
  - intros w a p data v k Hr Hn Hf. exists w. split; [by eapply world_testauth|reflexivity].
  - intros w a id _. apply world_close.
Qed.

End World.
