(* ===== verification/Json.v ===== *)
(** * [encoding/json]: what snapshot.go uses of it

    A JSON text as a tree ([json]), the encoder's compact output ([print]) with
    its string escapes, and a parser of the grammar ([parse]).  Numbers are kept
    as their literals, as the decoder does.  [parse_print] is the round trip for
    the texts the encoder produces from ASCII strings and integers. *)

From S2P Require Import Prelude GoLib GoText.

Inductive json :=
  | JNull
  | JBool (b : bool)
  | JNum (lit : bytes)
  | JStr (s : bytes)
  | JArr (l : list json)
  | JObj (l : list (bytes * json)).

Definition code (c : ascii) : N := Ascii.N_of_ascii c.
Definition quote : ascii := byte_of 34.
Definition backslash : ascii := byte_of 92.

(** ** UTF-8 *)

Definition in_range (lo hi : N) (c : ascii) : bool := ((lo <=? code c) && (code c <=? hi))%N%bool.
Definition is_cont : ascii → bool := in_range 128 191.

(** The length of the valid encoding at the front of a text ([0]: none), as
    [utf8.DecodeRune] accepts it. *)
Definition rune_len (l : bytes) : nat :=
  match l with
  | [] => 0
  | a :: l =>
      if (code a <? 128)%N then 1
      else match l with
      | [] => 0
      | b :: l =>
          if in_range 194 223 a then (if is_cont b then 2 else 0)
          else
            let second :=
              if (code a =? 224)%N then in_range 160 191 b
              else if (code a =? 237)%N then in_range 128 159 b
              else if in_range 225 239 a then is_cont b
              else if (code a =? 240)%N then in_range 144 191 b
              else if (code a =? 244)%N then in_range 128 143 b
              else if in_range 241 243 a then is_cont b
              else false in
            if second then
              match l with
              | [] => 0
              | c :: l =>
                  if is_cont c then
                    if in_range 224 239 a then 3
                    else match l with d :: _ => if is_cont d then 4 else 0 | [] => 0 end
                  else 0
              end
            else 0
      end
  end.

(** The encoding of a code point; surrogates become U+FFFD. *)
Definition utf8_encode (r : N) : bytes :=
  let r := if ((0xD800 <=? r) && (r <=? 0xDFFF) || (0x10FFFF <? r))%N%bool then 0xFFFD%N else r in
  let cont k := byte_of (128 + (N.shiftr r k) mod 64)%N in
  if (r <? 128)%N then [byte_of r]
  else if (r <? 2048)%N then [byte_of (192 + N.shiftr r 6)%N; cont 0%N]
  else if (r <? 65536)%N then [byte_of (224 + N.shiftr r 12)%N; cont 6%N; cont 0%N]
  else [byte_of (240 + N.shiftr r 18)%N; cont 12%N; cont 6%N; cont 0%N].

(** Bytes that are no UTF-8 become U+FFFD. *)
Fixpoint coerce_utf8 (fuel : nat) (l : bytes) : bytes :=
  match fuel, l with
  | S fuel, c :: l' =>
      match rune_len l with
      | O => utf8_encode 0xFFFD ++ coerce_utf8 fuel l'
      | n => take n l ++ coerce_utf8 fuel (drop n l)
      end
  | _, _ => []
  end.
Definition to_utf8 (l : bytes) : bytes := coerce_utf8 (length l) l.

(** ** Writing *)

Definition hex_digit (n : N) : ascii := byte_of (if (n <? 10)%N then 48 + n else 87 + n)%N.
Definition escape_u (n : N) : bytes :=
  [backslash; "u"%char; hex_digit (N.shiftr n 12 mod 16); hex_digit (N.shiftr n 8 mod 16);
   hex_digit (N.shiftr n 4 mod 16); hex_digit (n mod 16)].

(** One ASCII character of a string ([appendString] with HTML escapes). *)
Definition escape_ascii (c : ascii) : bytes :=
  let n := code c in
  if decide (c = backslash ∨ c = quote) then [backslash; c]
  else if (n =? 8)%N then [backslash; "b"%char]
  else if (n =? 12)%N then [backslash; "f"%char]
  else if (n =? 10)%N then [backslash; "n"%char]
  else if (n =? 13)%N then [backslash; "r"%char]
  else if (n =? 9)%N then [backslash; "t"%char]
  else if ((n <? 32) || (n =? 60) || (n =? 62) || (n =? 38))%N%bool then escape_u n
  else [c].

Fixpoint escape (fuel : nat) (l : bytes) : bytes :=
  match fuel, l with
  | S fuel, c :: l' =>
      if (code c <? 128)%N then escape_ascii c ++ escape fuel l'
      else match rune_len l with
      | O => escape_u 0xFFFD ++ escape fuel l'
      | n =>
          (if decide (take n l = utf8_encode 0x2028 ∨ take n l = utf8_encode 0x2029)
           then escape_u (if decide (take n l = utf8_encode 0x2028) then 0x2028 else 0x2029)
           else take n l) ++ escape fuel (drop n l)
      end
  | _, _ => []
  end.

Definition print_string (s : bytes) : bytes := quote :: escape (length s) s ++ [quote].

(** [e1,e2,...] *)
Fixpoint commas (ws : list bytes) : bytes :=
  match ws with
  | [] => []
  | [w] => w
  | w :: ws => w ++ ","%char :: commas ws
  end.

Fixpoint print (j : json) : bytes :=
  match j with
  | JNull => s2b "null"
  | JBool true => s2b "true"
  | JBool false => s2b "false"
  | JNum lit => lit
  | JStr s => print_string s
  | JArr l => "["%char :: commas (map print l) ++ ["]"%char]
  | JObj l => "{"%char :: commas (map (λ '(k, v), print_string k ++ ":"%char :: print v) l) ++ ["}"%char]
  end.

(** ** Reading *)

Definition is_space (c : ascii) : bool :=
  ((code c =? 32) || (code c =? 9) || (code c =? 10) || (code c =? 13))%N%bool.
Fixpoint skip_space (l : bytes) : bytes :=
  match l with c :: l' => if is_space c then skip_space l' else l | [] => [] end.

Definition hex_val (c : ascii) : option N :=
  if in_range 48 57 c then Some (code c - 48)%N
  else if in_range 97 102 c then Some (code c - 87)%N
  else if in_range 65 70 c then Some (code c - 55)%N
  else None.
Definition hex4 (a b c d : ascii) : option N :=
  x ← hex_val a; y ← hex_val b; z ← hex_val c; t ← hex_val d;
  Some (((x * 16 + y) * 16 + z) * 16 + t)%N.

Definition simple_escape (c : ascii) : option ascii :=
  if decide (c = quote ∨ c = backslash ∨ c = "/"%char) then Some c
  else if decide (c = "b"%char) then Some (byte_of 8)
  else if decide (c = "f"%char) then Some (byte_of 12)
  else if decide (c = "n"%char) then Some (byte_of 10)
  else if decide (c = "r"%char) then Some (byte_of 13)
  else if decide (c = "t"%char) then Some (byte_of 9)
  else None.

Definition is_high (r : N) : bool := ((0xD800 <=? r) && (r <? 0xDC00))%N%bool.
Definition is_low (r : N) : bool := ((0xDC00 <=? r) && (r <? 0xE000))%N%bool.
Definition join_surrogates (hi lo : N) : N := ((hi - 0xD800) * 1024 + (lo - 0xDC00) + 0x10000)%N.

(** The characters of a string up to its closing quote, and what follows; bytes
    above ASCII are taken as they are and checked by [to_utf8] at the end. *)
Fixpoint string_body (l : bytes) : option (bytes * bytes) :=
  match l with
  | [] => None
  | c :: l1 =>
      if decide (c = quote) then Some ([], l1)
      else if decide (c = backslash) then
        match l1 with
        | [] => None
        | e :: l2 =>
            if decide (e = "u"%char) then
              match l2 with
              | a :: b :: c :: d :: l3 =>
                  r ← hex4 a b c d;
                  if is_high r then
                    match l3 with
                    | bs :: u :: a' :: b' :: c' :: d' :: l4 =>
                        match (if decide (bs = backslash ∧ u = "u"%char) then hex4 a' b' c' d' else None) with
                        | Some r' =>
                            if is_low r' then
                              '(s, rest) ← string_body l4; Some (utf8_encode (join_surrogates r r') ++ s, rest)
                            else '(s, rest) ← string_body l3; Some (utf8_encode r ++ s, rest)
                        | None => '(s, rest) ← string_body l3; Some (utf8_encode r ++ s, rest)
                        end
                    | _ => '(s, rest) ← string_body l3; Some (utf8_encode r ++ s, rest)
                    end
                  else '(s, rest) ← string_body l3; Some (utf8_encode r ++ s, rest)
              | _ => None
              end
            else
              x ← simple_escape e; '(s, rest) ← string_body l2; Some (x :: s, rest)
        end
      else if (code c <? 32)%N then None
      else '(s, rest) ← string_body l1; Some (c :: s, rest)
  end.

Definition parse_string (l : bytes) : option (bytes * bytes) :=
  '(s, rest) ← string_body l; Some (to_utf8 s, rest).

(** Number literals: the longest run of number characters, checked against the
    grammar. *)
Definition number_char (c : ascii) : bool :=
  (in_range 48 57 c || bool_decide (c ∈ [("-"%char); ("+"%char); ("."%char); ("e"%char); ("E"%char)]))%bool.
Fixpoint span_number (l : bytes) : bytes * bytes :=
  match l with
  | c :: l' => if number_char c then let '(a, b) := span_number l' in (c :: a, b) else ([], l)
  | [] => ([], [])
  end.
Fixpoint skip_digits (l : bytes) : bytes :=
  match l with c :: l' => if in_range 48 57 c then skip_digits l' else l | [] => [] end.
(** At least one digit. *)
Definition digits1 (l : bytes) : option bytes :=
  match l with c :: l' => if in_range 48 57 c then Some (skip_digits l') else None | [] => None end.
Definition number_exp (l : bytes) : bool :=
  match l with
  | [] => true
  | c :: l =>
      if decide (c = "e"%char ∨ c = "E"%char) then
        let l := match l with c :: l' => if decide (c = "+"%char ∨ c = "-"%char) then l' else l | [] => l end in
        bool_decide (digits1 l = Some [])
      else false
  end.
Definition number_frac (l : bytes) : bool :=
  match l with
  | c :: l' => if decide (c = "."%char) then match digits1 l' with Some l'' => number_exp l'' | None => false end
               else number_exp l
  | [] => true
  end.
Definition valid_number (l : bytes) : bool :=
  let l := match l with c :: l' => if decide (c = "-"%char) then l' else l | [] => l end in
  match l with
  | [] => false
  | c :: l' =>
      if decide (c = "0"%char) then number_frac l'
      else match digits1 l with Some l'' => number_frac l'' | None => false end
  end.

Definition parse_number (l : bytes) : option (json * bytes) :=
  let '(lit, rest) := span_number l in
  if valid_number lit then Some (JNum lit, rest) else None.

(** [literal word]: [true], [false], [null]. *)
Definition parse_word (w : bytes) (j : json) (l : bytes) : option (json * bytes) :=
  if decide (take (length w) l = w) then Some (j, drop (length w) l) else None.

Section Parse.
  Context (value : bytes → option (json * bytes)).

(** After an element of an array: a comma and another, or the end. *)
Fixpoint parse_elems (fuel : nat) (l : bytes) : option (list json * bytes) :=
  match fuel with
  | O => None
  | S fuel =>
      '(j, l) ← value (skip_space l);
      match skip_space l with
      | c :: l =>
          if decide (c = ","%char) then '(js, l) ← parse_elems fuel l; Some (j :: js, l)
          else if decide (c = "]"%char) then Some ([j], l)
          else None
      | [] => None
      end
  end.

Fixpoint parse_members (fuel : nat) (l : bytes) : option (list (bytes * json) * bytes) :=
  match fuel with
  | O => None
  | S fuel =>
      match skip_space l with
      | q :: l =>
          if decide (q = quote) then
            '(k, l) ← parse_string l;
            match skip_space l with
            | c :: l =>
                if decide (c = ":"%char) then
                  '(j, l) ← value (skip_space l);
                  match skip_space l with
                  | c :: l =>
                      if decide (c = ","%char) then '(ms, l) ← parse_members fuel l; Some ((k, j) :: ms, l)
                      else if decide (c = "}"%char) then Some ([(k, j)], l)
                      else None
                  | [] => None
                  end
                else None
            | [] => None
            end
          else None
      | [] => None
      end
  end.
End Parse.

(** A value without leading space. *)
Fixpoint parse_value (fuel : nat) (l : bytes) : option (json * bytes) :=
  match fuel, l with
  | S fuel, c :: l' =>
      if decide (c = "{"%char) then
        match skip_space l' with
        | d :: rest =>
            if decide (d = "}"%char) then Some (JObj [], rest)
            else '(ms, rest) ← parse_members (parse_value fuel) (S (length l')) l'; Some (JObj ms, rest)
        | [] => None
        end
      else if decide (c = "["%char) then
        match skip_space l' with
        | d :: rest =>
            if decide (d = "]"%char) then Some (JArr [], rest)
            else '(js, rest) ← parse_elems (parse_value fuel) (S (length l')) l'; Some (JArr js, rest)
        | [] => None
        end
      else if decide (c = quote) then '(s, rest) ← parse_string l'; Some (JStr s, rest)
      else if decide (c = "t"%char) then parse_word (s2b "true") (JBool true) l
      else if decide (c = "f"%char) then parse_word (s2b "false") (JBool false) l
      else if decide (c = "n"%char) then parse_word (s2b "null") JNull l
      else parse_number l
  | _, _ => None
  end.

(** A whole text: one value and only space after it.  Every value takes at
    least one byte, so the length of the text is fuel enough. *)
Definition parse (l : bytes) : option json :=
  match parse_value (S (length l)) (skip_space l) with
  | Some (j, rest) => if decide (skip_space rest = []) then Some j else None
  | None => None
  end.


(** ** Round trip *)

Definition is_ascii (c : ascii) : Prop := (code c < 128)%N.
Definition ascii_text (s : bytes) : Prop := Forall is_ascii s.

Lemma escape_ascii_text s n : ascii_text s → length s ≤ n → escape n s = concat (map escape_ascii s).
Proof.
  intros Hs. revert n. induction Hs as [|c s Hc _ IH]; intros n Hn; [by destruct n|].
  destruct n as [|n]; simpl in *; [lia|]. unfold is_ascii in Hc. apply N.ltb_lt in Hc. rewrite Hc.
  by rewrite IH by lia.
Qed.

Lemma string_body_escape c l :
  is_ascii c → string_body (escape_ascii c ++ l) = '(s, rest) ← string_body l; Some (c :: s, rest).
Proof.
  unfold is_ascii. destruct c as [[] [] [] [] [] [] [] []]; intros Hc; try (by vm_compute in Hc); reflexivity.
Qed.

Lemma coerce_utf8_ascii s n : ascii_text s → length s ≤ n → coerce_utf8 n s = s.
Proof.
  intros Hs. revert n. induction Hs as [|c s Hc _ IH]; intros n Hn; [by destruct n|].
  destruct n as [|n]; simpl in *; [lia|]. unfold is_ascii in Hc. apply N.ltb_lt in Hc. rewrite Hc. simpl.
  rewrite ?take_0, ?drop_0. simpl. by rewrite IH by lia.
Qed.

Lemma string_body_text s l :
  ascii_text s → string_body (concat (map escape_ascii s) ++ quote :: l) = Some (s, l).
Proof.
  induction 1 as [|c s Hc _ IH]; [done|]. simpl. rewrite <- app_assoc, string_body_escape by done. by rewrite IH.
Qed.

Lemma parse_string_print s l :
  ascii_text s → parse_string (escape (length s) s ++ quote :: l) = Some (s, l).
Proof.
  intros Hs. unfold parse_string, to_utf8. rewrite escape_ascii_text, string_body_text by done. simpl.
  by rewrite coerce_utf8_ascii.
Qed.

(** A literal as the encoder writes a natural number. *)
Definition natural_lit (l : bytes) : Prop :=
  match l with
  | [] => False
  | c :: l' => is_digit c ∧ Forall is_digit l' ∧ (c = "0"%char → l' = [])
  end.

(** What may follow a number. *)
Definition ends_number (rest : bytes) : Prop :=
  match rest with [] => True | c :: _ => number_char c = false end.

Lemma digit_in_range c : is_digit c → in_range 48 57 c = true.
Proof.
  intros [d Hd]. unfold digit_val in Hd. destruct (_ && _)%bool eqn:E; [|done].
  apply andb_true_iff in E as [?%Z.leb_le ?%Z.leb_le]. unfold in_range, code. apply andb_true_iff.
  split; apply N.leb_le; lia.
Qed.

Lemma skip_digits_all l : Forall is_digit l → skip_digits l = [].
Proof. induction 1 as [|c l Hc _ IH]; simpl; [done|]. by rewrite (digit_in_range c Hc). Qed.

Lemma span_number_digits l rest :
  Forall is_digit l → ends_number rest → span_number (l ++ rest) = (l, rest).
Proof.
  intros Hl Hr. induction Hl as [|c l Hc _ IH]; simpl.
  - destruct rest as [|c rest]; [done|]. simpl in *. by rewrite Hr.
  - unfold number_char. by rewrite (digit_in_range c Hc), IH.
Qed.

Lemma parse_number_natural l rest :
  natural_lit l → ends_number rest → parse_number (l ++ rest) = Some (JNum l, rest).
Proof.
  destruct l as [|c l]; [done|]. intros (Hc & Hl & Hz) Hr. unfold parse_number.
  rewrite span_number_digits by (done || by constructor).
  assert (valid_number (c :: l) = true) as ->; [|done].
  unfold valid_number. rewrite decide_False by (intros ->; by destruct Hc).
  case_decide as H0; [by rewrite Hz|]. unfold digits1. rewrite (digit_in_range c Hc).
  by rewrite skip_digits_all.
Qed.

Lemma pretty_go_lead x s :
  (0 < x)%N → ∃ c s', pretty_N_go x s = String c s' ∧ c ≠ "0"%char.
Proof.
  revert s. induction (N.lt_wf_0 x) as [x _ IH]; intros s Hx.
  rewrite pretty_N_go_step by done. destruct (decide (x < 10)%N) as [Hlt|Hge].
  - rewrite N.div_small, N.mod_small by done. change (pretty_N_go 0 ?t) with t.
    eexists _, _. split; [done|].
    assert (x = 1 ∨ x = 2 ∨ x = 3 ∨ x = 4 ∨ x = 5 ∨ x = 6 ∨ x = 7 ∨ x = 8 ∨ x = 9)%N as Hc by lia.
    destruct_or! Hc; by subst.
  - apply IH; [apply N.div_lt; lia|]. apply N.div_str_pos. lia.
Qed.

Lemma natural_fmt_d x : (0 ≤ x)%Z → natural_lit (s2b (fmt_d x)).
Proof.
  intros Hx. pose proof (fmt_d_digits x Hx) as Hd. pose proof (fmt_d_ne x Hx) as Hn.
  destruct x as [|p|p]; [split_and!; [by eexists|constructor|done]| |lia].
  destruct (pretty_go_lead (N.pos p) "" ltac:(lia)) as (c & s' & E & Hc).
  change (s2b (fmt_d (Z.pos p))) with (s2b (pretty_N_go (N.pos p) "")) in *. rewrite E in *.
  simpl in *. apply Forall_cons in Hd as [? ?]. done.
Qed.

(** The trees the encoder builds. *)
Fixpoint wf_json (j : json) : Prop :=
  match j with
  | JNull | JBool _ => True
  | JNum l => natural_lit l
  | JStr s => ascii_text s
  | JArr l => foldr (λ j P, wf_json j ∧ P) True l
  | JObj l => foldr (λ '(k, j) P, (ascii_text k ∧ wf_json j) ∧ P) True l
  end.

Lemma wf_arr l : wf_json (JArr l) ↔ Forall wf_json l.
Proof. simpl. induction l as [|j l IH]; simpl; [done|]. rewrite Forall_cons. by rewrite <- IH. Qed.
Lemma wf_obj l : wf_json (JObj l) ↔ Forall (λ m, ascii_text m.1 ∧ wf_json m.2) l.
Proof. simpl. induction l as [|[k j] l IH]; simpl; [done|]. rewrite Forall_cons. by rewrite <- IH. Qed.

Section JsonInd.
  Context (P : json → Prop) (Pnull : P JNull) (Pbool : ∀ b, P (JBool b)) (Pnum : ∀ l, P (JNum l))
    (Pstr : ∀ s, P (JStr s)) (Parr : ∀ l, Forall P l → P (JArr l))
    (Pobj : ∀ l, Forall (λ m, P m.2) l → P (JObj l)).
Fixpoint json_induction (j : json) : P j :=
  match j with
  | JNull => Pnull
  | JBool b => Pbool b
  | JNum l => Pnum l
  | JStr s => Pstr s
  | JArr l => Parr l ((fix go l : Forall P l :=
      match l with [] => Forall_nil_2 _ | j :: l => Forall_cons_2 _ _ _ (json_induction j) (go l) end) l)
  | JObj l => Pobj l ((fix go l : Forall (λ m : bytes * json, P m.2) l :=
      match l with [] => Forall_nil_2 _ | (k, j) :: l => Forall_cons_2 _ (k, j) _ (json_induction j) (go l) end) l)
  end.
End JsonInd.

(** The first byte of a printed value. *)
Lemma print_starts j : wf_json j → ∃ c l, print j = c :: l ∧ is_space c = false ∧ c ≠ "]"%char ∧ c ≠ "}"%char.
Proof.
  destruct j as [|[]|l|s|l|l]; intros Hj; try (by eexists _, _).
  destruct l as [|c l]; [done|]. destruct Hj as (Hc & _). exists c, l. split; [done|].
  split; [|by split; intros ->; destruct Hc].
  apply digit_in_range in Hc. unfold in_range in Hc. apply andb_true_iff in Hc as [?%N.leb_le ?%N.leb_le].
  unfold is_space. rewrite !orb_false_iff, !N.eqb_neq. lia.
Qed.

Lemma skip_space_print j rest : wf_json j → skip_space (print j ++ rest) = print j ++ rest.
Proof. intros Hj. destruct (print_starts j Hj) as (c & l & -> & Hc & _). simpl. by rewrite Hc. Qed.

Lemma commas_cons w w' ws : commas (w :: w' :: ws) = w ++ ","%char :: commas (w' :: ws).
Proof. done. Qed.

Section ParseLists.
  Context (value : bytes → option (json * bytes)).

Definition reads (j : json) : Prop :=
  wf_json j ∧ ∀ rest, ends_number rest → value (print j ++ rest) = Some (j, rest).

Lemma parse_elems_print j js n rest :
  Forall reads (j :: js) → length js < n →
  parse_elems value n (commas (map print (j :: js)) ++ "]"%char :: rest) = Some (j :: js, rest).
Proof.
  intros Hjs. remember (j :: js) as l eqn:El. revert j js El n.
  induction Hjs as [|j' l [Hwf Hv] _ IH]; intros j js [= -> ->] n Hn; destruct n as [|n]; [lia..|].
  cbn [parse_elems map]. destruct js as [|j' js].
  - cbn [map commas]. rewrite skip_space_print by done. rewrite Hv by done. done.
  - specialize (IH j' js eq_refl n ltac:(simpl in Hn; lia)). cbn [map] in *. rewrite commas_cons.
    remember (commas (print j' :: map print js)) as t. rewrite <- app_assoc, skip_space_print by done.
    rewrite Hv by done. cbn [app skip_space]. change (is_space ","%char) with false. cbn iota.
    simpl. by rewrite IH.
Qed.

Definition print_member (m : bytes * json) : bytes := print_string m.1 ++ ":"%char :: print m.2.

Lemma parse_members_print m ms n rest :
  Forall (λ m, ascii_text m.1 ∧ reads m.2) (m :: ms) → length ms < n →
  parse_members value n (commas (map print_member (m :: ms)) ++ "}"%char :: rest) = Some (m :: ms, rest).
Proof.
  intros Hms. remember (m :: ms) as l eqn:El. revert m ms El n.
  induction Hms as [|[k j] l (Hk & Hwf & Hv) _ IH]; intros m ms [= <- ->] n Hn; destruct n as [|n]; [lia..|].
  assert (Hhead : ∀ t, print_member (k, j) ++ t = quote :: escape (length k) k ++ quote :: ":"%char :: print j ++ t).
  { intros t. unfold print_member, print_string. simpl. by rewrite <- !app_assoc. }
  simpl in Hv, Hwf, Hk. destruct ms as [|m' ms]; cbn [map parse_members].
  - cbn [commas]. rewrite Hhead. simpl. rewrite parse_string_print by done. simpl.
    rewrite skip_space_print, Hv by done. done.
  - specialize (IH m' ms eq_refl n ltac:(simpl in Hn; lia)). cbn [map] in *. rewrite commas_cons.
    remember (commas (print_member m' :: map print_member ms)) as t.
    rewrite <- app_assoc, Hhead. simpl. rewrite parse_string_print by done. simpl.
    rewrite skip_space_print, Hv by done. simpl. by rewrite IH.
Qed.
End ParseLists.

(** A tree of a list is shorter than the list's text. *)
Lemma commas_member w ws : w ∈ ws → length w ≤ length (commas ws).
Proof.
  induction ws as [|w' ws IH]; [set_solver|]. intros [->|Hw]%elem_of_cons; destruct ws as [|w'' ws]; simpl.
  - done.
  - rewrite length_app. lia.
  - set_solver.
  - specialize (IH Hw). rewrite length_app. simpl. simpl in IH. lia.
Qed.

Lemma commas_length ws : Forall (λ w, w ≠ []) ws → length ws ≤ length (commas ws).
Proof.
  induction 1 as [|w ws Hw _ IH]; simpl; [done|]. destruct w as [|c w]; [done|].
  destruct ws as [|w' ws]; simpl; [lia|]. rewrite length_app. simpl in *. lia.
Qed.

Lemma print_ne j : wf_json j → print j ≠ [].
Proof. intros Hj. destruct (print_starts j Hj) as (c & l & -> & _). done. Qed.

Lemma print_members l :
  map (λ '(k, v), print_string k ++ ":"%char :: print v) l = map print_member l.
Proof. apply map_ext. by intros [k v]. Qed.

Lemma print_member_ne m : print_member m ≠ [].
Proof. done. Qed.

(** The text of a list starts as its first item does, and is long enough to
    count the items. *)
Lemma list_text_head {A} (pr : A → bytes) x xs c l rest :
  pr x = c :: l → ∃ t, commas (map pr (x :: xs)) ++ rest = c :: t.
Proof. intros E. destruct xs as [|y xs]; cbn [map commas]; rewrite E; by eexists. Qed.

Lemma list_text_length {A} (pr : A → bytes) x xs c rest :
  Forall (λ y, pr y ≠ []) (x :: xs) → length xs < S (length (commas (map pr (x :: xs)) ++ c :: rest)).
Proof.
  intros Hne. apply (Forall_fmap pr (λ w, w ≠ [])) in Hne. apply commas_length in Hne.
  rewrite length_fmap in Hne. rewrite length_app. change (map pr (x :: xs)) with (pr <$> (x :: xs)).
  cbn [length] in *. lia.
Qed.

Lemma parse_value_array fuel l rest :
  Forall (reads (parse_value fuel)) l →
  parse_value (S fuel) (print (JArr l) ++ rest) = Some (JArr l, rest).
Proof.
  intros Hl. destruct l as [|j l]; [done|]. pose proof Hl as [[Hwf _] _]%Forall_cons.
  destruct (print_starts j Hwf) as (c & t & E & Hc & Hne & _).
  cbn [print app parse_value]. rewrite <- app_assoc. cbn [app].
  destruct (list_text_head print j l c t ("]"%char :: rest) E) as [t' Et].
  pose proof (parse_elems_print (parse_value fuel) j l _ rest Hl
    (list_text_length print j l "]"%char rest
      (Forall_impl _ _ _ Hl (λ x (H : reads _ x), print_ne x (proj1 H))))) as Hp.
  remember (commas (map print (j :: l)) ++ "]"%char :: rest) as text.
  assert (skip_space text = c :: t') as -> by (rewrite Et; simpl; by rewrite Hc).
  rewrite (decide_False (P := "["%char = "{"%char)), decide_True, decide_False by done. by rewrite Hp.
Qed.

Lemma parse_value_object fuel l rest :
  Forall (λ m, ascii_text m.1 ∧ reads (parse_value fuel) m.2) l →
  parse_value (S fuel) (print (JObj l) ++ rest) = Some (JObj l, rest).
Proof.
  intros Hl. destruct l as [|m l]; [done|].
  cbn [print app parse_value]. rewrite <- app_assoc. cbn [app]. rewrite print_members.
  destruct (list_text_head print_member m l quote _ ("}"%char :: rest) eq_refl) as [t' Et].
  pose proof (parse_members_print (parse_value fuel) m l _ rest Hl
    (list_text_length print_member m l "}"%char rest
      (Forall_impl _ _ _ Hl (λ x _, print_member_ne x)))) as Hp.
  remember (commas (map print_member (m :: l)) ++ "}"%char :: rest) as text.
  assert (skip_space text = quote :: t') as -> by by rewrite Et.
  rewrite decide_True, decide_False by done. by rewrite Hp.
Qed.

Lemma list_text_member {A} (pr : A → bytes) x xs c n :
  x ∈ xs → S (length (commas (map pr xs) ++ [c])) ≤ S n → length (pr x) ≤ n.
Proof.
  intros Hx. rewrite length_app. pose proof (commas_member (pr x) (map pr xs)) as Hm.
  assert (pr x ∈ map pr xs) as H by (by apply (list_elem_of_fmap_2 pr)). specialize (Hm H). lia.
Qed.

Lemma parse_value_print j fuel rest :
  wf_json j → length (print j) ≤ fuel → ends_number rest → parse_value fuel (print j ++ rest) = Some (j, rest).
Proof.
  revert fuel rest. induction j as [|[]|lit|s|l IH|l IH] using json_induction;
    intros fuel rest Hj Hf Hr; (destruct fuel as [|fuel]; [by destruct (print_ne _ Hj); destruct (print _); simpl in *; [|lia]|]).
  - done.
  - done.
  - done.
  - destruct lit as [|c lit]; [done|]. destruct Hj as (Hc & Hl & Hz).
    cbn [print app parse_value]. rewrite !decide_False by (intros ->; by destruct Hc).
    by apply (parse_number_natural (c :: lit)).
  - cbn [print print_string app parse_value]. rewrite <- app_assoc.
    rewrite decide_False, decide_False, decide_True by done. cbn [app]. by rewrite parse_string_print.
  - apply parse_value_array. apply wf_arr in Hj. rewrite Forall_forall in IH, Hj |- *.
    intros x Hx. split; [by apply Hj|]. intros r Hr'. apply IH; [done|by apply Hj| |done].
    by apply (list_text_member print x l "]"%char).
  - apply parse_value_object. apply wf_obj in Hj. rewrite Forall_forall in IH, Hj |- *.
    intros [k x] Hx. destruct (Hj _ Hx) as [Hk Hwf]. split; [done|]. split; [done|].
    intros r Hr'. apply (IH _ Hx); [done| |done]. cbn [print] in Hf. rewrite print_members in Hf.
    pose proof (list_text_member print_member _ _ _ _ Hx Hf) as Hlen.
    unfold print_member in Hlen. rewrite length_app in Hlen. simpl in *. lia.
Qed.

(** Reading what was written gives the tree back. *)
Lemma parse_print j : wf_json j → parse (print j) = Some j.
Proof.
  intros Hj. unfold parse. pose proof (skip_space_print j [] Hj) as Hs. rewrite app_nil_r in Hs. rewrite Hs.
  pose proof (parse_value_print j (S (length (print j))) [] Hj) as Hp. rewrite app_nil_r in Hp.
  rewrite Hp by (done || lia). done.
Qed.
