(* ===== verification/JsonCodec.v ===== *)
(** * [json.Marshal] and [json.Unmarshal] for the snapshot structs

    A [codec] writes a Go value as a tree and reads a tree into a variable that
    holds an old value, as [Unmarshal] does: [null] leaves a number, a string or
    a struct as it is, and members that name no field are ignored.  A struct is
    the list of its [field]s.  A slice is [None] when it is [nil]. *)

From S2P Require Import Prelude GoLib GoText Json.

Abbreviation slice A := (option (list A)).

(** The elements of a slice. *)
Definition elems {A} (s : slice A) : list A := default [] s.

Record codec (A : Type) := mkCodec {
  zero : A;
  enc : A → json;
  dec : A → json → option A;
}.
Arguments mkCodec {A}. Arguments zero {A}. Arguments enc {A}. Arguments dec {A}.

(** ** Strings and integers *)

Definition string_codec : codec string :=
  mkCodec "" (λ s, JStr (s2b s))
    (λ old j, match j with JStr s => Some (b2s s) | JNull => Some old | _ => None end).

(** [strconv.ParseInt(s, 10, 64)] *)
Definition ParseInt (l : bytes) : option Z :=
  let '(neg, l) :=
    match l with
    | c :: l' => if decide (c = "-"%char) then (true, l') else if decide (c = "+"%char) then (false, l') else (false, l)
    | [] => (false, l)
    end in
  match ParseUint l with
  | Ok un =>
      if neg then (if un <=? 2 ^ 63 then Some (- un) else None)%Z
      else (if un <? 2 ^ 63 then Some un else None)%Z
  | Err _ => None
  end.

Definition uint64_codec : codec Z :=
  mkCodec 0%Z (λ x, JNum (s2b (fmt_d x)))
    (λ old j, match j with
       | JNum l => match ParseUint l with Ok x => Some x | Err _ => None end
       | JNull => Some old
       | _ => None
       end).

Definition int_codec : codec Z :=
  mkCodec 0%Z (λ x, JNum (s2b (fmt_d x)))
    (λ old j, match j with JNum l => ParseInt l | JNull => Some old | _ => None end).

(** ** Slices *)

(** The elements are read into those the slice already has. *)
Fixpoint dec_elems {A} (c : codec A) (old : list A) (js : list json) : option (list A) :=
  match js with
  | [] => Some []
  | j :: js =>
      x ← dec c (default (zero c) (head old)) j;
      xs ← dec_elems c (tail old) js;
      Some (x :: xs)
  end.

Definition slice_codec {A} (c : codec A) : codec (slice A) :=
  mkCodec None
    (λ s, match s with None => JNull | Some l => JArr (map (enc c) l) end)
    (λ old j, match j with
       | JNull => Some None
       | JArr js => Some <$> dec_elems c (elems old) js
       | _ => None
       end).

(** ** Structs *)

Record field (S : Type) := mkField {
  f_name : string;
  f_get : S → json;
  f_set : json → S → option S;
}.
Arguments mkField {S}. Arguments f_name {S}. Arguments f_get {S}. Arguments f_set {S}.

(** A field of type [A] with its getter and setter. *)
Definition struct_field {S A} (name : string) (c : codec A) (get : S → A) (set : A → S → S) : field S :=
  mkField name (λ s, enc c (get s)) (λ j s, x ← dec c (get s) j; Some (set x s)).

(** [foldName]: upper case, with the two letters outside ASCII that fold to an
    ASCII one (U+017F and U+212A). *)
Definition upper (c : ascii) : ascii := if in_range 97 122 c then byte_of (code c - 32) else c.
Fixpoint fold_name (l : bytes) : bytes :=
  match l with
  | a :: l1 =>
      match l1 with
      | b :: l2 =>
          if decide (a = byte_of 197 ∧ b = byte_of 191) then "S"%char :: fold_name l2
          else match l2 with
          | c :: l3 =>
              if decide (a = byte_of 226 ∧ b = byte_of 132 ∧ c = byte_of 170) then "K"%char :: fold_name l3
              else upper a :: fold_name l1
          | [] => upper a :: fold_name l1
          end
      | [] => [upper a]
      end
  | [] => []
  end.

(** The field a member goes to: by exact name, else by folded name. *)
Definition find_field {S} (fs : list (field S)) (k : bytes) : option (field S) :=
  match List.find (λ f, bool_decide (s2b (f_name f) = k)) fs with
  | Some f => Some f
  | None => List.find (λ f, bool_decide (fold_name (s2b (f_name f)) = fold_name k)) fs
  end.

Fixpoint dec_members {S} (fs : list (field S)) (ms : list (bytes * json)) (s : S) : option S :=
  match ms with
  | [] => Some s
  | (k, j) :: ms =>
      match find_field fs k with
      | Some f => s ← f_set f j s; dec_members fs ms s
      | None => dec_members fs ms s
      end
  end.

Definition struct_codec {S} (z : S) (fs : list (field S)) : codec S :=
  mkCodec z (λ s, JObj (map (λ f, (s2b (f_name f), f_get f s)) fs))
    (λ old j, match j with JObj ms => dec_members fs ms old | JNull => Some old | _ => None end).

Definition Marshal {A} (c : codec A) (x : A) : bytes := print (enc c x).
Definition Unmarshal {A} (c : codec A) (data : bytes) : result A :=
  match parse data with
  | None => Err "invalid JSON"
  | Some j => match dec c (zero c) j with Some x => Ok x | None => Err "json: cannot unmarshal" end
  end.

(** ** Laws *)

(** On the values [P], reading gives back what was written, whatever the
    variable held. *)
Definition codec_ok {A} (c : codec A) (P : A → Prop) : Prop :=
  ∀ x, P x → wf_json (enc c x) ∧ ∀ old, dec c old (enc c x) = Some x.

Definition ascii_string (s : string) : Prop := ascii_text (s2b s).
Definition is_nat63 (x : Z) : Prop := (0 ≤ x < 2 ^ 63)%Z.

Lemma string_codec_ok : codec_ok string_codec ascii_string.
Proof. intros s Hs. split; [done|]. intros old. simpl. by rewrite b2s_s2b. Qed.

Lemma uint64_codec_ok : codec_ok uint64_codec is_u64.
Proof.
  intros x Hx. split; [apply natural_fmt_d; unfold is_u64 in Hx; lia|]. intros old. simpl.
  by rewrite ParseUint_fmt_d.
Qed.

Lemma ParseInt_fmt_d x : is_nat63 x → ParseInt (s2b (fmt_d x)) = Some x.
Proof.
  intros [H0 H1]. pose proof (natural_fmt_d x H0) as Hn. pose proof (ParseUint_fmt_d x) as Hp.
  unfold ParseInt. destruct (s2b (fmt_d x)) as [|c l]; [done|]. destruct Hn as [Hc _].
  rewrite !decide_False by (intros ->; by destruct Hc). rewrite Hp by (unfold is_u64, two64; lia).
  apply Z.ltb_lt in H1. by rewrite H1.
Qed.

Lemma int_codec_ok : codec_ok int_codec is_nat63.
Proof.
  intros x Hx. split; [apply natural_fmt_d; unfold is_nat63 in Hx; lia|]. intros old. simpl.
  by rewrite ParseInt_fmt_d.
Qed.

Lemma slice_codec_ok {A} (c : codec A) P :
  codec_ok c P → codec_ok (slice_codec c) (λ s, Forall P (elems s)).
Proof.
  intros Hc [l|] Hl; [|done]. simpl in Hl. split.
  - simpl. induction Hl as [|x l Hx _ IH]; [done|]. simpl. split; [by apply Hc|done].
  - intros old. simpl. generalize (elems old) as o. clear old.
    assert (∀ o, dec_elems c o (map (enc c) l) = Some l) as E; [|intros o; by rewrite E].
    induction Hl as [|x l Hx _ IH]; [done|]. intros o. simpl. destruct (Hc x Hx) as [_ ->]. simpl. by rewrite IH.
Qed.

(** The field a written member goes back to. *)
Lemma find_field_name {S} (fs : list (field S)) f :
  NoDup (f_name <$> fs) → f ∈ fs → find_field fs (s2b (f_name f)) = Some f.
Proof.
  intros Hnd Hf. unfold find_field. enough (List.find (λ g, bool_decide (s2b (f_name g) = s2b (f_name f))) fs = Some f)
    as -> by done.
  induction fs as [|g fs IH]; [set_solver|]. rewrite fmap_cons in Hnd. apply NoDup_cons in Hnd as [Hg Hnd].
  simpl. case_bool_decide as E.
  - apply (inj s2b) in E. apply elem_of_cons in Hf as [->|Hf]; [done|]. destruct Hg. rewrite E.
    by apply list_elem_of_fmap_2.
  - apply elem_of_cons in Hf as [->|Hf]; [done|]. by apply IH.
Qed.

Lemma Unmarshal_Marshal {A} (c : codec A) P x :
  codec_ok c P → P x → Unmarshal c (Marshal c x) = Ok x.
Proof.
  intros Hc Hx. destruct (Hc x Hx) as [Hw Hd]. unfold Unmarshal, Marshal. by rewrite parse_print, Hd.
Qed.

Lemma Marshal_ne {A} (c : codec A) P x : codec_ok c P → P x → Marshal c x ≠ [].
Proof. intros Hc Hx. destruct (Hc x Hx) as [Hw _]. by apply print_ne. Qed.
