(* ===== verification/SnapshotIO.v ===== *)
(** * Whole files through the client: writeToAFS and readFromAFS

    src/primefinder/pkg/snapshot/snapshot.go, and the same sequence of calls in
    [writeFinalOutput] (src/primefinder/pkg/coordinator/coordinator.go):
    delete, create, write, close; open, read to the end, close.  A reading loop
    has as fuel the bytes that remain behind its descriptor, plus one;
    [read_loop_returns] shows that this is enough. *)

From S2P Require Import Prelude GoLib GoText Disk AfsProto Server Cache Client AfsSpec.

Section IO.
  Context (flt : OsFaults) {W : Type} `{!AfsService W}.

(** The bytes behind the descriptor of a handle. *)
Definition remaining (id : Z) (c : Client) : bytes :=
  match openFiles (cache c) !! id with
  | Some e => drop (fd_off (localFd e)) (content (cdisk c) (fd_ino (localFd e)))
  | None => []
  end.

(** [for { n, err := client.Read(handle, buf); ... }]: what was read, and how
    the loop ended ([ReadEOF] or [ReadErr]). *)
Fixpoint read_loop (fuel bufsize : nat) (id : Z) (c : Client) : outcome (bytes * error * Client) :=
  match fuel with
  | O => NoFuel
  | S fuel =>
      match client_Read flt id bufsize c with
      | (ReadData got, c) => '(rest, e, c) ← read_loop fuel bufsize id c; Ret (got ++ rest, e, c)
      | (ReadEOF, c) => Ret ([], None, c)
      | (ReadErr e, c) => Ret ([], Some e, c)
      end
  end.

Definition read_to_end (bufsize : nat) (id : Z) (c : Client) : outcome (bytes * error * Client) :=
  read_loop (S (length (remaining id c))) bufsize id c.

Definition readFromAFS (name : string) (c : Client) (w : W) : outcome (result bytes * Client * W) :=
  match client_Open flt name false c w with
  | (Err e, c, w) => Ret (Err ("open " +:+ name +:+ ": " +:+ e), c, w)
  | (Ok handle, c, w) =>
      '(all, _, c) ← read_to_end (Z.to_nat 32768) handle c;
      let '(_, c, w) := client_Close flt handle c w in
      Ret (if decide (all = []) then Err ("empty or missing file " +:+ name) else Ok all, c, w)
  end.

(** [writeToAFS], and [writeFinalOutput] once the text is built. *)
Definition writeToAFS (name : string) (data : bytes) (c : Client) (w : W) : error * Client * W :=
  let '(_, c, w) := client_DeleteFile flt name c w in
  match client_CreateFile flt name c w with
  | (Err e, c, w) => (Some ("CreateFile " +:+ name +:+ ": " +:+ e), c, w)
  | (Ok handle, c, w) =>
      match client_Write flt handle data c with
      | (Err e, c) =>
          let '(_, c, w) := client_Close flt handle c w in
          (Some ("Write " +:+ name +:+ ": " +:+ e), c, w)
      | (Ok _, c) =>
          match client_Close flt handle c w with
          | (Some e, c, w) => (Some ("Close " +:+ name +:+ ": " +:+ e), c, w)
          | (None, c, w) => (None, c, w)
          end
      end
  end.

End IO.

(** ** The reading loop terminates *)

Lemma client_Read_progress flt n id c :
  0 < n →
  match client_Read flt id n c with
  | (ReadData got, c') => length (remaining id c') < length (remaining id c) ∧ 0 < length got
  | _ => True
  end.
Proof.
  intros Hn. unfold client_Read, getOpenEntry. destruct (openFiles (cache c) !! id) as [e|] eqn:He; [|done].
  unfold fd_Read. destruct (read_fault flt (fd_path (localFd e))) as [[k x]|]; [done|].
  destruct (take n _) as [|x got] eqn:Et; [by rewrite decide_False by lia|].
  unfold set_fd. rewrite He. unfold remaining. simpl. rewrite lookup_insert_eq, He. simpl.
  split; [|lia]. apply (f_equal length) in Et. rewrite length_take, !length_drop in Et. simpl in Et.
  rewrite !length_drop. lia.
Qed.

(** Reading changes no copy. *)
Definition same_copies (c c' : Client) : Prop :=
  cdisk c' = cdisk c ∧ cached (cache c') = cached (cache c) ∧ cacheDir (cache c') = cacheDir (cache c).

Lemma client_Read_copies flt n id c : same_copies c (client_Read flt id n c).2.
Proof.
  unfold client_Read, getOpenEntry. destruct (openFiles (cache c) !! id) as [e|] eqn:He; [|done].
  destruct (fd_Read _ _ _ _) as [[got| |x] fd]; unfold set_fd; by rewrite He.
Qed.

Lemma read_loop_copies flt fuel n id c data e c' :
  read_loop flt fuel n id c = Ret (data, e, c') → same_copies c c'.
Proof.
  revert c data. induction fuel as [|fuel IH]; intros c data; simpl; [done|].
  pose proof (client_Read_copies flt n id c) as Hc. destruct (client_Read flt id n c) as [[got| |x] c1]; cbn [snd] in Hc;
    [|by intros [= _ _ <-]..].
  destruct (read_loop flt fuel n id c1) as [[[rest e1] c2]|s|] eqn:E; [|done..]. intros [= _ -> ->].
  specialize (IH _ _ E). destruct Hc as (H1 & H2 & H3), IH as (H4 & H5 & H6). split_and!; congruence.
Qed.

Lemma same_copies_holds c c' p x v : same_copies c c' → holds_copy c p x v → holds_copy c' p x v.
Proof. intros (H1 & H2 & H3) [H4 H5]. unfold holds_copy, isCached, localPath in *. by rewrite H1, H2, H3. Qed.

Lemma read_loop_returns flt n id fuel c :
  0 < n → length (remaining id c) < fuel → ∃ data e c', read_loop flt fuel n id c = Ret (data, e, c').
Proof.
  intros Hn. revert c. induction fuel as [|fuel IH]; intros c Hf; [lia|]. simpl.
  pose proof (client_Read_progress flt n id c Hn) as Hp.
  destruct (client_Read flt id n c) as [[got| |e] c1]; [|by eauto..].
  destruct (IH c1) as (data & e & c2 & ->); [lia|]. go_step. eauto.
Qed.

(** ** Retries *)

(** Reconnecting changes nothing but the connection. *)
Definition same_local (c c' : Client) : Prop :=
  cache c' = cache c ∧ cdisk c' = cdisk c ∧ clientId c' = clientId c ∧ reqSeq c' = reqSeq c.

Lemma connect_loop_local {W} `{!AfsService W} addrs c (w : W) :
  same_local c (connect_loop addrs c w).1.2.
Proof.
  revert w. induction addrs as [|a addrs IH]; intros w; simpl; [done|].
  destruct (svc_dial a); [|apply IH]. destruct (svc_GetPrimary a w) as [[p|e] w1]; [|apply IH].
  case_decide; [apply IH|]. destruct (svc_dial p); [|apply IH].
  destruct (svc_Heartbeat p _ w1) as [[r|e] w2]; [done|apply IH].
Qed.

Lemma reconnect_loop_local {W} `{!AfsService W} n first c (w : W) :
  same_local c (reconnect_loop n first c w).1.2.
Proof.
  revert first c w. induction n as [|n IH]; intros first c w; simpl; [done|].
  unfold connectToPrimary.
  pose proof (connect_loop_local (serverAddrs c) c (if first then w else svc_sleep w)) as H1.
  destruct (connect_loop _ _ _) as [[[|] c1] w1]; [done|]. destruct H1 as (A1 & A2 & A3 & A4).
  destruct (IH false c1 w1) as (B1 & B2 & B3 & B4). simpl in *. split_and!; congruence.
Qed.

Lemma reconnect_local {W} `{!AfsService W} c (w : W) : same_local c (reconnectToPrimary c w).1.2.
Proof. apply (reconnect_loop_local 10 true (set_conn None c) w). Qed.

(** An attempt that fails in every state leaves the loop with an error. *)
Lemma raw_loop_fails {S W} `{!AfsService W} n first lastErr (fn : S → Client → W → error * S * Client * W)
    s c (w : W) (P : Client → Prop) :
  (∀ c c', same_local c c' → P c → P c') →
  (∀ s c w, P c → ∃ e s' c' w', fn s c w = (Some e, s', c', w') ∧ P c') →
  P c → ∃ e s' c' w', raw_loop n first lastErr fn s c w = (Some e, s', c', w') ∧ P c'.
Proof.
  intros HP Hfn. revert first lastErr s c w. induction n as [|n IH]; intros first lastErr s c w Hc; simpl.
  { by eexists _, _, _, _. }
  destruct first.
  - destruct (Hfn s c w Hc) as (e & s1 & c1 & w1 & -> & Hc1). by apply IH.
  - pose proof (reconnect_local c (svc_sleep w)) as Hl.
    destruct (reconnectToPrimary c (svc_sleep w)) as [[b c0] w0]. simpl in Hl.
    destruct (Hfn s c0 w0) as (e & s1 & c1 & w1 & -> & Hc1); [by eapply HP|]. by apply IH.
Qed.

(** No retry stores an empty file, if every server answers a store without
    messages with an error. *)
Lemma store_empty_fails {W} `{!AfsService W} p seq v c (w : W) :
  (∀ a w resp w', svc_StoreFile a [] None w = (Ok resp, w') → sp_Error resp ≠ "") →
  read_file (cdisk c) (localPath p (cache c)) = Some [] →
  ∃ e s' c' w', retryWithFailoverRaw (store_attempt no_faults p seq) v c w = (Some e, s', c', w') ∧
    read_file (cdisk c') (localPath p (cache c')) = Some [].
Proof.
  intros Hsrv Hd. unfold retryWithFailoverRaw.
  apply (raw_loop_fails 8 true "" (store_attempt no_faults p seq) v c w
    (λ c', read_file (cdisk c') (localPath p (cache c')) = Some [])); [|clear c w Hd; intros s c w Hd|done].
  { intros c1 c2 (-> & -> & _) H. done. }
  unfold store_attempt. destruct (grpcConn c) as [a|]; [|by eexists _, _, _, _].
  destruct (os_Open_ok _ _ _ Hd) as (i & -> & _ & Hc). unfold read_chunks. simpl. rewrite Hc.
  cbn [drop chunks length chunks_fuel]. unfold store_chunks. simpl.
  destruct (svc_StoreFile a [] None w) as [[resp|x] w2] eqn:E; [|by eexists _, _, _, _].
  apply Hsrv in E. destruct (Contains _ _); [by eexists _, _, _, _|].
  rewrite decide_True by done. by eexists _, _, _, _.
Qed.

(** ** Reading and writing whole files *)

Section Whole.
  Context {W : Type} `{!AfsService W, !AfsView W, !AfsLaws W}.

Lemma reading_remaining c id p data : reading c id p data → remaining id c = data.
Proof. intros (e & He & _ & _ & Hd). unfold remaining. by rewrite He. Qed.

Lemma read_loop_ok c w id p data n fuel :
  0 < n → client_ok c w → reading c id p data → length data < fuel →
  ∃ c', read_loop no_faults fuel n id c = Ret (data, None, c') ∧ client_ok c' w ∧ same_client c c' ∧
    reqSeq c' = reqSeq c ∧ reading c' id p [].
Proof.
  intros Hn. revert c data. induction fuel as [|fuel IH]; intros c data Hok Hr Hf; [lia|]. simpl.
  destruct (client_Read_ok c w id p data n Hok Hr Hn) as (c1 & Hok1 & Hs1 & Hq1 & Hr1 & ->).
  destruct (take n data) as [|x got] eqn:Et.
  - assert (data = []) as -> by (destruct n, data; simpl in *; try done; lia).
    rewrite drop_nil in Hr1. by exists c1.
  - destruct (IH c1 (drop n data)) as (c2 & -> & Hok2 & Hs2 & Hq2 & Hr2); [done|done| |].
    { rewrite length_drop. destruct data; simpl in *; [by rewrite take_nil in Et|]. lia. }
    go_step. exists c2. rewrite <- Et, take_drop. split; [done|]. split; [done|].
    split; [by etrans|]. by rewrite Hq2.
Qed.

(** Closing a clean handle. *)
Lemma client_Close_clean c w id p data :
  client_ok c w → reading c id p data →
  ∃ c' w', client_Close no_faults id c w = (None, c', w') ∧ client_ok c' w' ∧ same_client c c' ∧
    reqSeq c' = reqSeq c ∧ call_reads w w' ∧ cdisk c' = cdisk c ∧ cached (cache c') = cached (cache c).
Proof.
  intros [(a & Hc & Hr) Hu Hs Hwf Hus Hpast] (e & He & Hp & Hd & _). unfold client_Close, closeFile. rewrite He, Hd.
  unfold close_handle, on_conn. cbn [grpcConn set_cache]. rewrite Hc.
  pose proof (law_close w a (serverHandleID e) Hr) as Hk.
  eexists _, _. split; [reflexivity|]. split; [|done].
  split; simpl; [exists a; split; [done|by apply Hk]|by apply Hk|done..|by apply Hk].
Qed.

Lemma client_DeleteFile_ok c w p :
  client_ok c w → svc_name w p → svc_content (W := W) p None → seq_ok (reqSeq c + 1) → local_free c p →
  ∃ c' w', client_DeleteFile no_faults p c w = (None, c', w') ∧ client_ok c' w' ∧ same_client c c' ∧
    reqSeq c' = (reqSeq c + 1)%Z ∧ local_free c' p ∧
    call_keeps (clientId c) (reqSeq c) w w' ∧ file_update p None w w'.
Proof.
  intros [(a & Hc & Hr) Hu Hs Hwf Hus Hpast] Hn Hco Hs' [Hl Ht]. unfold client_DeleteFile.
  rewrite seq_next by done.
  destruct (law_delete w a (clientId c) (reqSeq c) p Hus Hco Hr Hu Hs Hn) as (w' & E & Hk & Hup).
  rewrite (failover_first _ _ _ _ (mkDeleteFileResponse "") w') by (unfold on_conn; simpl; by rewrite ?Hc).
  cbn [dp_Error]. rewrite decide_False by naive_solver. cbn [cdisk cache set_seq].
  pose proof (os_Remove_kept no_faults (cdisk c) _ _ (localPath_below p (cache c))) as Hd.
  destruct (os_Remove no_faults (cdisk c) (localPath p (cache c))) as [r d] eqn:Er.
  destruct (os_Remove_spec _ _ _ _ _ Hwf Er) as [Hwf' _].
  eexists _, w'. split; [reflexivity|]. split.
  { split; simpl; [exists a; split; [done|by apply Hk]| |done..|by apply Hk].
    pose proof (keeps_unused _ _ _ _ Hk _ _ Hu) as Hu'. rewrite decide_True in Hu' by done.
    by rewrite Z.max_r in Hu' by lia. }
  split; [done|]. split; [done|]. split; [|done].
  split; intros Hx; [apply Hl|apply Ht]; by apply Hd.
Qed.

(** Up to the close: the file is there, empty, and open with the data in its
    local copy. *)
Lemma writeToAFS_open c w p data :
  client_ok c w → svc_name w p → svc_content (W := W) p None → svc_content (W := W) p (Some []) → local_free c p →
  (reqSeq c + 3 < 2 ^ 63 - 1)%Z →
  ∃ id c1 w1, writeToAFS no_faults p data c w =
      match client_Close no_faults id c1 w1 with
      | (Some e, c, w) => (Some ("Close " +:+ p +:+ ": " +:+ e), c, w)
      | (None, c, w) => (None, c, w)
      end ∧
    client_ok c1 w1 ∧ same_client c c1 ∧ svc_name w1 p ∧ editing c1 id p data true ∧ reqSeq c1 = (reqSeq c + 2)%Z ∧
    svc_file w1 p = Some ([], 1%Z) ∧ svc_effect (clientId c) [p] w w1.
Proof.
  intros Hok Hn Hm0 Hm1 Hl Hseq. pose proof (ok_seq _ _ Hok) as [Hs0 _]. unfold writeToAFS.
  destruct (client_DeleteFile_ok c w p Hok Hn Hm0) as (c1 & w1 & -> & Hok1 & A & Hq1 & Hl1 & Hk1 & Hu1);
    [split; lia|done|].
  assert (Hn1 : svc_name w1 p) by by apply Hk1.
  destruct (client_CreateFile_ok c1 w1 p Hok1 Hn1) as (id & c2 & w2 & -> & Hok2 & B & Hq2 & He2 & Hk2 & Hu2);
    [rewrite (Hu1 p), decide_True by (done || by apply law_name_known); done|exact Hm1|done|split; lia|].
  destruct (client_Write_ok c2 w2 id p [] false data Hok2 He2) as (c3 & -> & Hok3 & D & Hq3 & He3).
  assert (I1 : clientId c1 = clientId c) by (by destruct A as (_ & A & _)). rewrite I1 in Hk2.
  exists id, c3, w2. split; [done|]. split; [done|]. split; [by etrans; [exact A|]; etrans; [exact B|]|].
  split; [by apply Hk2|]. split; [exact He3|]. split; [lia|].
  split; [by rewrite (Hu2 p), decide_True by (done || by apply law_name_known)|].
  etrans; [by eapply call_keeps_effect|by eapply call_keeps_effect].
Qed.

(** Writing a non-empty file makes it the content of the name, under version 2
    whatever was there, and keeps the other names. *)
Lemma writeToAFS_two c w p data :
  client_ok c w → svc_name w p → may_write W p data → local_free c p → (reqSeq c + 3 < 2 ^ 63 - 1)%Z → data ≠ [] →
  ∃ c' w', writeToAFS no_faults p data c w = (None, c', w') ∧ client_ok c' w' ∧ same_client c c' ∧
    svc_file w' p = Some (data, 2%Z) ∧ svc_effect (clientId c) [p] w w' ∧
    reqSeq c' = (reqSeq c + 3)%Z ∧ read_file (cdisk c') (localPath p (cache c')) = Some data.
Proof.
  intros Hok Hn (Hm0 & Hm1 & Hm2) Hl Hseq Hne. pose proof (ok_seq _ _ Hok) as [Hs0 _].
  destruct (writeToAFS_open c w p data Hok Hn Hm0 Hm1 Hl Hseq) as (id & c1 & w1 & -> & Hok1 & A & Hn1 & He1 & Hq1 & Hf1 & B).
  destruct (client_Close_ok c1 w1 id p data Hok1 Hn1 Hm2 He1 Hne) as
    (v & c4 & w4 & -> & Hok4 & E & Hq4 & _ & Hf & Heff & Hloc & Hv); [split; lia|].
  rewrite (Hv _ _ Hf1) in Hf. assert (I1 : clientId c1 = clientId c) by (by destruct A as (_ & A & _)). rewrite I1 in Heff.
  exists c4, w4. split; [done|]. split; [done|]. split; [by etrans|]. split; [exact Hf|].
  split; [by etrans|]. split; [lia|exact Hloc].
Qed.

Lemma writeToAFS_ok c w p data :
  client_ok c w → svc_name w p → may_write W p data → local_free c p → (reqSeq c + 3 < 2 ^ 63 - 1)%Z → data ≠ [] →
  ∃ v c' w', writeToAFS no_faults p data c w = (None, c', w') ∧ client_ok c' w' ∧ same_client c c' ∧
    svc_file w' p = Some (data, v) ∧ svc_effect (clientId c) [p] w w' ∧
    reqSeq c' = (reqSeq c + 3)%Z ∧ coherent c' p data v.
Proof.
  intros Hok Hn Hm Hl Hseq Hne. destruct (writeToAFS_two c w p data Hok Hn Hm Hl Hseq Hne) as
    (c' & w' & E & H1 & H2 & H3 & H4 & H5 & H6).
  exists 2%Z, c', w'. repeat (split; [done|]). by intros e _ _.
Qed.

(** Writing an empty file fails: it cannot be closed. *)
Lemma writeToAFS_empty c w p :
  client_ok c w → svc_name w p → svc_content (W := W) p None → svc_content (W := W) p (Some []) → local_free c p →
  (reqSeq c + 3 < 2 ^ 63 - 1)%Z →
  ∃ e c' w', writeToAFS no_faults p [] c w = (Some e, c', w').
Proof.
  intros Hok Hn Hm0 Hm1 Hl Hseq.
  destruct (writeToAFS_open c w p [] Hok Hn Hm0 Hm1 Hl Hseq) as (id & c1 & w1 & -> & _ & _ & _ & (e & He & Hp & Hd & Hw & _) & _).
  unfold client_Close, closeFile. rewrite He. cbv beta iota zeta. rewrite Hd, Hp. cbn [reqSeq set_cache]. set (c2 := set_seq _ _).
  destruct (store_empty_fails p (i64 (reqSeq c1 + 1)) 0%Z c2 w1) as (err & s' & c' & w' & -> & _); [exact (λ a w, law_store_empty w a)| |by eauto].
  destruct Hw as (Hn1 & _ & _ & _ & Hcont). unfold read_file. unfold localPath in *. simpl. by rewrite Hn1, Hcont.
Qed.

(** Opening and reading to the end delivers what the client sees of the file. *)
Lemma open_and_read_sees c w p data v x n :
  client_ok c w → svc_known w p → svc_file w p = Some (data, v) → local_free c p → reader_sees c p data v = Some x →
  seq_ok (reqSeq c + 1) → 0 < n →
  ∃ id c1 w1 c2, client_Open no_faults p false c w = (Ok id, c1, w1) ∧
    read_to_end no_faults n id c1 = Ret (x, None, c2) ∧ client_ok c2 w1 ∧ same_client c c2 ∧
    reqSeq c2 = (reqSeq c + 1)%Z ∧ reading c2 id p [] ∧ svc_effect (clientId c) [] w w1 ∧
    (data ≠ [] → (0 < v)%Z → holds_copy c2 p x v).
Proof.
  intros Hok Hn Hf Hl Hco Hs Hpos.
  destruct (client_Open_sees c w p data v x Hok Hn Hf Hl Hco Hs) as
    (id & c1 & w1 & E & Hok1 & A & Hq1 & Hr1 & Hk1 & Hu1 & _ & Hcp).
  unfold read_to_end.
  destruct (read_loop_ok c1 w1 id p x n (S (length (remaining id c1))))
    as (c2 & E2 & Hok2 & B & Hq2 & Hr2); [done|done|done|rewrite (reading_remaining _ _ _ _ Hr1); lia|].
  exists id, c1, w1, c2. split; [done|]. split; [done|]. split; [done|]. split; [by etrans|]. split; [lia|].
  split; [done|]. rewrite <- Hf in Hu1. split; [by eapply call_keeps_read_effect|].
  intros Hne Hv. exact (same_copies_holds _ _ _ _ _ (read_loop_copies _ _ _ _ _ _ _ _ E2) (Hcp Hne Hv)).
Qed.

Lemma open_and_read_ok c w p data v n :
  client_ok c w → svc_known w p → svc_file w p = Some (data, v) → local_free c p → coherent c p data v →
  seq_ok (reqSeq c + 1) → 0 < n →
  ∃ id c1 w1 c2, client_Open no_faults p false c w = (Ok id, c1, w1) ∧
    read_to_end no_faults n id c1 = Ret (data, None, c2) ∧ client_ok c2 w1 ∧ same_client c c2 ∧
    reqSeq c2 = (reqSeq c + 1)%Z ∧ reading c2 id p [] ∧ svc_effect (clientId c) [] w w1.
Proof.
  intros Hok Hn Hf Hl Hco Hs Hpos.
  destruct (open_and_read_sees c w p data v data n Hok Hn Hf Hl (coherent_sees _ _ _ _ Hco) Hs Hpos)
    as (id & c1 & w1 & c2 & H1 & H2 & H3 & H4 & H5 & H6 & H7 & _).
  by exists id, c1, w1, c2.
Qed.

(** Reading a file returns its content, or an error if there is none; the client
    then has a copy. *)
Lemma readFromAFS_sees c w p data v x :
  client_ok c w → svc_known w p → svc_file w p = Some (data, v) → local_free c p → reader_sees c p data v = Some x →
  seq_ok (reqSeq c + 1) →
  ∃ c' w', readFromAFS no_faults p c w =
      Ret (if decide (x = []) then Err ("empty or missing file " +:+ p) else Ok x, c', w') ∧ client_ok c' w' ∧ same_client c c' ∧
    reqSeq c' = (reqSeq c + 1)%Z ∧ svc_effect (clientId c) [] w w' ∧ (data ≠ [] → (0 < v)%Z → holds_copy c' p x v).
Proof.
  intros Hok Hn Hf Hl Hco Hs. unfold readFromAFS.
  destruct (open_and_read_sees c w p data v x (Z.to_nat 32768) Hok Hn Hf Hl Hco Hs) as
    (id & c1 & w1 & c2 & -> & -> & Hok2 & A & Hq2 & Hr2 & He & Hcp); [lia|]. go_step.
  destruct (client_Close_clean c2 w1 id p [] Hok2 Hr2) as (c3 & w3 & -> & Hok3 & D & Hq3 & Hfr & Hd & Hca).
  exists c3, w3. split; [done|]. split; [done|].
  split; [by etrans|]. split; [lia|]. split; [etrans; [exact He|]; by apply call_reads_effect|].
  intros Hne Hv. apply (same_copies_holds c2); [by split; [|split; [|apply D]]|by apply Hcp].
Qed.

Lemma readFromAFS_reads c w p data v :
  client_ok c w → svc_known w p → svc_file w p = Some (data, v) → local_free c p → coherent c p data v →
  seq_ok (reqSeq c + 1) →
  ∃ c' w', readFromAFS no_faults p c w =
      Ret (if decide (data = []) then Err ("empty or missing file " +:+ p) else Ok data, c', w') ∧ client_ok c' w' ∧ same_client c c' ∧
    reqSeq c' = (reqSeq c + 1)%Z ∧ svc_effect (clientId c) [] w w'.
Proof.
  intros Hok Hn Hf Hl Hco Hs.
  destruct (readFromAFS_sees c w p data v data Hok Hn Hf Hl (coherent_sees _ _ _ _ Hco) Hs) as (c' & w' & E & H1 & H2 & H3 & H4 & _).
  by exists c', w'.
Qed.

Lemma readFromAFS_ok c w p data v :
  client_ok c w → svc_known w p → svc_file w p = Some (data, v) → local_free c p → coherent c p data v →
  seq_ok (reqSeq c + 1) → data ≠ [] →
  ∃ c' w', readFromAFS no_faults p c w = Ret (Ok data, c', w') ∧ client_ok c' w' ∧ same_client c c' ∧
    reqSeq c' = (reqSeq c + 1)%Z ∧ svc_effect (clientId c) [] w w'.
Proof.
  intros Hok Hn Hf Hl Hco Hs Hne. destruct (readFromAFS_reads c w p data v Hok Hn Hf Hl Hco Hs) as (c' & w' & E & H).
  rewrite decide_False in E by done. by exists c', w'.
Qed.

End Whole.
