(* ===== verification/ClientStart.v ===== *)
(** * A client from its start

    What [NewClient] and opening a missing file do on a service that keeps its
    laws: the steps with which the worker and the coordinator begin. *)

From S2P Require Import Prelude GoLib GoText Disk AfsProto Server Cache Client AfsSpec SnapshotIO.

Section Start.
  Context {W : Type} `{!AfsService W, !AfsView W, !AfsLaws W}.

(** The client that [NewClient] returns when the first server is primary. *)
Definition fresh_client (a : string) (rest : list string) (dir cid : string) (d : Disk) : Client :=
  mkClient (Some a) (mkCache dir ∅ ∅ 0) cid 0 (a :: rest) a d.

Lemma NewClient_ok a rest dir cid d d1 (w : W) :
  svc_user (W := W) cid → svc_past w → svc_ready w a → svc_unused w cid 0 → os_MkdirAll no_faults d dir = (None, d1) → disk_wf d1 →
  ∃ w', NewClient no_faults (a :: rest) dir cid d w = (Ok (fresh_client a rest dir cid d1), d1, w') ∧
    client_ok (fresh_client a rest dir cid d1) w' ∧ call_reads w w'.
Proof.
  intros Hus Hpast Hr Hu Hd Hwf. unfold NewClient, newCacheManager. rewrite Hd. unfold connectToPrimary.
  destruct (law_connect w a Hr) as (Hne & Hdial & (w1 & Hg & Hk1) & _).
  destruct (law_connect w1 a (proj1 Hk1 a Hr)) as (_ & _ & _ & r & w' & Hh & Hk2).
  assert (Hk : call_reads w w') by by etrans.
  cbn [serverAddrs connect_loop]. rewrite Hdial, Hg, decide_False, Hdial, Hh by done.
  exists w'. split; [done|]. split; [|done]. split; simpl.
  - exists a. split; [done|by apply Hk].
  - by apply Hk.
  - split; lia.
  - done.
  - done.
  - by apply Hk.
Qed.

Lemma fresh_client_coherent a rest dir cid d p data v : coherent (fresh_client a rest dir cid d) p data v.
Proof. intros e He. simpl in He. by rewrite lookup_empty in He. Qed.

(** A text without the letter y does not say "not primary". *)
Lemma has_prefix_elem p l x : has_prefix p l = true → x ∈ p → x ∈ l.
Proof.
  revert l. induction p as [|a p IH]; intros [|b l]; simpl; [set_solver..|].
  intros [->%bool_decide_eq_true H]%andb_true_iff Hx. apply elem_of_cons in Hx as [->|Hx]; [by left|].
  right. by apply IH.
Qed.

Lemma contains_bytes_elem p l x : contains_bytes p l = true → x ∈ p → x ∈ l.
Proof.
  induction l as [|b l IH]; simpl; intros H Hx; apply orb_true_iff in H as [H|H]; try done.
  - by eapply has_prefix_elem.
  - by eapply (has_prefix_elem p (b :: l)).
  - right. by apply IH.
Qed.

Lemma not_primary_free s : "y"%char ∉ s2b s → Contains s "not primary" = false.
Proof.
  intros Hs. destruct (Contains s "not primary") eqn:E; [|done]. exfalso. apply Hs.
  eapply contains_bytes_elem; [exact E|]. apply (bool_decide_unpack _). by vm_compute.
Qed.

(** Opening a file that is not there fails at once and uses one number. *)
Lemma client_Open_missing c (w : W) p write :
  client_ok c w → svc_known w p → svc_file w p = None → seq_ok (reqSeq c + 1) → "y"%char ∉ s2b p →
  ∃ e w', client_Open no_faults p write c w = (Err e, set_seq (reqSeq c + 1) c, w') ∧ call_reads w w' ∧
    client_ok (set_seq (reqSeq c + 1) c) w'.
Proof.
  intros [(a & Hc & Hr) Hu Hs Hwf Hus Hpast] Hn Hf Hs' Hy. unfold client_Open. rewrite seq_next by done.
  destruct (law_open_missing w a (clientId c) (reqSeq c) p write Hr Hu Hs Hn Hf) as (w' & E & Hk).
  unfold retryWithFailover. cbn [failover_loop]. unfold on_conn at 1. cbn [grpcConn set_seq clientId]. rewrite Hc, E.
  cbn [op_Error]. rewrite not_primary_free.
  - cbn [op_Error]. rewrite decide_True by done. eexists _, w'. split; [done|]. split; [done|].
    apply (client_ok_reads _ w); [done|]. split; [by exists a| |done..].
    simpl. eapply law_unused_mono; [|exact Hu]. lia.
  - rewrite s2b_app. intros [H|H]%elem_of_app; [|done]. revert H. apply (bool_decide_unpack (("y"%char ∉ s2b "file not found: "))). by vm_compute.
Qed.

End Start.
