(* ===== verification/ClientProps.v ===== *)
(** * Properties of the AFS client *)

From S2P Require Import Prelude GoLib GoText GoPath Disk AfsProto Server Handler Cluster SyncSpec Cache Client AfsSpec AfsWorld SnapshotIO.

(** ** What a reader gets after a write *)

Section Close.
  Context {W : Type} `{!AfsService W, !AfsView W, !AfsLaws W, !AfsUnwatched W}.

(** One client writes the file as a whole; the other goes on. *)
Lemma write_beside c1 c2 (w : W) p data :
  client_ok c1 w → client_ok c2 w → clientId c1 ≠ clientId c2 → svc_name w p → local_free c1 p →
  (reqSeq c1 + 3 < 2 ^ 63 - 1)%Z → data ≠ [] →
  ∃ c1' w1, writeToAFS no_faults p data c1 w = (None, c1', w1) ∧ svc_file w1 p = Some (data, 2%Z) ∧
    client_ok c1' w1 ∧ client_ok c2 w1 ∧ same_client c1 c1' ∧ reqSeq c1' = (reqSeq c1 + 3)%Z ∧
    svc_effect (clientId c1) [p] w w1.
Proof using All.
  intros Hok1 Hok2 Hid Hn Hl1 Hs1 Hne.
  destruct (writeToAFS_two c1 w p data Hok1 Hn (may_write_any _ _) Hl1 Hs1 Hne) as (c1' & w1 & E1 & Hok1' & Hsame & Hf & Heff & Hq & _).
  exists c1', w1. split; [done|]. split; [done|]. split; [done|].
  split; [by eapply client_ok_effect; [exact Heff|congruence|]|done].
Qed.

(** The other reads what it sees of the file, and then has a copy of that. *)
Lemma read_beside c1 c2 (w w1 : W) p data v x :
  client_ok c2 w1 → svc_effect (clientId c1) [p] w w1 → svc_name w p → svc_file w1 p = Some (data, v) → local_free c2 p →
  reader_sees c2 p data v = Some x → seq_ok (reqSeq c2 + 1) → x ≠ [] →
  ∃ c2' w2, readFromAFS no_faults p c2 w1 = Ret (Ok x, c2', w2) ∧ client_ok c2' w2 ∧ same_client c2 c2' ∧
    reqSeq c2' = (reqSeq c2 + 1)%Z ∧ svc_effect (clientId c2) [] w1 w2 ∧ (data ≠ [] → (0 < v)%Z → holds_copy c2' p x v) ∧
    ∀ m, svc_known w m → m ≠ p → svc_file w2 m = svc_file w m.
Proof using All.
  intros Hok Heff Hn Hf Hl Hx Hs Hne. pose proof (eff_known _ _ _ _ Heff p (law_name_known w p Hn)) as Hkn.
  destruct (readFromAFS_sees c2 w1 p data v x Hok Hkn Hf Hl Hx Hs) as (c2' & w2 & E & Hok2 & Hsame & Hq & He & Hcp).
  rewrite decide_False in E by done. exists c2', w2. repeat (split; [done|]). intros m Hm Hmp.
  rewrite (eff_file _ _ _ _ He m) by (set_solver || by apply Heff).
  apply (eff_file _ _ _ _ Heff m Hm). set_solver.
Qed.

End Close.

(** C13: over any file service that keeps the laws, when one client writes a file
    as a whole (delete, create, write, close) with content that is not empty, the
    file has this content and version 2, whatever was there before, and other
    files are not changed.  Another client that then reads the file to the end
    gets what was written, if it holds no copy of the file or one of another
    version than 2; if it holds a copy under version 2, it gets that copy. *)
Theorem written_file_is_read {W} `{!AfsService W, !AfsView W, !AfsLaws W, !AfsUnwatched W} c1 c2 (w : W) p data :
  client_ok c1 w → client_ok c2 w → clientId c1 ≠ clientId c2 → svc_name w p →
  local_free c1 p → local_free c2 p →
  (reqSeq c1 + 3 < 2 ^ 63 - 1)%Z → seq_ok (reqSeq c2 + 1) → data ≠ [] →
  ∃ c1' w1, writeToAFS no_faults p data c1 w = (None, c1', w1) ∧ svc_file w1 p = Some (data, 2%Z) ∧
    (isCached p (cache c2) ≠ Some 2%Z → ∃ c2' w2, readFromAFS no_faults p c2 w1 = Ret (Ok data, c2', w2) ∧
       ∀ m, svc_known w m → m ≠ p → svc_file w2 m = svc_file w m) ∧
    ∀ x, holds_copy c2 p x 2 → x ≠ [] → ∃ c2' w2, readFromAFS no_faults p c2 w1 = Ret (Ok x, c2', w2) ∧
       ∀ m, svc_known w m → m ≠ p → svc_file w2 m = svc_file w m.
Proof.
  intros Hok1 Hok2 Hid Hn Hl1 Hl2 Hs1 Hs2 Hne.
  destruct (write_beside c1 c2 w p data Hok1 Hok2 Hid Hn Hl1 Hs1 Hne) as (c1' & w1 & E1 & Hf & _ & Hok2' & _ & _ & Heff).
  assert (Hread : ∀ x, reader_sees c2 p data 2 = Some x → x ≠ [] → ∃ c2' w2,
    readFromAFS no_faults p c2 w1 = Ret (Ok x, c2', w2) ∧ ∀ m, svc_known w m → m ≠ p → svc_file w2 m = svc_file w m).
  { intros x Hx Hx0. destruct (read_beside c1 c2 w w1 p data 2 x Hok2' Heff Hn Hf Hl2 Hx Hs2 Hx0) as (c2' & w2 & E2 & _ & _ & _ & _ & _ & H).
    by exists c2', w2. }
  exists c1', w1. split; [done|]. split; [done|]. split.
  - intros Hv. apply Hread; [|done]. unfold reader_sees. by rewrite decide_False.
  - intros x Hx. by apply Hread, holds_copy_sees.
Qed.

(** C14: a rewritten file is read as it was before: one client writes a file,
    another, which holds no copy of version 2, reads it, the first writes other
    content, and the second reads the old content again.  Deleting the file lost
    its version, so that both contents have version 2, and [TestAuth] confirms
    the old copy. *)
Theorem rewritten_file_reads_stale {W} `{!AfsService W, !AfsView W, !AfsLaws W, !AfsUnwatched W} c1 c2 (w : W) p old new :
  client_ok c1 w → client_ok c2 w → clientId c1 ≠ clientId c2 → svc_name w p → local_free c1 p → local_free c2 p →
  isCached p (cache c2) ≠ Some 2%Z → (reqSeq c1 + 6 < 2 ^ 63 - 1)%Z → (reqSeq c2 + 2 < 2 ^ 63 - 1)%Z → old ≠ [] → new ≠ [] →
  ∃ c1a w1 c2a w2 c1b w3 c2b w4,
    writeToAFS no_faults p old c1 w = (None, c1a, w1) ∧ readFromAFS no_faults p c2 w1 = Ret (Ok old, c2a, w2) ∧
    writeToAFS no_faults p new c1a w2 = (None, c1b, w3) ∧ svc_file w3 p = Some (new, 2%Z) ∧
    readFromAFS no_faults p c2a w3 = Ret (Ok old, c2b, w4).
Proof.
  intros Hok1 Hok2 Hid Hn Hl1 Hl2 Hv Hs1 Hs2 Ho Hne. pose proof (ok_seq _ _ Hok1) as [H01 _]. pose proof (ok_seq _ _ Hok2) as [H02 _].
  destruct (write_beside c1 c2 w p old) as (c1a & w1 & E1 & Hf1 & Hok1a & Hok21 & Hsame1 & Hq1 & Heff1); [done..|lia|done|].
  destruct (read_beside c1 c2 w w1 p old 2 old Hok21 Heff1 Hn Hf1 Hl2) as (c2a & w2 & E2 & Hok2a & Hsame2 & Hq2 & Heff2 & Hcp & _);
    [unfold reader_sees; by rewrite decide_False|split; lia|done|].
  assert (I1 : clientId c1a = clientId c1) by by destruct Hsame1 as (_ & ? & _).
  assert (I2 : clientId c2a = clientId c2) by by destruct Hsame2 as (_ & ? & _).
  assert (Hn2 : svc_name w2 p) by by apply Heff2, Heff1.
  destruct (write_beside c1a c2a w2 p new) as (c1b & w3 & E3 & Hf3 & _ & Hok23 & _ & _ & Heff3);
    [by eapply client_ok_effect; [exact Heff2|congruence|]|done|congruence|done|by eapply same_client_free|lia|done|].
  destruct (read_beside c1a c2a w2 w3 p new 2 old Hok23 Heff3 Hn2 Hf3) as (c2b & w4 & E4 & _);
    [by eapply same_client_free|apply holds_copy_sees; by apply Hcp|split; lia|done|].
  exists c1a, w1, c2a, w2, c1b, w3, c2b, w4. by repeat (split; [done|]).
Qed.

(** a client that writes a file and reads it back gets what it wrote, from
    its cache, whose copy the server confirms. *)
Theorem own_write_is_read {W} `{!AfsService W, !AfsView W, !AfsLaws W, !AfsUnwatched W} c (w : W) p data :
  client_ok c w → svc_name w p → local_free c p → (reqSeq c + 4 < 2 ^ 63 - 1)%Z → data ≠ [] →
  ∃ c1 w1 c2 w2, writeToAFS no_faults p data c w = (None, c1, w1) ∧
    readFromAFS no_faults p c1 w1 = Ret (Ok data, c2, w2).
Proof.
  intros Hok Hn Hl Hs Hne. pose proof (ok_seq _ _ Hok) as [Hs0 _].
  destruct (writeToAFS_ok c w p data Hok Hn (may_write_any _ _) Hl) as
    (v & c1 & w1 & E1 & Hok1 & Hsame & Hf & Heff & Hq & Hco); [lia|done|].
  destruct (readFromAFS_ok c1 w1 p data v Hok1 (eff_known _ _ _ _ Heff p (law_name_known w p Hn)) Hf) as (c2 & w2 & E2 & _);
    [by eapply same_client_free|done|split; lia|done|].
  by exists c1, w1, c2, w2.
Qed.

(** reading a whole file terminates, whatever the service answers and
    whatever fails on the local disk. *)
Theorem readFromAFS_terminates flt {W} `{!AfsService W} p c (w : W) :
  ∃ r c' w', readFromAFS flt p c w = Ret (r, c', w').
Proof.
  unfold readFromAFS. destruct (client_Open flt p false c w) as [[[h|e] c1] w1]; [|by eauto].
  unfold read_to_end.
  destruct (read_loop_returns flt (Z.to_nat 32768) h (S (length (remaining h c1))) c1)
    as (data & e & c2 & ->); [lia|lia|]. go_step.
  destruct (client_Close flt h c2 w1) as [[e' c3] w3]. eauto.
Qed.

(** ** Retries *)

Lemma failover_loop_spec {A W} `{!AfsService W} n first lastErr (fn : Client → W → result A * W) app c w r c' w' :
  failover_loop n first lastErr fn app c w = (Ok r, c', w') →
  Contains (app r) "not primary" = false ∧ ∃ w0, fn c' w0 = (Ok r, w').
Proof.
  revert first lastErr c w. induction n as [|n IH]; intros first lastErr c w; simpl; [done|].
  set (w0 := if first then w else svc_sleep w). destruct (fn c w0) as [[r0|e] w1] eqn:E.
  - destruct (Contains (app r0) "not primary") eqn:Hc.
    + destruct (reconnectToPrimary c w1) as [[b c1] w2]. apply IH.
    + intros [= <- <- <-]. split; [done|]. by exists w0.
  - destruct (reconnectToPrimary c w1) as [[b c1] w2]. apply IH.
Qed.

(** A reply that [retryWithFailover] returns was given on the connection
    the client holds afterwards, and is not a refusal by a server that is not
    primary. *)
Theorem failover_returns_primary_reply {A W} `{!AfsService W} (fn : Client → W → result A * W) app c w r c' w' :
  retryWithFailover fn app c w = (Ok r, c', w') →
  Contains (app r) "not primary" = false ∧ ∃ w0, fn c' w0 = (Ok r, w').
Proof. apply failover_loop_spec. Qed.

(** C37: when every server answers a store without messages with an error, as
    [StoreFile] does, a dirty file that is empty cannot be closed: the client
    sends no message and [Close] fails after all its retries. *)
Theorem closing_empty_file_fails {W} `{!AfsService W} c (w : W) id p :
  (∀ a w resp w', svc_StoreFile a [] None w = (Ok resp, w') → sp_Error resp ≠ "") →
  editing c id p [] true →
  ∃ e c' w', client_Close no_faults id c w = (Some e, c', w').
Proof.
  intros Hsrv (e & He & Hp & Hd & (Hn & _ & _ & _ & Hcont) & _).
  unfold client_Close, closeFile. rewrite He. cbv beta iota zeta. rewrite Hd, Hp.
  cbn [reqSeq set_cache]. set (c1 := set_seq _ _).
  destruct (store_empty_fails p (i64 (reqSeq c + 1)) 0%Z c1 w) as (err & s' & c' & w' & -> & _); [exact Hsrv| |by eauto].
  unfold read_file. unfold localPath in *. simpl. by rewrite Hn, Hcont.
Qed.

(** ** The cached copy changes at once *)

Lemma fetch_loop_spec flt ms rend fd tmp ver d got e v d' :
  disk_wf d → writing d fd tmp got → fetch_loop flt ms rend fd tmp ver d = (e, v, d') →
  disk_wf d' ∧ same_except tmp d d' ∧
  (e = None → rend = None ∧ Forall (λ m, fp_Error m = "") ms ∧
     ∃ fd', writing d' fd' tmp (got ++ concat (fp_Data <$> ms))).
Proof.
  revert fd ver d got. induction ms as [|m ms IH]; intros fd ver d got Hwf Hw E; simpl in E.
  - destruct rend as [x|]; injection E as <- <- <-.
    + destruct (os_Remove flt d tmp) as [r d1] eqn:Er. simpl.
      destruct (os_Remove_spec _ _ _ _ _ Hwf Er) as [? _]. split; [done|]. split; [by eapply os_Remove_same|done].
    + rewrite app_nil_r. split; [done|]. split; [done|]. intros _. split; [done|]. split; [done|]. by exists fd.
  - assert (Hrm : ∀ d1, disk_wf d1 → same_except tmp d d1 →
      disk_wf (os_Remove flt d1 tmp).2 ∧ same_except tmp d (os_Remove flt d1 tmp).2).
    { intros d1 Hwf1 Hs1. destruct (os_Remove flt d1 tmp) as [r d2] eqn:Er. simpl.
      destruct (os_Remove_spec _ _ _ _ _ Hwf1 Er) as [? _]. split; [done|].
      eapply same_except_trans; [exact Hs1|]. by eapply os_Remove_same. }
    case_decide as He.
    { injection E as <- <- <-. destruct (Hrm d Hwf (same_except_refl _ _)). by split_and!. }
    unfold fetch_write in E. destruct (fp_Data m) as [|x l] eqn:Hm.
    + destruct (IH _ _ _ _ Hwf Hw E) as (H1 & H2 & H3). split; [done|]. split; [done|].
      intros Hn. destruct (H3 Hn) as (? & ? & fd' & Hw'). split; [done|]. split; [|exists fd'; by simpl; rewrite Hm].
      constructor; [|done]. destruct (decide (fp_Error m = "")); [done|]. by destruct He.
    + destruct (fd_Write flt d fd (x :: l)) as [[fd1|x1] d1] eqn:Ew.
      * destruct (fd_Write_spec _ _ _ _ _ _ _ _ Hwf Hw Ew) as (Hwf1 & Hw1 & _ & _).
        pose proof (fd_Write_same _ _ _ _ _ _ _ _ Hwf Hw Ew) as Hs1.
        destruct (IH _ _ _ _ Hwf1 Hw1 E) as (H1 & H2 & H3). split; [done|].
        split; [by eapply same_except_trans|]. intros Hn. destruct (H3 Hn) as (? & ? & fd' & Hw').
        split; [done|]. split; [|exists fd'; simpl; rewrite Hm; by rewrite <- app_assoc in Hw'].
        constructor; [|done]. destruct (decide (fp_Error m = "")); [done|]. by destruct He.
      * injection E as <- <- <-. apply fd_Write_err in Ew. subst d1.
        destruct (Hrm d Hwf (same_except_refl _ _)). by split_and!.
Qed.

(** C30: a fetch replaces the cached copy only by the complete content of a
    stream that ended without an error; when anything fails, on the server, on
    the stream or on the local disk, the cached copy is what it was. *)
Theorem fetch_all_or_nothing flt {W} `{!AfsService W} p ver c (w : W) e v c' w' :
  disk_wf (cdisk c) → fetch_attempt flt p ver c w = (e, v, c', w') →
  let local := localPath p (cache c) in
  cache c' = cache c ∧ disk_wf (cdisk c') ∧
  (e = None ∧ (∃ a ms w0, svc_FetchFile a (mkFetchFileRequest p) w = (Ok (mkRecv ms None), w0) ∧
      Forall (λ m, fp_Error m = "") ms ∧
      read_file (cdisk c') local = Some (concat (fp_Data <$> ms))) ∨
   e ≠ None ∧ read_file (cdisk c') local = read_file (cdisk c) local).
Proof.
  intros Hwf. unfold fetch_attempt, on_conn. destruct (grpcConn c) as [a|].
  2: { intros [= <- <- <- <-]. split; [done|]. split; [done|]. by right. }
  destruct (svc_FetchFile a _ w) as [[[ms rend]|x] w0] eqn:Es.
  2: { intros [= <- <- <- <-]. split; [done|]. split; [done|]. by right. }
  cbn [msgs recv_end]. set (local := localPath p (cache c)).
  destruct (os_Create flt (cdisk c) (local +:+ ".tmp")) as [[fd|x] d] eqn:Ec.
  2: { apply os_Create_err in Ec. subst d. intros [= <- <- <- <-]. split; [done|]. split; [done|]. by right. }
  destruct (os_Create_spec _ _ _ _ _ Hwf Ec) as (Hwf1 & Hw1 & _).
  pose proof (os_Create_same _ _ _ _ _ Hwf Ec) as Hs1.
  assert (Hne : local ≠ local +:+ ".tmp") by (intros E; symmetry in E; by apply (tmp_ne local)).
  destruct (fetch_loop flt ms rend fd _ ver d) as [[e1 v1] d1] eqn:Ef.
  destruct (fetch_loop_spec _ _ _ _ _ _ _ _ _ _ _ Hwf1 Hw1 Ef) as (Hwf2 & Hs2 & Hok).
  assert (Hsame : read_file d1 local = read_file (cdisk c) local).
  { destruct (Hs2 local Hne) as [-> _]. by destruct (Hs1 local Hne) as [-> _]. }
  destruct e1 as [x|].
  { intros [= <- <- <- <-]. split; [done|]. split; [done|]. by right. }
  destruct (os_Rename flt d1 (local +:+ ".tmp") local) as [e2 d2] eqn:Er. intros [= <- <- <- <-].
  destruct (os_Rename_spec _ _ _ _ _ _ Hwf2 (tmp_ne local) Er) as [Hwf3 He].
  split; [done|]. split; [done|]. destruct e2 as [x|].
  - right. subst d2. by split.
  - left. split; [done|]. destruct (Hok eq_refl) as (-> & Herr & fd' & Hn & _ & _ & _ & Hc).
    exists a, ms, w0. split; [done|]. split; [done|]. destruct He as [_ He].
    simpl. rewrite He, decide_True by done. unfold read_file. by rewrite Hn, Hc.
Qed.

(** ** Witnesses: two clients of one primary *)

#[export] Instance nowhere : PeerNet unit := { net_Replicate _ _ _ n := (Err "no such peer", n) }.

Definition world_disk : Disk := (os_MkdirAll no_faults (os_MkdirAll no_faults empty_disk "in").2 "out").2.
Definition world_server : Handler :=
  mkHandler "in" "out" ∅ ∅ 0 ∅ "s1" "s1:1" true "s1:1" [] 0 false world_disk.
Definition demo_world : World unit := mkWorld "s1:1" no_faults true 0 world_server tt.
Definition demo_client (id dir : string) : Client :=
  mkClient (Some "s1:1") (mkCache dir ∅ ∅ 0) id 0 ["s1:1"] "s1:1" empty_disk.

Lemma world_disk_wf : disk_wf world_disk.
Proof.
  repeat (eapply os_MkdirAll_spec; [|apply surjective_pairing]). apply disk_wf_empty.
Qed.

Lemma slash_not_safe (b : string) : safe_name b → slash ∉ s2b b.
Proof. intros (_ & _ & _ & H). exact H. Qed.

Lemma demo_dirs dir b : dir = "in" ∨ dir = "out" → safe_name b → names world_disk !! PathJoin dir b = None.
Proof.
  intros Hdir Hb. change (names world_disk) with (<["out" := DDir]> ({["in" := DDir]} : gmap string dirent)).
  rewrite PathJoin_safe by done.
  rewrite lookup_insert_ne, lookup_singleton_ne; [done|..]; destruct Hdir as [-> | ->]; intros E;
    apply (f_equal s2b) in E; rewrite s2b_app in E; by vm_compute in E.
Qed.

Lemma demo_apart b b' : safe_name b → safe_name b' → PathJoin "in" b ≠ PathJoin "out" b'.
Proof.
  intros Hb Hb' E. rewrite !PathJoin_safe in E by done. apply (f_equal s2b) in E. rewrite !s2b_app in E.
  by vm_compute in E.
Qed.

Lemma demo_world_ready : world_ready demo_world "s1:1".
Proof.
  split; [done|]. split; [done|]. split; [done|]. split; [done|]. split; [|split; [|split; [|done]]].
  - split; [apply world_disk_wf|]. intros b Hb. change (out_name (wd_srv demo_world) b) with (PathJoin "out" b).
    change (disk (wd_srv demo_world)) with world_disk. rewrite demo_dirs by (done || by right). done.
  - intros b b' Hb Hb'. by apply demo_apart.
  - intros b Hb. change (disk (wd_srv demo_world)) with world_disk. rewrite demo_dirs by (done || by left). done.
Qed.

Lemma demo_client_ok id dir : client_ok (demo_client id dir) demo_world.
Proof.
  split; [exists "s1:1"; split; [done|apply demo_world_ready]|done|split; simpl; lia|apply disk_wf_empty|done..].
Qed.

Lemma demo_client_free id dir p : local_free (demo_client id dir) p.
Proof. by split. Qed.

Definition snap_name : string := "snapshot_coordinator.json".
Lemma demo_svc_name : svc_name demo_world snap_name.
Proof.
  split; [|done]. split; [decide_now|]. intros b' E. apply (f_equal (λ s, rev (s2b s))) in E.
  rewrite s2b_app, rev_app_distr in E. by vm_compute in E.
Qed.

(** The second client: once without a copy, and once with an old one. *)
Definition copy_client : Client :=
  mkClient (Some "s1:1") (mkCache "/tmp/2" {[snap_name := mkCacheEntry "/tmp/2/snapshot_coordinator.json" 2]} ∅ 0) "c2" 0
    ["s1:1"] "s1:1" (set_content (new_file empty_disk "/tmp/2/snapshot_coordinator.json") 0 (s2b "old")).

Lemma copy_client_ok : client_ok copy_client demo_world.
Proof.
  destruct (demo_client_ok "c2" "/tmp/2") as [H1 H2 H3 _ H5 H6].
  split; [exact H1|exact H2|exact H3|apply disk_wf_set_content, disk_wf_new_file, disk_wf_empty|exact H5|exact H6].
Qed.

Lemma written_file_is_read_witness :
  (∃ c1' w1 c2' w2,
    writeToAFS no_faults snap_name (s2b "{}") (demo_client "c1" "/tmp/1") demo_world = (None, c1', w1) ∧
    readFromAFS no_faults snap_name (demo_client "c2" "/tmp/2") w1 = Ret (Ok (s2b "{}"), c2', w2)) ∧
  ∃ c1' w1 c2' w2,
    writeToAFS no_faults snap_name (s2b "{}") (demo_client "c1" "/tmp/1") demo_world = (None, c1', w1) ∧
    readFromAFS no_faults snap_name copy_client w1 = Ret (Ok (s2b "old"), c2', w2).
Proof.
  split.
  - destruct (written_file_is_read (demo_client "c1" "/tmp/1") (demo_client "c2" "/tmp/2") demo_world snap_name
      (s2b "{}") (demo_client_ok _ _) (demo_client_ok _ _)) as (c1' & w1 & E1 & _ & H & _);
      [done|apply demo_svc_name|apply demo_client_free..|done|split; simpl; lia|done|].
    destruct H as (c2' & w2 & E2 & _); [done|]. exists c1', w1, c2', w2. split; [exact E1|exact E2].
  - destruct (written_file_is_read (demo_client "c1" "/tmp/1") copy_client demo_world snap_name
      (s2b "{}") (demo_client_ok _ _) copy_client_ok) as (c1' & w1 & E1 & _ & _ & H);
      [done|apply demo_svc_name|apply demo_client_free|split; vm_compute; discriminate|done|split; simpl; lia|done|].
    destruct (H (s2b "old")) as (c2' & w2 & E2 & _); [split; vm_compute; reflexivity|done|].
    exists c1', w1, c2', w2. split; [exact E1|exact E2].
Defined.

Lemma rewritten_file_reads_stale_witness :
  ∃ c1a w1 c2a w2 c1b w3 c2b w4,
    writeToAFS no_faults snap_name (s2b "old") (demo_client "c1" "/tmp/1") demo_world = (None, c1a, w1) ∧
    readFromAFS no_faults snap_name (demo_client "c2" "/tmp/2") w1 = Ret (Ok (s2b "old"), c2a, w2) ∧
    writeToAFS no_faults snap_name (s2b "NEW") c1a w2 = (None, c1b, w3) ∧ svc_file w3 snap_name = Some (s2b "NEW", 2%Z) ∧
    readFromAFS no_faults snap_name c2a w3 = Ret (Ok (s2b "old"), c2b, w4).
Proof.
  exact (rewritten_file_reads_stale (demo_client "c1" "/tmp/1") (demo_client "c2" "/tmp/2") demo_world snap_name (s2b "old")
    (s2b "NEW") (demo_client_ok _ _) (demo_client_ok _ _) ltac:(done) demo_svc_name (demo_client_free _ _ _)
    (demo_client_free _ _ _) ltac:(done) ltac:(simpl; lia) ltac:(simpl; lia) ltac:(done) ltac:(done)).
Defined.

Lemma own_write_is_read_witness :
  ∃ c1 w1 c2 w2,
    writeToAFS no_faults snap_name (s2b "{}") (demo_client "c1" "/tmp/1") demo_world = (None, c1, w1) ∧
    readFromAFS no_faults snap_name c1 w1 = Ret (Ok (s2b "{}"), c2, w2).
Proof.
  apply (own_write_is_read (demo_client "c1" "/tmp/1") demo_world snap_name (s2b "{}") (demo_client_ok _ _)
    demo_svc_name (demo_client_free _ _ _)); [simpl; lia|done].
Defined.

Lemma failover_returns_primary_reply_witness :
  let fn (c : Client) (w : World unit) : result Z * World unit := (Ok 7%Z, w) in
  retryWithFailover fn (λ _, "") (demo_client "c1" "/tmp/1") demo_world =
    (Ok 7%Z, demo_client "c1" "/tmp/1", demo_world) ∧
  Contains "" "not primary" = false.
Proof.
  intros fn. assert (E : retryWithFailover fn (λ _, "") (demo_client "c1" "/tmp/1") demo_world =
    (Ok 7%Z, demo_client "c1" "/tmp/1", demo_world)) by reflexivity.
  split; [exact E|].
  exact (proj1 (failover_returns_primary_reply fn (λ _, "") (demo_client "c1" "/tmp/1") demo_world 7%Z _ _ E)).
Defined.

Definition demo_editor : Client :=
  mkClient (Some "s1:1")
    (mkCache "/tmp/1" {["p" := mkCacheEntry "/tmp/1/p" 1]}
       {[1%Z := mkOpenEntry (mkFd 0 0 "/tmp/1/p" true) true 1 "p"]} 1) "c1" 1 ["s1:1"] "s1:1"
    (new_file empty_disk "/tmp/1/p").

Lemma closing_empty_file_fails_witness :
  editing demo_editor 1 "p" [] true ∧
  ∃ e c' w', client_Close no_faults 1 demo_editor demo_world = (Some e, c', w').
Proof.
  assert (He : editing demo_editor 1 "p" [] true).
  { eexists. split; [reflexivity|]. split; [done|]. split; [done|]. split; [by split_and!|by eexists]. }
  split; [exact He|].
  exact (closing_empty_file_fails demo_editor demo_world 1 "p" (λ a w, world_store_empty w a) He).
Defined.

Lemma fetch_all_or_nothing_witness :
  let c := demo_client "c1" "/tmp/1" in
  ∃ e v c' w', fetch_attempt no_faults snap_name 0 c demo_world = (e, v, c', w') ∧
    read_file (cdisk c') "/tmp/1/snapshot_coordinator.json" = None.
Proof.
  intros c. destruct (fetch_attempt no_faults snap_name 0 c demo_world) as [[[e v] c'] w'] eqn:E.
  destruct (fetch_all_or_nothing no_faults snap_name 0 c demo_world e v c' w' disk_wf_empty E)
    as (_ & _ & [(-> & a & ms & w0 & Ems & Hms & _)|[_ H]]).
  - exfalso. assert (Hn : (fetch_attempt no_faults snap_name 0 c demo_world).1.1.1 ≠ None) by by vm_compute.
    by rewrite E in Hn.
  - exists e, v, c', w'. split; [exact eq_refl|]. exact H.
Defined.
