(* ===== verification/Replicas.v ===== *)
(** * All servers of the file service

    [Replicas] are the servers that are up, each with its failures, its link
    and its handlers' state.  A call to an address reaches the server there, for
    which the others are the network it replicates to; [GetPrimary] asks other
    servers in turn (Election.v).  A server whose handler panics is gone. *)

From S2P Require Import Prelude GoLib GoText GoPath Disk AfsProto Server Handler HandlerSpec Service Cluster SyncSpec Election Cache Client AfsSpec AfsWorld.

Record Replicas := mkReplicas {
  rp_nodes : gmap string Node;
  rp_now : Z;
}.

(** The server at [a], and the others as its network. *)
Definition as_world (a : string) (nd : Node) (r : Replicas) : World (gmap string Node) :=
  mkWorld a (node_flt nd) true (rp_now r) (node_srv nd) (delete a (rp_nodes r)).

Definition from_world (a : string) (nd : Node) (w : World (gmap string Node)) : Replicas :=
  mkReplicas
    (if wd_up w then <[a := mkNode (node_flt nd) (node_cut nd) (wd_srv w)]> (wd_net w) else wd_net w)
    (wd_now w).

Definition at_node {A} (a : string) (f : World (gmap string Node) → result A * World (gmap string Node))
    (r : Replicas) : result A * Replicas :=
  match rp_nodes r !! a with
  | None => (Err unavailable, r)
  | Some nd => let '(x, w) := f (as_world a nd r) in (x, from_world a nd w)
  end.

(** The states of the handlers, for the calls between servers. *)
Definition servers (r : Replicas) : Servers := node_srv <$> rp_nodes r.

Definition set_server (cl : Servers) (a : string) (nd : Node) : Node :=
  mkNode (node_flt nd) (node_cut nd) (default (node_srv nd) (cl !! a)).

Definition set_servers (cl : Servers) (r : Replicas) : Replicas :=
  mkReplicas (map_imap (λ a nd, Some (set_server cl a nd)) (rp_nodes r)) (rp_now r).

Definition deadline_exceeded : string := "rpc error: context deadline exceeded".

(** At most [fuel] nested [GetPrimary] calls fit into the deadline. *)
Definition replicas_service (fuel : nat) : AfsService Replicas := {|
  svc_GetPrimary a r :=
    let '(x, cl) := GetPrimary fuel (λ _, true) a (servers r) in
    (match x with Replied p => Ok p | Failed => Err unavailable | Deadline => Err deadline_exceeded end,
     set_servers cl r);
  svc_Heartbeat a req := at_node a (svc_Heartbeat a req);
  svc_Open a req := at_node a (svc_Open a req);
  svc_TestAuth a req := at_node a (svc_TestAuth a req);
  svc_FetchFile a req := at_node a (svc_FetchFile a req);
  svc_StoreFile a reqs err := at_node a (svc_StoreFile a reqs err);
  svc_CreateFile a req := at_node a (svc_CreateFile a req);
  svc_DeleteFile a req := at_node a (svc_DeleteFile a req);
  svc_CloseFile a req := at_node a (svc_CloseFile a req);
  svc_dial _ := true;
  svc_sleep r := r;
|}.

(** A server dies. *)
Definition dies_at (a : string) (r : Replicas) : Replicas := mkReplicas (delete a (rp_nodes r)) (rp_now r).

(** The monitor of the server at [b] starts an election; the announcements it
    sends, and the servers after it. *)
Definition election_at (fuel : nat) (b : string) (r : Replicas)
    : list (string * AnnouncePrimaryRequest) * Replicas :=
  let '(sent, cl) := startElection fuel (λ _, true) (rp_now r) b (servers r) in (sent, set_servers cl r).

(** ** Lemmas on the state *)

Lemma servers_lookup r a : servers r !! a = node_srv <$> rp_nodes r !! a.
Proof. apply lookup_fmap. Qed.

Lemma set_servers_lookup cl r a : rp_nodes (set_servers cl r) !! a = set_server cl a <$> rp_nodes r !! a.
Proof. unfold set_servers. simpl. rewrite map_lookup_imap. by destruct (rp_nodes r !! a). Qed.

Lemma set_servers_servers cl r : dom cl = dom (rp_nodes r) → servers (set_servers cl r) = cl.
Proof.
  intros Hd. apply map_eq. intros a. rewrite servers_lookup, set_servers_lookup.
  destruct (rp_nodes r !! a) as [nd|] eqn:Hn; simpl.
  - assert (Ha : a ∈ dom cl) by (rewrite Hd; by eapply elem_of_dom_2). apply elem_of_dom in Ha as [h Hh]. by rewrite Hh.
  - symmetry. apply not_elem_of_dom. rewrite Hd. by apply not_elem_of_dom.
Qed.
