(* ===== verification/ReplicasSpec.v ===== *)
(** * What calls do to the servers

    A call of a client to the primary is one of the single server's calls
    (AfsWorld.v), and to the backups it is a replicated operation: it leaves a
    [standby] server a standby.  [replicas_laws]: so the servers keep the laws of
    the file service at the address of the primary. *)

From S2P Require Import Prelude GoLib GoText GoPath Disk AfsProto Server Handler HandlerSpec Service Cluster SyncSpec Election ElectionProps Cache Client AfsSpec AfsWorld Replicas.

(** ** What replication does to a backup *)

(** The change of a server by a replicated operation on an output file. *)
Record replica_change (h h' : Handler) : Prop := {
  rc_state : h' = set_versions (versions h') (set_disk (disk h') h);
  rc_ok : srv_ok h → srv_ok h';
  rc_dirs : dirs_kept (disk h) (disk h');
  rc_inputs b : apart h → safe_name b →
    read_file (disk h') (PathJoin (inputDir h) b) = read_file (disk h) (PathJoin (inputDir h) b) ∧
    names (disk h') !! PathJoin (inputDir h) b = names (disk h) !! PathJoin (inputDir h) b;
}.

Lemma replica_change_refl h : srv_ok h → replica_change h h.
Proof. intros Hok. split; [by destruct h|done|reflexivity|done]. Qed.

Lemma Replicate_local flt c cs rend h :
  disk_wf (disk h) → local_change (outPath h (rr_Path c)) h (Replicate flt (mkRecv (c :: cs) rend) h).2.
Proof.
  intros Hwf. destruct (decide (rr_Operation c = "delete")) as [Hd|Hd].
  { rewrite Replicate_delete by done. destruct (os_Remove flt (disk h) (outPath h (rr_Path c))) as [r d] eqn:E.
    split; [done|]. split; [by apply (os_Remove_spec _ _ _ _ _ Hwf E)|]. intros q Hq _. by apply (os_Remove_same _ _ _ _ _ Hwf E). }
  destruct (decide (rr_Operation c = "create")) as [Hc|Hc].
  { rewrite Replicate_create by done. destruct (os_Create flt (disk h) (outPath h (rr_Path c))) as [[fd|e] d] eqn:E.
    - split; [done|]. split; [by apply (os_Create_spec _ _ _ _ _ Hwf E)|]. intros q Hq _. by apply (os_Create_same _ _ _ _ _ Hwf E).
    - apply os_Create_err in E. subst d. split; [done|]. by split. }
  destruct (Replicate flt (mkRecv (c :: cs) rend) h) as [r h'] eqn:E. by apply (Replicate_store flt c cs rend h r h').
Qed.

(** A stream about the file [path], which its first message names. *)
Definition first_of (path : string) (ms : list ReplicateRequest) : Prop := ∀ m, head ms = Some m → rr_Path m = path.
Definition stream_of (path : string) (s : list ReplicateRequest * error) : Prop := first_of path s.1.

Lemma Replicate_change flt s h path :
  srv_ok h → safe_name (Base path) → first_of path (msgs s) → replica_change h (Replicate flt s h).2.
Proof.
  intros Hok Hb Hs. destruct s as [[|c cs] rend].
  { unfold Replicate. simpl. destruct rend; by apply replica_change_refl. }
  pose proof (Hs c eq_refl) as Hc. destruct (Replicate_local flt c cs rend h (proj1 Hok)) as [Eh [Hwf Hq]].
  pose proof (Replicate_dirs flt (mkRecv (c :: cs) rend) h) as Hd. set (h' := (Replicate flt _ h).2) in *.
  assert (Hout : outPath h (rr_Path c) = out_name h (Base path)) by (by rewrite Hc).
  split; [exact Eh| |exact Hd|].
  - intros _. apply (srv_ok_dirs h); [done|by rewrite Eh|done|done].
  - intros b Hap Hb'. apply Hq; rewrite Hout; [by apply Hap|]. rewrite out_name_dot_tmp by done.
    apply Hap; [done|by apply safe_name_tmp].
Qed.

Lemma receive_change s nd path :
  srv_ok (node_srv nd) → safe_name (Base path) → stream_of path s →
  replica_change (node_srv nd) (node_srv (receive s nd)) ∧ node_flt (receive s nd) = node_flt nd ∧
  node_cut (receive s nd) = node_cut nd.
Proof.
  intros Hok Hb Hs. unfold receive, node_receive.
  assert (Hms : first_of path (msgs (deliver (node_cut nd) s.1 s.2))).
  { unfold deliver. destruct (node_cut nd) as [k|]; [case_decide|]; try exact Hs.
    intros m Hm. apply Hs. destruct k, s.1; done. }
  pose proof (Replicate_change (node_flt nd) _ (node_srv nd) path Hok Hb Hms) as Hc.
  by destruct (Replicate _ _ _).
Qed.

Lemma sent_stream_path flt h op path full v : stream_of path (sent_stream flt h op path full v).
Proof.
  unfold stream_of, sent_stream. intros m. case_decide; [by intros [= <-]|].
  destruct (os_Open _ _ _) as [f|e]; [|done]. destruct (read_chunks _ _ _ _) as [[|c cs] e]; [done|].
  unfold replicate_chunks. rewrite imap_cons. by intros [= <-].
Qed.

(** What a call of a client sends to the backups. *)
Definition sends (h : Handler) (net net' : gmap string Node) : Prop :=
  net' = net ∨ ∃ s path, safe_name (Base path) ∧ stream_of path s ∧ net' = alter_all (receive s) (peer_addr <$> peers h) net.

Lemma replicate_sends flt h hc op path full v net :
  safe_name (Base path) → peers hc = peers h → sends h net (replicateStreamToAll flt hc op path full v net).
Proof.
  intros Hb Hp. right. exists (sent_stream flt hc op path full v), path. split; [done|]. split; [apply sent_stream_path|].
  unfold replicateStreamToAll. by rewrite replicate_to_peers_alter, Hp.
Qed.

(** What it leaves of the primary. *)
Record primary_keeps (h h' : Handler) : Prop := {
  pk_peers : peers h' = peers h;
  pk_dirs : inputDir h' = inputDir h ∧ outputDir h' = outputDir h;
  pk_inputs b : apart h → safe_name b →
    read_file (disk h') (PathJoin (inputDir h) b) = read_file (disk h) (PathJoin (inputDir h) b);
}.

Lemma primary_keeps_same h h' :
  peers h' = peers h → inputDir h' = inputDir h → outputDir h' = outputDir h → disk h' = disk h → primary_keeps h h'.
Proof. intros H1 H2 H3 H4. split; [done|done|]. by rewrite H4. Qed.

Lemma primary_keeps_file h h' path :
  peers h' = peers h → inputDir h' = inputDir h → outputDir h' = outputDir h → safe_name (Base path) →
  only_file (outPath h path) h h' → primary_keeps h h'.
Proof.
  intros H1 H2 H3 Hb [_ Hq]. split; [done|done|]. intros b Hap Hsafe.
  apply Hq; [by apply Hap|]. change (outPath h path) with (out_name h (Base path)).
  rewrite out_name_dot_tmp by done. apply Hap; [done|by apply safe_name_tmp].
Qed.

Lemma primary_keeps_apart h h' : primary_keeps h h' → apart h → apart h'.
Proof. intros [_ [Hi Ho] _] Hap b b' Hb Hb'. rewrite Hi, (out_name_ext h h') by done. by apply Hap. Qed.

(** The sender and the backups it reaches. *)
Definition serves_as_primary (h h' : Handler) (net net' : gmap string Node) : Prop :=
  sends h net net' ∧ primary_keeps h h'.

Lemma serves_quietly h h' net :
  peers h' = peers h → inputDir h' = inputDir h → outputDir h' = outputDir h → disk h' = disk h →
  serves_as_primary h h' net net.
Proof. intros. split; [by left|by apply primary_keeps_same]. Qed.

(** A recorded reply, or none. *)
Ltac quiet := simplify_eq/=; by apply serves_quietly.

Lemma Open_serves flt req h r h' net : Open flt req h = Ret (r, h') → serves_as_primary h h' net net.
Proof.
  unfold Open. destruct (dedupTable h !! _) as [[]|]; try done; [intros; quiet|].
  destruct (resolvePath flt h (or_Path req)); [destruct (os_Stat _ _ _)|]; intros; quiet.
Qed.

Lemma StoreFile_serves flt s h net r h' net' :
  disk_wf (disk h) → call_safe (CallStore s) → StoreFile flt s h net = Ret (r, h', net') → serves_as_primary h h' net net'.
Proof.
  intros Hwf Hsafe E. destruct (isPrimary h) eqn:Hprim; [|unfold StoreFile in E; rewrite Hprim in E; quiet].
  destruct s as [[|c cs] rend]; [unfold StoreFile in E; cbn in E; rewrite Hprim in E; destruct rend; quiet|].
  destruct Hsafe as [Hb _]. destruct (dedupTable h !! dedupKey (sr_ClientId c) (sr_ReqSeq c)) as [e|] eqn:Hdd.
  { unfold StoreFile in E. rewrite Hprim in E. cbn [msgs recv_end StoreFile_loop] in E.
    unfold StoreFile_step in E. cbn [sl_first] in E. unfold StoreFile_first in E. rewrite Hdd in E. destruct e; quiet. }
  destruct (StoreFile_cases _ _ _ _ _ _ _ _ _ Hwf Hprim Hdd E) as [Hof [(_ & _ & (_ & _ & Eh) & ->)|(_ & [_ Eh] & ->)]].
  - split; [by apply replicate_sends|]. apply (primary_keeps_file h h' (sr_Path c)); [by rewrite Eh..|done|done].
  - split; [by left|]. apply (primary_keeps_file h h' (sr_Path c)); [by rewrite Eh..|done|done].
Qed.

Lemma same_except_only p h h' : disk_wf (disk h') → same_except p (disk h) (disk h') → only_file p h h'.
Proof. intros Hwf Hs. split; [done|]. intros q Hq _. by apply Hs. Qed.

Lemma CreateFile_serves flt req h net r h' net' :
  disk_wf (disk h) → safe_name (Base (cr_Path req)) → CreateFile flt req h net = Ret (r, h', net') →
  serves_as_primary h h' net net'.
Proof.
  intros Hwf Hb E. destruct (isPrimary h) eqn:Hprim; [|unfold CreateFile in E; rewrite Hprim in E; quiet].
  destruct (dedupTable h !! dedupKey (cr_ClientId req) (cr_ReqSeq req)) as [e|] eqn:Hdd;
    [unfold CreateFile in E; rewrite Hprim, Hdd in E; destruct e; quiet|].
  destruct (CreateFile_cases flt req h net Hwf Hprim Hdd) as (r2 & h2 & n2 & E2 & Hwf2 & Hs & Hcase).
  rewrite E2 in E. simplify_eq/=. destruct Hcase as [(_ & (_ & _ & Eh) & ->)|(_ & -> & ->)]; [|quiet].
  split; [by apply replicate_sends|]. apply (primary_keeps_file h h' (cr_Path req)); [by rewrite Eh..|done|by apply same_except_only].
Qed.

Lemma DeleteFile_serves flt req h net r h' net' :
  disk_wf (disk h) → safe_name (Base (dr_Path req)) → DeleteFile flt req h net = Ret (r, h', net') →
  serves_as_primary h h' net net'.
Proof.
  intros Hwf Hb E. destruct (isPrimary h) eqn:Hprim; [|unfold DeleteFile in E; rewrite Hprim in E; quiet].
  destruct (dedupTable h !! dedupKey (dr_ClientId req) (dr_ReqSeq req)) as [e|] eqn:Hdd;
    [unfold DeleteFile in E; rewrite Hprim, Hdd in E; destruct e; quiet|].
  destruct (DeleteFile_cases flt req h net Hwf Hprim Hdd) as (r2 & h2 & n2 & E2 & Hwf2 & Hs & Hcase).
  rewrite E2 in E. simplify_eq/=. destruct Hcase as [((_ & _ & Eh) & ->)|(_ & -> & ->)]; [|quiet].
  split; [by apply replicate_sends|]. apply (primary_keeps_file h h' (dr_Path req)); [by rewrite Eh..|done|by apply same_except_only].
Qed.

Lemma serve_sends flt c h net r h' net' :
  disk_wf (disk h) → call_safe c → serve flt c h net = Ret (r, h', net') → serves_as_primary h h' net net'.
Proof.
  intros Hwf Hsafe E. destruct c as [req|s|req|req|req|req]; unfold serve in E.
  - destruct (Open flt req h) as [[r1 h1]|?|] eqn:E1; simplify_eq/=. by eapply Open_serves.
  - destruct (StoreFile flt s h net) as [[[r1 h1] n1]|?|] eqn:E1; simplify_eq/=. by eapply StoreFile_serves.
  - destruct (CreateFile flt req h net) as [[[r1 h1] n1]|?|] eqn:E1; simplify_eq/=. by eapply CreateFile_serves.
  - destruct (DeleteFile flt req h net) as [[[r1 h1] n1]|?|] eqn:E1; simplify_eq/=. by eapply DeleteFile_serves.
  - unfold CloseFile in E. destruct (handles h !! _); quiet.
  - quiet.
Qed.

(** ** Standby servers *)

Section Standby.
  (* the primary, the other servers that are up, names of output files, and the
     input files that every server has *)
  Context (a : string) (alive : gset string) (outs : string → Prop) (ins : gmap string bytes).

(** A backup at the address [x] that has never been primary. *)
Record standby (x : string) (nd : Node) : Prop := {
  sb_flt : node_flt nd = no_faults;
  sb_ok : srv_ok (node_srv nd);
  sb_apart : apart (node_srv nd);
  sb_inputs : inputs_ok (node_srv nd);
  sb_addr : serverAddr (node_srv nd) = x ∧ x ≠ "";
  sb_dedup : dedupTable (node_srv nd) = ∅;
  sb_role : primary (node_srv nd) = false ∧ (knownPrimaryAddr (node_srv nd) = "" ∨ knownPrimaryAddr (node_srv nd) = a);
  sb_peers y : y ∈ alive → y ≠ x → y ∈ peer_addr <$> peers (node_srv nd);
  sb_outs p : outs p → safe_name p ∧ names (disk (node_srv nd)) !! PathJoin (inputDir (node_srv nd)) p = None;
  sb_ins m data : ins !! m = Some data →
    safe_name m ∧ read_file (disk (node_srv nd)) (PathJoin (inputDir (node_srv nd)) m) = Some data;
}.

Lemma standby_change x nd nd' :
  standby x nd → replica_change (node_srv nd) (node_srv nd') → node_flt nd' = node_flt nd → standby x nd'.
Proof.
  intros [H1 H2 H3 H4 H5 H6 H7 H8 H9 H10] [Eh Hok Hdirs Hin] Hf.
  assert (Hi : inputDir (node_srv nd') = inputDir (node_srv nd)) by by rewrite Eh.
  split; [congruence|auto|by rewrite Eh| |by rewrite Eh..| | |].
  - intros b Hb. rewrite Hi, (proj2 (Hin b H3 Hb)). by apply H4.
  - intros y Hy Hne. rewrite Eh. by apply H8.
  - intros p Hp. destruct (H9 p Hp) as [Hs Hn]. split; [done|]. by rewrite Hi, (proj2 (Hin p H3 Hs)).
  - intros m data Hm. destruct (H10 m data Hm) as [Hs Hd]. split; [done|]. by rewrite Hi, (proj1 (Hin m H3 Hs)).
Qed.

(** The primary's handlers [h] with the backups [net]. *)
Record guarded (h : Handler) (net : gmap string Node) : Prop := {
  gd_cluster : cluster_ok h net;
  gd_alive : dom net = alive;
  gd_standby x nd : net !! x = Some nd → standby x nd;
  gd_peers y : y ∈ alive → y ∈ peer_addr <$> peers h;
  gd_apart : apart h;
  gd_ins m data : ins !! m = Some data → safe_name m ∧ read_file (disk h) (PathJoin (inputDir h) m) = Some data;
}.

Lemma guarded_serve c h net r h' net' :
  guarded h net → call_safe c → serve no_faults c h net = Ret (r, h', net') → guarded h' net'.
Proof.
  intros [Hcl Hal Hsb Hps Hap Hins] Hsafe E. pose proof Hcl as (Hwf & Hnd & _).
  destruct (serve_sends no_faults c h net r h' net' Hwf Hsafe E) as [Hsend Hk].
  assert (Hcl' : cluster_ok h' net') by (by eapply (serve_cluster no_faults)).
  assert (Hins' : ∀ m data, ins !! m = Some data → safe_name m ∧ read_file (disk h') (PathJoin (inputDir h') m) = Some data).
  { intros m data Hm. destruct (Hins m data Hm) as [Hs Hd]. split; [done|]. destruct Hk as [_ [-> _] Hk]. by rewrite Hk. }
  pose proof (primary_keeps_apart _ _ Hk Hap) as Hap'. pose proof (pk_peers _ _ Hk) as Hp.
  destruct Hsend as [->|(s & path & Hb & Hs & ->)]; [split; [done|done|done|by rewrite Hp|done|done]|].
  assert (Hlk : ∀ x, alter_all (receive s) (peer_addr <$> peers h) net !! x = net !! x ∨
    alter_all (receive s) (peer_addr <$> peers h) net !! x = receive s <$> net !! x).
  { intros x. destruct (decide (x ∈ peer_addr <$> peers h)); [right; by apply alter_all_lookup|left; by apply alter_all_lookup_not]. }
  split; [done| | |by rewrite Hp|done|done].
  - rewrite <- Hal. apply set_eq. intros x. rewrite !elem_of_dom.
    destruct (Hlk x) as [->| ->]; [done|]. by rewrite fmap_is_Some.
  - intros x nd Hx. destruct (Hlk x) as [El|El]; rewrite El in Hx; [by apply Hsb|].
    apply fmap_Some in Hx as (nd0 & Hx & ->). specialize (Hsb x nd0 Hx).
    destruct (receive_change s nd0 path (sb_ok _ _ Hsb) Hb Hs) as (Hc & Hf & _). by eapply standby_change.
Qed.

Lemma guarded_same h h' net :
  guarded h net → disk h' = disk h → versions h' = versions h → peers h' = peers h → outputDir h' = outputDir h →
  inputDir h' = inputDir h → guarded h' net.
Proof.
  intros [H1 H2 H3 H4 H5 H6] E1 E2 E3 E4 E5. split; [by eapply cluster_ok_same|done|done|by rewrite E3| |by rewrite E1, E5].
  intros b b' Hb Hb'. rewrite E5, (out_name_ext h h') by done. by apply H5.
Qed.

End Standby.

(** ** The laws at the primary *)

Section Laws.
  Context (fuel : nat) (Hfuel : 0 < fuel) (a : string).
  (* what is kept of the primary and its backups *)
  Context (inv : Handler → gmap string Node → Prop).
  Context (inv_serve : ∀ c h net r h' net', inv h net → call_safe c → serve no_faults c h net = Ret (r, h', net') → inv h' net').
  Context (inv_beat : ∀ now req h net, inv h net → inv (Heartbeat now req h).2 net).
  Context (inv_out : ∀ h net, inv h net → inv h (delete a net)).

#[local] Instance replicas_afs : AfsService Replicas := replicas_service fuel.

(** The primary with its backups. *)
Definition here (r : Replicas) : option (World (gmap string Node)) := (λ nd, as_world a nd r) <$> rp_nodes r !! a.
Definition at_primary (P : World (gmap string Node) → Prop) (r : Replicas) : Prop := ∃ w, here r = Some w ∧ P w.

#[local] Instance replicas_view : AfsView Replicas := {
  svc_ready r x := x = a ∧ at_primary (λ w, world_ready w a) r;
  svc_unused r cid n := at_primary (λ w, svc_unused w cid n) r;
  svc_name r m := at_primary (λ w, svc_name w m) r;
  svc_known _ m := plain m;
  svc_file r m := w ← here r; svc_file w m;
  svc_side := unit;
  svc_rest _ := tt;
  svc_past r := ∀ w, here r = Some w → inv (wd_srv w) (wd_net w);
  svc_user _ := True;
  svc_content _ _ := True;
}.

(** After a call that the primary survived. *)
Definition after (w' : World (gmap string Node)) : World (gmap string Node) :=
  mkWorld (wd_addr w') (wd_flt w') (wd_up w') (wd_now w') (wd_srv w') (delete a (wd_net w')).

Lemma here_from nd w' : world_ready w' a → node_flt nd = no_faults → here (from_world a nd w') = Some (after w').
Proof.
  intros (Ha & Hup & Hf & _) Hn. unfold here, from_world. rewrite Hup. cbn [rp_nodes]. rewrite lookup_insert_eq. simpl.
  f_equal. unfold as_world, after. cbn [rp_nodes rp_now node_flt node_srv]. rewrite delete_insert_eq, Ha, Hup, Hf, Hn. done.
Qed.

Lemma ready_node r x : svc_ready r x → ∃ nd, x = a ∧ rp_nodes r !! a = Some nd ∧ node_flt nd = no_faults ∧ world_ready (as_world a nd r) a.
Proof.
  intros (-> & w & Hw & Hr). unfold here in Hw. apply fmap_Some in Hw as (nd & Hnd & ->). exists nd. split; [done|].
  split; [done|]. split; [by destruct Hr as (_ & _ & ? & _)|done].
Qed.

Lemma here_node r nd : rp_nodes r !! a = Some nd → here r = Some (as_world a nd r).
Proof. unfold here. by intros ->. Qed.

Lemma at_node_eq {A} (f : World (gmap string Node) → result A * World (gmap string Node)) r nd x w' :
  rp_nodes r !! a = Some nd → f (as_world a nd r) = (x, w') → at_node a f r = (x, from_world a nd w').
Proof. unfold at_node. by intros -> ->. Qed.

Section Lift.
  Context (r : Replicas) (nd : Node) (Hnd : rp_nodes r !! a = Some nd) (Hflt : node_flt nd = no_faults).

Let w := as_world a nd r.

Lemma lift_at P w' : world_ready w' a → P (after w') → at_primary P (from_world a nd w').
Proof using Hflt. intros Hr HP. exists (after w'). split; [by apply here_from|done]. Qed.

Lemma lower_at P : at_primary P r → P w.
Proof using Hnd. intros (w0 & Hw & HP). rewrite (here_node r nd Hnd) in Hw. by injection Hw as <-. Qed.

Lemma lift_past w' : world_ready w' a → (inv (wd_srv w) (wd_net w) → inv (wd_srv w') (wd_net w')) →
  svc_past r → svc_past (from_world a nd w').
Proof using All.
  intros Hr Hi Hp w0 Hw0. rewrite (here_from nd w' Hr Hflt) in Hw0. injection Hw0 as <-.
  apply inv_out, Hi, (Hp w), here_node, Hnd.
Qed.

Lemma lift_keeps cid n w' :
  world_ready w a → call_keeps cid n w w' → (inv (wd_srv w) (wd_net w) → inv (wd_srv w') (wd_net w')) →
  call_keeps cid n r (from_world a nd w').
Proof using All.
  intros Hr [K1 K2 K3 K4 K5 K6] Hi. pose proof (K1 a Hr) as Hr'. split.
  - intros b [-> Hb]. split; [done|]. by apply lift_at.
  - intros c k Hk. apply lift_at; [done|]. exact (K2 c k (lower_at _ Hk)).
  - intros m Hm. apply lift_at; [done|]. exact (K3 m (lower_at _ Hm)).
  - done.
  - done.
  - by apply lift_past.
Qed.

Lemma lift_file w' m : world_ready w' a → svc_file (from_world a nd w') m = svc_file w' m.
Proof using Hflt. intros Hr. change (svc_file (from_world a nd w') m) with (here (from_world a nd w') ≫= λ w, svc_file w m). by rewrite here_from. Qed.

Lemma lower_file m : svc_file r m = svc_file w m.
Proof using Hnd. change (svc_file r m) with (here r ≫= λ w, svc_file w m). by rewrite (here_node r nd Hnd). Qed.

Lemma lift_update p f w' : world_ready w' a → file_update p f w w' → file_update p f r (from_world a nd w').
Proof using Hflt Hnd. intros Hr Hu m Hm. rewrite lift_file, lower_file by done. by apply Hu. Qed.

Lemma lift_reads w' :
  world_ready w a → call_reads w w' → (inv (wd_srv w) (wd_net w) → inv (wd_srv w') (wd_net w')) →
  call_reads r (from_world a nd w').
Proof using All.
  intros Hr (R1 & R2 & R3 & R4 & R5 & R6) Hi. pose proof (R1 a Hr) as Hr'. split; [|split; [|split; [|split; [|split]]]].
  - intros b [-> Hb]. split; [done|]. by apply lift_at.
  - intros c k Hk. apply lift_at; [done|]. exact (R2 c k (lower_at _ Hk)).
  - intros m Hm. apply lift_at; [done|]. exact (R3 m (lower_at _ Hm)).
  - intros m Hm. split; [done|]. rewrite lift_file, lower_file by done. by apply R4.
  - done.
  - by apply lift_past.
Qed.

End Lift.

(** What a call left is what the handler left. *)
Lemma run_Ok {A} b (o : outcome (A * Handler * gmap string Node)) (w : World (gmap string Node)) x w' :
  AfsWorld.run b o w = (Ok x, w') → ∃ h net, o = Ret (x, h, net) ∧ wd_srv w' = h ∧ wd_net w' = net.
Proof.
  unfold AfsWorld.run. destruct (bool_decide (b = wd_addr w) && wd_up w)%bool; [|done].
  destruct o as [[[y h] net]|msg|]; [|done..]. intros [= <- <-]. by exists h, net.
Qed.

(** A handler's call, of one of the kinds of [serve]. *)
Lemma serve_past c r h net h' net' :
  call_safe c → serve no_faults c h net = Ret (r, h', net') → inv h net → inv h' net'.
Proof using inv_serve. intros Hc E Hi. by eapply inv_serve. Qed.

Lemma open_past req w x w' : wd_flt w = no_faults →
  svc_Open a req w = (Ok x, w') → inv (wd_srv w) (wd_net w) → inv (wd_srv w') (wd_net w').
Proof using inv_serve.
  intros Hf E. cbn [svc_Open world_service] in E. rewrite Hf in E. apply run_Ok in E as (h & net & E & <- & <-).
  apply outcome_bind_inv in E as ([r h] & E & [= <- <- <-]).
  eapply (serve_past (CallOpen req) (ReplyOpen r)); [exact I|]. unfold serve. rewrite E. reflexivity.
Qed.

Lemma create_past req w x w' : wd_flt w = no_faults → safe_name (Base (cr_Path req)) →
  svc_CreateFile a req w = (Ok x, w') → inv (wd_srv w) (wd_net w) → inv (wd_srv w') (wd_net w').
Proof using inv_serve.
  intros Hf Hb E. cbn [svc_CreateFile world_service] in E. rewrite Hf in E. apply run_Ok in E as (h & net & E & <- & <-).
  apply (serve_past (CallCreate req) (ReplyCreate x)); [exact Hb|]. unfold serve. rewrite E. reflexivity.
Qed.

Lemma delete_past req w x w' : wd_flt w = no_faults → safe_name (Base (dr_Path req)) →
  svc_DeleteFile a req w = (Ok x, w') → inv (wd_srv w) (wd_net w) → inv (wd_srv w') (wd_net w').
Proof using inv_serve.
  intros Hf Hb E. cbn [svc_DeleteFile world_service] in E. rewrite Hf in E. apply run_Ok in E as (h & net & E & <- & <-).
  apply (serve_past (CallDelete req) (ReplyDelete x)); [exact Hb|]. unfold serve. rewrite E. reflexivity.
Qed.

Lemma store_chunks_safe p cid seq c cs :
  safe_name (Base p) → concat (c :: cs) ≠ [] → call_safe (CallStore (mkRecv (store_chunks p cid seq (c :: cs)) None)).
Proof using Type.
  intros Hb Hne. unfold store_chunks. rewrite imap_cons. split; [exact Hb|]. rewrite fmap_cons, fmap_imap.
  replace (imap _ cs) with cs; [exact Hne|]. etrans; [|by apply imap_ext; intros i y _]. symmetry. etrans; [apply imap_const|].
  by rewrite list_fmap_id.
Qed.

Lemma store_past reqs w x w' : wd_flt w = no_faults → call_safe (CallStore (mkRecv reqs None)) →
  svc_StoreFile a reqs None w = (Ok x, w') → inv (wd_srv w) (wd_net w) → inv (wd_srv w') (wd_net w').
Proof using inv_serve.
  intros Hf Hb E. cbn [svc_StoreFile world_service] in E. rewrite Hf in E. unfold flatten in E.
  destruct (AfsWorld.run a _ w) as [[r|e] w1] eqn:E1; [|done]. injection E as -> ->.
  apply run_Ok in E1 as (h & net & E & <- & <-).
  apply (serve_past (CallStore (mkRecv reqs None)) (ReplyStore (Ok x))); [exact Hb|]. unfold serve. rewrite E. reflexivity.
Qed.

Lemma close_past req w : wd_flt w = no_faults →
  let w' := (svc_CloseFile a req w).2 in inv (wd_srv w) (wd_net w) → inv (wd_srv w') (wd_net w').
Proof using inv_serve.
  intros _. cbn [svc_CloseFile world_service]. unfold AfsWorld.run.
  destruct (CloseFile req (wd_srv w)) as [r h] eqn:E. destruct (_ && _)%bool; [|done]. cbn.
  eapply (serve_past (CallClose req) (ReplyClose r)); [exact I|]. unfold serve. rewrite E. reflexivity.
Qed.

Lemma beat_past req w x w' :
  svc_Heartbeat a req w = (Ok x, w') → inv (wd_srv w) (wd_net w) → inv (wd_srv w') (wd_net w').
Proof using inv_beat.
  cbn [svc_Heartbeat world_service]. intros E.
  pose proof (λ net, inv_beat (wd_now w) req (wd_srv w) net) as Hb.
  destruct (Heartbeat (wd_now w) req (wd_srv w)) as [r h]. apply run_Ok in E as (h1 & net & [= <- <- <-] & -> & ->). apply Hb.
Qed.

Lemma same_past {A} b (x y : A) (w w' : World (gmap string Node)) :
  AfsWorld.run b (Ret (x, wd_srv w, wd_net w)) w = (Ok y, w') → inv (wd_srv w) (wd_net w) → inv (wd_srv w') (wd_net w').
Proof using Type. intros E. by apply run_Ok in E as (h & net & [= <- <- <-] & -> & ->). Qed.

Lemma set_servers_id r : set_servers (servers r) r = r.
Proof using Type.
  destruct r as [nodes t]. unfold set_servers. cbn [rp_nodes rp_now]. f_equal. apply map_eq. intros x.
  rewrite map_lookup_imap. destruct (nodes !! x) as [nd|] eqn:Hx; [|done]. simpl. unfold set_server.
  rewrite servers_lookup. cbn [rp_nodes]. rewrite Hx. by destruct nd.
Qed.

Lemma replicas_connect : connect_law Replicas.
Proof using All.
  intros r x Hr. destruct (ready_node r x Hr) as (nd & -> & Hnd & Hf & Hw).
  destruct (world_connect _ a Hw) as (Hne & _ & _ & resp & w' & Eh & Hrd). split; [done|]. split; [done|]. split.
  - exists r. split; [|reflexivity]. cbn [svc_GetPrimary replicas_service replicas_afs].
    destruct Hw as (_ & _ & _ & Hp & _ & _ & _ & Ha & _).
    destruct (Nat.lt_exists_pred 0 fuel Hfuel) as (k & -> & _).
    rewrite (GetPrimary_primary k _ a (servers r) (node_srv nd)); [|by rewrite servers_lookup, Hnd|exact Hp].
    cbn [as_world wd_srv] in Ha. by rewrite Ha, set_servers_id.
  - exists resp, (from_world a nd w'). split; [by eapply at_node_eq|]. apply lift_reads; try done. by eapply beat_past.
Qed.

Lemma replicas_open : open_law Replicas.
Proof using All.
  intros r x cid n p write data v _ Hr Hu Hs Hp Hfile. destruct (ready_node r x Hr) as (nd & -> & Hnd & Hf & Hw).
  rewrite (lower_file r nd Hnd) in Hfile. apply (lower_at r nd Hnd) in Hu.
  destruct (@law_open _ _ _ world_laws (as_world a nd r) a cid n p write data v (any_user _) Hw Hu Hs Hp Hfile) as (id & w' & E & Hk & Hup).
  exists id, (from_world a nd w'). split; [by eapply at_node_eq|].
  split; [apply lift_keeps; try done; by eapply open_past|apply lift_update; try done; by apply Hk].
Qed.

Lemma replicas_open_missing : open_missing_law Replicas.
Proof using All.
  intros r x cid n p write Hr Hu Hs Hp Hfile. destruct (ready_node r x Hr) as (nd & -> & Hnd & Hf & Hw).
  rewrite (lower_file r nd Hnd) in Hfile. apply (lower_at r nd Hnd) in Hu.
  destruct (@law_open_missing _ _ _ world_laws (as_world a nd r) a cid n p write Hw Hu Hs Hp Hfile) as (w' & E & Hk).
  exists (from_world a nd w'). split; [by eapply at_node_eq|]. apply lift_reads; try done. by eapply open_past.
Qed.

Lemma replicas_create : create_law Replicas.
Proof using All.
  intros r x cid n p _ _ Hr Hu Hs Hp Hfile. destruct (ready_node r x Hr) as (nd & -> & Hnd & Hf & Hw).
  rewrite (lower_file r nd Hnd) in Hfile. apply (lower_at r nd Hnd) in Hu, Hp.
  destruct (@law_create _ _ _ world_laws (as_world a nd r) a cid n p (any_user _) (any_content _ _) Hw Hu Hs Hp Hfile) as (id & w' & E & Hk & Hup).
  exists id, (from_world a nd w'). split; [by eapply at_node_eq|]. pose proof Hp as [[Hsafe _] _].
  split; [apply lift_keeps; try done; eapply create_past; [done| |exact E]|apply lift_update; try done; by apply Hk].
  cbn [cr_Path]. by rewrite Base_safe.
Qed.

Lemma replicas_delete : delete_law Replicas.
Proof using All.
  intros r x cid n p _ _ Hr Hu Hs Hp. destruct (ready_node r x Hr) as (nd & -> & Hnd & Hf & Hw).
  apply (lower_at r nd Hnd) in Hu, Hp.
  destruct (@law_delete _ _ _ world_laws (as_world a nd r) a cid n p (any_user _) (any_content _ _) Hw Hu Hs Hp) as (w' & E & Hk & Hup).
  exists (from_world a nd w'). split; [by eapply at_node_eq|]. pose proof Hp as [[Hsafe _] _].
  split; [apply lift_keeps; try done; eapply delete_past; [done| |exact E]|apply lift_update; try done; by apply Hk].
  cbn [dr_Path]. by rewrite Base_safe.
Qed.

Lemma replicas_store : store_law Replicas.
Proof using All.
  intros r x cid n p c cs _ _ Hr Hu Hs Hp Hne. destruct (ready_node r x Hr) as (nd & -> & Hnd & Hf & Hw).
  apply (lower_at r nd Hnd) in Hu, Hp.
  destruct (@law_store _ _ _ world_laws (as_world a nd r) a cid n p c cs (any_user _) (any_content _ _) Hw Hu Hs Hp Hne) as (v & w' & E & Hk & Hup & Hv).
  exists v, (from_world a nd w'). split; [by eapply at_node_eq|]. pose proof Hp as [[Hsafe _] _].
  apply and_assoc. split; [|intros d v0 Hf0; apply (Hv d); by rewrite <- (lower_file r nd Hnd)].
  split; [apply lift_keeps; try done; eapply store_past; [done| |exact E]|apply lift_update; try done; by apply Hk].
  apply store_chunks_safe; [by rewrite Base_safe|exact Hne].
Qed.

Lemma replicas_store_empty : store_empty_law Replicas.
Proof using Type.
  intros r x resp r'. cbn [svc_StoreFile replicas_service replicas_afs]. unfold at_node.
  destruct (rp_nodes r !! x) as [nd|]; [|done].
  destruct (svc_StoreFile x [] None (as_world x nd r)) as [y w'] eqn:E. intros [= -> _]. by eapply world_store_empty.
Qed.

Lemma replicas_fetch : fetch_law Replicas.
Proof using All.
  intros r x p data v Hr Hp Hfile. destruct (ready_node r x Hr) as (nd & -> & Hnd & Hf & Hw).
  rewrite (lower_file r nd Hnd) in Hfile.
  destruct (@law_fetch _ _ _ world_laws (as_world a nd r) a p data v Hw Hp Hfile) as (ms & w' & E & Hk & Hms).
  exists ms, (from_world a nd w'). split; [by eapply at_node_eq|]. split; [|exact Hms]. apply lift_reads; try done.
  cbn [svc_FetchFile world_service] in E. destruct (FetchFile _ _ _ _) as [e st]. by eapply same_past.
Qed.

Lemma replicas_testauth : testauth_law Replicas.
Proof using All.
  intros r x p data v k Hr Hp Hfile. destruct (ready_node r x Hr) as (nd & -> & Hnd & Hf & Hw).
  rewrite (lower_file r nd Hnd) in Hfile.
  destruct (@law_testauth _ _ _ world_laws (as_world a nd r) a p data v k Hw Hp Hfile) as (w' & E & Hk).
  exists (from_world a nd w'). split; [by eapply at_node_eq|]. apply lift_reads; try done.
  cbn [svc_TestAuth world_service] in E. by eapply same_past.
Qed.

Lemma replicas_close : close_law Replicas.
Proof using All.
  intros r x id Hr. destruct (ready_node r x Hr) as (nd & -> & Hnd & Hf & Hw).
  pose proof (@law_close _ _ _ world_laws (as_world a nd r) a id Hw) as Hk.
  pose proof (close_past (mkCloseFileRequest id) (as_world a nd r) Hf) as Hi.
  cbn [svc_CloseFile replicas_service replicas_afs]. unfold at_node. rewrite Hnd.
  destruct (svc_CloseFile a (mkCloseFileRequest id) (as_world a nd r)) as [x w']. by apply lift_reads.
Qed.

(** The servers keep the laws of the file service at the primary. *)
Definition replicas_laws : AfsLaws Replicas.
Proof using All.
  split.
  - intros r m (w & _ & [Hm _]). exact Hm.
  - intros r cid k k' Hk (w & Hw & Hu). exists w. split; [done|]. by eapply law_unused_mono.
  - exact replicas_connect.
  - exact replicas_open.
  - exact replicas_open_missing.
  - exact replicas_create.
  - exact replicas_delete.
  - exact replicas_store.
  - exact replicas_store_empty.
  - exact replicas_fetch.
  - exact replicas_testauth.
  - exact replicas_close.
Defined.

End Laws.
