(* ===== verification/Failover.v ===== *)
(** * A client that loses its primary

    After the primary died and a backup took over, a client finds the new
    primary through [GetPrimary] of the servers it knows, whatever those believe
    about the old one, and repeats the call that failed: an operation that meets
    a dead connection is the operation of the reconnected client. *)

From S2P Require Import Prelude GoLib GoText GoPath Disk AfsProto Server Handler HandlerSpec Service Cluster SyncSpec Election ElectionProps Cache Client AfsSpec AfsWorld Json JsonCodec SnapshotIO ClientStart ClientProps Replicas ReplicasSpec.

(** ** Servers among which one is primary *)

Record one_leader (b : string) (cl : Servers) : Prop := {
  ol_up : is_Some (cl !! b);
  ol_addr x h : cl !! x = Some h → serverAddr h = x ∧ x ≠ "";
  ol_primary h : cl !! b = Some h → primary h = true;
  ol_others x h : cl !! x = Some h → x ≠ b →
    primary h = false ∧ (knownPrimaryAddr h = "" ∨ knownPrimaryAddr h = b ∨ cl !! knownPrimaryAddr h = None);
}.

Lemma one_leader_wf b cl : one_leader b cl → servers_wf cl.
Proof. intros Hl x h Hx. by eapply ol_addr. Qed.

Lemma calls_keep_down cl cl' a : calls_keep cl cl' → cl !! a = None → cl' !! a = None.
Proof. intros Hk Ha. destruct (Hk a) as [->|(h & E & _)]; [done|congruence]. Qed.

Lemma one_leader_keep b cl cl' : calls_keep cl cl' → one_leader b cl → one_leader b cl'.
Proof.
  intros Hk Hl. pose proof (calls_keep_wf _ _ Hk (one_leader_wf _ _ Hl)) as Hwf. destruct Hl as [H1 H2 H3 H4].
  assert (Hb : cl' !! b = cl !! b).
  { destruct (Hk b) as [->|(h & E & Hp & _)]; [done|]. by rewrite (H3 h E) in Hp. }
  split; [by rewrite Hb|exact Hwf|by rewrite Hb|]. intros x h Hx Hne.
  destruct (Hk x) as [E|(h0 & E0 & Hp & E)]; rewrite E in Hx.
  - destruct (H4 x h Hx Hne) as [Hp [Hkn|[Hkn|Hkn]]]; (split; [done|]); [by left|by right; left|].
    right; right. by eapply calls_keep_down.
  - injection Hx as <-. split; [exact Hp|by left].
Qed.

Lemma ask_peers_leader call b ps cl :
  call_sound call → (∀ x cl p, one_leader b cl → (call x cl).1 = Replied p → p = "" ∨ p = b) → one_leader b cl →
  ∀ p, (ask_peers call ps cl).1 = Replied p → p = "" ∨ p = b.
Proof.
  intros Hs Hc. revert cl. induction ps as [|q ps IH]; intros cl Hl p; simpl; [intros [= <-]; by left|].
  pose proof (Hs (peer_addr q) cl (one_leader_wf _ _ Hl)) as [Hk _]. pose proof (Hc (peer_addr q) cl) as Hq.
  destruct (call (peer_addr q) cl) as [[addr| |] cl1]; cbn [fst snd] in *; [case_decide| |done].
  - apply IH. by eapply one_leader_keep.
  - intros [= <-]. by apply Hq.
  - apply IH. by eapply one_leader_keep.
Qed.

(** An answer names the primary or nobody. *)
Lemma GetPrimary_leader fuel dial b x cl p :
  one_leader b cl → (GetPrimary fuel dial x cl).1 = Replied p → p = "" ∨ p = b.
Proof.
  revert x cl p. induction fuel as [|fuel IH]; intros x cl p Hl; simpl; destruct (cl !! x) as [h|] eqn:Hx; try done.
  destruct (decide (x = b)) as [->|Hne].
  { rewrite (ol_primary _ _ Hl h Hx). intros [= <-]. right. by eapply ol_addr. }
  destruct (ol_others _ _ Hl x h Hx Hne) as [Hp Hkn]. rewrite Hp.
  assert (Hask : ∀ cl', calls_keep cl cl' → (ask_peers (GetPrimary fuel dial) (peers h) cl').1 = Replied p → p = "" ∨ p = b).
  { intros cl' Hk. apply (ask_peers_leader (GetPrimary fuel dial) b); [apply GetPrimary_sound|done|by eapply one_leader_keep]. }
  case_decide as Hk0; [apply Hask, calls_keep_refl|].
  destruct (verify_known_sound (GetPrimary fuel dial) dial (peers h) (knownPrimaryAddr h) cl
    (GetPrimary_sound fuel dial) (one_leader_wf _ _ Hl)) as [Hk Hup].
  destruct (verify_known _ _ _ _ cl) as [[[|]|] cl1]; cbn [fst snd] in *; [| |done].
  - intros [= <-]. destruct Hkn as [Hkn|[Hkn|Hkn]]; [done|by right|]. destruct (Hup eq_refl) as [h' Hh']. congruence.
  - apply Hask. eapply calls_keep_trans; [exact Hk|]. destruct (Hk x) as [E|(h0 & E0 & Hp0 & E)].
    + eapply calls_keep_forget; [by rewrite E|done].
    + eapply calls_keep_forget; [exact E|]. done.
Qed.

(** ** Reconnecting *)

Lemma calls_keep_dom cl cl' : calls_keep cl cl' → dom cl' = dom cl.
Proof. intros Hk. apply set_eq. intros x. rewrite !elem_of_dom. by apply calls_keep_up. Qed.

Lemma servers_dom r : dom (servers r) = dom (rp_nodes r).
Proof. apply dom_fmap_L. Qed.

Section Reconnect.
  Context (fuel : nat) (Hfuel : 0 < fuel) (b : string).

#[local] Instance failover_afs : AfsService Replicas := replicas_service fuel.
#[local] Instance failover_view : AfsView Replicas := replicas_view b (λ _ _, True).
#[local] Instance failover_laws : AfsLaws Replicas :=
  replicas_laws fuel Hfuel b (λ _ _, True) (λ _ _ _ _ _ _ _ _ _, I) (λ _ _ _ _ _, I) (λ _ _ _, I).

(** What happens at other servers changes nothing at the primary. *)
Lemma elsewhere r r' : rp_nodes r' !! b = rp_nodes r !! b → rp_now r' = rp_now r → call_reads r r'.
Proof.
  intros Hn Ht. assert (Hat : ∀ P : World (gmap string Node) → Prop,
    (∀ w net, P w → P (mkWorld (wd_addr w) (wd_flt w) (wd_up w) (wd_now w) (wd_srv w) net)) → at_primary b P r → at_primary b P r').
  { intros P HP (w & Hw & Hpw). unfold here in Hw. apply fmap_Some in Hw as (nd & Hnd & ->).
    exists (as_world b nd r'). split; [unfold here; by rewrite Hn, Hnd|].
    unfold as_world. rewrite Ht. exact (HP (as_world b nd r) _ Hpw). }
  split; [|split; [|split; [|split; [|split]]]].
  - intros x [-> Hx]. split; [done|]. revert Hx. by apply Hat.
  - intros c k. by apply Hat.
  - intros m. by apply Hat.
  - intros m Hm. split; [done|]. cbn [svc_file failover_view replicas_view]. unfold here. rewrite Hn.
    destruct (rp_nodes r !! b) as [nd|]; [|done]. done.
  - done.
  - done.
Qed.

Lemma set_servers_reads r cl :
  one_leader b (servers r) → calls_keep (servers r) cl → call_reads r (set_servers cl r) ∧ one_leader b (servers (set_servers cl r)).
Proof.
  intros Hl Hk. split.
  - apply elsewhere; [|done]. rewrite set_servers_lookup. destruct (rp_nodes r !! b) as [nd|] eqn:Hnd; [|done]. simpl. f_equal.
    assert (Hb : servers r !! b = Some (node_srv nd)) by (by rewrite servers_lookup, Hnd).
    destruct (Hk b) as [E|(h & E & Hp & _)].
    + unfold set_server. rewrite E, Hb. by destruct nd.
    + rewrite (ol_primary _ _ Hl h E) in Hp. discriminate.
  - rewrite set_servers_servers by (by rewrite (calls_keep_dom _ _ Hk), servers_dom). by eapply one_leader_keep.
Qed.

Lemma connect_loop_leader addrs c r :
  b ∈ addrs → svc_ready r b → one_leader b (servers r) →
  ∃ r', connect_loop addrs c r = (true, set_primary b c, r') ∧ call_reads r r'.
Proof using Hfuel.
  intros Hb. revert r. induction addrs as [|x addrs IH]; intros r Hr Hl; [by apply not_elem_of_nil in Hb|].
  cbn [connect_loop]. change (svc_dial (W := Replicas) x) with true. cbn iota.
  pose proof (λ p, GetPrimary_leader fuel (λ _, true) b x (servers r) p Hl) as Hans.
  destruct (GetPrimary_sound fuel (λ _, true) x (servers r) (one_leader_wf _ _ Hl)) as [Hk _].
  assert (Hat : x = b → (GetPrimary fuel (λ _, true) x (servers r)).1 = Replied b).
  { intros ->. destruct (ol_up _ _ Hl) as [h Hh]. destruct (Nat.lt_exists_pred 0 fuel Hfuel) as (k & -> & _).
    rewrite (GetPrimary_primary k _ b (servers r) h Hh (ol_primary _ _ Hl h Hh)). cbn [fst]. f_equal. by eapply ol_addr. }
  change (svc_GetPrimary x r) with (let '(y, cl) := GetPrimary fuel (λ _, true) x (servers r) in
    (match y with Replied p => Ok p | Failed => Err unavailable | Deadline => Err deadline_exceeded end : result string, set_servers cl r)).
  destruct (GetPrimary fuel (λ _, true) x (servers r)) as [y cl]. cbn [fst snd] in *.
  destruct (set_servers_reads r cl Hl Hk) as [Hrd Hl1]. pose proof Hrd as (Hr1 & _). specialize (Hr1 b Hr).
  assert (Hgo : (x ≠ b → b ∈ addrs) → x ≠ b → ∃ r', connect_loop addrs c (set_servers cl r) = (true, set_primary b c, r') ∧ call_reads r r').
  { intros Hin Hne. destruct (IH (Hin Hne) (set_servers cl r) Hr1 Hl1) as (r' & E & Hrd'). exists r'. split; [exact E|by etrans]. }
  assert (Hin : x ≠ b → b ∈ addrs) by (intros Hne; apply elem_of_cons in Hb as [->|]; done).
  destruct y as [p| |]; [|apply Hgo; [done|intros E; by specialize (Hat E)]..].
  case_decide as Hp; [apply Hgo; [done|]; intros E; specialize (Hat E); destruct Hr1 as (_ & w & _ & Hw);
    destruct Hw as (_ & _ & _ & _ & _ & _ & _ & _ & Hne); congruence|].
  assert (p = b) as -> by (destruct (Hans p eq_refl); done).
  change (svc_dial (W := Replicas) b) with true. cbn iota.
  destruct (law_connect (set_servers cl r) b Hr1) as (_ & _ & _ & resp & r' & -> & Hrd').
  exists r'. split; [done|by etrans].
Qed.

Lemma reconnect_leader c r :
  b ∈ serverAddrs c → svc_ready r b → one_leader b (servers r) →
  ∃ r', reconnectToPrimary c r = (true, set_primary b (set_conn None c), r') ∧ call_reads r r'.
Proof using Hfuel.
  intros Hb Hr Hl. destruct (connect_loop_leader (serverAddrs c) (set_conn None c) r Hb Hr Hl) as (r' & E & Hrd).
  exists r'. split; [|exact Hrd]. unfold reconnectToPrimary. cbn [reconnect_loop]. unfold connectToPrimary.
  cbn [serverAddrs set_conn]. by rewrite E.
Qed.

End Reconnect.

(** ** An operation that meets the dead primary *)

Section Dead.
  Context (fuel : nat) (Hfuel : 0 < fuel) (a b : string).

#[local] Instance dead_afs : AfsService Replicas := replicas_service fuel.
#[local] Instance dead_view : AfsView Replicas := replicas_view b (λ _ _, True).
#[local] Instance dead_laws : AfsLaws Replicas := failover_laws fuel Hfuel b.
#[local] Instance dead_unwatched : AfsUnwatched Replicas.
Proof. split; done. Qed.

Lemma retry_after_reconnect {A} (fn : Client → Replicas → result A * Replicas) app c r e c1 r1 x r2 :
  fn c r = (Err e, r) → reconnectToPrimary c r = (true, c1, r1) → fn c1 r1 = (Ok x, r2) →
  Contains (app x) "not primary" = false →
  retryWithFailover fn app c r = retryWithFailover fn app c1 r1.
Proof using Type.
  intros E1 E2 E3 Ha. unfold retryWithFailover. cbn [failover_loop]. rewrite E1, E2, E3, Ha.
  change (svc_sleep (W := Replicas) r1) with r1. by rewrite E3, Ha.
Qed.

Lemma dead_call {A} (f : World (gmap string Node) → result A * World (gmap string Node)) r :
  rp_nodes r !! a = None → at_node a f r = (Err unavailable, r).
Proof using Type. unfold at_node. by intros ->. Qed.

(** The client of a dead server, among the servers of which [b] is primary. *)
Record lost (c : Client) (r : Replicas) : Prop := {
  lo_conn : grpcConn c = Some a;
  lo_dead : rp_nodes r !! a = None;
  lo_addrs : b ∈ serverAddrs c;
  lo_ready : svc_ready r b;
  lo_leader : one_leader b (servers r);
  lo_unused : svc_unused r (clientId c) (reqSeq c);
  lo_seq : seq_ok (reqSeq c);
  lo_disk : disk_wf (cdisk c);
}.

Lemma lost_reconnects c r s :
  lost c r → ∃ r1, reconnectToPrimary (set_seq s c) r = (true, set_seq s (set_primary b c), r1) ∧ call_reads r r1 ∧
    client_ok (set_primary b c) r1.
Proof using Hfuel.
  intros [H1 H2 H3 H4 H5 H6 H7 H8].
  destruct (reconnect_leader fuel Hfuel b (set_seq s c) r H3 H4 H5) as (r1 & E & Hrd). exists r1. split; [exact E|].
  split; [exact Hrd|]. destruct Hrd as (R1 & R2 & _).
  split; [exists b; split; [done|by apply R1]|by apply R2|exact H7|exact H8|apply any_user|apply any_past].
Qed.

(** Opening a file is opening it on the new primary. *)
Lemma lost_Open p write c r data v :
  lost c r → svc_known r p → svc_file r p = Some (data, v) →
  ∃ r1, client_Open no_faults p write c r = client_Open no_faults p write (set_primary b c) r1 ∧ call_reads r r1 ∧
    client_ok (set_primary b c) r1.
Proof using Hfuel.
  intros Hl Hk Hf. destruct (lost_reconnects c r (i64 (reqSeq c + 1)) Hl) as (r1 & E & Hrd & Hok). exists r1.
  split; [|by split]. unfold client_Open. cbn [reqSeq set_primary].
  set (fn := λ c' : Client, on_conn (W := Replicas) (λ a, svc_Open a (mkOpenRequest p write (clientId c') (i64 (reqSeq c + 1)))) c').
  assert (Hs : i64 (reqSeq c + 1) = (reqSeq c + 1)%Z) by (apply seq_next, Hl).
  assert (Hret : retryWithFailover fn op_Error (set_seq (i64 (reqSeq c + 1)) c) r =
    retryWithFailover fn op_Error (set_seq (i64 (reqSeq c + 1)) (set_primary b c)) r1); [|by rewrite Hret].
  destruct Hrd as (R1 & R2 & _ & R4 & _). destruct (R4 p Hk) as [Hk1 Hf1]. rewrite Hf in Hf1.
  destruct (law_open r1 b (clientId c) (reqSeq c) p write data v (any_user _) (R1 b (lo_ready _ _ Hl)) (R2 _ _ (lo_unused _ _ Hl))
    (lo_seq _ _ Hl) Hk1 Hf1) as (id & r2 & Eo & _).
  eapply retry_after_reconnect; [|exact E| |].
  - unfold fn, on_conn. cbn [grpcConn set_seq]. rewrite (lo_conn _ _ Hl). by apply dead_call, Hl.
  - unfold fn, on_conn. cbn [grpcConn set_seq set_primary clientId]. rewrite Hs. exact Eo.
  - reflexivity.
Qed.

Lemma lost_DeleteFile p c r :
  lost c r → svc_name r p →
  ∃ r1, client_DeleteFile no_faults p c r = client_DeleteFile no_faults p (set_primary b c) r1 ∧ call_reads r r1 ∧
    client_ok (set_primary b c) r1.
Proof using Hfuel.
  intros Hl Hn. destruct (lost_reconnects c r (i64 (reqSeq c + 1)) Hl) as (r1 & E & Hrd & Hok). exists r1.
  split; [|by split]. unfold client_DeleteFile. cbn [reqSeq set_primary].
  set (fn := λ c' : Client, on_conn (W := Replicas) (λ a, svc_DeleteFile a (mkDeleteFileRequest p (clientId c') (i64 (reqSeq c + 1)))) c').
  assert (Hs : i64 (reqSeq c + 1) = (reqSeq c + 1)%Z) by (apply seq_next, Hl).
  assert (Hret : retryWithFailover fn dp_Error (set_seq (i64 (reqSeq c + 1)) c) r =
    retryWithFailover fn dp_Error (set_seq (i64 (reqSeq c + 1)) (set_primary b c)) r1); [|by rewrite Hret].
  destruct Hrd as (R1 & R2 & R3 & _).
  destruct (law_delete r1 b (clientId c) (reqSeq c) p (any_user _) (any_content _ _) (R1 b (lo_ready _ _ Hl)) (R2 _ _ (lo_unused _ _ Hl))
    (lo_seq _ _ Hl) (R3 _ Hn)) as (r2 & Eo & _).
  eapply retry_after_reconnect; [|exact E| |].
  - unfold fn, on_conn. cbn [grpcConn set_seq]. rewrite (lo_conn _ _ Hl). by apply dead_call, Hl.
  - unfold fn, on_conn. cbn [grpcConn set_seq set_primary clientId]. rewrite Hs. exact Eo.
  - reflexivity.
Qed.

(** Whole files. *)
Lemma lost_reads p c r data v x :
  lost c r → svc_known r p → svc_file r p = Some (data, v) → local_free c p → reader_sees c p data v = Some x →
  seq_ok (reqSeq c + 1) → x ≠ [] →
  ∃ c' r', readFromAFS no_faults p c r = Ret (Ok x, c', r') ∧ client_ok c' r'.
Proof using Hfuel.
  intros Hl Hk Hf Hfree Hco Hs Hne. destruct (lost_Open p false c r data v Hl Hk Hf) as (r1 & E & (_ & _ & _ & R4 & _) & Hok).
  destruct (R4 p Hk) as [Hk1 Hf1]. rewrite Hf in Hf1.
  destruct (readFromAFS_sees (set_primary b c) r1 p data v x Hok Hk1 Hf1 Hfree Hco Hs) as (c' & r' & Er & Hok' & _).
  rewrite decide_False in Er by done. exists c', r'. split; [|exact Hok']. rewrite <- Er. unfold readFromAFS. by rewrite E.
Qed.

Lemma lost_writes p c r data :
  lost c r → svc_name r p → local_free c p → (reqSeq c + 3 < 2 ^ 63 - 1)%Z → data ≠ [] →
  ∃ v c' r', writeToAFS no_faults p data c r = (None, c', r') ∧ client_ok c' r' ∧ svc_file r' p = Some (data, v).
Proof using Hfuel.
  intros Hl Hn Hfree Hs Hne. destruct (lost_DeleteFile p c r Hl Hn) as (r1 & E & (_ & _ & R3 & _) & Hok).
  destruct (writeToAFS_ok (set_primary b c) r1 p data Hok (R3 _ Hn)) as (v & c' & r' & Ew & Hok' & _ & Hf & _); [done|done|done|done|].
  exists v, c', r'. split; [|by split]. rewrite <- Ew. unfold writeToAFS. by rewrite E.
Qed.

End Dead.

(** ** A backup that takes over *)

(** The servers that are left when the primary [a] died: backups, each connected
    to all others. *)
Record survivors (a : string) (cl : Servers) : Prop := {
  su_wf : servers_wf cl;
  su_dead : cl !! a = None;
  su_backup x h : cl !! x = Some h → primary h = false ∧ (knownPrimaryAddr h = "" ∨ knownPrimaryAddr h = a);
  su_mesh x h y : cl !! x = Some h → is_Some (cl !! y) → y ≠ x → y ∈ peer_addr <$> peers h;
}.

Lemma servers_wf_nobody cl : servers_wf cl → cl !! "" = None.
Proof. intros Hwf. destruct (cl !! "") as [h|] eqn:E; [|done]. by destruct (Hwf _ _ E). Qed.

Lemma poll_peers_down fuel dial ps cl :
  (∀ p, p ∈ ps → cl !! peer_addr p = None) → poll_peers fuel dial ps cl = ([], cl).
Proof.
  induction ps as [|p ps IH]; intros Hd; simpl; [done|]. unfold isAlive.
  rewrite GetPrimary_down by (apply Hd, list_elem_of_here). rewrite IH; [done|].
  intros q Hq. by apply Hd, list_elem_of_further.
Qed.

(** Nobody answers the poll of a survivor: the peers that are up ask each other
    until the deadline. *)
Lemma survivors_poll fuel dial a b cl h :
  survivors a cl → cl !! b = Some h →
  (poll_peers fuel dial (peers h) cl).1 = [] ∧ calls_keep cl (poll_peers fuel dial (peers h) cl).2.
Proof.
  intros [Hwf Hdead Hback Hmesh] Hb.
  destruct (decide (Exists (λ p, is_Some (cl !! peer_addr p)) (peers h))) as [He|Hne].
  - apply poll_peers_leaderless; [done|]. intros x hx Hx. destruct (Hback x hx Hx) as [Hp Hk]. split; [done|].
    split; [destruct Hk as [->| ->]; [by apply servers_wf_nobody|done]|].
    destruct (decide (x = b)) as [->|Hxb].
    + rewrite Hb in Hx. injection Hx as <-. apply Exists_exists in He as (p & Hin & Hup). by exists p.
    + assert (Hin : b ∈ peer_addr <$> peers hx) by (apply (Hmesh x); [done|by eexists|done]).
      apply list_elem_of_fmap in Hin as (p & -> & Hin). exists p. split; [done|by eexists].
  - rewrite poll_peers_down; [split; [done|apply calls_keep_refl]|]. intros p Hp.
    destruct (cl !! peer_addr p) eqn:E; [|done]. destruct Hne. apply Exists_exists. exists p. rewrite E. by split; [|eexists].
Qed.

(** So it promotes itself, and the others do not know of another primary. *)
Lemma survivors_election fuel dial now a b cl h :
  survivors a cl → cl !! b = Some h →
  ∃ cl' h0, startElection fuel dial now b cl = ([], cl') ∧ (h0 = h ∨ h0 = set_known "" h) ∧
    cl' !! b = Some (promoteToPrimary now h0).2 ∧ one_leader b cl' ∧ dom cl' = dom cl.
Proof.
  intros Hs Hb. destruct (survivors_poll fuel dial a b cl h Hs Hb) as [Hlive Hk]. unfold startElection. rewrite Hb.
  destruct (poll_peers fuel dial (peers h) cl) as [live cl1]. cbn [fst snd] in Hlive, Hk. subst live.
  destruct (proj2 (calls_keep_up cl cl1 b Hk) ltac:(by eexists)) as [h0 Hb1]. rewrite Hb1.
  assert (Hh0 : h0 = h ∨ h0 = set_known "" h).
  { destruct (Hk b) as [E|(h' & E & _ & E')]; [left; congruence|right]. rewrite Hb in E. injection E as <-. congruence. }
  unfold decide_election. cbn [elect fold_left]. rewrite decide_True by done.
  pose proof (calls_keep_wf _ _ Hk (su_wf _ _ Hs)) as Hwf1. destruct (Hwf1 b h0 Hb1) as [Ha0 Hne].
  assert (Hprom : primary (promoteToPrimary now h0).2 = true ∧ serverAddr (promoteToPrimary now h0).2 = b)
    by (rewrite <- Ha0; unfold promoteToPrimary; by destruct (senderRunning _)).
  destruct (promoteToPrimary now h0) as [sender h1] eqn:Epr. cbn [fst snd fmap list_fmap] in *. exists (<[b:=h1]> cl1), h0.
  split; [done|]. split; [done|]. split; [by rewrite Epr, lookup_insert_eq|]. split.
  - split.
    + rewrite lookup_insert_eq. by eexists.
    + intros x hx [[<- <-]|[_ Hx]]%lookup_insert_Some; [by destruct Hprom|by apply Hwf1].
    + rewrite lookup_insert_eq. intros hx [= <-]. apply Hprom.
    + intros x hx Hx Hxb. rewrite lookup_insert_ne in Hx by done.
      assert (Hold : ∃ h', cl !! x = Some h' ∧ (hx = h' ∨ hx = set_known "" h')).
      { destruct (Hk x) as [E|(h' & E & _ & E')]; [exists hx; split; [congruence|by left]|].
        exists h'. split; [done|right]. congruence. }
      destruct Hold as (h' & Hx' & Hhx). destruct (su_backup _ _ Hs x h' Hx') as [Hp Hkn].
      destruct Hhx as [->| ->]; (split; [done|]); [|by left]. destruct Hkn as [Hkn|Hkn]; [by left|right; right].
      rewrite Hkn, lookup_insert_ne; [by eapply calls_keep_down; [|apply Hs]|].
      intros ->. rewrite (su_dead _ _ Hs) in Hb. done.
  - rewrite dom_insert_L, (calls_keep_dom _ _ Hk). apply subseteq_union_1_L, singleton_subseteq_l. by eapply elem_of_dom_2.
Qed.
