(* ===== verification/Takeover.v ===== *)
(** * A backup takes over from a dead primary

    The setting of the failover theorems: a primary with mirroring backups
    ([deployed]), a client connected to it ([attached]), and what the election of
    a survivor makes of them. *)

From S2P Require Import Prelude GoLib GoText GoPath Disk AfsProto Server Handler HandlerSpec Service Cluster SyncSpec Election ElectionProps Cache Client AfsSpec AfsWorld Json JsonCodec SnapshotIO ClientStart ClientProps Replicas ReplicasSpec Failover.

Section Setting.
  (* the primary, the backups that are up, the names of output files, and the
     input files that every server has *)
  Context (a : string) (alive : gset string) (outs : string → Prop) (ins : gmap string bytes).

(** The primary is up at [a], with backups that mirror it. *)
Definition deployed (r : Replicas) : Prop :=
  at_primary a (λ w, world_ready w a ∧ guarded a alive outs ins (wd_srv w) (wd_net w)) r.

(** The client [c] is connected to it. *)
Definition connected (c : Client) (r : Replicas) : Prop :=
  grpcConn c = Some a ∧ disk_wf (cdisk c) ∧ (0 ≤ reqSeq c)%Z ∧
  at_primary a (λ w, svc_unused w (clientId c) (reqSeq c)) r.

(** It may also write the output file [p]. *)
Definition attached (c : Client) (p : string) (r : Replicas) : Prop :=
  grpcConn c = Some a ∧ disk_wf (cdisk c) ∧ (0 ≤ reqSeq c)%Z ∧
  at_primary a (λ w, svc_unused w (clientId c) (reqSeq c) ∧ svc_name w p) r.

(** The file [p] at the server [b]. *)
Definition file_at (b p : string) (r : Replicas) : option (bytes * Z) := w ← here b r; svc_file w p.

Lemma at_primary_inv P r : at_primary a P r → ∃ nd, rp_nodes r !! a = Some nd ∧ P (as_world a nd r).
Proof. intros (w & Hw & HP). unfold here in Hw. apply fmap_Some in Hw as (nd & Hnd & ->). by exists nd. Qed.

(** The servers that are left. *)
Lemma deployed_survivors r : a ∉ alive → deployed r → survivors a (servers (dies_at a r)).
Proof.
  intros Ha Hd. apply at_primary_inv in Hd as (nd & Hnd & _ & [_ Hal Hsb _ _ _]). cbn [wd_net as_world] in *.
  assert (Hsv : ∀ x h, servers (dies_at a r) !! x = Some h → ∃ n, delete a (rp_nodes r) !! x = Some n ∧ h = node_srv n).
  { intros x h Hx. rewrite servers_lookup in Hx. by apply fmap_Some in Hx. }
  split.
  - intros x h (n & Hn & ->)%Hsv. by apply (sb_addr _ _ _ _ _ _ (Hsb x n Hn)).
  - rewrite servers_lookup. simpl. by rewrite lookup_delete_eq.
  - intros x h (n & Hn & ->)%Hsv. by apply (sb_role _ _ _ _ _ _ (Hsb x n Hn)).
  - intros x h y (n & Hn & ->)%Hsv [h' (n' & Hn' & _)%Hsv] Hne. apply (sb_peers _ _ _ _ _ _ (Hsb x n Hn)); [|done].
    rewrite <- Hal. by eapply elem_of_dom_2.
Qed.

(** A standby that promotes itself is ready to serve. *)
Lemma standby_promoted now b nd r h0 h1 :
  standby a alive outs ins b nd → h0 = node_srv nd ∨ h0 = set_known "" (node_srv nd) → h1 = (promoteToPrimary now h0).2 →
  world_ready (as_world b (mkNode (node_flt nd) (node_cut nd) h1) r) b ∧
  disk h1 = disk (node_srv nd) ∧ versions h1 = versions (node_srv nd) ∧ dedupTable h1 = ∅ ∧
  inputDir h1 = inputDir (node_srv nd) ∧ outputDir h1 = outputDir (node_srv nd).
Proof.
  intros [H1 H2 H3 H4 [H5 H5'] H6 H7 H8 H9 H10] Hh0 ->.
  destruct Hh0 as [->| ->]; unfold promoteToPrimary; destruct (senderRunning _); by split_and!.
Qed.

(** An input file is served as it is. *)
Lemma input_served (w : World (gmap string Node)) m data :
  read_file (disk (wd_srv w)) (PathJoin (inputDir (wd_srv w)) m) = Some data → ∃ v, svc_file w m = Some (data, v).
Proof.
  intros Hc. cbn [svc_file world_view]. unfold rpath. pose proof Hc as Hn. unfold read_file in Hn.
  destruct (names _ !! PathJoin _ m) as [e|]; [|done]. rewrite Hc. by eexists.
Qed.

(** [b] takes over: it serves the files of the dead primary, knows no request
    yet, and nobody takes another server for the primary. *)
Lemma takeover fuel b r :
  a ∉ alive → b ∈ alive → deployed r →
  ∃ r2, election_at fuel b (dies_at a r) = ([], r2) ∧ rp_nodes r2 !! a = None ∧ one_leader b (servers r2) ∧
    at_primary b (λ w, world_ready w b ∧ ∀ cid n, svc_unused w cid n) r2 ∧
    (∀ p, outs p → plain p → at_primary a (λ w, svc_name w p) r →
      at_primary b (λ w, svc_name w p) r2 ∧ file_at b p r2 = file_at a p r) ∧
    ∀ m data, ins !! m = Some data → ∃ v, file_at b m r2 = Some (data, v).
Proof.
  intros Ha Hb Hd. pose proof (deployed_survivors r Ha Hd) as Hsurv.
  pose proof Hd as (nd & Hnd & _ & [Hcl Hal Hsb Hps _ Hins])%at_primary_inv. cbn [wd_net wd_srv as_world] in *.
  assert (Hbn : is_Some (delete a (rp_nodes r) !! b)) by (apply elem_of_dom; by rewrite Hal).
  destruct Hbn as [nb Hnb]. specialize (Hsb b nb Hnb).
  assert (Hsb1 : servers (dies_at a r) !! b = Some (node_srv nb)) by (rewrite servers_lookup; simpl; by rewrite Hnb).
  destruct (survivors_election fuel (λ _, true) (rp_now r) a b _ _ Hsurv Hsb1) as (cl & h0 & E & Hh0 & Hcl0 & Hlead & Hdom).
  remember (promoteToPrimary (rp_now r) h0).2 as h1 eqn:Eh1.
  exists (set_servers cl (dies_at a r)). unfold election_at. change (rp_now (dies_at a r)) with (rp_now r). rewrite E.
  split; [done|].
  assert (Hnb2 : rp_nodes (set_servers cl (dies_at a r)) !! b = Some (mkNode (node_flt nb) (node_cut nb) h1)).
  { rewrite set_servers_lookup. simpl. rewrite Hnb. simpl. unfold set_server. by rewrite Hcl0. }
  destruct (standby_promoted (rp_now r) b nb (set_servers cl (dies_at a r)) h0 h1 Hsb Hh0 Eh1) as
    (Hready & Hdisk & Hver & Hded & Hin & Hout).
  pose proof (here_node b _ _ Hnb2) as Hhere.
  split; [rewrite set_servers_lookup; simpl; by rewrite lookup_delete_eq|].
  split; [by rewrite set_servers_servers by (by rewrite Hdom, servers_dom)|].
  split; [eexists; split; [exact Hhere|]; split; [exact Hready|]; intros cid n seq _; cbn [wd_srv as_world node_srv]; by rewrite Hded|].
  split.
  { intros p Hp Hpl (nd' & Hnd' & _ & Hnp)%at_primary_inv. rewrite Hnd in Hnd'. injection Hnd' as <-. cbn [wd_srv as_world] in Hnp.
    pose proof (proj2 (sb_outs _ _ _ _ _ _ Hsb p Hp)) as Hnb_in.
    split; [eexists; split; [exact Hhere|]; split; [done|]; cbn [wd_srv as_world node_srv]; by rewrite Hin, Hdisk|].
    unfold file_at. rewrite Hhere, (here_node a r nd Hnd). cbn [mbind option_bind svc_file world_view wd_srv as_world node_srv].
    unfold rpath. rewrite Hin, Hdisk, Hnb_in, Hnp.
    assert (Hbp : b ∈ peer_addr <$> peers (node_srv nd)) by by apply Hps.
    apply list_elem_of_fmap in Hbp as (q & -> & Hq). destruct Hcl as (_ & _ & Hcl).
    destruct (proj2 (Hcl q nb Hq Hnb) p Hpl) as [Hrd Hv].
    rewrite (out_name_ext (node_srv nb) h1) by done. unfold version_of. by rewrite Hrd, Hver, Hv. }
  intros m data Hm. destruct (sb_ins _ _ _ _ _ _ Hsb m data Hm) as [_ Hc].
  unfold file_at. rewrite Hhere. apply input_served. cbn [wd_srv as_world node_srv]. by rewrite Hin, Hdisk.
Qed.

(** Before: the laws of the file service hold at the primary, and its backups
    stay as they are. *)
Lemma guarded_beat now req h net : guarded a alive outs ins h net → guarded a alive outs ins (Heartbeat now req h).2 net.
Proof.
  intros Hi. apply (guarded_same _ _ _ _ h); [done|..]; unfold Heartbeat; simpl;
    destruct (primary h); simpl; try done; by destruct (list_find _ _) as [[]|].
Qed.

Lemma guarded_out h net : a ∉ alive → guarded a alive outs ins h net → guarded a alive outs ins h (delete a net).
Proof.
  intros Ha Hi. rewrite delete_id; [done|]. apply not_elem_of_dom. by rewrite (gd_alive _ _ _ _ _ _ Hi).
Qed.

Definition deployed_view : AfsView Replicas := replicas_view a (guarded a alive outs ins).
Definition deployed_laws fuel (Hfuel : 0 < fuel) (Ha : a ∉ alive) : @AfsLaws Replicas (replicas_service fuel) deployed_view :=
  replicas_laws fuel Hfuel a (guarded a alive outs ins) (guarded_serve a alive outs ins) guarded_beat (λ h net, guarded_out h net Ha).

#[local] Existing Instance deployed_view.

Lemma deployed_past r : deployed r ↔ svc_ready r a ∧ svc_past r.
Proof.
  split.
  - intros (w & Hw & Hr & Hg). split; [split; [done|by exists w]|]. intros w' Hw'. rewrite Hw in Hw'. by injection Hw' as <-.
  - intros [[_ (w & Hw & Hr)] Hp]. exists w. split; [done|]. split; [done|by apply Hp].
Qed.

Lemma connected_ok c r : deployed r → connected c r → seq_ok (reqSeq c) → client_ok c r.
Proof.
  intros Hd (Hc & Hwf & _ & (w & Hw & Hu)) Hs. apply deployed_past in Hd as [Hr Hp].
  split; [by exists a|by exists w|done|done|done|done].
Qed.

Lemma deployed_input m data r : deployed r → ins !! m = Some data → ∃ v, file_at a m r = Some (data, v).
Proof.
  intros (w & Hw & _ & Hg) Hm. destruct (gd_ins _ _ _ _ _ _ Hg m data Hm) as [_ Hd].
  unfold file_at. rewrite Hw. by apply input_served.
Qed.

(** A client that is attached works, and stays so. *)
Lemma attached_ok c p r :
  deployed r → attached c p r → seq_ok (reqSeq c) → client_ok c r ∧ svc_name r p.
Proof.
  intros Hd (Hc & Hwf & _ & (w & Hw & Hu & Hn)) Hs. apply deployed_past in Hd as [Hr Hp].
  split; [|by exists w]. split; [by exists a|by exists w|done|done|done|done].
Qed.

Lemma ok_attached c p r :
  client_ok c r → svc_name r p → deployed r ∧ attached c p r.
Proof.
  intros [(x & Hx & Hr) (w & Hw & Hu) [Hs _] Hwf _ Hp] (w' & Hw' & Hn). rewrite Hw in Hw'. injection Hw' as <-.
  assert (x = a) as -> by apply Hr. split; [by apply deployed_past|]. split; [done|]. split; [done|]. split; [done|]. by exists w.
Qed.

(** A write at the primary keeps all this. *)
Lemma write_deployed fuel p data c r :
  0 < fuel → a ∉ alive → deployed r → attached c p r → local_free c p → (reqSeq c + 3 < 2 ^ 63 - 1)%Z → data ≠ [] →
  let svc : AfsService Replicas := replicas_service fuel in
  ∃ c' r', writeToAFS no_faults p data c r = (None, c', r') ∧
    deployed r' ∧ attached c' p r' ∧ same_client c c' ∧ reqSeq c' = (reqSeq c + 3)%Z ∧
    read_file (cdisk c') (localPath p (cache c')) = Some data ∧ file_at a p r' = Some (data, 2%Z).
Proof.
  intros Hfuel Ha Hd Hatt Hfree Hseq Hne svc. pose (laws := deployed_laws fuel Hfuel Ha).
  destruct (attached_ok c p r Hd Hatt) as [Hok Hn]; [split; [apply Hatt|lia]|].
  destruct (writeToAFS_two c r p data Hok Hn) as (c' & r' & E & Hok' & Hsame & Hf & Heff & Hq & Hloc);
    [by split_and!|done|lia|done|].
  exists c', r'. split; [exact E|].
  destruct (ok_attached c' p r' Hok') as [Hd' Hatt']; [by apply Heff|]. by split_and!.
Qed.

(** The clients of the dead primary, once [b] took over. *)
Lemma orphan_lost b c r2 :
  rp_nodes r2 !! a = None → one_leader b (servers r2) →
  at_primary b (λ w, world_ready w b ∧ ∀ cid n, svc_unused w cid n) r2 →
  grpcConn c = Some a → b ∈ serverAddrs c → seq_ok (reqSeq c) → disk_wf (cdisk c) → lost a b c r2.
Proof.
  intros Hdead Hl (w & Hw & Hr & Hu) Hc Hb Hs Hwf.
  split; [done|done|done| |done| |done|done]; [split; [done|by exists w]|by exists w].
Qed.

End Setting.
