(* ===== verification/Snapshot.v ===== *)
(** * Snapshots: src/primefinder/pkg/snapshot/snapshot.go

    The snapshot structs with their JSON form, saving and loading them on AFS,
    and [InitiateSnapshot], the marker round of the coordinator.  The HTTP post
    of a marker and the clock belong to the world ([SnapshotNet]). *)

From S2P Require Import Prelude GoLib GoText Json JsonCodec Disk AfsProto Server Cache Client AfsSpec SnapshotIO.

Definition CoordSnapshotFile : string := "snapshot_coordinator.json".

Record WorkerSnapshot := mkWorkerSnapshot {
  ws_WorkerID : string;
  ws_CompletedFiles : slice string;
  ws_PrimesFound : slice Z;
  ws_TimestampUnix : Z;
}.

Record ChannelState := mkChannelState { ch_WorkerID : string; MessagesInFlight : Z }.

Record CoordSnapshot := mkCoordSnapshot {
  CompletedFiles : slice string;
  PendingFiles : slice string;
  CollectedPrimes : slice Z;
  ChannelStates : slice ChannelState;
  MarkersSent : Z;
  MarkersAcked : Z;
  TimestampUnix : Z;
}.

#[export] Instance ChannelState_eq_dec : EqDecision ChannelState.
Proof. solve_decision. Defined.
#[export] Instance CoordSnapshot_eq_dec : EqDecision CoordSnapshot.
Proof. solve_decision. Defined.

(** ** JSON *)

Definition WorkerSnapshot_codec : codec WorkerSnapshot :=
  struct_codec (mkWorkerSnapshot "" None None 0) [
    struct_field "worker_id" string_codec ws_WorkerID
      (λ x s, mkWorkerSnapshot x (ws_CompletedFiles s) (ws_PrimesFound s) (ws_TimestampUnix s));
    struct_field "completed_files" (slice_codec string_codec) ws_CompletedFiles
      (λ x s, mkWorkerSnapshot (ws_WorkerID s) x (ws_PrimesFound s) (ws_TimestampUnix s));
    struct_field "primes_found" (slice_codec uint64_codec) ws_PrimesFound
      (λ x s, mkWorkerSnapshot (ws_WorkerID s) (ws_CompletedFiles s) x (ws_TimestampUnix s));
    struct_field "timestamp_unix" int_codec ws_TimestampUnix
      (λ x s, mkWorkerSnapshot (ws_WorkerID s) (ws_CompletedFiles s) (ws_PrimesFound s) x)].

Definition ChannelState_codec : codec ChannelState :=
  struct_codec (mkChannelState "" 0) [
    struct_field "worker_id" string_codec ch_WorkerID (λ x s, mkChannelState x (MessagesInFlight s));
    struct_field "messages_in_flight" int_codec MessagesInFlight (λ x s, mkChannelState (ch_WorkerID s) x)].

Definition CoordSnapshot_codec : codec CoordSnapshot :=
  struct_codec (mkCoordSnapshot None None None None 0 0 0) [
    struct_field "completed_files" (slice_codec string_codec) CompletedFiles
      (λ x s, mkCoordSnapshot x (PendingFiles s) (CollectedPrimes s) (ChannelStates s) (MarkersSent s) (MarkersAcked s) (TimestampUnix s));
    struct_field "pending_files" (slice_codec string_codec) PendingFiles
      (λ x s, mkCoordSnapshot (CompletedFiles s) x (CollectedPrimes s) (ChannelStates s) (MarkersSent s) (MarkersAcked s) (TimestampUnix s));
    struct_field "collected_primes" (slice_codec uint64_codec) CollectedPrimes
      (λ x s, mkCoordSnapshot (CompletedFiles s) (PendingFiles s) x (ChannelStates s) (MarkersSent s) (MarkersAcked s) (TimestampUnix s));
    struct_field "channel_states" (slice_codec ChannelState_codec) ChannelStates
      (λ x s, mkCoordSnapshot (CompletedFiles s) (PendingFiles s) (CollectedPrimes s) x (MarkersSent s) (MarkersAcked s) (TimestampUnix s));
    struct_field "markers_sent" int_codec MarkersSent
      (λ x s, mkCoordSnapshot (CompletedFiles s) (PendingFiles s) (CollectedPrimes s) (ChannelStates s) x (MarkersAcked s) (TimestampUnix s));
    struct_field "markers_acked" int_codec MarkersAcked
      (λ x s, mkCoordSnapshot (CompletedFiles s) (PendingFiles s) (CollectedPrimes s) (ChannelStates s) (MarkersSent s) x (TimestampUnix s));
    struct_field "timestamp_unix" int_codec TimestampUnix
      (λ x s, mkCoordSnapshot (CompletedFiles s) (PendingFiles s) (CollectedPrimes s) (ChannelStates s) (MarkersSent s) (MarkersAcked s) x)].

(** ** Small helpers *)

Definition WorkerSnapshotFile (workerID : string) : string := "snapshot_" +:+ workerID +:+ ".json".

Fixpoint SetContains (l : list string) (s : string) : bool :=
  match l with
  | [] => false
  | v :: l => if decide (v = s) then true else SetContains l s
  end.

Definition BuildSeenSet (primes : list Z) : gmap Z bool :=
  foldl (λ m p, <[p := true]> m) ∅ primes.

(** ** Saving, loading, deleting *)

(** The HTTP post of a marker ([None]: any response), and the clock. *)
Class SnapshotNet (W : Type) := {
  net_Post : string → W → error * W;
  time_Unix : W → Z;
}.

Section Snapshot.
  Context (flt : OsFaults) {W : Type} `{!AfsService W, !SnapshotNet W}.

Definition SaveWorkerSnapshot (client : Client) (snap : WorkerSnapshot) (w : W) : error * Client * W :=
  writeToAFS flt (WorkerSnapshotFile (ws_WorkerID snap)) (Marshal WorkerSnapshot_codec snap) client w.

Definition SaveCoordSnapshot (client : Client) (snap : CoordSnapshot) (w : W) : error * Client * W :=
  writeToAFS flt CoordSnapshotFile (Marshal CoordSnapshot_codec snap) client w.

(** [Ok None]: no snapshot was found. *)
Definition LoadWorkerSnapshot (client : Client) (workerID : string) (w : W)
    : outcome (result (option WorkerSnapshot) * Client * W) :=
  '(r, client, w) ← readFromAFS flt (WorkerSnapshotFile workerID) client w;
  Ret (match r with
       | Err _ => Ok None
       | Ok data =>
           match Unmarshal WorkerSnapshot_codec data with
           | Err e => Err ("unmarshal worker snapshot: " +:+ e)
           | Ok snap => Ok (Some snap)
           end
       end, client, w).

Definition LoadCoordSnapshot (client : Client) (w : W)
    : outcome (result (option CoordSnapshot) * Client * W) :=
  '(r, client, w) ← readFromAFS flt CoordSnapshotFile client w;
  Ret (match r with
       | Err _ => Ok None
       | Ok data =>
           match Unmarshal CoordSnapshot_codec data with
           | Err e => Err ("unmarshal coord snapshot: " +:+ e)
           | Ok snap => Ok (Some snap)
           end
       end, client, w).

Definition DeleteCoordSnapshot (client : Client) (w : W) : Client * W :=
  let '(_, client, w) := client_DeleteFile flt CoordSnapshotFile client w in (client, w).
Definition DeleteWorkerSnapshot (client : Client) (workerID : string) (w : W) : Client * W :=
  let '(_, client, w) := client_DeleteFile flt (WorkerSnapshotFile workerID) client w in (client, w).

(** ** The marker round *)

Definition sendMarker (url : string) (w : W) : error * W := net_Post url w.

(** The loop over the workers; [i] is the index of the next address. *)
Fixpoint marker_loop (httpAddrs workerIDs : list string) (i : nat) (channels : list ChannelState)
    (sent acked : Z) (w : W) : outcome (list ChannelState * Z * Z * W) :=
  match httpAddrs with
  | [] => Ret (channels, sent, acked, w)
  | httpAddr :: httpAddrs =>
      match workerIDs !! i with
      | None => Panic "runtime error: index out of range"
      | Some wID =>
          let channels := channels ++ [mkChannelState wID 0] in
          let sent := i64 (sent + 1) in
          match sendMarker ("http://" +:+ httpAddr +:+ "/snapshot") w with
          | (Some _, w) => marker_loop httpAddrs workerIDs (S i) channels sent acked w
          | (None, w) => marker_loop httpAddrs workerIDs (S i) channels sent (i64 (acked + 1)) w
          end
      end
  end.

Definition InitiateSnapshot (client : Client) (completedFiles pendingFiles : slice string)
    (collectedPrimes : slice Z) (workerHTTPAddrs workerIDs : list string) (w : W)
    : outcome (error * Client * W) :=
  '(channelStates, markersSent, markersAcked, w) ← marker_loop workerHTTPAddrs workerIDs 0 [] 0 0 w;
  Ret (SaveCoordSnapshot client
    (mkCoordSnapshot completedFiles pendingFiles collectedPrimes (Some channelStates)
       markersSent markersAcked (time_Unix w)) w).

End Snapshot.

(** ** The codecs keep what they write *)

Definition channel_ok (s : ChannelState) : Prop :=
  ascii_string (ch_WorkerID s) ∧ is_nat63 (MessagesInFlight s).

Record worker_snap_ok (s : WorkerSnapshot) : Prop := {
  wso_id : ascii_string (ws_WorkerID s);
  wso_files : Forall ascii_string (elems (ws_CompletedFiles s));
  wso_primes : Forall is_u64 (elems (ws_PrimesFound s));
  wso_time : is_nat63 (ws_TimestampUnix s);
}.

Record coord_snap_ok (s : CoordSnapshot) : Prop := {
  cso_files : Forall ascii_string (elems (CompletedFiles s));
  cso_pending : Forall ascii_string (elems (PendingFiles s));
  cso_primes : Forall is_u64 (elems (CollectedPrimes s));
  cso_channels : Forall channel_ok (elems (ChannelStates s));
  cso_sent : is_nat63 (MarkersSent s);
  cso_acked : is_nat63 (MarkersAcked s);
  cso_time : is_nat63 (TimestampUnix s);
}.

(** Reads a member into the field it names. *)
Lemma dec_member {S A} (fs : list (field S)) name (c : codec A) get set ms (s : S) x P :
  find_field fs (s2b name) = Some (struct_field name c get set) → codec_ok c P → P x →
  dec_members fs ((s2b name, enc c x) :: ms) s = dec_members fs ms (set x s).
Proof. intros E Hc Hx. simpl. rewrite E. simpl. destruct (Hc x Hx) as [_ ->]. done. Qed.

Lemma codec_wf {A} (c : codec A) P x : codec_ok c P → P x → wf_json (enc c x).
Proof. intros Hc Hx. by destruct (Hc x Hx). Qed.

Create HintDb codec.
#[local] Hint Resolve string_codec_ok uint64_codec_ok int_codec_ok slice_codec_ok : codec.

(** A struct whose fields are kept is kept. *)
Ltac struct_codec_ok :=
  split;
  [ apply wf_obj; cbn [map f_name f_get struct_field];
    repeat (apply Forall_cons_2;
      [split; [unfold ascii_text, is_ascii; decide_now|eapply codec_wf; [solve [eauto with codec]|eassumption]]|]);
    apply Forall_nil_2
  | intros old; lazymatch goal with |- dec ?c _ _ = _ => unfold c end; cbn [dec enc struct_codec map f_name f_get struct_field];
    repeat (erewrite dec_member; [|reflexivity|solve [eauto with codec]|eassumption]);
    reflexivity ].

Lemma ChannelState_codec_ok : codec_ok ChannelState_codec channel_ok.
Proof. intros [id n] [Hid Hn]. simpl in Hid, Hn. struct_codec_ok. Qed.
#[local] Hint Resolve ChannelState_codec_ok : codec.

Lemma WorkerSnapshot_codec_ok : codec_ok WorkerSnapshot_codec worker_snap_ok.
Proof. intros [id files primes t] [H1 H2 H3 H4]. simpl in H1, H2, H3, H4. struct_codec_ok. Qed.

Lemma CoordSnapshot_codec_ok : codec_ok CoordSnapshot_codec coord_snap_ok.
Proof. intros [f1 f2 f3 f4 f5 f6 f7] [H1 H2 H3 H4 H5 H6 H7]. simpl in H1, H2, H3, H4, H5, H6, H7. struct_codec_ok. Qed.
