(* ===== verification/Calls.v ===== *)
(** * The client library as programs that make calls

    The definitions of Client.v, SnapshotIO.v and Snapshot.v pass the world from
    call to call: nobody else acts in between.  Here the same code is a
    [program], a tree of the calls it makes, which another component can run
    one call at a time (Concurrent.v).  For each one a lemma [run_...] shows that
    the program, run to its end, is the definition of the source's function.
    A program reads the clock together with the call that follows. *)

From S2P Require Import Prelude GoLib GoText Json JsonCodec Disk AfsProto Server Cache Client AfsSpec SnapshotIO Snapshot.

#[export] Instance OpenRequest_eq_dec : EqDecision OpenRequest.
Proof. solve_decision. Defined.
#[export] Instance FetchFileRequest_eq_dec : EqDecision FetchFileRequest.
Proof. solve_decision. Defined.
#[export] Instance TestAuthRequest_eq_dec : EqDecision TestAuthRequest.
Proof. solve_decision. Defined.
#[export] Instance StoreFileRequest_eq_dec : EqDecision StoreFileRequest.
Proof. solve_decision. Defined.
#[export] Instance CreateFileRequest_eq_dec : EqDecision CreateFileRequest.
Proof. solve_decision. Defined.
#[export] Instance DeleteFileRequest_eq_dec : EqDecision DeleteFileRequest.
Proof. solve_decision. Defined.
#[export] Instance CloseFileRequest_eq_dec : EqDecision CloseFileRequest.
Proof. solve_decision. Defined.
#[export] Instance HeartbeatRequest_eq_dec : EqDecision HeartbeatRequest.
Proof. solve_decision. Defined.

(** A call that leaves the process, with its request. *)
Inductive call :=
  | CallGetPrimary (addr : string)
  | CallHeartbeat (addr : string) (req : HeartbeatRequest)
  | CallOpen (addr : string) (req : OpenRequest)
  | CallTestAuth (addr : string) (req : TestAuthRequest)
  | CallFetchFile (addr : string) (req : FetchFileRequest)
  | CallStoreFile (addr : string) (reqs : list StoreFileRequest) (err : error)
  | CallCreateFile (addr : string) (req : CreateFileRequest)
  | CallDeleteFile (addr : string) (req : DeleteFileRequest)
  | CallCloseFile (addr : string) (req : CloseFileRequest)
  | CallPost (url : string)
  | CallSleep.

#[export] Instance call_eq_dec : EqDecision call.
Proof. solve_decision. Defined.

Definition answer (c : call) : Type :=
  match c with
  | CallGetPrimary _ => result string
  | CallHeartbeat _ _ => result HeartbeatResponse
  | CallOpen _ _ => result OpenResponse
  | CallTestAuth _ _ => result TestAuthResponse
  | CallFetchFile _ _ => result (recv_stream FetchFileResponse)
  | CallStoreFile _ _ _ => result StoreFileResponse
  | CallCreateFile _ _ => result CreateFileResponse
  | CallDeleteFile _ _ => result DeleteFileResponse
  | CallCloseFile _ _ => result CloseFileResponse
  | CallPost _ => error
  | CallSleep => unit
  end.

Definition perform {W} `{!AfsService W, !SnapshotNet W} (c : call) : W → answer c * W :=
  match c with
  | CallGetPrimary a => svc_GetPrimary a
  | CallHeartbeat a req => svc_Heartbeat a req
  | CallOpen a req => svc_Open a req
  | CallTestAuth a req => svc_TestAuth a req
  | CallFetchFile a req => svc_FetchFile a req
  | CallStoreFile a reqs err => svc_StoreFile a reqs err
  | CallCreateFile a req => svc_CreateFile a req
  | CallDeleteFile a req => svc_DeleteFile a req
  | CallCloseFile a req => svc_CloseFile a req
  | CallPost url => net_Post url
  | CallSleep => λ w, (tt, svc_sleep w)
  end.

Inductive program (A : Type) :=
  | Return (a : A)
  | Call (c : call) (k : answer c → program A)
  | Clock (k : Z → program A)                       (* time.Now().Unix() *)
  | Dial (addr : string) (k : bool → program A).    (* can a connection to the address be set up *)
Arguments Return {A} a.
Arguments Call {A} c k.
Arguments Clock {A} k.
Arguments Dial {A} addr k.

#[export] Instance program_ret : MRet program := λ A a, Return a.
#[export] Instance program_bind : MBind program := λ A B f,
  fix bind m :=
    match m with
    | Return a => f a
    | Call c k => Call c (λ r, bind (k r))
    | Clock k => Clock (λ t, bind (k t))
    | Dial a k => Dial a (λ b, bind (k b))
    end.

(** One call. *)
Definition ask (c : call) : program (answer c) := Call c Return.

(** ** Running a program without interruption *)

Section Run.
  Context {W : Type} `{!AfsService W, !SnapshotNet W}.

Fixpoint run {A} (m : program A) (w : W) : A * W :=
  match m with
  | Return a => (a, w)
  | Call c k => let '(r, w) := perform c w in run (k r) w
  | Clock k => run (k (time_Unix w)) w
  | Dial a k => run (k (svc_dial (W := W) a)) w
  end.

Lemma run_bind {A B} (m : program A) (f : A → program B) w :
  run (m ≫= f) w = let '(a, w') := run m w in run (f a) w'.
Proof.
  revert w. induction m as [a|c k IH|k IH|a k IH]; intros w; simpl; [done| |apply IH..].
  destruct (perform c w) as [r w']. apply IH.
Qed.

End Run.

(** ** The client *)

Section Client.
  Context (flt : OsFaults).

Fixpoint connect_loop_calls (addrs : list string) (c : Client) : program (bool * Client) :=
  match addrs with
  | [] => Return (false, c)
  | addr :: addrs =>
      Dial addr (λ ok,
      if ok then
        r ← ask (CallGetPrimary addr);
        match r with
        | Ok p =>
            if decide (p = "") then connect_loop_calls addrs c
            else Dial p (λ ok,
              if ok then
                r ← ask (CallHeartbeat p (mkHeartbeatRequest "client"));
                match r with
                | Ok _ => Return (true, set_primary p c)
                | Err _ => connect_loop_calls addrs c
                end
              else connect_loop_calls addrs c)
        | Err _ => connect_loop_calls addrs c
        end
      else connect_loop_calls addrs c)
  end.

(** The wait before all attempts but the first. *)
Definition wait_calls (first : bool) : program unit := if first then Return tt else ask CallSleep.

Fixpoint reconnect_loop_calls (attempts : nat) (first : bool) (c : Client) : program (bool * Client) :=
  match attempts with
  | O => Return (false, c)
  | S attempts =>
      _ ← wait_calls first;
      '(ok, c) ← connect_loop_calls (serverAddrs c) c;
      if (ok : bool) then Return (true, c) else reconnect_loop_calls attempts false c
  end.

Definition reconnectToPrimary_calls (c : Client) : program (bool * Client) :=
  reconnect_loop_calls 10 true (set_conn None c).

Definition NewClient_calls (addrs : list string) (dir clientID : string) (d : Disk) : program (result Client * Disk) :=
  match addrs with
  | [] => Return (Err "need at least one server address", d)
  | _ =>
      match newCacheManager flt dir d with
      | (Err e, d) => Return (Err ("creating cache manager: " +:+ e), d)
      | (Ok cm, d) =>
          '(ok, c) ← connect_loop_calls addrs (mkClient None cm clientID 0 addrs "" d);
          Return (if (ok : bool) then Ok c else Err "finding primary: could not find primary", d)
      end
  end.

Definition on_conn_calls {A} (fn : string → program (result A)) (c : Client) : program (result A) :=
  match grpcConn c with
  | Some addr => fn addr
  | None => Return (Err conn_closing)
  end.

Fixpoint failover_loop_calls {A} (attempts : nat) (first : bool) (lastErr : string)
    (fn : Client → program (result A)) (getAppError : A → string) (c : Client) : program (result A * Client) :=
  match attempts with
  | O => Return (Err (after_retries "8" lastErr), c)
  | S attempts =>
      _ ← wait_calls first;
      r ← fn c;
      match r with
      | Err e =>
          '(_, c) ← reconnectToPrimary_calls c;
          failover_loop_calls attempts false e fn getAppError c
      | Ok r =>
          if Contains (getAppError r) "not primary" then
            '(_, c) ← reconnectToPrimary_calls c;
            failover_loop_calls attempts false ("not primary: " +:+ getAppError r) fn getAppError c
          else Return (Ok r, c)
      end
  end.

Definition retryWithFailover_calls {A} (fn : Client → program (result A)) (getAppError : A → string)
    (c : Client) : program (result A * Client) := failover_loop_calls 8 true "" fn getAppError c.

Fixpoint retry_loop_calls {A} (attempts : nat) (first : bool) (lastErr : string)
    (fn : Client → program (result A)) (c : Client) : program (result A) :=
  match attempts with
  | O => Return (Err (after_retries "3" lastErr))
  | S attempts =>
      _ ← wait_calls first;
      r ← fn c;
      match r with
      | Ok r => Return (Ok r)
      | Err e => retry_loop_calls attempts false e fn c
      end
  end.

Definition retryRPC_calls {A} (fn : Client → program (result A)) (c : Client) : program (result A) :=
  retry_loop_calls 3 true "" fn c.

Fixpoint raw_loop_calls {T} (attempts : nat) (first : bool) (lastErr : string)
    (fn : T → Client → program (error * T * Client)) (s : T) (c : Client) : program (error * T * Client) :=
  match attempts with
  | O => Return (Some (after_retries "8" lastErr), s, c)
  | S attempts =>
      c ← (if first then Return c else
             _ ← ask CallSleep; '(_, c) ← reconnectToPrimary_calls c; Return c);
      '(e, s, c) ← fn s c;
      match e with
      | None => Return (None, s, c)
      | Some e => raw_loop_calls attempts false e fn s c
      end
  end.

Definition retryWithFailoverRaw_calls {T} (fn : T → Client → program (error * T * Client))
    (s : T) (c : Client) : program (error * T * Client) := raw_loop_calls 8 true "" fn s c.

Definition fetch_attempt_calls (path : string) (fetchVersion : Z) (c : Client) : program (error * Z * Client) :=
  let local := localPath path (cache c) in
  r ← on_conn_calls (λ a, ask (CallFetchFile a (mkFetchFileRequest path))) c;
  Return
    match r with
    | Err e => (Some ("FetchFile stream: " +:+ e), fetchVersion, c)
    | Ok stream =>
        let tmpPath := local +:+ ".tmp" in
        match os_Create flt (cdisk c) tmpPath with
        | (Err e, d) => (Some ("create tmp: " +:+ e), fetchVersion, set_cdisk d c)
        | (Ok fd, d) =>
            match fetch_loop flt (msgs stream) (recv_end stream) fd tmpPath fetchVersion d with
            | (Some e, v, d) => (Some e, v, set_cdisk d c)
            | (None, v, d) => let '(e, d) := os_Rename flt d tmpPath local in (e, v, set_cdisk d c)
            end
        end
    end.

Definition fetch_and_open_calls (path : string) (write : bool) (serverHandle : Z) (c : Client)
    : program (result Z * Client) :=
  '(e, fetchVersion, c) ← retryWithFailoverRaw_calls (fetch_attempt_calls path) 0%Z c;
  Return
    match e with
    | Some e => (Err ("FetchFile RPC failed: " +:+ e), c)
    | None =>
        open_local flt "opening local cache file: " path write serverHandle
          (set_cache (storeCacheEntry path fetchVersion (cache c)) c)
    end.

Definition client_Open_calls (path : string) (write : bool) (c : Client) : program (result Z * Client) :=
  let seq := i64 (reqSeq c + 1) in
  let c := set_seq seq c in
  '(r, c) ← retryWithFailover_calls
    (λ c, on_conn_calls (λ a, ask (CallOpen a (mkOpenRequest path write (clientId c) seq))) c) op_Error c;
  match r with
  | Err e => Return (Err ("Open RPC failed: " +:+ e), c)
  | Ok openResp =>
      if decide (op_Error openResp ≠ "") then Return (Err ("Open RPC error: " +:+ op_Error openResp), c)
      else
        let serverHandle := op_FileHandleId openResp in
        match isCached path (cache c) with
        | Some cachedVersion =>
            r ← retryRPC_calls (on_conn_calls (λ a, ask (CallTestAuth a (mkTestAuthRequest path cachedVersion)))) c;
            match r with
            | Ok authResp =>
                if tp_IsValid authResp then Return (open_local flt "opening local cache: " path write serverHandle c)
                else fetch_and_open_calls path write serverHandle c
            | Err _ => fetch_and_open_calls path write serverHandle c
            end
        | None => fetch_and_open_calls path write serverHandle c
        end
  end.

Definition store_attempt_calls (path : string) (seq : Z) (storeVersion : Z) (c : Client) : program (error * Z * Client) :=
  match grpcConn c with
  | None => Return (Some ("StoreFile stream: " +:+ conn_closing), storeVersion, c)
  | Some addr =>
      match os_Open flt (cdisk c) (localPath path (cache c)) with
      | Err e =>
          _ ← ask (CallStoreFile addr [] (Some "context canceled"));
          Return (Some ("open local cache: " +:+ e), storeVersion, c)
      | Ok f =>
          let '(cs, rd_err) := read_chunks flt chunkSize (cdisk c) f in
          let reqs := store_chunks path (clientId c) seq cs in
          match rd_err with
          | Some e =>
              _ ← ask (CallStoreFile addr reqs (Some "context canceled"));
              Return (Some e, storeVersion, c)
          | None =>
              r ← ask (CallStoreFile addr reqs None);
              Return
                match r with
                | Err e => (Some ("CloseAndRecv: " +:+ e), storeVersion, c)
                | Ok resp =>
                    if Contains (sp_Error resp) "not primary" then
                      (Some ("not primary: " +:+ sp_Error resp), storeVersion, c)
                    else if decide (sp_Error resp ≠ "") then
                      (Some ("StoreFile error: " +:+ sp_Error resp), storeVersion, c)
                    else (None, sp_Version resp, c)
                end
          end
      end
  end.

Definition close_handle_calls (serverHandle : Z) (c : Client) : program (result CloseFileResponse) :=
  on_conn_calls (λ a, ask (CallCloseFile a (mkCloseFileRequest serverHandle))) c.

Definition client_Close_calls (handleID : Z) (c : Client) : program (error * Client) :=
  match closeFile handleID (cache c) with
  | (None, _) => Return (Some (unknown_handle handleID), c)
  | (Some entry, cm) =>
      let c := set_cache cm c in
      if dirty entry then
        let seq := i64 (reqSeq c + 1) in
        let c := set_seq seq c in
        '(e, storeVersion, c) ← retryWithFailoverRaw_calls (store_attempt_calls (oe_path entry) seq) 0%Z c;
        match e with
        | Some e => Return (Some ("StoreFile RPC failed: " +:+ e), c)
        | None =>
            let c := set_cache (updateVersion (oe_path entry) storeVersion (cache c)) c in
            _ ← close_handle_calls (serverHandleID entry) c; Return (None, c)
        end
      else _ ← close_handle_calls (serverHandleID entry) c; Return (None, c)
  end.

Definition client_CreateFile_calls (path : string) (c : Client) : program (result Z * Client) :=
  let seq := i64 (reqSeq c + 1) in
  let c := set_seq seq c in
  '(r, c) ← retryWithFailover_calls
    (λ c, on_conn_calls (λ a, ask (CallCreateFile a (mkCreateFileRequest path (clientId c) seq))) c) cp_Error c;
  Return
    match r with
    | Err e => (Err ("CreateFile RPC failed: " +:+ e), c)
    | Ok resp =>
        if decide (cp_Error resp ≠ "") then (Err ("CreateFile RPC error: " +:+ cp_Error resp), c)
        else
          match os_WriteFile_empty flt (cdisk c) (localPath path (cache c)) with
          | (Some e, d) => (Err ("creating local cache file: " +:+ e), set_cdisk d c)
          | (None, d) =>
              let c := set_cache (storeCacheEntry path 1 (cache c)) (set_cdisk d c) in
              open_local flt "opening local cache file: " path true (cp_FileHandleId resp) c
          end
    end.

Definition client_DeleteFile_calls (path : string) (c : Client) : program (error * Client) :=
  let seq := i64 (reqSeq c + 1) in
  let c := set_seq seq c in
  '(r, c) ← retryWithFailover_calls
    (λ c, on_conn_calls (λ a, ask (CallDeleteFile a (mkDeleteFileRequest path (clientId c) seq))) c) dp_Error c;
  Return
    match r with
    | Err e => (Some ("DeleteFile RPC failed: " +:+ e), c)
    | Ok resp =>
        if decide (dp_Error resp ≠ "") then (Some ("DeleteFile RPC error: " +:+ dp_Error resp), c)
        else
          let '(_, d) := os_Remove flt (cdisk c) (localPath path (cache c)) in
          (None, set_cache (deleteCacheEntry path (cache c)) (set_cdisk d c))
    end.

(** ** Whole files and snapshots *)

Definition writeToAFS_calls (name : string) (data : bytes) (c : Client) : program (error * Client) :=
  '(_, c) ← client_DeleteFile_calls name c;
  '(r, c) ← client_CreateFile_calls name c;
  match r with
  | Err e => Return (Some ("CreateFile " +:+ name +:+ ": " +:+ e), c)
  | Ok handle =>
      match client_Write flt handle data c with
      | (Err e, c) =>
          '(_, c) ← client_Close_calls handle c;
          Return (Some ("Write " +:+ name +:+ ": " +:+ e), c)
      | (Ok _, c) =>
          '(e, c) ← client_Close_calls handle c;
          match e with
          | Some e => Return (Some ("Close " +:+ name +:+ ": " +:+ e), c)
          | None => Return (None, c)
          end
      end
  end.

Definition readFromAFS_calls (name : string) (c : Client) : program (outcome (result bytes * Client)) :=
  '(r, c) ← client_Open_calls name false c;
  match r with
  | Err e => Return (Ret (Err ("open " +:+ name +:+ ": " +:+ e), c))
  | Ok handle =>
      match read_to_end flt (Z.to_nat 32768) handle c with
      | Ret (all, _, c) =>
          '(_, c) ← client_Close_calls handle c;
          Return (Ret (if decide (all = []) then Err ("empty or missing file " +:+ name) else Ok all, c))
      | Panic msg => Return (Panic msg)
      | NoFuel => Return NoFuel
      end
  end.

Definition SaveWorkerSnapshot_calls (client : Client) (snap : WorkerSnapshot) : program (error * Client) :=
  writeToAFS_calls (WorkerSnapshotFile (ws_WorkerID snap)) (Marshal WorkerSnapshot_codec snap) client.

Definition SaveCoordSnapshot_calls (client : Client) (snap : CoordSnapshot) : program (error * Client) :=
  writeToAFS_calls CoordSnapshotFile (Marshal CoordSnapshot_codec snap) client.

(** The markers; [None] when the index leaves the list of ids. *)
Fixpoint marker_loop_calls (httpAddrs workerIDs : list string) (i : nat) (channels : list ChannelState)
    (sent acked : Z) : program (outcome (list ChannelState * Z * Z)) :=
  match httpAddrs with
  | [] => Return (Ret (channels, sent, acked))
  | httpAddr :: httpAddrs =>
      match workerIDs !! i with
      | None => Return (Panic "runtime error: index out of range")
      | Some wID =>
          let channels := channels ++ [mkChannelState wID 0] in
          let sent := i64 (sent + 1) in
          e ← ask (CallPost ("http://" +:+ httpAddr +:+ "/snapshot"));
          match (e : error) with
          | Some _ => marker_loop_calls httpAddrs workerIDs (S i) channels sent acked
          | None => marker_loop_calls httpAddrs workerIDs (S i) channels sent (i64 (acked + 1))
          end
      end
  end.

Definition InitiateSnapshot_calls (client : Client) (completedFiles pendingFiles : slice string)
    (collectedPrimes : slice Z) (workerHTTPAddrs workerIDs : list string) : program (outcome (error * Client)) :=
  o ← marker_loop_calls workerHTTPAddrs workerIDs 0 [] 0 0;
  match o with
  | Ret (channelStates, markersSent, markersAcked) =>
      Clock (λ now,
        r ← SaveCoordSnapshot_calls client
          (mkCoordSnapshot completedFiles pendingFiles collectedPrimes (Some channelStates) markersSent markersAcked now);
        Return (Ret r))
  | Panic msg => Return (Panic msg)
  | NoFuel => Return NoFuel
  end.

End Client.

(** ** The programs are the functions *)

Section Runs.
  Context (flt : OsFaults) {W : Type} `{!AfsService W, !SnapshotNet W}.

(** [m], run to its end, is [f]. *)
Definition runs_as {A} (m : program A) (f : W → A * W) : Prop := ∀ w, run m w = f w.

Lemma run_ask c (w : W) : run (ask c) w = perform c w.
Proof using Type. unfold ask. simpl. by destruct (perform c w). Qed.

Lemma run_wait first (w : W) : run (wait_calls first) w = (tt, if first then w else svc_sleep w).
Proof using Type. by destruct first. Qed.

(** Performs the call in front. *)
Ltac run_call :=
  match goal with
  | |- context [run (ask ?c) ?w] =>
      let E := fresh "E" in pose proof (run_ask c w) as E; first [rewrite E; cbn [answer perform]|cbn [answer perform] in E; rewrite E]; clear E
  end.

Lemma run_connect_loop addrs c : runs_as (connect_loop_calls addrs c) (connect_loop addrs c).
Proof using Type.
  induction addrs as [|a addrs IH]; intros w; [done|]. cbn [connect_loop_calls connect_loop run].
  destruct (svc_dial a); [|apply IH]. rewrite run_bind. run_call.
  destruct (svc_GetPrimary a w) as [[p|e] w1]; [|apply IH]. case_decide; [apply IH|]. cbn [run].
  destruct (svc_dial p); [|apply IH]. rewrite run_bind. run_call.
  destruct (svc_Heartbeat p _ w1) as [[r|e] w2]; [done|apply IH].
Qed.

Lemma run_reconnect_loop n first c : runs_as (reconnect_loop_calls n first c) (reconnect_loop n first c).
Proof using Type.
  revert first c. induction n as [|n IH]; intros first c w; [done|]. cbn [reconnect_loop_calls reconnect_loop].
  rewrite run_bind, run_wait, run_bind, run_connect_loop. unfold connectToPrimary.
  destruct (connect_loop _ c _) as [[[|] c1] w1]; [done|apply IH].
Qed.

Lemma run_reconnect c : runs_as (reconnectToPrimary_calls c) (reconnectToPrimary c).
Proof using Type. intros w. apply run_reconnect_loop. Qed.

Lemma run_NewClient addrs dir cid d : runs_as (NewClient_calls flt addrs dir cid d) (NewClient flt addrs dir cid d).
Proof using Type.
  intros w. unfold NewClient_calls, NewClient. destruct addrs as [|a addrs]; [done|].
  destruct (newCacheManager flt dir d) as [[cm|e] d1]; [|done]. rewrite run_bind, run_connect_loop.
  unfold connectToPrimary. cbn [serverAddrs]. by destruct (connect_loop _ _ w) as [[[|] c] w1].
Qed.

Lemma run_on_conn {A} (fn : string → program (result A)) call c :
  (∀ a, runs_as (fn a) (call a)) → runs_as (on_conn_calls fn c) (on_conn call c).
Proof using Type. intros Hfn w. unfold on_conn_calls, on_conn. destruct (grpcConn c); [apply Hfn|done]. Qed.

Lemma run_failover_loop {A} n first last (m : Client → program (result A)) fn app c :
  (∀ c, runs_as (m c) (fn c)) → runs_as (failover_loop_calls n first last m app c) (failover_loop n first last fn app c).
Proof using Type.
  intros Hm. revert first last c. induction n as [|n IH]; intros first last c w; [done|].
  cbn [failover_loop_calls failover_loop]. rewrite run_bind, run_wait, run_bind, Hm.
  destruct (fn c _) as [[r|e] w1].
  - destruct (Contains (app r) "not primary"); [|done]. rewrite run_bind, run_reconnect.
    destruct (reconnectToPrimary c w1) as [[b c1] w2]. apply IH.
  - rewrite run_bind, run_reconnect. destruct (reconnectToPrimary c w1) as [[b c1] w2]. apply IH.
Qed.

Lemma run_retry_loop {A} n first last (m : Client → program (result A)) fn c :
  (∀ c, runs_as (m c) (fn c)) → runs_as (retry_loop_calls n first last m c) (retry_loop n first last fn c).
Proof using Type.
  intros Hm. revert first last. induction n as [|n IH]; intros first last w; [done|].
  cbn [retry_loop_calls retry_loop]. rewrite run_bind, run_wait, run_bind, Hm.
  destruct (fn c _) as [[r|e] w1]; [done|apply IH].
Qed.

Lemma run_raw_loop {T} n first last (m : T → Client → program (error * T * Client)) fn s c :
  (∀ s c, runs_as (m s c) (fn s c)) → runs_as (raw_loop_calls n first last m s c) (raw_loop n first last fn s c).
Proof using Type.
  intros Hm. revert first last s c. induction n as [|n IH]; intros first last s c w; [done|].
  cbn [raw_loop_calls raw_loop]. rewrite run_bind.
  assert (E : run (if first then Return c else _ ← ask CallSleep; '(_, c) ← reconnectToPrimary_calls c; Return c) w =
    (if first then (c, w) else let '(_, c, w) := reconnectToPrimary c (svc_sleep w) in (c, w))).
  { destruct first; [done|]. rewrite run_bind. run_call. rewrite run_bind, run_reconnect.
    by destruct (reconnectToPrimary c _) as [[b c1] w1]. }
  rewrite E. clear E. generalize (if first then (c, w) else let '(_, c, w) := reconnectToPrimary c (svc_sleep w) in (c, w)).
  intros [c1 w1]. rewrite run_bind, Hm.
  destruct (fn s c1 w1) as [[[[e|] s1] c2] w2]; [apply IH|done].
Qed.

Lemma run_fetch_attempt path v c : runs_as (fetch_attempt_calls flt path v c) (fetch_attempt flt path v c).
Proof using Type.
  intros w. unfold fetch_attempt_calls, fetch_attempt. rewrite run_bind.
  rewrite (run_on_conn _ (λ a, svc_FetchFile a (mkFetchFileRequest path))) by (intros a w'; by run_call).
  destruct (on_conn _ c w) as [[st|e] w1]; [|done]. destruct (os_Create _ _ _) as [[fd|e] d]; [|done].
  destruct (fetch_loop _ _ _ _ _ _ _) as [[[e|] v1] d1]; [done|]. by destruct (os_Rename _ _ _ _).
Qed.

Lemma run_fetch_and_open path wr sh c : runs_as (fetch_and_open_calls flt path wr sh c) (fetch_and_open flt path wr sh c).
Proof using Type.
  intros w. unfold fetch_and_open_calls, fetch_and_open. rewrite run_bind. unfold retryWithFailoverRaw_calls, retryWithFailoverRaw.
  rewrite (run_raw_loop _ _ _ _ (fetch_attempt flt path)) by (intros s c'; apply run_fetch_attempt).
  destruct (raw_loop _ _ _ _ _ _ w) as [[[[e|] v] c1] w1]; [done|]. simpl. by destruct (open_local _ _ _ _ _ _).
Qed.

Lemma run_client_Open path wr c : runs_as (client_Open_calls flt path wr c) (client_Open flt path wr c).
Proof using Type.
  intros w. unfold client_Open_calls, client_Open. rewrite run_bind. unfold retryWithFailover_calls, retryWithFailover.
  set (fn := λ c0, on_conn (λ a, svc_Open a _) c0).
  rewrite (run_failover_loop _ _ _ _ fn) by (intros c'; apply run_on_conn; intros a w'; by run_call).
  destruct (failover_loop _ _ _ _ _ _ w) as [[[r|e] c1] w1]; [|done]. case_decide; [done|].
  destruct (isCached path (cache c1)) as [v|]; [|apply run_fetch_and_open]. rewrite run_bind. unfold retryRPC_calls, retryRPC.
  rewrite (run_retry_loop _ _ _ _ (on_conn (λ a, svc_TestAuth a (mkTestAuthRequest path v))))
    by (intros c'; apply run_on_conn; intros a w'; by run_call).
  destruct (retry_loop _ _ _ _ _ w1) as [[a|e] w2]; [|apply run_fetch_and_open].
  destruct (tp_IsValid a); [|apply run_fetch_and_open]. simpl. by destruct (open_local _ _ _ _ _ _).
Qed.

Lemma run_store_attempt path seq v c : runs_as (store_attempt_calls flt path seq v c) (store_attempt flt path seq v c).
Proof using Type.
  intros w. unfold store_attempt_calls, store_attempt. destruct (grpcConn c) as [a|]; [|done].
  destruct (os_Open _ _ _) as [f|e]; [destruct (read_chunks _ _ _ _) as [cs [e|]]|]; rewrite run_bind; run_call.
  - by destruct (svc_StoreFile _ _ _ w).
  - destruct (svc_StoreFile _ _ _ w) as [[r|e] w1]; [|done]. simpl. destruct (Contains _ _); [done|]. by case_decide.
  - by destruct (svc_StoreFile _ _ _ w).
Qed.

Lemma run_close_handle sh c (w : W) : (run (close_handle_calls sh c) w).2 = close_handle sh c w.
Proof using Type.
  unfold close_handle_calls, close_handle.
  by rewrite (run_on_conn _ (λ a, svc_CloseFile a (mkCloseFileRequest sh))) by (intros a w'; by run_call).
Qed.

Lemma run_client_Close h c : runs_as (client_Close_calls flt h c) (client_Close flt h c).
Proof using Type.
  intros w. unfold client_Close_calls, client_Close. destruct (closeFile h (cache c)) as [[e|] cm]; [|done].
  assert (Hc : ∀ c' w', run (_ ← close_handle_calls (serverHandleID e) c'; Return (@None string, c')) w' =
    (None, c', close_handle (serverHandleID e) c' w')).
  { intros c' w'. rewrite run_bind, <- run_close_handle. by destruct (run (close_handle_calls _ _) w'). }
  destruct (dirty e); [|apply Hc]. rewrite run_bind. unfold retryWithFailoverRaw_calls, retryWithFailoverRaw.
  rewrite (run_raw_loop _ _ _ _ (store_attempt flt (oe_path e) (i64 (reqSeq (set_cache cm c) + 1))))
    by (intros s c'; apply run_store_attempt).
  destruct (raw_loop _ _ _ _ _ _ w) as [[[[x|] v] c1] w1]; [done|]. apply Hc.
Qed.

Lemma run_client_CreateFile p c : runs_as (client_CreateFile_calls flt p c) (client_CreateFile flt p c).
Proof using Type.
  intros w. unfold client_CreateFile_calls, client_CreateFile. rewrite run_bind. unfold retryWithFailover_calls, retryWithFailover.
  set (fn := λ c0, on_conn (λ a, svc_CreateFile a _) c0).
  rewrite (run_failover_loop _ _ _ _ fn) by (intros c'; apply run_on_conn; intros a w'; by run_call).
  destruct (failover_loop _ _ _ _ _ _ w) as [[[r|e] c1] w1]; [|done]. case_decide; [done|].
  destruct (os_WriteFile_empty _ _ _) as [[e|] d]; [done|]. simpl. by destruct (open_local _ _ _ _ _ _).
Qed.

Lemma run_client_DeleteFile p c : runs_as (client_DeleteFile_calls flt p c) (client_DeleteFile flt p c).
Proof using Type.
  intros w. unfold client_DeleteFile_calls, client_DeleteFile. rewrite run_bind. unfold retryWithFailover_calls, retryWithFailover.
  set (fn := λ c0, on_conn (λ a, svc_DeleteFile a _) c0).
  rewrite (run_failover_loop _ _ _ _ fn) by (intros c'; apply run_on_conn; intros a w'; by run_call).
  destruct (failover_loop _ _ _ _ _ _ w) as [[[r|e] c1] w1]; [|done]. case_decide; [done|].
  simpl. by destruct (os_Remove _ _ _).
Qed.

Lemma run_writeToAFS name data c : runs_as (writeToAFS_calls flt name data c) (writeToAFS flt name data c).
Proof using Type.
  intros w. unfold writeToAFS_calls, writeToAFS. rewrite run_bind, run_client_DeleteFile.
  destruct (client_DeleteFile flt name c w) as [[e c1] w1]. rewrite run_bind, run_client_CreateFile.
  destruct (client_CreateFile flt name c1 w1) as [[[h|e1] c2] w2]; [|done].
  destruct (client_Write flt h data c2) as [[n|e1] c3]; rewrite run_bind, run_client_Close;
    [|by destruct (client_Close flt h c3 w2) as [[e2 c4] w4]].
  by destruct (client_Close flt h c3 w2) as [[[e2|] c4] w4].
Qed.

(** A run that may panic keeps the world only when it returns. *)
Definition join_world {A} (x : outcome A * W) : outcome (A * W) :=
  match x with (Ret a, w) => Ret (a, w) | (Panic msg, _) => Panic msg | (NoFuel, _) => NoFuel end.

Lemma run_readFromAFS name c (w : W) :
  join_world (run (readFromAFS_calls flt name c) w) = readFromAFS flt name c w.
Proof using Type.
  unfold readFromAFS_calls, readFromAFS. rewrite run_bind, run_client_Open.
  destruct (client_Open flt name false c w) as [[[h|e] c1] w1]; [|done].
  destruct (read_to_end _ _ _ _) as [[[all e] c2]|msg|]; [|done..]. rewrite run_bind, run_client_Close. go_step.
  by destruct (client_Close flt h c2 w1) as [[e2 c3] w3].
Qed.

Lemma run_marker_loop addrs ids i cs sent acked (w : W) :
  join_world (run (marker_loop_calls addrs ids i cs sent acked) w) = marker_loop addrs ids i cs sent acked w.
Proof using Type.
  revert i cs sent acked w. induction addrs as [|a addrs IH]; intros i cs sent acked w; [done|].
  cbn [marker_loop_calls marker_loop]. destruct (ids !! i) as [id|]; [|done]. rewrite run_bind. run_call.
  unfold sendMarker. destruct (net_Post _ w) as [[e|] w1]; apply IH.
Qed.

Lemma run_InitiateSnapshot c done pending ps addrs ids (w : W) :
  join_world (run (InitiateSnapshot_calls flt c done pending ps addrs ids) w) =
    InitiateSnapshot flt c done pending ps addrs ids w.
Proof using Type.
  unfold InitiateSnapshot_calls, InitiateSnapshot. rewrite run_bind, <- run_marker_loop.
  destruct (run (marker_loop_calls _ _ _ _ _ _) w) as [[[[cs sent] acked]|msg|] w1]; [|done..].
  cbn [run]. rewrite run_bind. unfold SaveCoordSnapshot_calls. rewrite run_writeToAFS. cbn [join_world]. go_step. unfold SaveCoordSnapshot.
  destruct (writeToAFS _ _ _ _ _) as [[e c1] w2]. reflexivity.
Qed.

End Runs.
