(* ===== verification/Interrupt.v ===== *)
(** * A primary that dies during a client's operation

    The programs of Calls.v on the servers of Replicas.v: the primary dies after
    any number of calls, or in one that it still carried out and whose answer is
    lost, a backup takes over, and the program goes on. *)

From S2P Require Import Prelude GoLib GoText GoPath Disk AfsProto Server Handler HandlerSpec Service Cluster SyncSpec Election ElectionProps Cache Client AfsSpec AfsWorld Json JsonCodec SnapshotIO ClientStart Replicas ReplicasSpec Failover Takeover Snapshot Calls.

(** ** Operations by their calls *)

Section Steps.
  Context {W : Type} `{!AfsService W, !SnapshotNet W}.

(** [retryWithFailover] once its first attempt has ended. *)
Definition failover_answer {A} (fn : Client → program (result A)) (app : A → string) (c : Client) (r : result A)
    : program (result A * Client) :=
  match r with
  | Err e => '(_, c) ← reconnectToPrimary_calls c; failover_loop_calls 7 false e fn app c
  | Ok r =>
      if Contains (app r) "not primary" then
        '(_, c) ← reconnectToPrimary_calls c;
        failover_loop_calls 7 false ("not primary: " +:+ app r) fn app c
      else Return (Ok r, c)
  end.

Lemma failover_first_call {A} (fn : Client → program (result A)) app c :
  retryWithFailover_calls fn app c = fn c ≫= failover_answer fn app c.
Proof using Type. reflexivity. Qed.

(** A failed attempt is repeated by the reconnected client. *)
Lemma failover_again {A} (m : Client → program (result A)) fn app c (w : W) e c1 w1 x w2 :
  (∀ c, runs_as (m c) (fn c)) → reconnectToPrimary c w = (true, c1, w1) → fn c1 (svc_sleep w1) = (Ok x, w2) →
  Contains (app x) "not primary" = false →
  run (failover_answer m app c (Err e)) w = ((Ok x, c1), w2).
Proof using Type.
  intros Hm E1 E2 Ha. unfold failover_answer. rewrite run_bind, run_reconnect, E1. cbn [failover_loop_calls].
  rewrite run_bind, run_wait, run_bind, Hm, E2, Ha. done.
Qed.

Lemma failover_once {A} (m : Client → program (result A)) fn app c (w : W) x w2 :
  (∀ c, runs_as (m c) (fn c)) → fn c w = (Ok x, w2) → Contains (app x) "not primary" = false →
  run (retryWithFailover_calls m app c) w = ((Ok x, c), w2).
Proof using Type. intros Hm E Ha. rewrite failover_first_call, run_bind, Hm, E. unfold failover_answer. by rewrite Ha. Qed.

(** Creating and deleting make one call; if it fails, the new primary is asked. *)
Lemma DeleteFile_step a b p c :
  grpcConn c = Some a →
  let req := mkDeleteFileRequest p (clientId c) (i64 (reqSeq c + 1)) in
  ∃ k, client_DeleteFile_calls no_faults p c = ask (CallDeleteFile a req) ≫= k ∧
    (∀ resp, dp_Error resp = "" → ∃ y, k (Ok resp) = Return y) ∧
    ∀ e (w w1 : W) x w2, (∀ w : W, svc_sleep w = w) →
      reconnectToPrimary (set_seq (i64 (reqSeq c + 1)) c) w = (true, set_seq (i64 (reqSeq c + 1)) (set_primary b c), w1) →
      svc_DeleteFile b req w1 = (Ok x, w2) → Contains (dp_Error x) "not primary" = false →
      run (k (Err e)) w = run (client_DeleteFile_calls no_faults p (set_primary b c)) w1.
Proof using Type.
  intros Hc req. unfold client_DeleteFile_calls. cbn [reqSeq set_primary]. set (seq := i64 (reqSeq c + 1)) in *.
  set (m := λ c0 : Client, on_conn_calls (λ a, ask (CallDeleteFile a (mkDeleteFileRequest p (clientId c0) seq))) c0).
  set (fn := λ c0 : Client, on_conn (W := W) (λ a, svc_DeleteFile a (mkDeleteFileRequest p (clientId c0) seq)) c0).
  assert (Hm : ∀ c0, runs_as (m c0) (fn c0)).
  { intros c0. apply run_on_conn. intros a0 w. exact (run_ask (CallDeleteFile a0 _) w). }
  assert (Em : m (set_seq seq c) = ask (CallDeleteFile a req)) by (unfold m, on_conn_calls; cbn [grpcConn set_seq]; by rewrite Hc).
  eexists. split; [rewrite failover_first_call, Em; reflexivity|].
  split.
  - intros resp He. simpl. rewrite He. simpl. rewrite decide_False by naive_solver.
    destruct (os_Remove _ _ _). by eexists.
  - intros e w w1 x w2 Hsl E1 E2 Ha. cbv beta.
    assert (E : fn (set_seq seq (set_primary b c)) w1 = (Ok x, w2)) by exact E2.
    etrans; [apply run_bind|]. rewrite (failover_again m fn dp_Error _ w e _ w1 x w2 Hm E1 ltac:(by rewrite Hsl) Ha).
    symmetry. etrans; [apply run_bind|]. by rewrite (failover_once m fn dp_Error _ w1 x w2 Hm E Ha).
Qed.

Lemma CreateFile_step a b p c :
  grpcConn c = Some a →
  let req := mkCreateFileRequest p (clientId c) (i64 (reqSeq c + 1)) in
  ∃ k, client_CreateFile_calls no_faults p c = ask (CallCreateFile a req) ≫= k ∧
    (∀ resp, cp_Error resp = "" → ∃ y, k (Ok resp) = Return y) ∧
    ∀ e (w w1 : W) x w2, (∀ w : W, svc_sleep w = w) →
      reconnectToPrimary (set_seq (i64 (reqSeq c + 1)) c) w = (true, set_seq (i64 (reqSeq c + 1)) (set_primary b c), w1) →
      svc_CreateFile b req w1 = (Ok x, w2) → Contains (cp_Error x) "not primary" = false →
      run (k (Err e)) w = run (client_CreateFile_calls no_faults p (set_primary b c)) w1.
Proof using Type.
  intros Hc req. unfold client_CreateFile_calls. cbn [reqSeq set_primary]. set (seq := i64 (reqSeq c + 1)) in *.
  set (m := λ c0 : Client, on_conn_calls (λ a, ask (CallCreateFile a (mkCreateFileRequest p (clientId c0) seq))) c0).
  set (fn := λ c0 : Client, on_conn (W := W) (λ a, svc_CreateFile a (mkCreateFileRequest p (clientId c0) seq)) c0).
  assert (Hm : ∀ c0, runs_as (m c0) (fn c0)).
  { intros c0. apply run_on_conn. intros a0 w. exact (run_ask (CallCreateFile a0 _) w). }
  assert (Em : m (set_seq seq c) = ask (CallCreateFile a req)) by (unfold m, on_conn_calls; cbn [grpcConn set_seq]; by rewrite Hc).
  eexists. split; [rewrite failover_first_call, Em; reflexivity|].
  split.
  - intros resp He. simpl. rewrite He. simpl. rewrite decide_False by naive_solver.
    destruct (os_WriteFile_empty _ _ _) as [[e|] d]; by eexists.
  - intros e w w1 x w2 Hsl E1 E2 Ha. cbv beta.
    assert (E : fn (set_seq seq (set_primary b c)) w1 = (Ok x, w2)) by exact E2.
    etrans; [apply run_bind|]. rewrite (failover_again m fn cp_Error _ w e _ w1 x w2 Hm E1 ltac:(by rewrite Hsl) Ha).
    symmetry. etrans; [apply run_bind|]. by rewrite (failover_once m fn cp_Error _ w1 x w2 Hm E Ha).
Qed.

(** [retryWithFailoverRaw] once its first attempt has ended. *)
Definition raw_answer {T} (fn : T → Client → program (error * T * Client)) (r : error * T * Client)
    : program (error * T * Client) :=
  let '(e, s, c) := r in
  match e with
  | None => Return (None, s, c)
  | Some e => raw_loop_calls 7 false e fn s c
  end.

Lemma raw_first_call {T} (fn : T → Client → program (error * T * Client)) s c :
  retryWithFailoverRaw_calls fn s c = fn s c ≫= raw_answer fn.
Proof using Type. reflexivity. Qed.

Lemma raw_again {T} (m : T → Client → program (error * T * Client)) fn s c (w : W) e c1 w1 v c2 w2 :
  (∀ s c, runs_as (m s c) (fn s c)) → reconnectToPrimary c (svc_sleep w) = (true, c1, w1) → fn s c1 w1 = (None, v, c2, w2) →
  run (raw_answer m (Some e, s, c)) w = ((None, v, c2), w2).
Proof using Type.
  intros Hm E1 E2. unfold raw_answer. cbn [raw_loop_calls]. rewrite run_bind, run_bind.
  change (run (ask CallSleep) w) with (tt, svc_sleep w). cbn beta iota. rewrite run_bind, run_reconnect, E1. cbn [run].
  rewrite run_bind, Hm, E2. done.
Qed.

Lemma raw_once {T} (m : T → Client → program (error * T * Client)) fn s c (w : W) v c2 w2 :
  (∀ s c, runs_as (m s c) (fn s c)) → fn s c w = (None, v, c2, w2) →
  run (retryWithFailoverRaw_calls m s c) w = ((None, v, c2), w2).
Proof using Type. intros Hm E. by rewrite raw_first_call, run_bind, Hm, E. Qed.

(** Closing a changed file makes two: it stores the content, again at the new
    primary if that fails, and lets the handle go. *)
Lemma Close_step a id p data c :
  grpcConn c = Some a → editing c id p data true → data ≠ [] →
  ∃ cm ch chs k, let c1 := set_seq (i64 (reqSeq c + 1)) (set_cache cm c) in
    closeFile id (cache c) = (openFiles (cache c) !! id, cm) ∧
    concat (ch :: chs) = data ∧ localPath p cm = localPath p (cache c) ∧
    read_file (cdisk c) (localPath p (cache c)) = Some data ∧
    client_Close_calls no_faults id c = ask (CallStoreFile a (store_chunks p (clientId c) (i64 (reqSeq c + 1)) (ch :: chs)) None) ≫= k ∧
    (∀ resp, sp_Error resp = "" → ∃ sh y, k (Ok resp) = (_ ← ask (CallCloseFile a (mkCloseFileRequest sh)); Return (None, y))) ∧
    ∀ b e (w w1 : W) v w2, (∀ w : W, svc_sleep w = w) →
      reconnectToPrimary c1 w = (true, set_primary b c1, w1) →
      store_attempt no_faults p (i64 (reqSeq c + 1)) 0 (set_primary b c1) w1 = (None, v, set_primary b c1, w2) →
      run (k (Err e)) w = run (client_Close_calls no_faults id (set_primary b c)) w1.
Proof using Type.
  intros Hc (e & He & Hp & Hd & Hw & _) Hne.
  assert (Hrl : read_file (cdisk c) (localPath p (cache c)) = Some data).
  { destruct Hw as (Hn' & _ & _ & _ & Hc'). unfold read_file. by rewrite Hn', Hc'. }
  destruct (concat_chunks_data data Hne) as (ch & chs & Ech & Hcat).
  destruct (closeFile id (cache c)) as [o cm] eqn:Ecl. pose proof Ecl as Ecl'. unfold closeFile in Ecl'. rewrite He in Ecl'.
  injection Ecl' as <- Ecm. assert (Hdir : localPath p cm = localPath p (cache c)) by by rewrite <- Ecm.
  set (seq := i64 (reqSeq c + 1)). set (c1 := set_seq seq (set_cache cm c)).
  set (m := store_attempt_calls no_faults p seq).
  assert (Em : m 0%Z c1 = r ← ask (CallStoreFile a (store_chunks p (clientId c) seq (ch :: chs)) None);
    Return match r with
           | Err e => (Some ("CloseAndRecv: " +:+ e), 0%Z, c1)
           | Ok resp =>
               if Contains (sp_Error resp) "not primary" then (Some ("not primary: " +:+ sp_Error resp), 0%Z, c1)
               else if decide (sp_Error resp ≠ "") then (Some ("StoreFile error: " +:+ sp_Error resp), 0%Z, c1)
               else (None, sp_Version resp, c1)
           end).
  { unfold m, store_attempt_calls, c1. cbn [grpcConn set_seq set_cache cdisk cache clientId]. rewrite Hc, Hdir.
    destruct (os_Open_ok _ _ _ Hrl) as (i & -> & _ & Hci). unfold read_chunks. simpl. rewrite drop_0, Hci, Ech. reflexivity. }
  assert (Hm : ∀ s c0, runs_as (m s c0) (store_attempt no_faults p seq s c0)) by (intros; apply run_store_attempt).
  exists cm, ch, chs. eexists. cbv zeta. split; [by rewrite He|]. split; [done|]. split; [done|]. split; [done|]. split.
  { unfold client_Close_calls. rewrite Ecl, Hd, Hp. cbn [reqSeq set_cache]. fold seq c1 m.
    rewrite raw_first_call, Em. reflexivity. }
  split.
  - intros resp E0. simpl. rewrite E0. simpl.
    unfold close_handle_calls, on_conn_calls. simpl. rewrite Hc. by eexists _, _.
  - intros b e0 w w1 v w2 Hsl E1 E2. fold seq c1 in E1, E2. cbv beta.
    unfold client_Close_calls. cbn [cache set_primary]. rewrite Ecl, Hd, Hp. cbn [reqSeq set_cache].
    etrans; [apply run_bind|]. etrans; [|symmetry; apply run_bind].
    change (reqSeq (set_primary b c)) with (reqSeq c). fold seq m.
    change (set_seq seq (set_cache cm (set_primary b c))) with (set_primary b c1).
    rewrite (raw_once m _ _ _ w1 v _ w2 Hm E2).
    erewrite (raw_again m _ 0%Z c1 w); [reflexivity|exact Hm|by rewrite Hsl|exact E2].
Qed.

(** ** Opening a file *)

(** What follows the [Open] call: the cached copy or a fetch. *)
Definition open_rest (p : string) (sh : Z) (c : Client) : program (result Z * Client) :=
  match isCached p (cache c) with
  | Some v =>
      r ← retryRPC_calls (on_conn_calls (λ a, ask (CallTestAuth a (mkTestAuthRequest p v)))) c;
      match r with
      | Ok resp =>
          if tp_IsValid resp then Return (open_local no_faults "opening local cache: " p false sh c)
          else fetch_and_open_calls no_faults p false sh c
      | Err _ => fetch_and_open_calls no_faults p false sh c
      end
  | None => fetch_and_open_calls no_faults p false sh c
  end.

Definition fetched_open (p : string) (sh v : Z) (c : Client) : result Z * Client :=
  open_local no_faults "opening local cache file: " p false sh (set_cache (storeCacheEntry p v (cache c)) c).

Lemma Open_step a b p c :
  grpcConn c = Some a →
  let seq := i64 (reqSeq c + 1) in let req := mkOpenRequest p false (clientId c) seq in
  ∃ k, client_Open_calls no_faults p false c = ask (CallOpen a req) ≫= k ∧
    (∀ id, k (Ok (mkOpenResponse id "")) = open_rest p id (set_seq seq c)) ∧
    ∀ e (w w1 : W) x w2, (∀ w : W, svc_sleep w = w) →
      reconnectToPrimary (set_seq seq c) w = (true, set_seq seq (set_primary b c), w1) →
      svc_Open b req w1 = (Ok x, w2) → Contains (op_Error x) "not primary" = false →
      run (k (Err e)) w = run (client_Open_calls no_faults p false (set_primary b c)) w1.
Proof using Type.
  intros Hc seq req. unfold client_Open_calls. cbn [reqSeq set_primary]. fold seq.
  set (m := λ c0 : Client, on_conn_calls (λ a, ask (CallOpen a (mkOpenRequest p false (clientId c0) seq))) c0).
  set (fn := λ c0 : Client, on_conn (W := W) (λ a, svc_Open a (mkOpenRequest p false (clientId c0) seq)) c0).
  assert (Hm : ∀ c0, runs_as (m c0) (fn c0)).
  { intros c0. apply run_on_conn. intros a0 w. exact (run_ask (CallOpen a0 _) w). }
  assert (Em : m (set_seq seq c) = ask (CallOpen a req)) by (unfold m, on_conn_calls; cbn [grpcConn set_seq]; by rewrite Hc).
  eexists. split; [rewrite failover_first_call, Em; reflexivity|]. split; [reflexivity|].
  intros e w w1 x w2 Hsl E1 E2 Ha. cbv beta.
  assert (E : fn (set_seq seq (set_primary b c)) w1 = (Ok x, w2)) by exact E2.
  etrans; [apply run_bind|]. rewrite (failover_again m fn op_Error _ w e _ w1 x w2 Hm E1 ltac:(by rewrite Hsl) Ha).
  symmetry. etrans; [apply run_bind|]. by rewrite (failover_once m fn op_Error _ w1 x w2 Hm E Ha).
Qed.

Lemma Fetch_step a b p sh c :
  grpcConn c = Some a →
  let req := mkFetchFileRequest p in
  ∃ k, fetch_and_open_calls no_faults p false sh c = ask (CallFetchFile a req) ≫= k ∧
    (∀ (w w1 w2 : W) stream v c1, svc_FetchFile a req w = (Ok stream, w1) →
       fetch_attempt no_faults p 0 c w = (None, v, c1, w2) → w2 = w1 ∧ k (Ok stream) = Return (fetched_open p sh v c1)) ∧
    ∀ e (w w1 : W) v c1 w2, (∀ w : W, svc_sleep w = w) →
      reconnectToPrimary c w = (true, set_primary b c, w1) →
      fetch_attempt no_faults p 0 (set_primary b c) w1 = (None, v, c1, w2) →
      run (k (Err e)) w = (fetched_open p sh v c1, w2).
Proof using Type.
  intros Hc req. unfold fetch_and_open_calls.
  set (m := fetch_attempt_calls no_faults p).
  assert (Hm : ∀ s c0, runs_as (m s c0) (fetch_attempt (W := W) no_faults p s c0)) by (intros; apply run_fetch_attempt).
  assert (Em : ∃ F, m 0%Z c = (r ← ask (CallFetchFile a req); Return (F r)) ∧
    (∀ w, fetch_attempt no_faults p 0 c w = let '(r, w') := svc_FetchFile a req w in (F r, w')) ∧
    ∀ e, ∃ e', F (Err e) = (Some e', 0%Z, c)).
  { eexists. split; [unfold m, fetch_attempt_calls, on_conn_calls; rewrite Hc; reflexivity|]. split.
    - intros w. unfold fetch_attempt, on_conn. rewrite Hc. fold req.
      destruct (svc_FetchFile a req w) as [[st|e] w']; [|done].
      destruct (os_Create _ _ _) as [[fd|e] d]; [|done]. destruct (fetch_loop _ _ _ _ _ _ _) as [[[e|] v] d1]; [done|].
      by destruct (os_Rename _ _ _ _).
    - intros e. by eexists. }
  destruct Em as (F & Em & HF & HFe).
  eexists. split; [rewrite raw_first_call, Em; reflexivity|]. split.
  - intros w w1 w2 stream v c1 E1 E2. rewrite HF, E1 in E2. injection E2 as EF <-. split; [done|]. cbv beta.
    change ((Return (F (Ok stream)) ≫= raw_answer m) ≫= ?t) with (raw_answer m (F (Ok stream)) ≫= t). by rewrite EF.
  - intros e w w1 v c1 w2 Hsl E1 E2. cbv beta. destruct (HFe e) as [e' EF].
    change ((Return (F (Err e)) ≫= raw_answer m) ≫= ?t) with (raw_answer m (F (Err e)) ≫= t). rewrite EF.
    etrans; [apply run_bind|]. by erewrite (raw_again m _ 0%Z c w); [|exact Hm|rewrite Hsl; exact E1|exact E2].
Qed.

(** A cached copy: an answer that is lost counts as "not valid" once the two
    other attempts failed. *)
Lemma TestAuth_step a p sh v c :
  grpcConn c = Some a → isCached p (cache c) = Some v →
  let req := mkTestAuthRequest p v in
  ∃ k, open_rest p sh c = ask (CallTestAuth a req) ≫= k ∧
    (∀ resp, k (Ok resp) = if tp_IsValid resp then Return (open_local no_faults "opening local cache: " p false sh c)
                           else fetch_and_open_calls no_faults p false sh c) ∧
    ∀ e e' (w : W), (∀ w : W, svc_sleep w = w) → svc_TestAuth a req w = (Err e', w) →
      run (k (Err e)) w = run (fetch_and_open_calls no_faults p false sh c) w.
Proof using Type.
  intros Hc Hv req. unfold open_rest. rewrite Hv. unfold retryRPC_calls.
  set (m := on_conn_calls (λ a, ask (CallTestAuth a (mkTestAuthRequest p v)))).
  assert (Hm : ∀ c0, runs_as (m c0) (on_conn (λ a, svc_TestAuth a req) c0)).
  { intros c0. apply run_on_conn. intros a0 w. exact (run_ask (CallTestAuth a0 _) w). }
  assert (Em : m c = ask (CallTestAuth a req)) by (unfold m, on_conn_calls; by rewrite Hc).
  assert (E3 : retry_loop_calls 3 true "" m c =
    r ← m c; match r with Ok r => Return (Ok r) | Err e => retry_loop_calls 2 false e m c end) by reflexivity.
  rewrite E3, Em. eexists. split; [reflexivity|]. split; [reflexivity|].
  intros e e' w Hsl Et. cbv beta.
  etrans; [apply run_bind|]. rewrite (run_retry_loop 2 false e m _ c Hm w).
  cbn [retry_loop]. rewrite !Hsl. unfold on_conn. rewrite Hc, Et. cbn [retry_loop]. rewrite Hsl, Et. done.
Qed.

End Steps.
