(* ===== verification/MidWrite.v ===== *)
(** * Writing a file while the primary dies

    [failover_run]: a program that loses its primary at one of its calls.  The
    lemmas follow a write (delete, create, store, close) through the failover at
    each of its four calls. *)

From S2P Require Import Prelude GoLib GoText GoPath Disk AfsProto Server Handler HandlerSpec Service Cluster SyncSpec Election ElectionProps Cache Client AfsSpec AfsWorld Json JsonCodec SnapshotIO ClientStart Replicas ReplicasSpec Failover Takeover Snapshot Calls Interrupt.

(** The answer of a server that dies while it serves the call. *)
Definition lost_answer (c : call) : answer c :=
  match c with
  | CallGetPrimary _ | CallHeartbeat _ _ | CallOpen _ _ | CallTestAuth _ _ | CallFetchFile _ _
  | CallStoreFile _ _ _ | CallCreateFile _ _ | CallDeleteFile _ _ | CallCloseFile _ _ => Err "rpc error: transport is closing"
  | CallPost _ => Some "EOF"
  | CallSleep => tt
  end.

Section Run.
  Context (fuel : nat) (a b : string) `{!SnapshotNet Replicas}.

#[local] Instance interrupt_afs : AfsService Replicas := replicas_service fuel.

(** The primary [a] dies, and the monitor of [b] starts an election. *)
Definition succession (r : Replicas) : Replicas := (election_at fuel b (dies_at a r)).2.

(** [a] dies after [n] calls of the program; [carried]: it still carried out the
    next one.  A program that makes fewer calls has ended before. *)
Fixpoint failover_run {A} (n : nat) (carried : bool) (m : program A) (r : Replicas) : A * Replicas :=
  match m with
  | Return x => (x, succession r)
  | Call c k =>
      match n with
      | O => if carried then run (k (lost_answer c)) (succession (perform c r).2) else run m (succession r)
      | S n => let '(x, r) := perform c r in failover_run n carried (k x) r
      end
  | Clock k => failover_run n carried (k (time_Unix r)) r
  | Dial addr k => failover_run n carried (k (svc_dial (W := Replicas) addr)) r
  end.

(** The call in which the primary dies fails, carried out or not. *)
Definition last_call (carried : bool) (c : call) (r : Replicas) : Replicas := if carried then (perform c r).2 else r.

Definition death_error (carried : bool) : string :=
  if carried then "rpc error: transport is closing" else unavailable.

Lemma failover_run_call {A} n carried c (k : answer c → program A) r :
  failover_run (S n) carried (ask c ≫= k) r = let '(x, r) := perform c r in failover_run n carried (k x) r.
Proof using Type. done. Qed.

Ltac in_call := intros Hd; unfold last_call; match goal with |- context [if ?c then _ else _] => destruct c; [done|] end;
  cbn; unfold at_node; by rewrite Hd.

Lemma dies_in_open {A} carried req (k : result OpenResponse → program A) r :
  rp_nodes (succession r) !! a = None →
  failover_run 0 carried (ask (CallOpen a req) ≫= k) r =
    run (k (Err (death_error carried))) (succession (last_call carried (CallOpen a req) r)).
Proof using Type. in_call. Qed.
Lemma dies_in_testauth {A} carried req (k : result TestAuthResponse → program A) r :
  rp_nodes (succession r) !! a = None →
  failover_run 0 carried (ask (CallTestAuth a req) ≫= k) r =
    run (k (Err (death_error carried))) (succession (last_call carried (CallTestAuth a req) r)).
Proof using Type. in_call. Qed.
Lemma dies_in_fetch {A} carried req (k : result (recv_stream FetchFileResponse) → program A) r :
  rp_nodes (succession r) !! a = None →
  failover_run 0 carried (ask (CallFetchFile a req) ≫= k) r =
    run (k (Err (death_error carried))) (succession (last_call carried (CallFetchFile a req) r)).
Proof using Type. in_call. Qed.
Lemma dies_in_delete {A} carried req (k : result DeleteFileResponse → program A) r :
  rp_nodes (succession r) !! a = None →
  failover_run 0 carried (ask (CallDeleteFile a req) ≫= k) r =
    run (k (Err (death_error carried))) (succession (last_call carried (CallDeleteFile a req) r)).
Proof using Type. in_call. Qed.
Lemma dies_in_create {A} carried req (k : result CreateFileResponse → program A) r :
  rp_nodes (succession r) !! a = None →
  failover_run 0 carried (ask (CallCreateFile a req) ≫= k) r =
    run (k (Err (death_error carried))) (succession (last_call carried (CallCreateFile a req) r)).
Proof using Type. in_call. Qed.
Lemma dies_in_store {A} carried reqs e (k : result StoreFileResponse → program A) r :
  rp_nodes (succession r) !! a = None →
  failover_run 0 carried (ask (CallStoreFile a reqs e) ≫= k) r =
    run (k (Err (death_error carried))) (succession (last_call carried (CallStoreFile a reqs e) r)).
Proof using Type. in_call. Qed.
Lemma dies_in_close {A} carried req (k : result CloseFileResponse → program A) r :
  rp_nodes (succession r) !! a = None →
  failover_run 0 carried (ask (CallCloseFile a req) ≫= k) r =
    run (k (Err (death_error carried))) (succession (last_call carried (CallCloseFile a req) r)).
Proof using Type. in_call. Qed.

End Run.

Section After.
  Context (fuel : nat) (Hfuel : 0 < fuel) (a b : string) `{!SnapshotNet Replicas}.

#[local] Instance after_afs : AfsService Replicas := replicas_service fuel.
#[local] Instance after_view : AfsView Replicas := replicas_view b (λ _ _, True).
#[local] Instance after_laws : AfsLaws Replicas := failover_laws fuel Hfuel b.
#[local] Instance after_unwatched : AfsUnwatched Replicas.
Proof. split; done. Qed.

(** [b] serves the file [p] with the content [f], and [a] is gone. *)
Record serves (p : string) (f : option (bytes * Z)) (r : Replicas) : Prop := {
  sv_dead : rp_nodes r !! a = None;
  sv_leader : one_leader b (servers r);
  sv_ready : at_primary b (λ w, world_ready w b ∧ ∀ cid n, svc_unused w cid n) r;
  sv_file : file_at b p r = f;
}.

(** [p] is an output file. *)
Record succeeded (p : string) (f : option (bytes * Z)) (r : Replicas) : Prop := {
  sc_serves : serves p f r;
  sc_name : at_primary b (λ w, svc_name w p) r;
}.

(** A client of the dead primary that knows [b]. *)
Definition orphan (c : Client) : Prop :=
  grpcConn c = Some a ∧ b ∈ serverAddrs c ∧ seq_ok (reqSeq c) ∧ disk_wf (cdisk c).

(** It reconnects, also in the middle of an operation (as [cx]). *)
Lemma orphan_reconnects p f c cx r :
  serves p f r → plain p → orphan c → serverAddrs cx = serverAddrs c →
  ∃ r1, reconnectToPrimary cx r = (true, set_primary b cx, r1) ∧ client_ok (set_primary b c) r1 ∧
    (∀ m, svc_name r m → svc_name r1 m) ∧ svc_file r1 p = f.
Proof using Hfuel.
  intros [_ Hl (w & Hw & Hr & Hu) Hf] Hpl (Hc & Hb & Hs & Hwf) Hcx. rewrite <- Hcx in Hb.
  assert (Hready : svc_ready r b) by (split; [done|by exists w]).
  destruct (reconnect_leader fuel Hfuel b cx r Hb Hready Hl) as (r1 & E & A1 & A2 & A3 & A4 & _). exists r1. split; [exact E|].
  split; [|split; [exact A3|]].
  - split; [exists b; split; [done|by apply A1]| |exact Hs|exact Hwf|apply any_user|apply any_past].
    apply A2. by exists w.
  - destruct (A4 p Hpl) as [_ Hsame]. exact (eq_trans Hsame Hf).
Qed.

(** ** The four calls of a write *)

Definition after_close (p : string) : error * Client → program (error * Client) := λ '(e, c),
  match e with
  | Some e => Return (Some ("Close " +:+ p +:+ ": " +:+ e), c)
  | None => Return (None, c)
  end.

Definition after_create (p : string) (data : bytes) : result Z * Client → program (error * Client) := λ '(r, c),
  match r with
  | Err e => Return (Some ("CreateFile " +:+ p +:+ ": " +:+ e), c)
  | Ok handle =>
      match client_Write no_faults handle data c with
      | (Err e, c) => '(_, c) ← client_Close_calls no_faults handle c; Return (Some ("Write " +:+ p +:+ ": " +:+ e), c)
      | (Ok _, c) => client_Close_calls no_faults handle c ≫= after_close p
      end
  end.

Lemma write_calls p data c :
  writeToAFS_calls no_faults p data c =
    client_DeleteFile_calls no_faults p c ≫= λ '(_, c), client_CreateFile_calls no_faults p c ≫= after_create p data.
Proof using Type. reflexivity. Qed.

(** The write succeeds and [b] has the file. *)
Definition written (p : string) (data : bytes) (x : error * Client * Replicas) : Prop :=
  x.1.1 = None ∧ ∃ v, file_at b p x.2 = Some (data, v).

(** What is left of a write, done at [b]. *)
Lemma close_at_b id p data c r :
  client_ok c r → svc_name r p → editing c id p data true → data ≠ [] → seq_ok (reqSeq c + 1) →
  written p data (run (client_Close_calls no_faults id c ≫= after_close p) r).
Proof using Hfuel.
  intros Hok Hn He Hne Hs. rewrite run_bind, run_client_Close.
  destruct (client_Close_ok c r id p data Hok Hn (any_content _ _) He Hne Hs) as (v & c' & r' & -> & _ & _ & _ & _ & Hf & _).
  split; [done|]. by exists v.
Qed.

Lemma create_at_b p data c r :
  client_ok c r → svc_name r p → svc_file r p = None → local_free c p → data ≠ [] → (reqSeq c + 2 < 2 ^ 63 - 1)%Z →
  written p data (run (client_CreateFile_calls no_faults p c ≫= after_create p data) r).
Proof using Hfuel.
  intros Hok Hn Hf Hfree Hne Hs. pose proof (ok_seq _ _ Hok) as [Hs0 _]. rewrite run_bind, run_client_CreateFile.
  destruct (client_CreateFile_ok c r p Hok Hn Hf (any_content _ _) Hfree) as (id & c2 & r2 & -> & Hok2 & B & Hq2 & He2 & Hk2 & _);
    [split; lia|].
  destruct (client_Write_ok c2 r2 id p [] false data Hok2 He2) as (c3 & E3 & Hok3 & D & Hq3 & He3).
  cbn [after_create]. rewrite E3. apply close_at_b; [done|by apply Hk2|done|done|split; lia].
Qed.

Lemma write_at_b p data c r :
  client_ok c r → svc_name r p → local_free c p → data ≠ [] → (reqSeq c + 3 < 2 ^ 63 - 1)%Z →
  written p data (run (writeToAFS_calls no_faults p data c) r).
Proof using Hfuel.
  intros Hok Hn Hfree Hne Hs. rewrite run_writeToAFS.
  destruct (writeToAFS_ok c r p data Hok Hn) as (v & c' & r' & -> & _ & _ & Hf & _); [done|done|done|done|].
  split; [done|]. by exists v.
Qed.

(** The attempts at [b], by a client in the middle of an operation. *)
Lemma store_again p data c cm r :
  client_ok (set_primary b c) r → svc_name r p → localPath p cm = localPath p (cache c) →
  read_file (cdisk c) (localPath p (cache c)) = Some data → data ≠ [] →
  let c1 := set_seq (reqSeq c + 1) (set_cache cm c) in
  ∃ v r', store_attempt no_faults p (reqSeq c + 1) 0 (set_primary b c1) r = (None, v, set_primary b c1, r').
Proof using Hfuel.
  intros Hok Hn Hloc Hrd Hne c1. pose proof Hok as [(x & Hx & Hr) Hu Hs _ _ _]. injection Hx as <-.
  destruct (store_attempt_ok (set_primary b c1) r b p data 0 (reqSeq c) eq_refl Hr Hn Hu Hs) as (v & r' & E & _);
    [cbn [cdisk cache set_primary c1 set_seq set_cache]; by rewrite Hloc|done|apply any_user|apply any_content|].
  by exists v, r'.
Qed.

(** A file that is there is not created. *)
Lemma create_existing cid n p data v r :
  svc_ready r b → svc_unused r cid n → svc_name r p → svc_file r p = Some (data, v) →
  svc_CreateFile b (mkCreateFileRequest p cid (n + 1)) r = (Ok (mkCreateFileResponse 0 ("file already exists: " +:+ p)), r).
Proof using Hfuel.
  intros Hr Hu Hn Hf. destruct (ready_node b (λ _ _, True) r b Hr) as (nd & _ & Hnd & Hflt & Hw).
  rewrite (lower_file b (λ _ _, True) r nd Hnd) in Hf. apply (lower_at b r nd Hnd) in Hu, Hn.
  change (at_node b (svc_CreateFile b (mkCreateFileRequest p cid (n + 1))) r =
    (Ok (mkCreateFileResponse 0 ("file already exists: " +:+ p)), r)).
  unfold at_node. rewrite Hnd. cbn [svc_CreateFile world_service].
  set (w := as_world b nd r) in *. destruct (world_resolve w p (proj1 Hn) data v Hf) as (Hd & _ & _). rewrite (rpath_name w p Hn) in Hd.
  pose proof Hw as (_ & _ & Hwf & Hprim & _). rewrite Hwf. unfold CreateFile. rewrite Hprim.
  cbn [cr_ClientId cr_ReqSeq cr_Path]. rewrite (Hu (n + 1)%Z) by lia.
  destruct Hn as [[Hsafe _] _]. unfold outPath. rewrite (Base_safe p Hsafe). fold (out_name (wd_srv w) p).
  unfold os_Stat. simpl. unfold read_file in Hd. destruct (names _ !! out_name _ p) as [x|]; [|done]. simpl.
  rewrite (AfsWorld.run_ready b w) by done. f_equal. unfold from_world, with_server, w. simpl.
  destruct r as [nodes t]. simpl in *. f_equal. destruct nd as [flt cut h]. simpl.
  rewrite insert_delete_eq. by apply insert_id.
Qed.

Definition refused (p : string) (x : error * Client * Replicas) : Prop :=
  x.1.1 = Some ("CreateFile " +:+ p +:+ ": " +:+ "CreateFile RPC error: " +:+ "file already exists: " +:+ p) ∧
  file_at b p x.2 = Some ([], 1%Z).

Lemma create_refused_at_b p data c r :
  client_ok c r → grpcConn c = Some b → svc_name r p → svc_file r p = Some ([], 1%Z) →
  Contains ("file already exists: " +:+ p) "not primary" = false →
  refused p (run (client_CreateFile_calls no_faults p c ≫= after_create p data) r).
Proof using Hfuel.
  intros [(x & Hx & Hr) Hu Hs _ _ _] Hc Hn Hf Hno. rewrite Hc in Hx. injection Hx as <-. rewrite run_bind, run_client_CreateFile.
  unfold client_CreateFile. rewrite seq_next by done. unfold retryWithFailover. cbn [failover_loop]. unfold on_conn at 1.
  cbn [grpcConn set_seq clientId]. rewrite Hc, (create_existing _ _ p [] 1 r Hr Hu Hn Hf). cbn [cp_Error]. rewrite Hno.
  cbn [cp_Error]. rewrite decide_True by done. by split.
Qed.

Lemma create_answers p c r :
  client_ok c r → grpcConn c = Some b → svc_name r p → svc_file r p = None ∨ svc_file r p = Some ([], 1%Z) →
  Contains ("file already exists: " +:+ p) "not primary" = false →
  ∃ resp r', svc_CreateFile b (mkCreateFileRequest p (clientId c) (reqSeq c + 1)) r = (Ok resp, r') ∧
    Contains (cp_Error resp) "not primary" = false.
Proof using Hfuel.
  intros [(x & Hx & Hr) Hu Hs _ _ _] Hc Hn Hf Hno. rewrite Hc in Hx. injection Hx as <-. destruct Hf as [Hf|Hf].
  - destruct (law_create r b (clientId c) (reqSeq c) p (any_user _) (any_content _ _) Hr Hu Hs Hn Hf) as (id & r' & E & _).
    by exists (mkCreateFileResponse id ""), r'.
  - eexists _, r. split; [by eapply create_existing|done].
Qed.

Lemma delete_answers p c r :
  client_ok c r → grpcConn c = Some b → svc_name r p →
  ∃ r', svc_DeleteFile b (mkDeleteFileRequest p (clientId c) (reqSeq c + 1)) r = (Ok (mkDeleteFileResponse ""), r').
Proof using Hfuel.
  intros [(x & Hx & Hr) Hu Hs _ _ _] Hc Hn. rewrite Hc in Hx. injection Hx as <-.
  destruct (law_delete r b (clientId c) (reqSeq c) p (any_user _) (any_content _ _) Hr Hu Hs Hn) as (r' & E & _). by exists r'.
Qed.

End After.

Section Phases.
  Context (fuel : nat) (Hfuel : 0 < fuel) (a b : string) (alive : gset string) (outs : string → Prop) (ins : gmap string bytes).
  Context (Ha : a ∉ alive) (Hb : b ∈ alive) `{!SnapshotNet Replicas}.

#[local] Instance before_afs : AfsService Replicas := replicas_service fuel.
#[local] Instance before_view : AfsView Replicas := deployed_view a alive outs ins.
#[local] Instance before_laws : AfsLaws Replicas := deployed_laws a alive outs ins fuel Hfuel Ha.

Lemma succession_ok p r :
  outs p → plain p → svc_ready r a → svc_past r → svc_name r p →
  succeeded a b p (svc_file r p) (succession fuel a b r).
Proof using Ha Hb.
  intros Hp Hpl Hr Hpast Hn. assert (Hd : deployed a alive outs ins r) by by apply deployed_past.
  destruct (takeover a alive outs ins fuel b r Ha Hb Hd) as (r2 & E & H1 & H2 & H3 & H4 & _).
  destruct (H4 p Hp Hpl Hn) as [H5 H6]. unfold succession. rewrite E. by split.
Qed.

Lemma succession_input m x r :
  ins !! m = Some x → svc_ready r a → svc_past r → ∃ v, serves a b m (Some (x, v)) (succession fuel a b r).
Proof using Ha Hb.
  intros Hm Hr Hpast. assert (Hd : deployed a alive outs ins r) by by apply deployed_past.
  destruct (takeover a alive outs ins fuel b r Ha Hb Hd) as (r2 & E & H1 & H2 & H3 & _ & H4).
  destruct (H4 m x Hm) as [v Hv]. unfold succession. rewrite E. by exists v.
Qed.

(** *** In the call that lets the handle go *)

Lemma in_close n carried sh y p data v r :
  outs p → plain p → svc_ready r a → svc_past r → svc_name r p → svc_file r p = Some (data, v) →
  written b p data (failover_run fuel a b n carried (_ ← ask (CallCloseFile a (mkCloseFileRequest sh)); Return (None, y)) r).
Proof using Hfuel Ha Hb.
  intros Hp Hpl Hr Hpast Hn Hf.
  destruct (law_close r a sh Hr) as (L1 & L2 & L3 & L4 & L5 & L6).
  set (r1 := (svc_CloseFile a (mkCloseFileRequest sh) r).2) in *.
  destruct (L4 p Hpl) as [_ Hf1]. rewrite Hf in Hf1.
  pose proof (succession_ok p r Hp Hpl Hr Hpast Hn) as S0.
  pose proof (succession_ok p r1 Hp Hpl (L1 a Hr) (L6 Hpast) (L3 p Hn)) as S1.
  destruct n as [|n].
  - rewrite dies_in_close by apply S0. split; [done|]. exists v. destruct carried; [rewrite <- Hf1; apply S1|rewrite <- Hf; apply S0].
  - rewrite failover_run_call. change (perform (CallCloseFile a (mkCloseFileRequest sh)) r) with (svc_CloseFile a (mkCloseFileRequest sh) r).
    subst r1. destruct (svc_CloseFile a (mkCloseFileRequest sh) r) as [x r1]. cbn [snd] in *.
    split; [done|]. exists v. rewrite <- Hf1. apply S1.
Qed.

(** *** In the call that stores the content *)

Lemma client_ok_step c r : client_ok c r → grpcConn c = Some a ∧ svc_ready r a ∧ svc_past r.
Proof using Type. intros [(x & Hx & Hr) _ _ _ _ Hp]. assert (x = a) as -> by apply Hr. by split. Qed.

Lemma ok_orphan c r : client_ok c r → b ∈ serverAddrs c → orphan a b c.
Proof using Type. intros Hok Hin. split; [by eapply client_ok_step|]. split; [done|]. split; apply Hok. Qed.

Lemma before_content p data : svc_content (W := Replicas) p data.
Proof using Type. exact I. Qed.

(** Whether the last call was carried out or not, [b] has the file as it is at
    the primary. *)
Lemma succession_call (carried : bool) cl x (r r1 : Replicas) c p :
  perform cl r = (x, r1) → svc_ready r1 a → svc_past r1 → svc_name r1 p → client_ok c r → svc_name r p → outs p → plain p →
  succeeded a b p (svc_file (if carried then r1 else r) p) (succession fuel a b (last_call fuel carried cl r)).
Proof using Hfuel Ha Hb.
  intros E H1 H2 H3 Hok Hn Hp Hpl. destruct (client_ok_step c r Hok) as (_ & Hr & Hpast). unfold last_call. destruct carried.
  - enough (∀ q, q = r1 → succeeded a b p (svc_file r1 p) (succession fuel a b q)) as H by (apply H; exact (f_equal snd E)).
    intros q ->. by apply succession_ok.
  - by apply succession_ok.
Qed.

Lemma succession_last (carried : bool) cl x (r r1 : Replicas) c p :
  perform cl r = (x, r1) → call_keeps (clientId c) (reqSeq c) r r1 → client_ok c r → svc_name r p → outs p → plain p →
  succeeded a b p (svc_file (if carried then r1 else r) p) (succession fuel a b (last_call fuel carried cl r)).
Proof using Hfuel Ha Hb.
  intros E Hk Hok Hn Hp Hpl. destruct (client_ok_step c r Hok) as (_ & Hr & Hpast).
  by eapply succession_call; [exact E|apply Hk..| | | |].
Qed.

Lemma succession_reads (carried : bool) cl x (r r1 : Replicas) c p :
  perform cl r = (x, r1) → call_reads r r1 → client_ok c r → svc_name r p → outs p → plain p →
  succeeded a b p (svc_file r p) (succession fuel a b (last_call fuel carried cl r)).
Proof using Hfuel Ha Hb.
  intros E (K1 & _ & K3 & K4 & _ & K6) Hok Hn Hp Hpl. destruct (client_ok_step c r Hok) as (_ & Hr & Hpast).
  pose proof (succession_call carried cl x r r1 c p E (K1 a Hr) (K6 Hpast) (K3 p Hn) Hok Hn Hp Hpl) as S.
  destruct carried; [|exact S]. by rewrite (proj2 (K4 p Hpl)) in S.
Qed.

Lemma in_store n carried id p data c r :
  outs p → plain p → client_ok c r → b ∈ serverAddrs c → svc_name r p → editing c id p data true → data ≠ [] → seq_ok (reqSeq c + 1) →
  written b p data (failover_run fuel a b n carried (client_Close_calls no_faults id c ≫= after_close p) r).
Proof using Hfuel Ha Hb.
  intros Hp Hpl Hok Hin Hn He Hne Hs. destruct (client_ok_step c r Hok) as (Hc & Hr & Hpast).
  destruct (Close_step (W := Replicas) a id p data c Hc He Hne) as (cm & ch & chs & k & Ecl & Hcat & Hloc & Hrd & Eq & Hok_k & Herr).
  rewrite (seq_next _ (ok_seq _ _ Hok)) in *. rewrite Eq.
  assert (Hne' : concat (ch :: chs) ≠ []) by by rewrite Hcat.
  destruct (law_store r a (clientId c) (reqSeq c) p ch chs (ok_user _ _ Hok) (before_content _ _) Hr (ok_unused _ _ Hok) (ok_seq _ _ Hok) Hn Hne')
    as (v & r1 & Es & Hk & Hup & _).
  set (cl := CallStoreFile a (store_chunks p (clientId c) (reqSeq c + 1) (ch :: chs)) None) in *.
  pose proof (succession_last carried cl _ r r1 c p Es Hk Hok Hn Hp Hpl) as S0.
  pose proof (succession_ok p r Hp Hpl Hr Hpast Hn) as S1.
  destruct n as [|n].
  - change ((ask cl ≫= k) ≫= after_close p) with (ask cl ≫= λ x, k x ≫= after_close p). unfold cl at 1. rewrite dies_in_store by apply S1.
    fold cl. revert S0. generalize (svc_file (if carried then r1 else r) p) (succession fuel a b (last_call fuel carried cl r)).
    intros f r2 S2. clear S1.
    destruct (orphan_reconnects fuel Hfuel a b p f c (set_seq (reqSeq c + 1) (set_cache cm c)) r2 (sc_serves _ _ _ _ _ S2) Hpl (ok_orphan c r Hok Hin) eq_refl)
      as (r3 & E3 & Hok3 & Hnm & _). pose proof (Hnm p (sc_name _ _ _ _ _ S2)) as Hn3.
    destruct (store_again fuel Hfuel b p data c cm r3 Hok3 Hn3 Hloc Hrd Hne) as (v3 & r4 & E4).
    rewrite run_bind, (Herr b _ r2 r3 v3 r4 (λ _, eq_refl) E3 E4), <- run_bind.
    by apply (close_at_b fuel Hfuel b id p data (set_primary b c) r3 Hok3 Hn3).
  - change (failover_run fuel a b (S n) carried ((ask cl ≫= k) ≫= after_close p) r) with
      (let '(x, r) := svc_StoreFile a (store_chunks p (clientId c) (reqSeq c + 1) (ch :: chs)) None r in
       failover_run fuel a b n carried (k x ≫= after_close p) r). rewrite Es.
    destruct (Hok_k (mkStoreFileResponse v "") eq_refl) as (sh & y & ->).
    apply in_close with v; [done|done|by apply Hk|by apply Hk|by apply Hk|].
    rewrite (Hup p Hpl), decide_True by done. by rewrite Hcat.
Qed.

(** *** In the call that creates the file *)

(** [CreateFile] is refused when it was carried out and its answer lost: the
    backup has the file, but not the entry of the deduplication table. *)
Lemma in_create n carried p data c r :
  outs p → plain p → client_ok c r → b ∈ serverAddrs c → svc_name r p → svc_file r p = None → local_free c p →
  data ≠ [] → (reqSeq c + 2 < 2 ^ 63 - 1)%Z → Contains ("file already exists: " +:+ p) "not primary" = false →
  let x := failover_run fuel a b n carried (client_CreateFile_calls no_faults p c ≫= after_create p data) r in
  if decide (n = 0 ∧ carried = true) then refused b p x else written b p data x.
Proof using Hfuel Ha Hb.
  intros Hp Hpl Hok Hin Hn Hf Hfree Hne Hs Hno. destruct (client_ok_step c r Hok) as (Hc & Hr & Hpast).
  pose proof (ok_seq _ _ Hok) as [Hs0 _].
  destruct (CreateFile_step (W := Replicas) a b p c Hc) as (k & Eq & Hok_k & Herr).
  rewrite (seq_next _ (ok_seq _ _ Hok)) in *. rewrite Eq.
  destruct (law_create r a (clientId c) (reqSeq c) p (ok_user _ _ Hok) (before_content _ _) Hr (ok_unused _ _ Hok) (ok_seq _ _ Hok) Hn Hf)
    as (id & r1 & Es & Hk & Hup).
  set (cl := CallCreateFile a (mkCreateFileRequest p (clientId c) (reqSeq c + 1))) in *.
  pose proof (succession_last carried cl _ r r1 c p Es Hk Hok Hn Hp Hpl) as S0.
  pose proof (succession_ok p r Hp Hpl Hr Hpast Hn) as S1.
  destruct n as [|n].
  - change ((ask cl ≫= k) ≫= after_create p data) with (ask cl ≫= λ x, k x ≫= after_create p data). unfold cl at 1.
    rewrite dies_in_create by apply S1. fold cl. revert S0.
    assert (Hf0 : svc_file (if carried then r1 else r) p = if carried then Some ([], 1%Z) else None)
      by (destruct carried; [by rewrite (Hup p Hpl), decide_True|done]).
    rewrite Hf0. generalize (succession fuel a b (last_call fuel carried cl r)). intros r2 S2. clear S1.
    destruct (orphan_reconnects fuel Hfuel a b p _ c (set_seq (reqSeq c + 1) c) r2 (sc_serves _ _ _ _ _ S2) Hpl (ok_orphan c r Hok Hin) eq_refl)
      as (r3 & E3 & Hok3 & Hnm & Hf3). pose proof (Hnm p (sc_name _ _ _ _ _ S2)) as Hn3.
    assert (Hex : ∃ resp r4, svc_CreateFile b (mkCreateFileRequest p (clientId c) (reqSeq c + 1)) r3 = (Ok resp, r4) ∧
      Contains (cp_Error resp) "not primary" = false).
    { apply (create_answers fuel Hfuel b p (set_primary b c) r3 Hok3 eq_refl Hn3); [|done]. destruct carried; [by right|by left]. }
    destruct Hex as (resp & r4 & E4 & Hresp).
    cbn zeta. rewrite run_bind, (Herr _ r2 r3 resp r4 (λ _, eq_refl) E3 E4 Hresp), <- run_bind.
    destruct carried.
    + rewrite decide_True by done. by apply (create_refused_at_b fuel Hfuel b p data (set_primary b c) r3 Hok3).
    + rewrite decide_False by (intros [??]; discriminate). by apply (create_at_b fuel Hfuel b p data (set_primary b c) r3 Hok3 Hn3).
  - rewrite decide_False by (intros [??]; discriminate). cbn zeta.
    change (failover_run fuel a b (S n) carried ((ask cl ≫= k) ≫= after_create p data) r) with
      (let '(x, r) := svc_CreateFile a (mkCreateFileRequest p (clientId c) (reqSeq c + 1)) r in
       failover_run fuel a b n carried (k x ≫= after_create p data) r). rewrite Es.
    destruct (Hok_k (mkCreateFileResponse id "") eq_refl) as (y & Ey). rewrite Ey.
    destruct (client_CreateFile_ok c r p Hok Hn Hf (before_content _ _) Hfree) as (h & c2 & r2 & E2 & Hok2 & B & Hq2 & He2 & Hk2 & Hup2);
      [split; lia|].
    assert (Hy : (y, r1) = ((Ok h, c2), r2)).
    { rewrite <- E2. rewrite <- (run_client_CreateFile no_faults p c r), Eq.
      change (run (ask cl ≫= k) r) with
        (let '(x, r) := svc_CreateFile a (mkCreateFileRequest p (clientId c) (reqSeq c + 1)) r in run (k x) r).
      by rewrite Es, Ey. }
    injection Hy as -> ->. change (Return (Ok h, c2) ≫= after_create p data) with (after_create p data (Ok h, c2)).
    destruct (client_Write_ok c2 r2 h p [] false data Hok2 He2) as (c3 & E3 & Hok3 & D & Hq3 & He3).
    cbn [after_create]. rewrite E3. apply in_store; [done|done|done| |by apply Hk2|done|done|split; lia].
    destruct B as ([_ B] & _), D as ([_ D] & _). by rewrite D, B.
Qed.

(** *** In the call that deletes the old file, or before *)

Lemma in_delete n carried p data c r :
  outs p → plain p → client_ok c r → b ∈ serverAddrs c → svc_name r p → local_free c p →
  data ≠ [] → (reqSeq c + 3 < 2 ^ 63 - 1)%Z → Contains ("file already exists: " +:+ p) "not primary" = false →
  let x := failover_run fuel a b n carried (writeToAFS_calls no_faults p data c) r in
  if decide (n = 1 ∧ carried = true) then refused b p x else written b p data x.
Proof using Hfuel Ha Hb.
  intros Hp Hpl Hok Hin Hn Hfree Hne Hs Hno. destruct (client_ok_step c r Hok) as (Hc & Hr & Hpast).
  pose proof (ok_seq _ _ Hok) as [Hs0 _]. rewrite write_calls.
  set (rest := λ x : error * Client, let '(_, c) := x in client_CreateFile_calls no_faults p c ≫= after_create p data).
  destruct (DeleteFile_step (W := Replicas) a b p c Hc) as (k & Eq & Hok_k & Herr).
  rewrite (seq_next _ (ok_seq _ _ Hok)) in *. rewrite Eq.
  destruct (law_delete r a (clientId c) (reqSeq c) p (ok_user _ _ Hok) (before_content _ _) Hr (ok_unused _ _ Hok) (ok_seq _ _ Hok) Hn)
    as (r1 & Es & Hk & Hup).
  set (cl := CallDeleteFile a (mkDeleteFileRequest p (clientId c) (reqSeq c + 1))) in *.
  pose proof (succession_last carried cl _ r r1 c p Es Hk Hok Hn Hp Hpl) as S0.
  pose proof (succession_ok p r Hp Hpl Hr Hpast Hn) as S1.
  destruct n as [|n].
  - rewrite decide_False by (intros [??]; discriminate).
    change ((ask cl ≫= k) ≫= rest) with (ask cl ≫= λ x, k x ≫= rest). unfold cl at 1.
    rewrite dies_in_delete by apply S1. fold cl. revert S0.
    generalize (svc_file (if carried then r1 else r) p) (succession fuel a b (last_call fuel carried cl r)). intros f r2 S2. clear S1.
    destruct (orphan_reconnects fuel Hfuel a b p _ c (set_seq (reqSeq c + 1) c) r2 (sc_serves _ _ _ _ _ S2) Hpl (ok_orphan c r Hok Hin) eq_refl)
      as (r3 & E3 & Hok3 & Hnm & _). pose proof (Hnm p (sc_name _ _ _ _ _ S2)) as Hn3.
    destruct (delete_answers fuel Hfuel b p (set_primary b c) r3 Hok3 eq_refl Hn3) as (r4 & E4).
    cbn zeta. rewrite run_bind, (Herr _ r2 r3 _ r4 (λ _, eq_refl) E3 E4 eq_refl), <- run_bind.
    by apply (write_at_b fuel Hfuel b p data (set_primary b c) r3 Hok3 Hn3).
  - cbn zeta. change (failover_run fuel a b (S n) carried ((ask cl ≫= k) ≫= rest) r) with
      (let '(x, r) := svc_DeleteFile a (mkDeleteFileRequest p (clientId c) (reqSeq c + 1)) r in
       failover_run fuel a b n carried (k x ≫= rest) r). rewrite Es.
    destruct (Hok_k (mkDeleteFileResponse "") eq_refl) as (y & Ey). rewrite Ey.
    destruct (client_DeleteFile_ok c r p Hok Hn (before_content _ _)) as (c2 & r2 & E2 & Hok2 & B & Hq2 & Hl2 & Hk2 & Hu2); [split; lia|done|].
    assert (Hy : (y, r1) = ((None, c2), r2)).
    { rewrite <- E2. rewrite <- (run_client_DeleteFile no_faults p c r), Eq.
      change (run (ask cl ≫= k) r) with
        (let '(x, r) := svc_DeleteFile a (mkDeleteFileRequest p (clientId c) (reqSeq c + 1)) r in run (k x) r).
      by rewrite Es, Ey. }
    injection Hy as -> ->. change (Return (None, c2) ≫= rest) with (client_CreateFile_calls no_faults p c2 ≫= after_create p data).
    destruct B as ([_ Bs] & _). rewrite <- Bs in Hin.
    assert (Hf2 : svc_file r2 p = None) by (rewrite (Hup p Hpl); by apply decide_True).
    assert (Hs2 : (reqSeq c2 + 2 < 2 ^ 63 - 1)%Z) by (rewrite Hq2; lia).
    pose proof (in_create n carried p data c2 r2 Hp Hpl Hok2 Hin (keeps_name _ _ _ _ Hk2 p Hn) Hf2 Hl2 Hne Hs2 Hno) as Hfin.
    cbn zeta in Hfin. destruct (decide (n = 0 ∧ carried = true)) as [[-> ->]|Hd].
    + rewrite decide_True by done. exact Hfin.
    + rewrite decide_False by (intros [[= ->] ?]; by apply Hd). exact Hfin.
Qed.

End Phases.
