(* ===== verification/MidRead.v ===== *)
(** * Reading a file while the primary dies

    A read (open, ask whether the cached copy is valid or fetch, close) through
    the failover at each of its calls. *)

From S2P Require Import Prelude GoLib GoText GoPath Disk AfsProto Server Handler HandlerSpec Service Cluster SyncSpec Election ElectionProps Cache Client AfsSpec AfsWorld Json JsonCodec SnapshotIO ClientStart Replicas ReplicasSpec Failover Takeover Snapshot Calls Interrupt MidWrite.

Section Bind.
  Context (fuel : nat) (a b : string) `{!SnapshotNet Replicas}.

#[local] Hint Extern 0 (AfsService Replicas) => exact (interrupt_afs fuel) : typeclass_instances.

Fixpoint calls_made {A} (m : program A) (r : Replicas) : nat :=
  match m with
  | Return _ => 0
  | Call c k => let '(x, r) := perform c r in S (calls_made (k x) r)
  | Clock k => calls_made (k (time_Unix r)) r
  | Dial addr k => calls_made (k (svc_dial (W := Replicas) addr)) r
  end.

(** The primary dies in the first part of a program, or in the rest. *)
Lemma failover_run_bind {A B} n carried (m : program A) (f : A → program B) r :
  failover_run fuel a b n carried (m ≫= f) r =
    if n <? calls_made m r then let '(x, r') := failover_run fuel a b n carried m r in run (f x) r'
    else let '(x, r') := run m r in failover_run fuel a b (n - calls_made m r) carried (f x) r'.
Proof using Type.
  revert n r. induction m as [x|c k IH|k IH|addr k IH]; intros n r.
  - cbn [calls_made run]. rewrite Nat.sub_0_r. by destruct n.
  - cbn [calls_made run].
    change (failover_run fuel a b n carried (Call c k ≫= f) r) with
      (match n with
       | O => if carried then run (k (lost_answer c) ≫= f) (succession fuel a b (perform c r).2) else run (Call c k ≫= f) (succession fuel a b r)
       | S n => let '(x, r) := perform c r in failover_run fuel a b n carried (k x ≫= f) r
       end).
    destruct n as [|n].
    + destruct (perform c r) as [x r1] eqn:E. cbn [Nat.ltb Nat.leb snd]. cbn [failover_run].
      destruct carried; [rewrite E|]; apply run_bind.
    + destruct (perform c r) as [x r1] eqn:E. rewrite IH. change (S n <? S ?c)%nat with (n <? c)%nat.
      cbn [failover_run]. rewrite E. by destruct (n <? _).
  - apply IH.
  - apply IH.
Qed.

(** A result that is computed from the answer of a program. *)
Lemma failover_run_map {A B} n carried (m : program A) f (g : A → B) r :
  (∀ x, f x = Return (g x)) →
  failover_run fuel a b n carried (m ≫= f) r = let '(x, r') := failover_run fuel a b n carried m r in (g x, r').
Proof using Type.
  intros Hf. assert (Hrun : ∀ (m : program A) (r : Replicas), run (m ≫= f) r = let '(x, r') := run m r in (g x, r')).
  { intros m' r'. rewrite run_bind. destruct (run m' r') as [x r1]. by rewrite Hf. }
  revert n r. induction m as [x|c k IH|k IH|addr k IH]; intros n r; [|destruct n|apply IH..].
  - change (failover_run fuel a b n carried (f x) r = (g x, succession fuel a b r)). by rewrite Hf.
  - destruct carried; [apply Hrun|apply (Hrun (Call c k))].
  - change (failover_run fuel a b (S n) carried (Call c k ≫= f) r) with
      (let '(x, r) := perform c r in failover_run fuel a b n carried (k x ≫= f) r).
    cbn [failover_run]. destruct (perform c r) as [x r1]. apply IH.
Qed.

End Bind.

(** ** Clients before and after the failover *)

(** The same client but for its connection. *)
Definition alike (c c' : Client) : Prop := same_client (set_conn None c) (set_conn None c').

Lemma same_alike c c' : same_client c c' → alike c c'.
Proof. intros ([_ H1] & H2). by split. Qed.
Lemma alike_primary b c : alike c (set_primary b c).
Proof. by repeat split. Qed.
#[export] Instance alike_preorder : PreOrder alike.
Proof. split; [by intros c|]. intros c1 c2 c3 H1 H2. unfold alike in *. by etrans. Qed.

Lemma alike_free c c' p : alike c c' → local_free c p → local_free c' p.
Proof. intros H Hf. exact (same_client_free _ _ p H Hf). Qed.
Lemma alike_addrs c c' : alike c c' → serverAddrs c' = serverAddrs c.
Proof. by intros ([_ H] & _). Qed.

(** The file is open and was read to the end, with a content that [can] be what
    the client gets; [P] holds of the client and the servers then. *)
Definition opened (buf : nat) (p : string) (can : bytes → Prop) (P : Client → Replicas → Prop) (c : Client) (s : Z)
    (x : result Z * Client * Replicas) : Prop :=
  ∃ got id c1 c2, can got ∧ x.1 = (Ok id, c1) ∧ read_to_end no_faults buf id c1 = Ret (got, None, c2) ∧ reading c2 id p [] ∧
    alike c c2 ∧ reqSeq c2 = s ∧ P c2 x.2.

(** ** At the new primary *)

Section After.
  Context (fuel : nat) (Hfuel : 0 < fuel) (a b : string) `{!SnapshotNet Replicas}.
  (* the file that is read, what the client can get, and output files it goes
     on to write *)
  Context (buf : nat) (Hbuf : 0 < buf) (p : string) (data : bytes) (Hpl : plain p).
  Context (can : bytes → Prop) (Hcan : can data) (Q : string → Prop).

#[local] Hint Extern 0 (AfsService Replicas) => exact (interrupt_afs fuel) : typeclass_instances.
#[local] Instance read_view : AfsView Replicas := replicas_view b (λ _ _, True).
#[local] Instance read_laws : AfsLaws Replicas := failover_laws fuel Hfuel b.

Definition names_b (r : Replicas) : Prop := ∀ q, Q q → svc_name r q.

(** A client after the failover: connected to [b], or not yet. *)
Definition settled (c : Client) (r : Replicas) : Prop := (client_ok c r ∨ lost a b c r) ∧ names_b r.

(** With the version [v] of the file the client gets its copy or the file. *)
Definition sees (c : Client) (v : Z) : Prop := ∃ x, reader_sees c p data v = Some x ∧ can x.

Lemma open_at_b v c r :
  client_ok c r → names_b r → svc_file r p = Some (data, v) → local_free c p → sees c v → seq_ok (reqSeq c + 1) →
  opened buf p can settled c (reqSeq c + 1) (run (client_Open_calls no_faults p false c) r).
Proof using Hfuel Hbuf Hpl.
  intros Hok Hn Hf Hfree (got & Hco & Hgot) Hs. rewrite run_client_Open.
  destruct (open_and_read_sees c r p data v got buf Hok Hpl Hf Hfree Hco Hs Hbuf) as (id & c1 & r1 & c2 & E & Er & Hok2 & Hal & Hq & Hr & He & _).
  rewrite E. exists got, id, c1, c2. split; [done|]. split; [done|]. split; [done|]. split; [done|]. split; [by apply same_alike|]. split; [done|].
  split; [by left|]. intros q Hq'. by apply He, Hn.
Qed.

Lemma open_answers v c r :
  client_ok c r → grpcConn c = Some b → svc_file r p = Some (data, v) →
  ∃ id r', svc_Open b (mkOpenRequest p false (clientId c) (reqSeq c + 1)) r = (Ok (mkOpenResponse id ""), r').
Proof using Hfuel Hpl.
  intros [(x & Hx & Hr) Hu Hs _ Hus _] Hc Hf. rewrite Hc in Hx. injection Hx as <-.
  destruct (law_open r b (clientId c) (reqSeq c) p false data v Hus Hr Hu Hs Hpl Hf) as (id & r' & E & _). by exists id, r'.
Qed.

(** The fetched copy is open. *)
Lemma fetch_at_b v sh c r :
  client_ok c r → grpcConn c = Some b → names_b r → svc_file r p = Some (data, v) → local_free c p →
  ∃ ver c1 r1, fetch_attempt no_faults p 0 c r = (None, ver, c1, r1) ∧
    opened buf p can settled c (reqSeq c) (fetched_open p sh ver c1, r1).
Proof using Hcan Hfuel Hbuf Hpl.
  intros [(x & Hx & Hr) Hu Hs Hwf Hus Hp] Hc Hn Hf Hfree. rewrite Hc in Hx. injection Hx as <-.
  destruct (fetch_attempt_ok c r b p data v 0 Hc Hr Hpl Hf Hwf Hfree) as (d & ver & r1 & E & Hk & Hwfd & Hd & Hkept & _).
  exists ver, (set_cdisk d c), r1. split; [done|]. unfold fetched_open.
  destruct (open_local_ok "opening local cache file: " p sh (set_cache (storeCacheEntry p ver (cache (set_cdisk d c))) (set_cdisk d c)) data Hd)
    as (id & c' & E' & Ed & Hsame & Hq & Hrd & _). rewrite E'. pose proof Hsame as ((Hg & _) & Hi & _).
  assert (Hok' : client_ok c' r1).
  { destruct Hk as (K1 & K2 & _). split; [exists b; rewrite Hg; split; [done|by apply K1]|rewrite Hi, Hq; by apply K2|by rewrite Hq|by rewrite Ed|exact I|exact (λ _ _, I)]. }
  destruct (read_loop_ok c' r1 id p data buf (S (length (remaining id c')))) as (c2 & E2 & Hok2 & Hs2 & Hq2 & Hr2);
    [done|done|done|rewrite (reading_remaining _ _ _ _ Hrd); lia|].
  exists data, id, c', c2. split; [exact Hcan|]. split; [done|]. split; [done|]. split; [done|].
  split; [etrans; [|by apply same_alike]; etrans; [|exact (same_alike _ _ Hsame)]; by split; [|split; [|split; [|exact Hkept]]]|].
  split; [by rewrite Hq2, Hq|]. split; [by left|]. intros q Hq'. by apply Hk, Hn.
Qed.

(** A client that has not fetched yet. *)
Lemma fetch_by_orphan v sh c r e :
  serves a b p (Some (data, v)) r → names_b r → orphan a b c → local_free c p →
  ∃ k, fetch_and_open_calls no_faults p false sh c = ask (CallFetchFile a (mkFetchFileRequest p)) ≫= k ∧
    opened buf p can settled c (reqSeq c) (run (k (Err e)) r).
Proof using Hcan Hfuel Hbuf Hpl.
  intros S Hn Ho Hfree. destruct (Fetch_step (W := Replicas) a b p sh c (proj1 Ho)) as (k & Eq & _ & Herr).
  exists k. split; [exact Eq|].
  destruct (orphan_reconnects fuel Hfuel a b p _ c c r S Hpl Ho eq_refl) as (r3 & E3 & Hok3 & Hn3 & Hf3).
  destruct (fetch_at_b v sh (set_primary b c) r3 Hok3 eq_refl (λ q Hq, Hn3 q (Hn q Hq)) Hf3 Hfree) as (ver & c1 & r4 & E4 & Hop).
  rewrite (Herr e r r3 ver c1 r4 (λ _, eq_refl) E3 E4). exact Hop.
Qed.

Lemma refetch_by_orphan v sh c r :
  serves a b p (Some (data, v)) r → names_b r → orphan a b c → local_free c p →
  opened buf p can settled c (reqSeq c) (run (fetch_and_open_calls no_faults p false sh c) r).
Proof using Hcan Hfuel Hbuf Hpl.
  intros S Hn Ho Hfree. destruct (fetch_by_orphan v sh c r unavailable S Hn Ho Hfree) as (k & -> & Hop).
  replace (run (ask (CallFetchFile a (mkFetchFileRequest p)) ≫= k) r) with (run (k (Err unavailable)) r); [exact Hop|].
  cbn. unfold at_node. by rewrite (sv_dead _ _ _ _ _ S).
Qed.

(** Letting the handle go, before or after reconnecting. *)
Lemma close_settled id c r :
  settled c r → reading c id p [] →
  ∃ c3 r3, run (client_Close_calls no_faults id c) r = ((None, c3), r3) ∧ alike c c3 ∧ reqSeq c3 = reqSeq c ∧ settled c3 r3.
Proof using Hfuel.
  intros [[Hok|Hl] Hn] Hrd; rewrite run_client_Close.
  - destruct (client_Close_clean c r id p [] Hok Hrd) as (c3 & r3 & -> & Hok3 & Hsame & Hq & Hk & _).
    exists c3, r3. split; [done|]. split; [by apply same_alike|]. split; [done|]. split; [by left|]. intros q Hq'. by apply Hk, Hn.
  - destruct Hrd as (e & He & _ & Hd & _). unfold client_Close, closeFile. rewrite He. cbv beta iota. rewrite Hd.
    unfold close_handle, on_conn. cbn [grpcConn set_cache]. rewrite (lo_conn _ _ _ _ Hl).
    change (svc_CloseFile a (mkCloseFileRequest (serverHandleID e)) r) with
      (at_node a (svc_CloseFile a (mkCloseFileRequest (serverHandleID e))) r).
    rewrite (dead_call a _ r (lo_dead _ _ _ _ Hl)). eexists _, r. split; [reflexivity|]. split; [by repeat split|]. split; [done|].
    split; [right|done]. destruct Hl as [H1 H2 H3 H4 H5 H6 H7 H8]. by split.
Qed.

End After.

(** ** The calls of a read *)

Section Phases.
  Context (fuel : nat) (Hfuel : 0 < fuel) (a b : string) (alive : gset string) (outs : string → Prop) (ins : gmap string bytes).
  Context (Ha : a ∉ alive) (Hb : b ∈ alive) `{!SnapshotNet Replicas}.
  Context (buf : nat) (Hbuf : 0 < buf) (p : string) (data : bytes) (Hpl : plain p) (can : bytes → Prop) (Hcan : can data).
  Context (Q : string → Prop) (HQ : ∀ q, Q q → outs q ∧ plain q).

#[local] Hint Extern 0 (AfsService Replicas) => exact (interrupt_afs fuel) : typeclass_instances.
#[local] Instance phase_view : AfsView Replicas := deployed_view a alive outs ins.
#[local] Instance phase_laws : AfsLaws Replicas := deployed_laws a alive outs ins fuel Hfuel Ha.

Abbreviation settles := (settled a b Q).
Abbreviation succeeds := (succession fuel a b).
Abbreviation gets := (sees p data can).

(** The file can be read at the primary, and at [b] if that takes over: it is an
    output file, or an input file, of which the version there is not known. *)
Record readable (c : Client) (r : Replicas) : Prop := {
  re_ready : svc_ready r a;
  re_past : svc_past r;
  re_file : ∃ v, svc_file r p = Some (data, v) ∧ gets c v;
  re_kind : (outs p ∧ svc_name r p) ∨ (ins !! p = Some data ∧ ∀ v, gets c v);
  re_names q : Q q → svc_name r q;
}.

Record reader (c : Client) (r : Replicas) : Prop := {
  rd_ok : client_ok c r;
  rd_addrs : b ∈ serverAddrs c;
  rd_readable : readable c r;
  rd_free : local_free c p;
}.

Lemma readable_reads c r r1 : readable c r → call_reads r r1 → readable c r1.
Proof using Hpl.
  intros [H1 H2 (v & H3 & H3') H4 H5] (K1 & _ & K3 & K4 & _ & K6). split; [by apply K1|by apply K6| | |].
  - exists v. by rewrite (proj2 (K4 p Hpl)).
  - destruct H4 as [[H4 H4']|H4]; [left|by right]. split; [done|by apply K3].
  - intros q Hq. by apply K3, H5.
Qed.

Lemma reader_reads c r r1 : reader c r → call_reads r r1 → reader c r1.
Proof using Hpl. intros [H1 H2 H3 H4] Hk. split; [by eapply client_ok_reads|done|by eapply readable_reads|done]. Qed.

Lemma readable_keeps cid n v c r r1 :
  readable c r → svc_file r p = Some (data, v) → call_keeps cid n r r1 → file_update p (Some (data, v)) r r1 → readable c r1.
Proof using Hpl.
  intros [H1 H2 (v' & H3 & H3') H4 H5] Hf Hk Hup. rewrite Hf in H3. injection H3 as ->. split; [by apply Hk|by apply Hk| | |].
  - exists v'. split; [|done]. rewrite (Hup p Hpl). by apply decide_True.
  - destruct H4 as [[H4 H4']|H4]; [left|by right]. split; [done|by apply Hk].
  - intros q Hq. by apply Hk, H5.
Qed.

Lemma names_succeed r : svc_ready r a → svc_past r → (∀ q, Q q → svc_name r q) → names_b b Q (succeeds r).
Proof using Ha Hb HQ.
  intros Hr Hp Hn q Hq. destruct (HQ q Hq) as [Ho Hpq].
  exact (sc_name _ _ _ _ _ (succession_ok fuel a b alive outs ins Ha Hb q r Ho Hpq Hr Hp (Hn q Hq))).
Qed.

Lemma readable_serves c r :
  readable c r → ∃ v, serves a b p (Some (data, v)) (succeeds r) ∧ gets c v ∧ names_b b Q (succeeds r).
Proof using Ha Hb Hpl HQ.
  intros [H1 H2 (v & H3 & H3') H4 H5]. pose proof (names_succeed r H1 H2 H5) as Hn. destruct H4 as [[H4 H4']|[H4 H4']].
  - exists v. split; [|done]. rewrite <- H3. exact (sc_serves _ _ _ _ _ (succession_ok fuel a b alive outs ins Ha Hb p r H4 Hpl H1 H2 H4')).
  - destruct (succession_input fuel a b alive outs ins Ha Hb p data r H4 H1 H2) as [v' Hv]. exists v'. by split; [|split].
Qed.

(** A client that works at the primary when it dies. *)
Definition at_a (c : Client) (r : Replicas) : Prop := client_ok c r ∧ ∀ q, Q q → svc_name r q.

Lemma leave c r : at_a c r → b ∈ serverAddrs c → settles c (succeeds r).
Proof using Ha Hb HQ.
  intros [Hok Hn] Hin. destruct (client_ok_step a alive outs ins c r Hok) as (Hc & Hr & Hp).
  split; [right|by apply names_succeed]. assert (Hd : deployed a alive outs ins r) by by apply deployed_past.
  destruct (takeover a alive outs ins fuel b r Ha Hb Hd) as (r2 & E & H1 & H2 & H3 & _). unfold succession. rewrite E.
  apply orphan_lost; [done|done|done|done|done|apply Hok|apply Hok].
Qed.

Lemma opened_leave c s y r :
  b ∈ serverAddrs c → opened buf p can at_a c s (y, r) → opened buf p can settles c s (y, succeeds r).
Proof using Ha Hb HQ.
  intros Hin (got & id & c1 & c2 & Hg & E & Er & Hrd & Hal & Hs & Hat). exists got, id, c1, c2. split; [done|]. split; [done|]. split; [done|]. split; [done|].
  split; [done|]. split; [done|]. apply leave; [done|]. by rewrite (alike_addrs _ _ Hal).
Qed.

(** A call at the primary that leaves the file readable, and is the last. *)
Lemma dies_readable (carried : bool) cl x c r r1 :
  perform cl r = (x, r1) → readable c r → readable c r1 →
  ∃ v, serves a b p (Some (data, v)) (succeeds (last_call fuel carried cl r)) ∧ gets c v ∧
    names_b b Q (succeeds (last_call fuel carried cl r)).
Proof using Ha Hb Hpl HQ.
  intros E H0 H1. unfold last_call. destruct carried; [|by apply readable_serves].
  enough (∀ r2, r2 = r1 → ∃ v, serves a b p (Some (data, v)) (succeeds r2) ∧ gets c v ∧ names_b b Q (succeeds r2)) as H
    by (apply H; exact (f_equal snd E)).
  intros r2 ->. by apply readable_serves.
Qed.

Lemma in_fetch n carried sh c r :
  reader c r → opened buf p can at_a c (reqSeq c) (run (fetch_and_open_calls no_faults p false sh c) r) →
  opened buf p can settles c (reqSeq c) (failover_run fuel a b n carried (fetch_and_open_calls no_faults p false sh c) r).
Proof using Hcan Hfuel Ha Hb Hbuf Hpl HQ.
  intros [Hok Hin Hre Hfree] Hrun. destruct (client_ok_step a alive outs ins c r Hok) as (Hc & Hr & Hpast).
  destruct (re_file _ _ Hre) as (v & Hf & _).
  destruct (Fetch_step (W := Replicas) a b p sh c Hc) as (k & Eq & Hok_k & _).
  destruct (law_fetch r a p data v Hr Hpl Hf) as (ms & r1 & Es & Hk & _).
  set (cl := CallFetchFile a (mkFetchFileRequest p)) in *.
  destruct n as [|n].
  - destruct (dies_readable carried cl _ c r r1 Es Hre (readable_reads _ _ _ Hre Hk)) as (v' & S & _ & Hn).
    destruct (fetch_by_orphan fuel Hfuel a b buf Hbuf p data Hpl can Hcan Q v' sh c _ (death_error carried) S Hn (ok_orphan a b alive outs ins c r Hok Hin) Hfree)
      as (k' & Eq' & Hop).
    rewrite Eq', dies_in_fetch; [exact Hop|]. destruct (readable_serves c r Hre) as (? & S0 & _). apply S0.
  - destruct (fetch_attempt_ok c r a p data v 0 Hc Hr Hpl Hf (ok_cdisk _ _ Hok) Hfree) as (d & ver & r2 & E & _).
    destruct (Hok_k r r1 r2 _ ver _ Es E) as [-> Ek]. rewrite Eq in Hrun |- *.
    change (failover_run fuel a b (S n) carried (ask cl ≫= k) r) with
      (let '(x, r) := svc_FetchFile a (mkFetchFileRequest p) r in failover_run fuel a b n carried (k x) r).
    change (run (ask cl ≫= k) r) with (let '(x, r) := svc_FetchFile a (mkFetchFileRequest p) r in run (k x) r) in Hrun.
    rewrite Es, Ek in Hrun |- *. exact (opened_leave _ _ _ _ Hin Hrun).
Qed.

Lemma in_testauth n carried sh c r :
  reader c r → opened buf p can at_a c (reqSeq c) (run (open_rest p sh c) r) →
  opened buf p can settles c (reqSeq c) (failover_run fuel a b n carried (open_rest p sh c) r).
Proof using Hcan Hfuel Ha Hb Hbuf Hpl HQ.
  intros Hrd Hrun. pose proof Hrd as [Hok Hin Hre Hfree]. destruct (client_ok_step a alive outs ins c r Hok) as (Hc & Hr & Hpast).
  destruct (isCached p (cache c)) as [v0|] eqn:Hv; [|unfold open_rest in *; rewrite Hv in *; by apply in_fetch].
  destruct (re_file _ _ Hre) as (v & Hf & _).
  destruct (TestAuth_step (W := Replicas) a p sh v0 c Hc Hv) as (k & Eq & Hok_k & Herr).
  destruct (law_testauth r a p data v v0 Hr Hpl Hf) as (r1 & Es & Hk).
  set (cl := CallTestAuth a (mkTestAuthRequest p v0)) in *. rewrite Eq in Hrun |- *.
  destruct n as [|n].
  - destruct (dies_readable carried cl _ c r r1 Es Hre (readable_reads _ _ _ Hre Hk)) as (v' & S & _ & Hn).
    destruct (readable_serves c r Hre) as (? & S0 & _).
    unfold cl at 1. rewrite dies_in_testauth by apply S0. fold cl.
    assert (Edead : ∀ r2, rp_nodes r2 !! a = None → svc_TestAuth a (mkTestAuthRequest p v0) r2 = (Err unavailable, r2))
      by (intros r2; apply dead_call).
    rewrite (Herr _ unavailable _ (λ _, eq_refl) (Edead _ (sv_dead _ _ _ _ _ S))).
    apply (refetch_by_orphan fuel Hfuel a b buf Hbuf p data Hpl can Hcan Q v' sh c _ S Hn (ok_orphan a b alive outs ins c r Hok Hin) Hfree).
  - change (failover_run fuel a b (Datatypes.S n) carried (ask cl ≫= k) r) with
      (let '(x, r) := svc_TestAuth a (mkTestAuthRequest p v0) r in failover_run fuel a b n carried (k x) r).
    change (run (ask cl ≫= k) r) with (let '(x, r) := svc_TestAuth a (mkTestAuthRequest p v0) r in run (k x) r) in Hrun.
    rewrite Es, Hok_k in Hrun |- *. cbn [tp_IsValid] in *. destruct (v =? v0)%Z; [exact (opened_leave _ _ _ _ Hin Hrun)|].
    apply in_fetch; [by eapply reader_reads|exact Hrun].
Qed.

Lemma open_runs c r :
  reader c r → seq_ok (reqSeq c + 1) →
  opened buf p can at_a c (reqSeq c + 1) (run (client_Open_calls no_faults p false c) r).
Proof using Hfuel Ha Hbuf Hpl.
  intros [Hok _ Hre Hfree] Hs. destruct (re_file _ _ Hre) as (v & Hf & got & Hco & Hgot). rewrite run_client_Open.
  destruct (open_and_read_sees c r p data v got buf Hok Hpl Hf Hfree Hco Hs Hbuf)
    as (id & c1 & r1 & c2 & E & Er & Hok2 & Hsame & Hq & Hrdg & He & _). rewrite E.
  exists got, id, c1, c2. split; [done|]. split; [done|]. split; [done|]. split; [done|]. split; [by apply same_alike|]. split; [done|].
  split; [done|]. intros q Hq'. by apply He, (re_names _ _ Hre).
Qed.

Lemma in_open n carried c r :
  reader c r → seq_ok (reqSeq c + 1) →
  opened buf p can settles c (reqSeq c + 1) (failover_run fuel a b n carried (client_Open_calls no_faults p false c) r).
Proof using Hcan Hfuel Ha Hb Hbuf Hpl HQ.
  intros Hrd Hs. pose proof (open_runs c r Hrd Hs) as Hrun. pose proof Hrd as [Hok Hin Hre Hfree].
  destruct (client_ok_step a alive outs ins c r Hok) as (Hc & Hr & Hpast). destruct (re_file _ _ Hre) as (v & Hf & Hco).
  destruct (Open_step (W := Replicas) a b p c Hc) as (k & Eq & Hok_k & Herr).
  rewrite (seq_next _ (ok_seq _ _ Hok)) in *.
  destruct (law_open r a (clientId c) (reqSeq c) p false data v (ok_user _ _ Hok) Hr (ok_unused _ _ Hok) (ok_seq _ _ Hok) Hpl Hf)
    as (id & r1 & Es & Hk & Hup).
  set (cl := CallOpen a (mkOpenRequest p false (clientId c) (reqSeq c + 1))) in *. rewrite Eq in Hrun |- *.
  pose proof (readable_keeps _ _ _ _ _ _ Hre Hf Hk Hup) as Hre1.
  destruct n as [|n].
  - destruct (dies_readable carried cl _ c r r1 Es Hre Hre1) as (v' & S & Hco' & Hn). destruct (readable_serves c r Hre) as (? & S0 & _).
    unfold cl at 1. rewrite dies_in_open by apply S0. fold cl. revert S Hn.
    generalize (succeeds (last_call fuel carried cl r)). intros r2 S Hn.
    destruct (orphan_reconnects fuel Hfuel a b p _ c (set_seq (reqSeq c + 1) c) r2 S Hpl (ok_orphan a b alive outs ins c r Hok Hin) eq_refl)
      as (r3 & E3 & Hok3 & Hn3 & Hf3).
    destruct (open_answers fuel Hfuel b p data Hpl v' (set_primary b c) r3 Hok3 eq_refl Hf3) as (id3 & r4 & E4).
    rewrite (Herr _ r2 r3 _ r4 (λ _, eq_refl) E3 E4 eq_refl).
    exact (open_at_b fuel Hfuel a b buf Hbuf p data Hpl can Q v' (set_primary b c) r3 Hok3 (λ q Hq, Hn3 q (Hn q Hq)) Hf3 Hfree Hco' Hs).
  - change (failover_run fuel a b (Datatypes.S n) carried (ask cl ≫= k) r) with
      (let '(x, r) := svc_Open a (mkOpenRequest p false (clientId c) (reqSeq c + 1)) r in failover_run fuel a b n carried (k x) r).
    change (run (ask cl ≫= k) r) with
      (let '(x, r) := svc_Open a (mkOpenRequest p false (clientId c) (reqSeq c + 1)) r in run (k x) r) in Hrun.
    rewrite Es, Hok_k in Hrun |- *. apply in_testauth; [|exact Hrun].
    split; [|exact Hin|destruct Hre1 as [? ? ? ? ?]; by split|exact Hfree].
    split; [exists a; split; [exact Hc|by apply Hk]| |exact Hs|apply Hok|apply Hok|by apply Hk].
    pose proof (keeps_unused _ _ _ _ Hk _ _ (ok_unused _ _ Hok)) as Hu. rewrite decide_True in Hu by done.
    rewrite Z.max_r in Hu by lia. exact Hu.
Qed.

(** Letting the handle go: the answer does not matter. *)
Lemma Close_clean id c r0 :
  at_a c r0 → reading c id p [] →
  ∃ sh c3, client_Close_calls no_faults id c = (_ ← ask (CallCloseFile a (mkCloseFileRequest sh)); Return (None, c3)) ∧
    alike c c3 ∧ reqSeq c3 = reqSeq c ∧ ∀ r, at_a c r → at_a c3 r.
Proof using Type.
  intros [Hok _] (e & He & _ & Hd & _). destruct (client_ok_step a alive outs ins c r0 Hok) as (Hc & _).
  unfold client_Close_calls. destruct (closeFile id (cache c)) as [o cm] eqn:Ecl.
  unfold closeFile in Ecl. rewrite He in Ecl. injection Ecl as <- Ecm. rewrite Hd. unfold close_handle_calls, on_conn_calls.
  cbn [grpcConn set_cache]. rewrite Hc. exists (serverHandleID e), (set_cache cm c). split; [done|]. subst cm.
  split; [by repeat split|]. split; [done|]. by intros r [[H1 H2 H3 H4 H5 H6] Hn].
Qed.

Lemma in_close_clean n carried id c r :
  at_a c r → b ∈ serverAddrs c → reading c id p [] →
  ∃ c3 r3, failover_run fuel a b n carried (client_Close_calls no_faults id c) r = ((None, c3), r3) ∧
    alike c c3 ∧ reqSeq c3 = reqSeq c ∧ settles c3 r3.
Proof using Hfuel Ha Hb HQ.
  intros Hat Hin Hrd. destruct (Close_clean id c r Hat Hrd) as (sh & c3 & -> & Hal & Hs & Hat3).
  pose proof Hat as [Hok Hn]. destruct (client_ok_step a alive outs ins c r Hok) as (Hc & Hr & Hpast).
  assert (Hin3 : b ∈ serverAddrs c3) by by rewrite (alike_addrs _ _ Hal).
  pose proof (law_close r a sh Hr) as Hk. set (r1 := (svc_CloseFile a (mkCloseFileRequest sh) r).2) in *.
  assert (Hat1 : at_a c r1).
  { split; [by eapply client_ok_reads|]. intros q Hq. by apply Hk, Hn. }
  exists c3. destruct n as [|n].
  - exists (succeeds (last_call fuel carried (CallCloseFile a (mkCloseFileRequest sh)) r)).
    rewrite dies_in_close.
    + split; [done|]. split; [done|]. split; [done|]. apply leave; [|done]. apply Hat3. destruct carried; [exact Hat1|exact Hat].
    + destruct (takeover a alive outs ins fuel b r Ha Hb) as (r2 & E & H1 & _); [by apply deployed_past|]. unfold succession. by rewrite E.
  - exists (succeeds r1). split; [|split; [done|split; [done|by apply leave; [apply Hat3|]]]].
    change (failover_run fuel a b (S n) carried (_ ← ask (CallCloseFile a (mkCloseFileRequest sh)); Return (@None string, c3)) r) with
      (let '(x, r) := svc_CloseFile a (mkCloseFileRequest sh) r in ((@None string, c3), succeeds r)).
    subst r1. by destruct (svc_CloseFile _ _ r).
Qed.

Lemma close_runs id c r :
  at_a c r → reading c id p [] →
  ∃ c3 r3, run (client_Close_calls no_faults id c) r = ((None, c3), r3) ∧ alike c c3 ∧ reqSeq c3 = reqSeq c ∧ at_a c3 r3.
Proof using Hfuel Ha.
  intros [Hok Hn] Hrd. rewrite run_client_Close.
  destruct (client_Close_clean c r id p [] Hok Hrd) as (c3 & r3 & -> & Hok3 & Hsame & Hq & Hk & _).
  exists c3, r3. split; [done|]. split; [by apply same_alike|]. split; [done|]. split; [done|]. intros q Hq'. by apply Hk, Hn.
Qed.

(** A whole read. *)
Lemma in_read carried c r n :
  buf = Z.to_nat 32768 → reader c r → seq_ok (reqSeq c + 1) → (∀ x, can x → x ≠ []) →
  ∃ x c', (failover_run fuel a b n carried (readFromAFS_calls no_faults p c) r).1 = Ret (Ok x, c') ∧ can x.
Proof using Hcan Hfuel Ha Hb Hbuf Hpl HQ.
  intros Ebuf Hrd Hs Hne. unfold readFromAFS_calls. rewrite failover_run_bind. rewrite <- Ebuf.
  pose proof (rd_addrs _ _ Hrd) as Hin. pose proof (in_open n carried c r Hrd Hs) as Hop. pose proof (open_runs c r Hrd Hs) as Hrun.
  destruct (n <? _).
  - destruct (failover_run _ _ _ _ _ _ _) as [x r1]. destruct Hop as (got & id & c1 & c2 & Hgot & Ex & Er & Hrdg & Hal & _ & Hset). cbn [fst snd] in *. subst x.
    cbv beta iota. rewrite Er, run_bind.
    destruct (close_settled fuel Hfuel a b p Q id c2 r1 Hset Hrdg) as (c3 & r3 & E & _). rewrite E. rewrite decide_False by (by apply Hne). by exists got, c3.
  - destruct (run (client_Open_calls no_faults p false c) r) as [x r1]. destruct Hrun as (got & id & c1 & c2 & Hgot & Ex & Er & Hrdg & Hal & _ & Hat). cbn [fst snd] in *. subst x.
    cbv beta iota. rewrite Er, failover_run_bind. rewrite <- (alike_addrs _ _ Hal) in Hin.
    set (m := n - _). destruct (m <? _).
    + destruct (in_close_clean m carried id c2 r1 Hat Hin Hrdg) as (c3 & r3 & E & _). rewrite E. cbn [run].
      rewrite decide_False by (by apply Hne). by exists got, c3.
    + destruct (close_runs id c2 r1 Hat Hrdg) as (c3 & r3 & E & _). rewrite E. cbn [failover_run fst]. rewrite decide_False by (by apply Hne). by exists got, c3.
Qed.

End Phases.
