(* ===== verification/Disturbed.v ===== *)
(** * A program among the calls of others

    To reason about a program of Calls.v that runs beside others: what they may
    do between two of its calls is the relation [rely], what its own calls do
    is [guarantee].  [safe] says that a program keeps its guarantee and ends
    with its result whatever the others do within the rely.  It follows
    ([safe_program]) from what is proved of the program from the laws of
    AfsSpec.v: the laws hold in a world that is moved before each call as a
    script says ([Disturbed]). *)

From S2P Require Import Prelude GoLib Disk AfsProto Server Cache Client AfsSpec SnapshotIO Snapshot Calls.

(** A marker changes nothing in the file service. *)
Class QuietNet (W : Type) `{!AfsView W, !SnapshotNet W} :=
  quiet_post url a (w : W) : svc_ready w a → call_reads w (net_Post url w).2.

(** Where the world is before each of the next calls. *)
Record Disturbed (W : Type) := mkDisturbed {
  ds_now : W;
  ds_script : list (W * call);
  ds_log : list (W * W);         (* the calls so far: before and after *)
}.
Arguments mkDisturbed {W} _ _ _.
Arguments ds_now {W} _.
Arguments ds_script {W} _.
Arguments ds_log {W} _.

Section Services.
  Context {W : Type} `{!AfsService W, !SnapshotNet W}.

Definition next_world (t : Disturbed W) : W := match ds_script t with (w, _) :: _ => w | [] => ds_now t end.

(** A call that is not the one of the script ends it. *)
Definition turn (c : call) (t : Disturbed W) : W * list (W * call) :=
  match ds_script t with
  | (w, c') :: script => if decide (c' = c) then (w, script) else (ds_now t, [])
  | [] => (ds_now t, [])
  end.

Definition disturbed (c : call) (t : Disturbed W) : answer c * Disturbed W :=
  let '(w, script) := turn c t in
  let '(r, w') := perform c w in (r, mkDisturbed w' script (ds_log t ++ [(w, w')])).

#[export] Instance disturbed_afs : AfsService (Disturbed W) := {
  svc_GetPrimary a := disturbed (CallGetPrimary a);
  svc_Heartbeat a req := disturbed (CallHeartbeat a req);
  svc_Open a req := disturbed (CallOpen a req);
  svc_TestAuth a req := disturbed (CallTestAuth a req);
  svc_FetchFile a req := disturbed (CallFetchFile a req);
  svc_StoreFile a reqs err := disturbed (CallStoreFile a reqs err);
  svc_CreateFile a req := disturbed (CallCreateFile a req);
  svc_DeleteFile a req := disturbed (CallDeleteFile a req);
  svc_CloseFile a req := disturbed (CallCloseFile a req);
  svc_dial a := svc_dial (W := W) a;
  svc_sleep t := (disturbed CallSleep t).2;
}.

#[export] Instance disturbed_net : SnapshotNet (Disturbed W) := {
  net_Post url := disturbed (CallPost url);
  time_Unix t := time_Unix (next_world t);
}.

Lemma perform_disturbed c (t : Disturbed W) : perform c t = disturbed c t.
Proof using Type. destruct c; try reflexivity. cbn. by destruct (disturbed CallSleep t) as [[] t']. Qed.

End Services.

Section Rely.
  Context {W : Type} `{!AfsService W, !AfsView W, !AfsLaws W, !AfsUnwatched W, !SnapshotNet W, !QuietNet W}.
  (* the client of the program, the files it writes, with what, and those that
     others write *)
  Context (cid : string) (mine : string → Prop) (content : string → option bytes → Prop) (writes : string → Prop).
  Context (apart : ∀ m, mine m → ¬ writes m).

Definition rely : relation W := others_keep (λ c, c ≠ cid) writes.

Definition guarantee (w w' : W) : Prop :=
  ∃ ps, (∀ p, p ∈ ps → mine p ∧ svc_known w p ∧ content p (fst <$> svc_file w' p)) ∧ svc_effect cid ps w w'.

(** ** Safe programs *)

(** From the world [w] in which its next call is made. *)
Fixpoint safe_now {A} (post : A → W → Prop) (m : program A) (w : W) : Prop :=
  match m with
  | Return a => post a w
  | Call c k => let '(r, w1) := perform c w in guarantee w w1 ∧ ∀ w2, rely w1 w2 → safe_now post (k r) w2
  | Clock k => safe_now post (k (time_Unix w)) w
  | Dial a k => safe_now post (k (svc_dial (W := W) a)) w
  end.

Definition safe {A} (post : A → W → Prop) (m : program A) (w : W) : Prop :=
  ∀ w', rely w w' → safe_now post m w'.

Lemma safe_rely {A} (post : A → W → Prop) m w w' : rely w w' → safe post m w → safe post m w'.
Proof using Type. intros H Hs w2 H2. apply Hs. by transitivity w'. Qed.

(** ** The laws among the calls of others *)

(** The others keep to the rely. *)
Fixpoint script_ok (w : W) (script : list (W * call)) : Prop :=
  match script with
  | [] => True
  | (w1, c) :: script => rely w w1 ∧ script_ok (perform c w1).2 script
  end.

Lemma turn_ok c (t : Disturbed W) :
  script_ok (ds_now t) (ds_script t) →
  rely (ds_now t) (turn c t).1 ∧ script_ok (perform c (turn c t).1).2 (turn c t).2.
Proof using Type.
  unfold turn. destruct (ds_script t) as [|[w c'] script]; [by split|]. intros [H1 H2].
  case_decide; [by subst|by split].
Qed.

#[local] Instance disturbed_view : AfsView (Disturbed W) := {
  svc_ready t b := svc_ready (ds_now t) b ∧ script_ok (ds_now t) (ds_script t);
  svc_unused t c k := svc_unused (ds_now t) c k ∧ c = cid;
  svc_name t m := svc_name (ds_now t) m ∧ mine m;
  svc_known t m := svc_known (ds_now t) m ∧ ¬ writes m;
  svc_file t := svc_file (ds_now t);
  svc_side := unit;
  svc_rest _ := tt;
  svc_past t := Forall (λ x, guarantee x.1 x.2) (ds_log t);
  svc_user c := c = cid;
  svc_content := content;
}.

(** Our call in the world that the others leave. *)
Record after_turn (c : call) (t : Disturbed W) (w : W) : Prop := {
  at_rely : rely (ds_now t) w;
  at_result r w' : perform c w = (r, w') → ∃ script, disturbed c t = (r, mkDisturbed w' script (ds_log t ++ [(w, w')])) ∧
    script_ok w' script;
}.

Lemma after_turn_exists c (t : Disturbed W) a : svc_ready t a → ∃ w, after_turn c t w ∧ svc_ready w a.
Proof using Type.
  intros [Hr Hok]. destruct (turn_ok c t Hok) as [H1 H2]. exists (turn c t).1. split; [|by apply H1]. split; [done|].
  intros r w' E. rewrite E in H2. exists (turn c t).2. split; [|done]. unfold disturbed.
  destruct (turn c t) as [w script]. simpl in *. by rewrite E.
Qed.

Lemma turn_unused c t w n : after_turn c t w → svc_unused t cid n → svc_unused w cid n.
Proof using Type. intros [H _] [Hu _]. apply H; [|done]. by intros []. Qed.

Lemma turn_name c t w m : after_turn c t w → svc_name t m → svc_name w m.
Proof using Type. intros [H _] [Hn _]. by apply H. Qed.

Lemma turn_file c t w m : after_turn c t w → svc_known t m → svc_known w m ∧ svc_file w m = svc_file t m.
Proof using Type. intros [H _] [Hk Hw]. split; by apply H. Qed.

Lemma disturbed_reads c t w w' script :
  after_turn c t w → script_ok w' script → call_reads w w' →
  call_reads t (mkDisturbed w' script (ds_log t ++ [(w, w')])).
Proof using Type.
  intros [[A1 A2 A3 A4 A5 A6] _] Hok Hk. pose proof Hk as (B1 & B2 & B3 & B4 & B5 & B6).
  split; [|split; [|split; [|split; [|split; [done|]]]]].
  - intros b [Hb _]. split; [by apply B1, A1|done].
  - intros c' k [Hu ->]. split; [|done]. apply B2, A2; [by intros []|done].
  - intros m [Hm Hw]. split; [by apply B3, A3|done].
  - intros m [Hm Hw]. split; [split; [by apply B4, A4|done]|].
    change (svc_file w' m = svc_file (ds_now t) m). rewrite <- (A5 m Hm Hw). by apply B4, A4.
  - intros Hl. apply Forall_app. split; [done|]. apply Forall_singleton.
    exists []. split; [by intros q Hq%elem_of_nil|]. by apply call_reads_effect.
Qed.

Lemma disturbed_keeps c t w w' script n p f :
  after_turn c t w → script_ok w' script → call_keeps cid n w w' → file_update p f w w' →
  mine p ∧ content p (fst <$> f) ∨ f = svc_file w p → svc_known t p →
  call_keeps cid n t (mkDisturbed w' script (ds_log t ++ [(w, w')])) ∧
  file_update p f t (mkDisturbed w' script (ds_log t ++ [(w, w')])).
Proof using Type.
  intros [[A1 A2 A3 A4 A5 A6] _] Hok Hk Hup Hp Hkn. pose proof Hk as [B1 B2 B3 B4 B5 B6]. split.
  - split; [| | | |done|].
    + intros b [Hb _]. split; [by apply B1, A1|done].
    + intros c' k [Hu ->]. split; [|done]. apply B2, A2; [by intros []|done].
    + intros m [Hm Hw]. split; [by apply B3, A3|done].
    + intros m [Hm Hw]. split; [by apply B4, A4|done].
    + intros Hl. apply Forall_app. split; [done|]. apply Forall_singleton. change (guarantee w w').
      destruct Hp as [[Hp Hc]|Hp].
      * exists [p]. split; [|by eapply call_keeps_effect]. intros q ->%list_elem_of_singleton. split; [done|].
        assert (Hkp : svc_known w p) by (apply A4, Hkn). split; [done|]. by rewrite (Hup p Hkp), decide_True.
      * exists []. split; [by intros q Hq%elem_of_nil|]. subst f. by eapply call_keeps_read_effect.
  - intros m [Hm Hw]. change (svc_file w' m = if decide (m = p) then f else svc_file (ds_now t) m).
    rewrite (Hup m (A4 m Hm)). case_decide; [done|by apply A5].
Qed.

Lemma disturbed_connect : connect_law (Disturbed W).
Proof using AfsLaws0 AfsUnwatched0 apart.
  intros t a Hr. destruct (after_turn_exists (CallGetPrimary a) t a Hr) as (w & Ht & Hw).
  destruct (after_turn_exists (CallHeartbeat a (mkHeartbeatRequest "client")) t a Hr) as (x & Hx & Hrx).
  destruct (law_connect w a Hw) as (Hne & Hd & (w1 & Hg & Hk1) & _).
  destruct (law_connect x a Hrx) as (_ & _ & _ & r & x1 & Hh & Hk2).
  destruct (at_result _ _ _ Ht _ _ Hg) as (sc & E & Hok). destruct (at_result _ _ _ Hx _ _ Hh) as (sc' & E' & Hok').
  split; [done|]. split; [done|]. split.
  - eexists. split; [exact E|by apply (disturbed_reads _ _ _ _ _ Ht)].
  - eexists r, _. split; [exact E'|by apply (disturbed_reads _ _ _ _ _ Hx)].
Qed.

Lemma disturbed_open : open_law (Disturbed W).
Proof using AfsLaws0 AfsUnwatched0 apart.
  intros t a c n p write data v Hus Hr Hu Hs Hk Hf. change (c = cid) in Hus. subst c.
  destruct (after_turn_exists (CallOpen a (mkOpenRequest p write cid (n + 1))) t a Hr) as (w & Ht & Hw).
  destruct (turn_file _ _ _ p Ht Hk) as [Hk1 Hf1]. rewrite Hf in Hf1.
  destruct (law_open w a cid n p write data v (any_user _) Hw (turn_unused _ _ _ _ Ht Hu) Hs Hk1 Hf1) as (id & w' & E & Hkp & Hup).
  destruct (at_result _ _ _ Ht _ _ E) as (sc & E' & Hok). eexists id, _. split; [exact E'|].
  apply (disturbed_keeps _ _ _ _ _ _ _ _ Ht Hok Hkp Hup); [by right|done].
Qed.

Lemma disturbed_open_missing : open_missing_law (Disturbed W).
Proof using AfsLaws0 AfsUnwatched0 apart.
  intros t a c n p write Hr [Hu ->] Hs Hk Hf.
  destruct (after_turn_exists (CallOpen a (mkOpenRequest p write cid (n + 1))) t a Hr) as (w & Ht & Hw).
  destruct (turn_file _ _ _ p Ht Hk) as [Hk1 Hf1]. rewrite Hf in Hf1.
  destruct (law_open_missing w a cid n p write Hw (turn_unused _ _ _ _ Ht (conj Hu eq_refl)) Hs Hk1 Hf1) as (w' & E & Hkr).
  destruct (at_result _ _ _ Ht _ _ E) as (sc & E' & Hok). eexists. split; [exact E'|].
  by apply (disturbed_reads _ _ _ _ _ Ht).
Qed.

Lemma disturbed_create : create_law (Disturbed W).
Proof using AfsLaws0 AfsUnwatched0 apart.
  intros t a c n p Hus Hco Hr Hu Hs Hn Hf. change (c = cid) in Hus. subst c.
  destruct (after_turn_exists (CallCreateFile a (mkCreateFileRequest p cid (n + 1))) t a Hr) as (w & Ht & Hw).
  assert (Hk : svc_known t p) by (split; [by apply law_name_known, Hn|by apply apart, Hn]).
  destruct (turn_file _ _ _ p Ht Hk) as [_ Hf1]. rewrite Hf in Hf1.
  destruct (law_create w a cid n p (any_user _) (any_content _ _) Hw (turn_unused _ _ _ _ Ht Hu) Hs (turn_name _ _ _ _ Ht Hn) Hf1) as (id & w' & E & Hkp & Hup).
  destruct (at_result _ _ _ Ht _ _ E) as (sc & E' & Hok). eexists id, _. split; [exact E'|].
  apply (disturbed_keeps _ _ _ _ _ _ _ _ Ht Hok Hkp Hup); [left; split; [apply Hn|exact Hco]|done].
Qed.

Lemma disturbed_delete : delete_law (Disturbed W).
Proof using AfsLaws0 AfsUnwatched0 apart.
  intros t a c n p Hus Hco Hr Hu Hs Hn. change (c = cid) in Hus. subst c.
  destruct (after_turn_exists (CallDeleteFile a (mkDeleteFileRequest p cid (n + 1))) t a Hr) as (w & Ht & Hw).
  assert (Hk : svc_known t p) by (split; [by apply law_name_known, Hn|by apply apart, Hn]).
  destruct (law_delete w a cid n p (any_user _) (any_content _ _) Hw (turn_unused _ _ _ _ Ht Hu) Hs (turn_name _ _ _ _ Ht Hn)) as (w' & E & Hkp & Hup).
  destruct (at_result _ _ _ Ht _ _ E) as (sc & E' & Hok). eexists. split; [exact E'|].
  apply (disturbed_keeps _ _ _ _ _ _ _ _ Ht Hok Hkp Hup); [left; split; [apply Hn|exact Hco]|done].
Qed.

Lemma disturbed_store : store_law (Disturbed W).
Proof using AfsLaws0 AfsUnwatched0 apart.
  intros t a c n p ch chs Hus Hco Hr Hu Hs Hn Hne. change (c = cid) in Hus. subst c.
  destruct (after_turn_exists (CallStoreFile a (store_chunks p cid (n + 1) (ch :: chs)) None) t a Hr) as (w & Ht & Hw).
  assert (Hk : svc_known t p) by (split; [by apply law_name_known, Hn|by apply apart, Hn]).
  destruct (law_store w a cid n p ch chs (any_user _) (any_content _ _) Hw (turn_unused _ _ _ _ Ht Hu) Hs (turn_name _ _ _ _ Ht Hn) Hne) as (v & w' & E & Hkp & Hup & Hv).
  destruct (at_result _ _ _ Ht _ _ E) as (sc & E' & Hok). eexists v, _. split; [exact E'|].
  apply and_assoc. split; [|by intros d v0 Hf; apply (Hv d); destruct (turn_file _ _ _ p Ht Hk) as [_ ->]].
  apply (disturbed_keeps _ _ _ _ _ _ _ _ Ht Hok Hkp Hup); [left; split; [apply Hn|exact Hco]|done].
Qed.

Lemma disturbed_store_empty : store_empty_law (Disturbed W).
Proof using AfsLaws0.
  intros t a resp t'. change (svc_StoreFile a [] None t) with (disturbed (CallStoreFile a [] None) t).
  unfold disturbed. destruct (turn _ t) as [w script]. cbn [perform].
  destruct (svc_StoreFile a [] None w) as [r w'] eqn:E. intros [= -> _]. by eapply law_store_empty.
Qed.

Lemma disturbed_fetch : fetch_law (Disturbed W).
Proof using AfsLaws0 AfsUnwatched0 apart.
  intros t a p data v Hr Hk Hf.
  destruct (after_turn_exists (CallFetchFile a (mkFetchFileRequest p)) t a Hr) as (w & Ht & Hw).
  destruct (turn_file _ _ _ p Ht Hk) as [Hk1 Hf1]. rewrite Hf in Hf1.
  destruct (law_fetch w a p data v Hw Hk1 Hf1) as (ms & w' & E & Hkr & Hms).
  destruct (at_result _ _ _ Ht _ _ E) as (sc & E' & Hok). eexists ms, _. split; [exact E'|].
  split; [by apply (disturbed_reads _ _ _ _ _ Ht)|exact Hms].
Qed.

Lemma disturbed_testauth : testauth_law (Disturbed W).
Proof using AfsLaws0 AfsUnwatched0 apart.
  intros t a p data v k Hr Hk Hf.
  destruct (after_turn_exists (CallTestAuth a (mkTestAuthRequest p k)) t a Hr) as (w & Ht & Hw).
  destruct (turn_file _ _ _ p Ht Hk) as [Hk1 Hf1]. rewrite Hf in Hf1.
  destruct (law_testauth w a p data v k Hw Hk1 Hf1) as (w' & E & Hkr).
  destruct (at_result _ _ _ Ht _ _ E) as (sc & E' & Hok). eexists. split; [exact E'|].
  by apply (disturbed_reads _ _ _ _ _ Ht).
Qed.

Lemma disturbed_close : close_law (Disturbed W).
Proof using AfsLaws0 AfsUnwatched0 apart.
  intros t a id Hr. destruct (after_turn_exists (CallCloseFile a (mkCloseFileRequest id)) t a Hr) as (w & Ht & Hw).
  pose proof (law_close w a id Hw) as Hk. destruct (svc_CloseFile a _ w) as [r w'] eqn:E.
  destruct (at_result _ _ _ Ht _ _ E) as (sc & E' & Hok).
  change (svc_CloseFile a (mkCloseFileRequest id) t) with (disturbed (CallCloseFile a (mkCloseFileRequest id)) t).
  rewrite E'. by apply (disturbed_reads _ _ _ _ _ Ht).
Qed.

#[local] Instance disturbed_laws : AfsLaws (Disturbed W).
Proof using AfsLaws0 AfsUnwatched0 apart.
  split.
  - intros t m [Hm Hw]. split; [by apply law_name_known|by apply apart].
  - intros t c k k' Hk [Hu Hid]. split; [by eapply law_unused_mono|done].
  - exact disturbed_connect.
  - exact disturbed_open.
  - exact disturbed_open_missing.
  - exact disturbed_create.
  - exact disturbed_delete.
  - exact disturbed_store.
  - exact disturbed_store_empty.
  - exact disturbed_fetch.
  - exact disturbed_testauth.
  - exact disturbed_close.
Qed.

#[local] Instance disturbed_quiet : QuietNet (Disturbed W).
Proof using QuietNet0.
  intros url a t Hr. destruct (after_turn_exists (CallPost url) t a Hr) as (w & Ht & Hw).
  pose proof (quiet_post url a w Hw) as Hk. destruct (net_Post url w) as [r w'] eqn:E.
  destruct (at_result _ _ _ Ht _ _ E) as (sc & E' & Hok).
  change (net_Post url t) with (disturbed (CallPost url) t). rewrite E'. by apply (disturbed_reads _ _ _ _ _ Ht).
Qed.

(** ** From the laws to safety *)

(** What the log holds stays in it. *)
Lemma run_log {A} (m : program A) (t : Disturbed W) : ∃ l, ds_log (run m t).2 = ds_log t ++ l.
Proof using Type.
  revert t. induction m as [a|c k IH|k IH|a k IH]; intros t; cbn [run]; [exists []; by rewrite app_nil_r| |apply IH..].
  rewrite perform_disturbed. unfold disturbed. destruct (turn c t) as [w script]. destruct (perform c w) as [r w'].
  destruct (IH r (mkDisturbed w' script (ds_log t ++ [(w, w')]))) as [l E]. exists ((w, w') :: l).
  rewrite E. cbn [ds_log]. by rewrite <- app_assoc.
Qed.

(** Begun at [w] and with its next call in [w'], the program keeps its
    guarantee on every script within the rely. *)
Definition runs_well {A} (post : A → W → Prop) (m : program A) (w w' : W) (log : list (W * W)) : Prop :=
  ∀ script, next_world (mkDisturbed w script log) = w' → script_ok w script →
    let '(a, t) := run m (mkDisturbed w script log) in
    Forall (λ x, guarantee x.1 x.2) (ds_log t) ∧ ∀ w2, rely (ds_now t) w2 → post a w2.

Lemma runs_well_safe {A} (post : A → W → Prop) m w w' log : rely w w' → runs_well post m w w' log → safe_now post m w'.
Proof using Type.
  revert w w' log. induction m as [a|c k IH|k IH|a k IH]; intros w w' log Hrw Hm; cbn [safe_now].
  - destruct (Hm [(w', CallSleep)]) as [_ Hp]; [done|by split|]. by apply Hp.
  - destruct (perform c w') as [r w1] eqn:E.
    assert (Hstep : ∀ script, run (Call c k) (mkDisturbed w ((w', c) :: script) log) =
      run (k r) (mkDisturbed w1 script (log ++ [(w', w1)]))).
    { intros script. cbn [run]. rewrite perform_disturbed. unfold disturbed, turn. cbn [ds_script ds_now ds_log].
      by rewrite decide_True, E. }
    assert (Hrest : ∀ script, script_ok w1 script →
      let '(a, t) := run (k r) (mkDisturbed w1 script (log ++ [(w', w1)])) in
      Forall (λ x, guarantee x.1 x.2) (ds_log t) ∧ ∀ w2, rely (ds_now t) w2 → post a w2).
    { intros script Hs. rewrite <- Hstep. apply Hm; [done|]. split; [done|]. by rewrite E. }
    split.
    + specialize (Hrest [] I). destruct (run_log (k r) (mkDisturbed w1 [] (log ++ [(w', w1)]))) as [l El].
      destruct (run (k r) _) as [a t]. cbn [snd ds_log] in El. rewrite El, !Forall_app in Hrest.
      destruct Hrest as [[[_ Hg] _] _]. exact (proj1 (Forall_singleton _ _) Hg).
    + intros w2 H2. apply (IH r w1 w2 (log ++ [(w', w1)]) H2). intros script _ Hs. by apply Hrest.
  - apply (IH _ w w' log Hrw). intros script Hnext Hs. specialize (Hm script Hnext Hs). cbn [run] in Hm.
    change (time_Unix (mkDisturbed w script log)) with (time_Unix (next_world (mkDisturbed w script log))) in Hm.
    by rewrite Hnext in Hm.
  - apply (IH _ w w' log Hrw). intros script Hnext Hs. exact (Hm script Hnext Hs).
Qed.

(** What the laws show of a program in every world that they describe makes it
    safe among others: the result holds and the history is kept. *)
Lemma safe_program {A} (post : A → W → Prop) (m : program A) w :
  (∀ t, ds_now t = w → script_ok w (ds_script t) → ds_log t = [] →
     let '(a, t') := run m t in svc_past t' ∧ ∀ w2, rely (ds_now t') w2 → post a w2) →
  safe post m w.
Proof using Type.
  intros Hm w' Hw. apply (runs_well_safe post m w w' [] Hw). intros script _ Hs.
  specialize (Hm (mkDisturbed w script []) eq_refl Hs eq_refl). destruct (run m _) as [a t].
  destruct Hm as [Hl Hp]. by split.
Qed.

End Rely.
