(* ===== verification/Shared.v ===== *)
(** * A service that other clients use

    [Shared W] is a file service on which other clients act between any two
    calls: they open files and replace, store and delete files of their own.
    The laws of AfsSpec.v hold for what the others do not write, so that all
    that is proved from the laws holds in their presence. *)

From S2P Require Import Prelude GoLib Disk AfsProto Server Cache Client AfsSpec Snapshot.

Inductive other_op :=
  | OtherOpen (p : string) (write : bool)
  | OtherDelete (p : string)
  | OtherReplace (p : string)                              (* deletes and creates the file *)
  | OtherStore (p : string) (c : bytes) (cs : list bytes).

Record Shared (W : Type) := mkShared {
  sh_world : W;
  sh_server : string;                              (* the server that the others call *)
  sh_seqs : string → Z;                            (* their sequence numbers *)
  sh_script : list (list (string * other_op));     (* what they do before each of our next calls *)
}.
Arguments mkShared {W} _ _ _ _.
Arguments sh_world {W} _.
Arguments sh_server {W} _.
Arguments sh_seqs {W} _.
Arguments sh_script {W} _.

Definition set_world {W} (w : W) (t : Shared W) : Shared W := mkShared w (sh_server t) (sh_seqs t) (sh_script t).

Section Services.
  Context {W : Type} `{!AfsService W}.

(** The number of calls of an operation. *)
Definition op_calls (o : other_op) : Z := match o with OtherReplace _ => 2 | _ => 1 end.

Definition other_act (a cid : string) (n : Z) (o : other_op) (w : W) : W :=
  match o with
  | OtherOpen p write => (svc_Open a (mkOpenRequest p write cid (n + 1)) w).2
  | OtherDelete p => (svc_DeleteFile a (mkDeleteFileRequest p cid (n + 1)) w).2
  | OtherReplace p =>
      (svc_CreateFile a (mkCreateFileRequest p cid (n + 2)) (svc_DeleteFile a (mkDeleteFileRequest p cid (n + 1)) w).2).2
  | OtherStore p c cs => (svc_StoreFile a (store_chunks p cid (n + 1) (c :: cs)) None w).2
  end.

Fixpoint others_act (a : string) (os : list (string * other_op)) (seqs : string → Z) (w : W) : (string → Z) * W :=
  match os with
  | [] => (seqs, w)
  | (cid, o) :: os =>
      others_act a os (λ c, if decide (c = cid) then (seqs cid + op_calls o)%Z else seqs c)
        (other_act a cid (seqs cid) o w)
  end.

(** The others act once. *)
Definition others_turn (t : Shared W) : Shared W :=
  match sh_script t with
  | [] => t
  | os :: script =>
      let '(seqs, w) := others_act (sh_server t) os (sh_seqs t) (sh_world t) in mkShared w (sh_server t) seqs script
  end.

(** Our call comes after them. *)
Definition shared {A} (f : W → A * W) (t : Shared W) : A * Shared W :=
  let t := others_turn t in
  let '(r, w) := f (sh_world t) in (r, set_world w t).

#[export] Instance shared_afs : AfsService (Shared W) := {
  svc_GetPrimary a := shared (svc_GetPrimary a);
  svc_Heartbeat a req := shared (svc_Heartbeat a req);
  svc_Open a req := shared (svc_Open a req);
  svc_TestAuth a req := shared (svc_TestAuth a req);
  svc_FetchFile a req := shared (svc_FetchFile a req);
  svc_StoreFile a reqs err := shared (svc_StoreFile a reqs err);
  svc_CreateFile a req := shared (svc_CreateFile a req);
  svc_DeleteFile a req := shared (svc_DeleteFile a req);
  svc_CloseFile a req := shared (svc_CloseFile a req);
  svc_dial a := svc_dial (W := W) a;
  svc_sleep t := set_world (svc_sleep (sh_world t)) t;
}.

#[export] Instance shared_net `{!SnapshotNet W} : SnapshotNet (Shared W) := {
  net_Post url := shared (net_Post url);
  time_Unix t := time_Unix (sh_world t);
}.

End Services.

(** ** The laws in the presence of others *)

Section Laws.
  Context {W : Type} `{!AfsService W, !AfsView W, !AfsLaws W, !AfsUnwatched W}.
  (* the ids of the others, and the files they write *)
  Context (ids writes : string → Prop).

(** The others keep to their files. *)
Definition op_fine (w : W) (o : other_op) : Prop :=
  match o with
  | OtherOpen p _ => svc_known w p
  | OtherDelete p | OtherReplace p => writes p ∧ svc_name w p
  | OtherStore p c cs => writes p ∧ svc_name w p ∧ concat (c :: cs) ≠ []   (* [Close] fails on an empty file *)
  end.

(** They can do what they are going to do. *)
Record able (w : W) (a : string) (seqs : string → Z) (os : list (string * other_op)) : Prop := {
  ab_ready : svc_ready w a;
  ab_ops : Forall (λ x, ids x.1 ∧ op_fine w x.2) os;
  ab_unused c : ids c → svc_unused w c (seqs c);
  ab_seqs c : (0 ≤ seqs c ∧ seqs c + 2 * Z.of_nat (length os) < 2 ^ 63 - 1)%Z;
}.

Lemma able_mono w w' a seqs os :
  (∀ b, svc_ready w b → svc_ready w' b) → (∀ c k, ids c → svc_unused w c k → svc_unused w' c k) →
  (∀ m, svc_name w m → svc_name w' m) → (∀ m, svc_known w m → svc_known w' m) →
  able w a seqs os → able w' a seqs os.
Proof.
  intros Hr Hu Hn Hk [H1 H2 H3 H4]. split; [auto| |auto|done].
  eapply Forall_impl; [exact H2|]. intros [c o] [Hc Ho]. split; [done|].
  destruct o; simpl in *; [by apply Hk|naive_solver..].
Qed.

(** One operation of another client. *)
Lemma other_act_keeps a cid n o w :
  svc_ready w a → svc_unused w cid n → (0 ≤ n ∧ n + 2 < 2 ^ 63 - 1)%Z → ids cid → op_fine w o →
  let w' := other_act a cid n o w in
  others_keep ids writes w w' ∧ svc_unused w' cid (n + op_calls o) ∧
  ∀ c k, c ≠ cid → svc_unused w c k → svc_unused w' c k.
Proof using AfsLaws0 AfsUnwatched0.
  intros Hr Hu Hn Hid Ho. assert (Hs : seq_ok n) by (split; lia).
  assert (Hone : ∀ p f w', writes p ∨ f = svc_file w p → call_keeps cid n w w' → file_update p f w w' →
    others_keep ids writes w w' ∧ svc_unused w' cid (n + 1) ∧ ∀ c k, c ≠ cid → svc_unused w c k → svc_unused w' c k).
  { intros p f w' Hp Hk Hup. split; [by eapply call_others_keep|]. split.
    - pose proof (keeps_unused _ _ _ _ Hk _ _ Hu) as Hu'. rewrite decide_True in Hu' by done.
      by rewrite Z.max_r in Hu' by lia.
    - intros c k Hc Hck. apply (keeps_unused _ _ _ _ Hk) in Hck. by rewrite decide_False in Hck. }
  destruct o as [p write|p|p|p c cs]; simpl in Ho |- *.
  - destruct (svc_file w p) as [[data v]|] eqn:Hf.
    + destruct (law_open w a cid n p write data v (any_user _) Hr Hu Hs Ho Hf) as (id & w' & -> & Hk & Hup).
      by apply (Hone p (Some (data, v))); [right|..].
    + destruct (law_open_missing w a cid n p write Hr Hu Hs Ho Hf) as (w' & -> & H1 & H2 & H3 & H4 & H5 & H6).
      simpl. split; [|split; [|auto]].
      * split; [done|auto|done|by intros m Hm; apply H4|by intros m Hm _; apply H4|done].
      * apply H2. eapply law_unused_mono; [|exact Hu]. lia.
  - destruct (law_delete w a cid n p (any_user _) (any_content _ _) Hr Hu Hs (proj2 Ho)) as (w' & -> & Hk & Hup).
    apply (Hone p None); [by left; apply Ho|done|done].
  - destruct (law_delete w a cid n p (any_user _) (any_content _ _) Hr Hu Hs (proj2 Ho)) as (w1 & -> & Hk & Hup).
    destruct (Hone p None w1 (or_introl (proj1 Ho)) Hk Hup) as (K1 & U1 & C1). simpl.
    destruct (law_create w1 a cid (n + 1)%Z p (any_user _) (any_content _ _)) as (id & w2 & E & Hk2 & Hup2);
      [by apply K1|done|split; lia|by apply K1, Ho| |].
    { rewrite (Hup p) by apply law_name_known, Ho. by rewrite decide_True. }
    replace (n + 1 + 1)%Z with (n + 2)%Z in E by lia. rewrite E. simpl. split; [|split].
    + etrans; [exact K1|]. eapply call_others_keep; [exact Hid|left; apply Ho|exact Hk2|exact Hup2].
    + pose proof (keeps_unused _ _ _ _ Hk2 _ _ U1) as Hu'. rewrite decide_True in Hu' by done.
      rewrite Z.max_r in Hu' by lia. by replace (n + 2)%Z with (n + 1 + 1)%Z by lia.
    + intros c k Hc Hck. apply (C1 c k Hc) in Hck. apply (keeps_unused _ _ _ _ Hk2) in Hck. by rewrite decide_False in Hck.
  - destruct (law_store w a cid n p c cs (any_user _) (any_content _ _) Hr Hu Hs (proj1 (proj2 Ho)) (proj2 (proj2 Ho))) as (v & w' & -> & Hk & Hup & _).
    apply (Hone p (Some (concat (c :: cs), v))); [by left; apply Ho|done|done].
Qed.

Lemma others_act_keeps a os rest seqs w :
  able w a seqs (os ++ rest) →
  let '(seqs', w') := others_act a os seqs w in others_keep ids writes w w' ∧ able w' a seqs' rest.
Proof using AfsLaws0 AfsUnwatched0.
  revert seqs w. induction os as [|[cid o] os IH]; intros seqs w Hab; simpl; [done|].
  destruct Hab as [Hr Hops Hu Hs]. apply Forall_cons in Hops as [[Hid Ho] Hops]. simpl in Hid, Ho.
  destruct (other_act_keeps a cid (seqs cid) o w) as (Hk & Hu1 & Hoth); [done|by apply Hu| |done|done|].
  { destruct (Hs cid) as [Hs0 Hs1]. simpl in Hs1. lia. }
  set (w1 := other_act a cid (seqs cid) o w) in *.
  specialize (IH (λ c, if decide (c = cid) then (seqs cid + op_calls o)%Z else seqs c) w1).
  destruct (others_act _ _ _ w1) as [seqs' w']. destruct IH as [Hk' Hab'].
  - split.
    + by apply Hk.
    + eapply Forall_impl; [exact Hops|]. intros [c o'] [Hc Ho']. split; [done|].
      destruct Hk as [_ _ Hkn Hkk _ _]. destruct o'; simpl in *; [by apply Hkk|naive_solver..].
    + intros c Hc. case_decide as Ec; [by subst|]. by apply Hoth, Hu.
    + intros c. pose proof (Hs c) as Hc. pose proof (Hs cid) as Hc0. simpl in Hc, Hc0. case_decide; destruct o; simpl; lia.
  - split; [by etrans|done].
Qed.

Definition others_ok (t : Shared W) : Prop :=
  able (sh_world t) (sh_server t) (sh_seqs t) (concat (sh_script t)).

Lemma others_turn_keeps t :
  others_ok t → others_keep ids writes (sh_world t) (sh_world (others_turn t)) ∧ others_ok (others_turn t).
Proof using AfsLaws0 AfsUnwatched0.
  unfold others_ok, others_turn. destruct t as [w a seqs [|os script]]; simpl; [done|]. intros Hab.
  pose proof (others_act_keeps a os (concat script) seqs w Hab) as H. by destruct (others_act a os seqs w) as [seqs' w'].
Qed.

(** What is ours: the files that the others do not write. *)
#[local] Instance shared_view : AfsView (Shared W) := {
  svc_ready t b := svc_ready (sh_world t) b ∧ others_ok t;
  svc_unused t c k := svc_unused (sh_world t) c k ∧ ¬ ids c;
  svc_name t m := svc_name (sh_world t) m ∧ ¬ writes m;
  svc_known t m := svc_known (sh_world t) m ∧ ¬ writes m;
  svc_file t := svc_file (sh_world t);
  svc_side := unit;
  svc_rest _ := tt;
  svc_past _ := True;
  svc_user _ := True;
  svc_content _ _ := True;
}.

#[local] Instance shared_unwatched : AfsUnwatched (Shared W).
Proof using Type. done. Qed.

(** Our call after theirs. *)
Lemma shared_eq {A} (f : W → A * W) (t : Shared W) r w :
  f (sh_world (others_turn t)) = (r, w) → shared f t = (r, set_world w (others_turn t)).
Proof using Type. unfold shared. by intros ->. Qed.

Lemma others_ok_set (t : Shared W) w :
  (∀ b, svc_ready (sh_world t) b → svc_ready w b) →
  (∀ c k, ids c → svc_unused (sh_world t) c k → svc_unused w c k) →
  (∀ m, svc_name (sh_world t) m → svc_name w m) → (∀ m, svc_known (sh_world t) m → svc_known w m) →
  others_ok t → others_ok (set_world w t).
Proof using Type. unfold others_ok. simpl. apply able_mono. Qed.

Lemma call_reads_shared (t : Shared W) w :
  others_ok t → call_reads (sh_world (others_turn t)) w → call_reads t (set_world w (others_turn t)).
Proof using AfsLaws0 AfsUnwatched0.
  intros Hok (B1 & B2 & B3 & B4 & _ & _). destruct (others_turn_keeps t Hok) as [[A1 A2 A3 A4 A5 _] Hok'].
  split; [|split; [|split; [|split; [|done]]]].
  - intros b [Hb _]. split; [by apply B1, A1|]. apply others_ok_set; [done|auto|done|by intros m Hm; apply B4|done].
  - intros c k [Hc Hid]. split; [by apply B2, A2|done].
  - intros m [Hm Hw]. split; [by apply B3, A3|done].
  - intros m [Hm Hw]. split; [split; [by apply B4, A4|done]|].
    change (svc_file w m = svc_file (sh_world t) m). rewrite <- (A5 m Hm Hw). by apply B4, A4.
Qed.

Lemma call_keeps_shared cid n (t : Shared W) w :
  ¬ ids cid → others_ok t → call_keeps cid n (sh_world (others_turn t)) w →
  call_keeps cid n t (set_world w (others_turn t)).
Proof using AfsLaws0 AfsUnwatched0.
  intros Hcid Hok [B1 B2 B3 B4 _ _]. destruct (others_turn_keeps t Hok) as [[A1 A2 A3 A4 A5 _] Hok'].
  split; [| | | |done|done].
  - intros b [Hb _]. split; [by apply B1, A1|]. apply others_ok_set; [done| |done|done|done].
    intros c k Hc Hk. apply B2 in Hk. by rewrite decide_False in Hk by (by intros ->).
  - intros c k [Hc Hid]. split; [by apply B2, A2|done].
  - intros m [Hm Hw]. split; [by apply B3, A3|done].
  - intros m [Hm Hw]. split; [by apply B4, A4|done].
Qed.

Lemma file_update_shared p f (t : Shared W) w :
  others_ok t → file_update p f (sh_world (others_turn t)) w → file_update p f t (set_world w (others_turn t)).
Proof using AfsLaws0 AfsUnwatched0.
  intros Hok Hu m [Hm Hw]. destruct (others_turn_keeps t Hok) as [[A1 A2 A3 A4 A5 _] _].
  change (svc_file w m = if decide (m = p) then f else svc_file (sh_world t) m). rewrite (Hu m (A4 m Hm)).
  case_decide; [done|by apply A5].
Qed.

(** What we know of the service after their turn. *)
Lemma shared_ready (t : Shared W) a :
  svc_ready t a → others_ok t ∧ svc_ready (sh_world (others_turn t)) a.
Proof using AfsLaws0 AfsUnwatched0. intros [Hr Hok]. split; [done|]. by apply (others_turn_keeps t Hok). Qed.

Lemma shared_mine (t : Shared W) cid n :
  others_ok t → svc_unused t cid n → ¬ ids cid ∧ svc_unused (sh_world (others_turn t)) cid n.
Proof using AfsLaws0 AfsUnwatched0. intros Hok [Hu Hid]. split; [done|]. by apply (others_turn_keeps t Hok). Qed.

Lemma shared_name (t : Shared W) m :
  others_ok t → svc_name t m → svc_name (sh_world (others_turn t)) m.
Proof using AfsLaws0 AfsUnwatched0. intros Hok [Hm _]. by apply (others_turn_keeps t Hok). Qed.

Lemma shared_file (t : Shared W) m :
  others_ok t → svc_known t m →
  svc_known (sh_world (others_turn t)) m ∧ svc_file (sh_world (others_turn t)) m = svc_file t m.
Proof using AfsLaws0 AfsUnwatched0.
  intros Hok [Hm Hw]. destruct (others_turn_keeps t Hok) as [Hk _]. split; by apply Hk.
Qed.

Lemma shared_connect : connect_law (Shared W).
Proof using AfsLaws0 AfsUnwatched0.
  intros t a Hr. destruct (shared_ready t a Hr) as [Hok Hr1].
  destruct (law_connect _ a Hr1) as (Hne & Hd & (w1 & Hg & Hk1) & r & w' & Hh & Hk).
  split; [done|]. split; [done|]. split.
  - eexists. split; [by apply shared_eq|by apply call_reads_shared].
  - eexists r, _. split; [by apply shared_eq|by apply call_reads_shared].
Qed.

Lemma shared_open : open_law (Shared W).
Proof using AfsLaws0 AfsUnwatched0.
  intros t a cid n p write data v _ Hr Hu Hs Hk Hf. destruct (shared_ready t a Hr) as [Hok Hr1].
  destruct (shared_mine t cid n Hok Hu) as [Hid Hu1]. destruct (shared_file t p Hok Hk) as [Hk1 Hf1]. rewrite Hf in Hf1.
  destruct (law_open _ a cid n p write data v (any_user _) Hr1 Hu1 Hs Hk1 Hf1) as (id & w' & E & Hkp & Hup).
  eexists id, _. split; [by apply shared_eq|]. split; [by apply call_keeps_shared|by apply file_update_shared].
Qed.

Lemma shared_open_missing : open_missing_law (Shared W).
Proof using AfsLaws0 AfsUnwatched0.
  intros t a cid n p write Hr Hu Hs Hk Hf. destruct (shared_ready t a Hr) as [Hok Hr1].
  destruct (shared_mine t cid n Hok Hu) as [Hid Hu1]. destruct (shared_file t p Hok Hk) as [Hk1 Hf1]. rewrite Hf in Hf1.
  destruct (law_open_missing _ a cid n p write Hr1 Hu1 Hs Hk1 Hf1) as (w' & E & Hkr).
  eexists. split; [by apply shared_eq|by apply call_reads_shared].
Qed.

Lemma shared_create : create_law (Shared W).
Proof using AfsLaws0 AfsUnwatched0.
  intros t a cid n p _ _ Hr Hu Hs Hn Hf. destruct (shared_ready t a Hr) as [Hok Hr1].
  destruct (shared_mine t cid n Hok Hu) as [Hid Hu1]. pose proof (shared_name t p Hok Hn) as Hn1.
  destruct (shared_file t p Hok) as [_ Hf1]; [by split; [apply law_name_known|]; apply Hn|]. rewrite Hf in Hf1.
  destruct (law_create _ a cid n p (any_user _) (any_content _ _) Hr1 Hu1 Hs Hn1 Hf1) as (id & w' & E & Hkp & Hup).
  eexists id, _. split; [by apply shared_eq|]. split; [by apply call_keeps_shared|by apply file_update_shared].
Qed.

Lemma shared_delete : delete_law (Shared W).
Proof using AfsLaws0 AfsUnwatched0.
  intros t a cid n p _ _ Hr Hu Hs Hn. destruct (shared_ready t a Hr) as [Hok Hr1].
  destruct (shared_mine t cid n Hok Hu) as [Hid Hu1]. pose proof (shared_name t p Hok Hn) as Hn1.
  destruct (law_delete _ a cid n p (any_user _) (any_content _ _) Hr1 Hu1 Hs Hn1) as (w' & E & Hkp & Hup).
  eexists. split; [by apply shared_eq|]. split; [by apply call_keeps_shared|by apply file_update_shared].
Qed.

Lemma shared_store : store_law (Shared W).
Proof using AfsLaws0 AfsUnwatched0.
  intros t a cid n p c cs _ _ Hr Hu Hs Hn Hne. destruct (shared_ready t a Hr) as [Hok Hr1].
  destruct (shared_mine t cid n Hok Hu) as [Hid Hu1]. pose proof (shared_name t p Hok Hn) as Hn1.
  destruct (law_store _ a cid n p c cs (any_user _) (any_content _ _) Hr1 Hu1 Hs Hn1 Hne) as (v & w' & E & Hkp & Hup & Hv).
  eexists v, _. split; [by apply shared_eq|]. split; [by apply call_keeps_shared|split; [by apply file_update_shared|]].
  intros d v0 Hf. apply (Hv d). destruct (shared_file t p Hok) as [_ ->]; [by split; [apply law_name_known|]; apply Hn|exact Hf].
Qed.

Lemma shared_store_empty : store_empty_law (Shared W).
Proof using AfsLaws0.
  intros t a resp t'. change (svc_StoreFile a [] None t) with (shared (svc_StoreFile a [] None) t). unfold shared.
  destruct (svc_StoreFile a [] None _) as [r w'] eqn:E. intros [= -> _]. by eapply law_store_empty.
Qed.

Lemma shared_fetch : fetch_law (Shared W).
Proof using AfsLaws0 AfsUnwatched0.
  intros t a p data v Hr Hk Hf. destruct (shared_ready t a Hr) as [Hok Hr1].
  destruct (shared_file t p Hok Hk) as [Hk1 Hf1]. rewrite Hf in Hf1.
  destruct (law_fetch _ a p data v Hr1 Hk1 Hf1) as (ms & w' & E & Hkr & Hms).
  eexists ms, _. split; [by apply shared_eq|]. split; [by apply call_reads_shared|exact Hms].
Qed.

Lemma shared_testauth : testauth_law (Shared W).
Proof using AfsLaws0 AfsUnwatched0.
  intros t a p data v k Hr Hk Hf. destruct (shared_ready t a Hr) as [Hok Hr1].
  destruct (shared_file t p Hok Hk) as [Hk1 Hf1]. rewrite Hf in Hf1.
  destruct (law_testauth _ a p data v k Hr1 Hk1 Hf1) as (w' & E & Hkr).
  eexists. split; [by apply shared_eq|by apply call_reads_shared].
Qed.

Lemma shared_close : close_law (Shared W).
Proof using AfsLaws0 AfsUnwatched0.
  intros t a id Hr. destruct (shared_ready t a Hr) as [Hok Hr1]. pose proof (law_close _ a id Hr1) as Hk.
  change (svc_CloseFile a (mkCloseFileRequest id) t) with (shared (svc_CloseFile a (mkCloseFileRequest id)) t).
  unfold shared. destruct (svc_CloseFile a _ (sh_world (others_turn t))) as [r w']. by apply call_reads_shared.
Qed.

#[local] Instance shared_laws : AfsLaws (Shared W).
Proof using AfsLaws0 AfsUnwatched0.
  split.
  - intros t m [Hm Hw]. split; [by apply law_name_known|done].
  - intros t cid k k' Hk [Hu Hid]. split; [by eapply law_unused_mono|done].
  - exact shared_connect.
  - exact shared_open.
  - exact shared_open_missing.
  - exact shared_create.
  - exact shared_delete.
  - exact shared_store.
  - exact shared_store_empty.
  - exact shared_fetch.
  - exact shared_testauth.
  - exact shared_close.
Qed.

End Laws.
