(* ===== verification/SnapshotProps.v ===== *)
(** * Properties of the snapshots *)

From S2P Require Import Prelude GoLib GoText GoPath Json JsonCodec Disk AfsProto Server Handler Cluster SyncSpec Cache Client AfsSpec AfsWorld SnapshotIO Snapshot ClientProps.

(** ** Sets of strings and primes *)

Lemma SetContains_spec l s : SetContains l s = bool_decide (s ∈ l).
Proof.
  induction l as [|v l IH]; simpl; [done|]. rewrite IH.
  destruct (decide (v = s)) as [->|Hv]; [rewrite bool_decide_true by set_solver; done|].
  apply bool_decide_ext. set_solver.
Qed.

Lemma BuildSeenSet_lookup ps p :
  BuildSeenSet ps !! p = if decide (p ∈ ps) then Some true else None.
Proof.
  unfold BuildSeenSet. induction ps as [|q ps IH] using rev_ind; [done|]. rewrite foldl_app. simpl.
  rewrite lookup_insert, IH. repeat case_decide; set_solver.
Qed.

(** ** What was saved is loaded *)

Section RoundTrip.
  Context {W : Type} `{!AfsService W, !AfsView W, !AfsLaws W, !AfsUnwatched W, !SnapshotNet W}.

Lemma saved_is_loaded {A} (c : codec A) P (x : A) name c1 c2 (w : W) :
  codec_ok c P → P x →
  client_ok c1 w → client_ok c2 w → clientId c1 ≠ clientId c2 → svc_name w name →
  local_free c1 name → local_free c2 name → cached (cache c2) !! name = None →
  (reqSeq c1 + 3 < 2 ^ 63 - 1)%Z → seq_ok (reqSeq c2 + 1) →
  ∃ c1' w1 c2' w2 data, writeToAFS no_faults name (Marshal c x) c1 w = (None, c1', w1) ∧
    readFromAFS no_faults name c2 w1 = Ret (Ok data, c2', w2) ∧ Unmarshal c data = Ok x.
Proof.
  intros Hc Hx H1 H2 Hid Hn Hl1 Hl2 Hca Hs1 Hs2.
  destruct (writeToAFS_ok c1 w name (Marshal c x) H1 Hn (may_write_any _ _) Hl1 Hs1) as
    (v & c1' & w1 & E1 & _ & _ & Hf & Heff & _); [by eapply Marshal_ne|].
  assert (Hok2 : client_ok c2 w1) by (eapply client_ok_effect; [exact Heff|congruence|done]).
  destruct (readFromAFS_ok c2 w1 name (Marshal c x) v Hok2
    (eff_known _ _ _ _ Heff name (law_name_known w name Hn)) Hf Hl2) as (c2' & w2 & E2 & _);
    [by intros e; rewrite Hca|done|by eapply Marshal_ne|].
  exists c1', w1, c2', w2, (Marshal c x). split; [done|]. split; [done|]. by eapply Unmarshal_Marshal.
Qed.

(** C24: a coordinator snapshot that one coordinator saved is what the next one
    loads: every field comes back, over any file service that keeps the laws. *)
Theorem coord_snapshot_roundtrip c1 c2 (w : W) snap :
  coord_snap_ok snap →
  client_ok c1 w → client_ok c2 w → clientId c1 ≠ clientId c2 → svc_name w CoordSnapshotFile →
  local_free c1 CoordSnapshotFile → local_free c2 CoordSnapshotFile →
  cached (cache c2) !! CoordSnapshotFile = None →
  (reqSeq c1 + 3 < 2 ^ 63 - 1)%Z → seq_ok (reqSeq c2 + 1) →
  ∃ c1' w1 c2' w2, SaveCoordSnapshot no_faults c1 snap w = (None, c1', w1) ∧
    LoadCoordSnapshot no_faults c2 w1 = Ret (Ok (Some snap), c2', w2).
Proof.
  intros Hsn H1 H2 Hid Hn Hl1 Hl2 Hca Hs1 Hs2.
  destruct (saved_is_loaded _ _ _ _ c1 c2 w CoordSnapshot_codec_ok Hsn H1 H2 Hid Hn Hl1 Hl2 Hca Hs1 Hs2)
    as (c1' & w1 & c2' & w2 & data & E1 & E2 & Ed).
  exists c1', w1, c2', w2. split; [done|]. unfold LoadCoordSnapshot. rewrite E2. go_step. by rewrite Ed.
Qed.

(** the same for the snapshot a worker saves under its id. *)
Theorem worker_snapshot_roundtrip c1 c2 (w : W) snap :
  worker_snap_ok snap →
  let name := WorkerSnapshotFile (ws_WorkerID snap) in
  client_ok c1 w → client_ok c2 w → clientId c1 ≠ clientId c2 → svc_name w name →
  local_free c1 name → local_free c2 name → cached (cache c2) !! name = None →
  (reqSeq c1 + 3 < 2 ^ 63 - 1)%Z → seq_ok (reqSeq c2 + 1) →
  ∃ c1' w1 c2' w2, SaveWorkerSnapshot no_faults c1 snap w = (None, c1', w1) ∧
    LoadWorkerSnapshot no_faults c2 (ws_WorkerID snap) w1 = Ret (Ok (Some snap), c2', w2).
Proof.
  intros Hsn name H1 H2 Hid Hn Hl1 Hl2 Hca Hs1 Hs2.
  destruct (saved_is_loaded _ _ _ _ c1 c2 w WorkerSnapshot_codec_ok Hsn H1 H2 Hid Hn Hl1 Hl2 Hca Hs1 Hs2)
    as (c1' & w1 & c2' & w2 & data & E1 & E2 & Ed).
  exists c1', w1, c2', w2. split; [done|]. unfold LoadWorkerSnapshot. fold name. rewrite E2. go_step. by rewrite Ed.
Qed.

End RoundTrip.

(** ** The marker round *)

Lemma i64_succ_nat n : (Z.of_nat n < 2 ^ 62)%Z → i64 (Z.of_nat n + 1) = Z.of_nat (S n).
Proof. intros Hn. rewrite i64_small; lia. Qed.

(** The answers of the workers to their markers, in order. *)
Fixpoint posts {W} `{!SnapshotNet W} (addrs : list string) (w : W) : list error * W :=
  match addrs with
  | [] => ([], w)
  | a :: addrs =>
      let '(e, w) := net_Post ("http://" +:+ a +:+ "/snapshot") w in
      let '(es, w) := posts addrs w in (e :: es, w)
  end.

Definition acks (es : list error) : nat := length (filter (λ e, e = None) es).

Lemma posts_length {W} `{!SnapshotNet W} addrs (w : W) : length (posts addrs w).1 = length addrs.
Proof.
  revert w. induction addrs as [|a addrs IH]; intros w; simpl; [done|].
  destruct (net_Post _ w) as [e w1]. specialize (IH w1). by destruct (posts addrs w1); simpl in *; rewrite IH.
Qed.

Lemma marker_loop_spec {W} `{!SnapshotNet W} addrs ids i chans acked (w : W) :
  length ids = i + length addrs → (Z.of_nat (length ids) < 2 ^ 62)%Z → acked ≤ i →
  marker_loop addrs ids i chans (Z.of_nat i) (Z.of_nat acked) w =
    Ret (chans ++ map (λ id, mkChannelState id 0) (drop i ids), Z.of_nat (length ids),
         Z.of_nat (acked + acks (posts addrs w).1), (posts addrs w).2).
Proof.
  intros Hlen Hmax Hack. revert i chans acked w Hlen Hack.
  induction addrs as [|a addrs IH]; intros i chans acked w Hlen Hack; cbn [length marker_loop posts] in *.
  - rewrite drop_ge by lia. simpl. change (acks []) with 0. by rewrite app_nil_r, Hlen, !Nat.add_0_r.
  - destruct (lookup_lt_is_Some_2 ids i) as [id Hid]; [lia|]. rewrite Hid.
    rewrite (drop_S _ _ _ Hid), (i64_succ_nat i) by lia. unfold sendMarker.
    destruct (net_Post _ w) as [[e|] w1]; rewrite ?(i64_succ_nat acked) by lia; rewrite IH by lia; rewrite <- app_assoc;
      destruct (posts addrs w1) as [es w2]; unfold acks; simpl.
    + done.
    + do 4 f_equal. lia.
Qed.

(** with one id for each address the marker round posts a marker to every
    worker, records every worker's channel once, in order and empty, counts the
    markers and the answers, and saves the snapshot whichever markers fail. *)
Theorem marker_round_records_all flt {W} `{!AfsService W, !SnapshotNet W} c files pending primes addrs ids (w : W) :
  length ids = length addrs → (Z.of_nat (length ids) < 2 ^ 62)%Z →
  let '(answers, w1) := posts addrs w in
  InitiateSnapshot flt c files pending primes addrs ids w =
  Ret (SaveCoordSnapshot flt c
    (mkCoordSnapshot files pending primes (Some (map (λ id, mkChannelState id 0) ids))
       (Z.of_nat (length ids)) (Z.of_nat (acks answers)) (time_Unix w1)) w1).
Proof.
  intros Hlen Hmax. unfold InitiateSnapshot.
  rewrite (marker_loop_spec addrs ids 0 [] 0 w) by (done || lia). go_step. by destruct (posts addrs w).
Qed.

(** ** Witnesses *)

Definition demo_snapshot : CoordSnapshot :=
  mkCoordSnapshot (Some ["input_dataset_001.txt"]) None (Some [2; 3; 18446744073709551557]%Z)
    (Some [mkChannelState "w1" 0]) 1 1 1700000000.
Definition demo_worker_snapshot : WorkerSnapshot :=
  mkWorkerSnapshot "w1" (Some ["input_dataset_001.txt"]) (Some [7; 2]%Z) 1700000000.

#[export] Instance demo_net : SnapshotNet (World unit) := {
  net_Post url w := ((if decide (url = "http://w1:6100/snapshot") then None else Some "refused"), w);
  time_Unix w := 1700000000%Z;
}.

Lemma demo_snapshot_ok : coord_snap_ok demo_snapshot.
Proof. split; unfold is_nat63, channel_ok, ascii_string, ascii_text, is_ascii, is_u64, is_nat63; decide_now. Qed.
Lemma demo_worker_snapshot_ok : worker_snap_ok demo_worker_snapshot.
Proof. split; unfold is_nat63, ascii_string, ascii_text, is_ascii, is_u64; decide_now. Qed.

Lemma demo_worker_name : svc_name demo_world "snapshot_w1.json".
Proof.
  split; [|done]. split; [decide_now|]. intros b' E. apply (f_equal (λ s, rev (s2b s))) in E.
  rewrite s2b_app, rev_app_distr in E. by vm_compute in E.
Qed.

Lemma coord_snapshot_roundtrip_witness :
  ∃ c1' w1 c2' w2,
    SaveCoordSnapshot no_faults (demo_client "c1" "/tmp/1") demo_snapshot demo_world = (None, c1', w1) ∧
    LoadCoordSnapshot no_faults (demo_client "c2" "/tmp/2") w1 = Ret (Ok (Some demo_snapshot), c2', w2).
Proof.
  apply (coord_snapshot_roundtrip (demo_client "c1" "/tmp/1") (demo_client "c2" "/tmp/2") demo_world
    demo_snapshot demo_snapshot_ok (demo_client_ok _ _) (demo_client_ok _ _));
    [done|apply demo_svc_name|apply demo_client_free..|done|done|split; simpl; lia].
Defined.

Lemma worker_snapshot_roundtrip_witness :
  ∃ c1' w1 c2' w2,
    SaveWorkerSnapshot no_faults (demo_client "c1" "/tmp/1") demo_worker_snapshot demo_world = (None, c1', w1) ∧
    LoadWorkerSnapshot no_faults (demo_client "c2" "/tmp/2") "w1" w1 =
      Ret (Ok (Some demo_worker_snapshot), c2', w2).
Proof.
  apply (worker_snapshot_roundtrip (demo_client "c1" "/tmp/1") (demo_client "c2" "/tmp/2") demo_world
    demo_worker_snapshot demo_worker_snapshot_ok (demo_client_ok _ _) (demo_client_ok _ _));
    [done|apply demo_worker_name|apply demo_client_free..|done|done|split; simpl; lia].
Defined.

Lemma marker_round_records_all_witness :
  InitiateSnapshot no_faults (demo_client "c1" "/tmp/1") None None None ["w1:6100"; "w2:6100"] ["w1"; "w2"] demo_world =
  Ret (SaveCoordSnapshot no_faults (demo_client "c1" "/tmp/1")
    (mkCoordSnapshot None None None (Some [mkChannelState "w1" 0; mkChannelState "w2" 0]) 2 1 1700000000) demo_world).
Proof.
  exact (marker_round_records_all no_faults (demo_client "c1" "/tmp/1") None None None
    ["w1:6100"; "w2:6100"] ["w1"; "w2"] demo_world eq_refl eq_refl).
Defined.
