(* ===== verification/Worker.v ===== *)
(** * The worker: src/primefinder/cmd/worker/main.go

    [ProcessFile] fetches one file through the AFS client, tests the number on
    each line, streams the distinct primes in batches and, when the whole file
    was sent, adds them to the worker's state and saves a snapshot.

    The goroutine that pumps the file into the pipe is the loop [read_to_end];
    the scanner's lines are a function of what the pipe delivers ([Scan]).  When
    the scan stops early the source leaves that goroutine blocked: its only
    further effect would be the offset of a handle that is closed.  The order in
    which Go ranges over a map is the parameter [map_order].  The client id (pid
    and time) and the elapsed milliseconds are arguments. *)

From S2P Require Import Prelude GoLib GoText Json JsonCodec Disk AfsProto Server Cache Client AfsSpec SnapshotIO Snapshot MillerRabin.

(** ** Messages: src/primefinder/generated/prime/prime.pb.go *)

Record ProcessFileRequest := mkProcessFileRequest {
  FilePath : string; AfsServers : string; CacheDir : string; WorkerId : string;
}.
Record ProcessFileResponse := mkProcessFileResponse {
  Primes : list Z; Error : string; Count : Z; ElapsedMs : Z;
}.
Record HealthRequest := mkHealthRequest { hq_WorkerId : string }.
Record HealthResponse := mkHealthResponse { Alive : bool; hp_WorkerId : string }.

#[export] Instance ProcessFileResponse_eq_dec : EqDecision ProcessFileResponse.
Proof. solve_decision. Defined.

(** ** State *)

Definition primeBatchSize : nat := Z.to_nat 10000.

Record workerServer := mkWorkerServer {
  workerID : string;
  completedFiles : list string;
  primesFound : list Z;
  seenPrimes : gmap Z bool;
}.

Definition newWorkerServer (id : string) : workerServer := mkWorkerServer id [] [] ∅.

Definition worker_Health (wk : workerServer) (req : HealthRequest) : HealthResponse :=
  mkHealthResponse true (workerID wk).

(** The order of a range over the keys of a map. *)
Class MapOrder := {
  map_order : gmap Z bool → list Z;
  map_order_keys m : map_order m ≡ₚ (map_to_list m).*1;
}.

(** [m[k]] on a map of booleans: [false] when absent. *)
Definition map_bool (m : gmap Z bool) (k : Z) : bool := default false (m !! k).

Definition currentSnapshot (wk : workerServer) (now : Z) : WorkerSnapshot :=
  mkWorkerSnapshot (workerID wk) (Some (completedFiles wk)) (Some (primesFound wk)) now.

(** The body of the answer of the [/snapshot] endpoint to a marker. *)
Definition snapshot_endpoint (wk : workerServer) (now : Z) : bytes :=
  Marshal WorkerSnapshot_codec (currentSnapshot wk now) ++ [newline].

(** The endpoints of the HTTP server: status and body. *)
Definition worker_mux (wk : workerServer) (path : string) (now : Z) : Z * bytes :=
  if decide (path = "/snapshot") then (200%Z, snapshot_endpoint wk now)
  else if decide (path = "/health") then (200%Z, s2b ("worker " +:+ workerID wk +:+ " OK"))
  else (404%Z, s2b "404 page not found" ++ [newline]).

(** ** Scanning *)

Record scan_state := mkScan {
  fileSeenPrimes : gmap Z bool;
  batch : list Z;
  count : Z;
  out : send_stream ProcessFileResponse;
}.

Definition batch_msg (b : list Z) : ProcessFileResponse := mkProcessFileResponse b "" 0 0.
Definition error_msg (e : string) : ProcessFileResponse := mkProcessFileResponse [] e 0 0.
Definition count_msg (n elapsed : Z) : ProcessFileResponse := mkProcessFileResponse [] "" n elapsed.

Definition scan_line (line : bytes) (st : scan_state) : outcome (error * scan_state) :=
  let line := TrimSpace line in
  if decide (line = []) then Ret (None, st)
  else match ParseUint line with
  | Err _ => Ret (None, st)
  | Ok num =>
      let st := mkScan (fileSeenPrimes st) (batch st) (i64 (count st + 1)) (out st) in
      prime ← IsPrime num;
      if prime && negb (map_bool (fileSeenPrimes st) num) then
        let seen := <[num := true]> (fileSeenPrimes st) in
        let b := batch st ++ [num] in
        if decide (primeBatchSize <= length b) then
          match stream_Send (out st) (batch_msg b) with
          | (Some e, s) => Ret (Some e, mkScan seen b (count st) s)
          | (None, s) => Ret (None, mkScan seen [] (count st) s)
          end
        else Ret (None, mkScan seen b (count st) (out st))
      else Ret (None, st)
  end.

Fixpoint scan_loop (lines : list bytes) (st : scan_state) : outcome (error * scan_state) :=
  match lines with
  | [] => Ret (None, st)
  | line :: lines =>
      '(e, st) ← scan_line line st;
      match e with Some _ => Ret (e, st) | None => scan_loop lines st end
  end.

(** ** Recording a finished file *)

Definition record_prime (wk : workerServer) (p : Z) : workerServer :=
  if map_bool (seenPrimes wk) p then wk
  else mkWorkerServer (workerID wk) (completedFiles wk) (primesFound wk ++ [p]) (<[p := true]> (seenPrimes wk)).

Definition record_file `{!MapOrder} (file : string) (seen : gmap Z bool) (wk : workerServer) : workerServer :=
  let wk := foldl record_prime wk (map_order seen) in
  mkWorkerServer (workerID wk) (completedFiles wk ++ [file]) (primesFound wk) (seenPrimes wk).

(** ** The handler *)

Section Worker.
  Context (flt : OsFaults) {W : Type} `{!AfsService W, !SnapshotNet W, !MapOrder}.

(** The last batch and the closing message. *)
Definition send_rest (st : scan_state) (elapsed : Z) : error * send_stream ProcessFileResponse :=
  match (match batch st with [] => (None, out st) | b => stream_Send (out st) (batch_msg b) end) with
  | (Some e, s) => (Some e, s)
  | (None, s) => stream_Send s (count_msg (count st) elapsed)
  end.

(** What follows the loop over the lines; the handle is closed in any case. *)
Definition finish_file (req : ProcessFileRequest) (elapsed : Z) (scan_err : error) (err : error)
    (st : scan_state) (wk : workerServer) (client : Client) (w : W)
    : error * send_stream ProcessFileResponse * workerServer * Disk * W :=
  match err with
  | Some _ => (err, out st, wk, cdisk client, w)
  | None =>
      match scan_err with
      | Some e =>
          let '(e, s) := stream_Send (out st) (error_msg ("scan error: " +:+ e)) in (e, s, wk, cdisk client, w)
      | None =>
          match send_rest st elapsed with
          | (Some e, s) => (Some e, s, wk, cdisk client, w)
          | (None, s) =>
              let wk := record_file (FilePath req) (fileSeenPrimes st) wk in
              let '(_, client, w) := SaveWorkerSnapshot flt client (currentSnapshot wk (time_Unix w)) w in
              (None, s, wk, cdisk client, w)
          end
      end
  end.

Definition ProcessFile (cid : string) (elapsed : Z) (req : ProcessFileRequest)
    (stream : send_stream ProcessFileResponse) (wk : workerServer) (d : Disk) (w : W)
    : outcome (error * send_stream ProcessFileResponse * workerServer * Disk * W) :=
  match NewClient flt (Split (AfsServers req) ",") (CacheDir req) cid d w with
  | (Err err, d, w) =>
      let '(e, s) := stream_Send stream (error_msg ("AFS connect failed: " +:+ err)) in Ret (e, s, wk, d, w)
  | (Ok client, _, w) =>
      match client_Open flt (FilePath req) false client w with
      | (Err err, client, w) =>
          let '(e, s) := stream_Send stream (error_msg ("Open failed: " +:+ err)) in
          Ret (e, s, wk, cdisk client, w)
      | (Ok handle, client, w) =>
          '(data, readErr, client) ← read_to_end flt (Z.to_nat 65536) handle client;
          let '(lines, scanErr) := Scan 256 data readErr in
          '(err, st) ← scan_loop lines (mkScan ∅ [] 0 stream);
          let '(_, client, w) := client_Close flt handle client w in
          Ret (finish_file req elapsed scanErr err st wk client w)
      end
  end.

End Worker.

(** ** What a file holds *)

Definition line_number (line : bytes) : option Z :=
  match TrimSpace line with
  | [] => None
  | l => match ParseUint l with Ok n => Some n | Err _ => None end
  end.
Definition numbers (lines : list bytes) : list Z := omap line_number lines.

(** First occurrences, in order. *)
Fixpoint firsts (seen l : list Z) : list Z :=
  match l with
  | [] => []
  | x :: l => if decide (x ∈ seen) then firsts seen l else x :: firsts (x :: seen) l
  end.

(** The distinct numbers of a file that [IsPrime] accepts, as they come. *)
Definition file_primes (lines : list bytes) : list Z :=
  firsts [] (filter (λ n, IsPrime n = Ret true) (numbers lines)).

Lemma elem_of_firsts x seen l : x ∈ firsts seen l ↔ x ∈ l ∧ x ∉ seen.
Proof.
  revert seen. induction l as [|y l IH]; intros seen; simpl; [set_solver|].
  case_decide; [|rewrite elem_of_cons]; rewrite IH; [set_solver|].
  destruct (decide (x = y)); set_solver.
Qed.

Lemma NoDup_firsts seen l : NoDup (firsts seen l).
Proof.
  revert seen. induction l as [|y l IH]; intros seen; simpl; [constructor|].
  case_decide; [done|]. constructor; [|done]. rewrite elem_of_firsts. set_solver.
Qed.

Lemma firsts_seen seen seen' l : (∀ x, x ∈ seen ↔ x ∈ seen') → firsts seen l = firsts seen' l.
Proof.
  revert seen seen'. induction l as [|y l IH]; intros seen seen' Hs; simpl; [done|].
  destruct (decide (y ∈ seen)) as [Hy|Hy]; destruct (decide (y ∈ seen')) as [Hy'|Hy'].
  - by apply IH.
  - by apply Hs in Hy.
  - by apply Hs in Hy'.
  - f_equal. apply IH. set_solver.
Qed.

Lemma elem_of_file_primes x lines :
  x ∈ file_primes lines ↔ x ∈ numbers lines ∧ IsPrime x = Ret true.
Proof. unfold file_primes. rewrite elem_of_firsts, list_elem_of_filter. set_solver. Qed.
