(* ===== verification/WorkerProps.v ===== *)
(** * Properties of the worker *)

From S2P Require Import Prelude GoLib GoText GoPath Json JsonCodec NumTheory MillerRabin Disk AfsProto Server Handler Cluster SyncSpec Cache Client AfsSpec AfsWorld SnapshotIO Snapshot ClientStart ClientProps SnapshotProps Worker.

(** ** The scan *)

(** The map holds [true] at the elements of the list, and nothing else. *)
Definition seen_set (m : gmap Z bool) (l : list Z) : Prop :=
  ∀ x, m !! x = if decide (x ∈ l) then Some true else None.

Lemma seen_set_bool m l x : seen_set m l → map_bool m x = bool_decide (x ∈ l).
Proof.
  intros Hm. unfold map_bool. rewrite Hm. case_decide; simpl.
  - by rewrite bool_decide_true.
  - by rewrite bool_decide_false.
Qed.

Lemma seen_set_snoc m l x : seen_set m l → seen_set (<[x := true]> m) (l ++ [x]).
Proof. intros Hm y. rewrite lookup_insert, Hm. repeat case_decide; set_solver. Qed.

(** After [n] numbers, with the distinct primes [got]: full batches were sent
    and the rest waits. *)
Record scan_inv (st : scan_state) (got : list Z) (n : nat) : Prop := {
  si_count : count st = Z.of_nat n;
  si_seen : seen_set (fileSeenPrimes st) got;
  si_open : quota (out st) = None;
  si_batches : ∃ bs, sent (out st) = map batch_msg bs ∧ Forall (λ b, length b = primeBatchSize) bs ∧
    got = concat bs ++ batch st;
  si_batch : length (batch st) < primeBatchSize;
}.

Lemma scan_inv_start : scan_inv (mkScan ∅ [] 0 open_stream) [] 0.
Proof.
  split; [done|intros x; by rewrite decide_False by set_solver|done|by exists []|].
  simpl. unfold primeBatchSize. lia.
Qed.

Lemma stream_Send_open {A} (s : send_stream A) x :
  quota s = None → stream_Send s x = (None, mkSend (sent s ++ [x]) None).
Proof. destruct s as [ys q]. simpl. by intros ->. Qed.

Lemma IsPrime_u64 x : is_u64 x → ∃ b, IsPrime x = Ret b.
Proof. apply IsPrime_returns. Qed.

(** A prime that is new goes to the batch, which is sent when it is full. *)
Lemma scan_new_prime st got n x :
  scan_inv st got n → x ∉ got →
  let seen := <[x := true]> (fileSeenPrimes st) in
  let b := batch st ++ [x] in
  ∃ st', (if decide (primeBatchSize <= length b) then
            match stream_Send (out st) (batch_msg b) with
            | (Some e, s) => Ret (Some e, mkScan seen b (count st) s)
            | (None, s) => Ret (None, mkScan seen [] (count st) s)
            end
          else Ret (None, mkScan seen b (count st) (out st))) = Ret (None, st') ∧ scan_inv st' (got ++ [x]) n.
Proof.
  intros [Hc Hs Hq (bs & Hsent & Hbs & Hgot) Hb] Hx seen b.
  pose proof (seen_set_snoc _ _ x Hs) as Hseen. fold seen in Hseen.
  assert (Hlen : length b = S (length (batch st))) by (unfold b; rewrite length_app; simpl; lia).
  case_decide as Hfull.
  - rewrite stream_Send_open by done. eexists. split; [done|]. split; [done..| |simpl; lia].
    exists (bs ++ [b]). simpl. rewrite map_app, Hsent, concat_app. split; [done|]. split.
    + apply Forall_app. split; [done|]. constructor; [lia|done].
    + simpl. rewrite !app_nil_r. unfold b. by rewrite Hgot, app_assoc.
  - eexists. split; [done|]. split; [done..| |simpl; lia].
    exists bs. split; [done|]. split; [done|]. simpl. unfold b. by rewrite Hgot, app_assoc.
Qed.

Lemma scan_line_open line st got n :
  scan_inv st got n → (Z.of_nat (S n) < 2 ^ 63)%Z →
  ∃ st', scan_line line st = Ret (None, st') ∧
    match line_number line with
    | None => scan_inv st' got n
    | Some x => scan_inv st' (if decide (IsPrime x = Ret true ∧ x ∉ got) then got ++ [x] else got) (S n)
    end.
Proof.
  intros Hi Hn. unfold scan_line, line_number. destruct (TrimSpace line) as [|a l].
  { rewrite decide_True by done. by eexists. }
  rewrite decide_False by done. destruct (ParseUint (a :: l)) as [x|e] eqn:Ep; [|by eexists].
  destruct (IsPrime_u64 x (ParseUint_range _ _ Ep)) as [b Hb]. rewrite Hb. go_step.
  set (st1 := mkScan _ _ _ _).
  assert (Hi1 : scan_inv st1 got (S n)).
  { destruct Hi as [Hc Hs Hq Hbs Hlt]. split; [|done..]. simpl. rewrite Hc, i64_small; lia. }
  pose proof (seen_set_bool _ _ x (si_seen _ _ _ Hi1)) as Hsx. cbn [fileSeenPrimes st1] in Hsx |- *.
  rewrite Hsx.
  destruct b; cbn [andb]; [|rewrite decide_False by naive_solver; by eexists].
  destruct (bool_decide_reflect (x ∈ got)); cbn [negb].
  - rewrite (decide_False (P := _ ∧ _)) by naive_solver. by eexists.
  - rewrite (decide_True (P := _ ∧ _)) by naive_solver.
    destruct (scan_new_prime st1 got (S n) x Hi1) as (st' & E & Hi'); [naive_solver|]. by exists st'.
Qed.

Lemma scan_loop_open lines st got n :
  scan_inv st got n → (Z.of_nat (n + length lines) < 2 ^ 63)%Z →
  ∃ st', scan_loop lines st = Ret (None, st') ∧
    scan_inv st' (got ++ firsts got (filter (λ x, IsPrime x = Ret true) (numbers lines)))
      (n + length (numbers lines)).
Proof.
  revert st got n. induction lines as [|line lines IH]; intros st got n Hi Hn; simpl in Hn.
  { exists st. simpl. by rewrite app_nil_r, Nat.add_0_r. }
  cbn [scan_loop]. destruct (scan_line_open line st got n Hi) as (st1 & -> & Hi1); [lia|]. go_step.
  unfold numbers. cbn [omap list_omap]. destruct (line_number line) as [x|]; [|apply IH; [done|lia]].
  destruct (IH st1 _ _ Hi1) as (st' & -> & Hi'); [lia|]. exists st'. split; [done|].
  cbn [length]. rewrite Nat.add_succ_r. cbn [Nat.add] in Hi'. rewrite filter_cons.
  destruct (decide (IsPrime x = Ret true)) as [Hp|Hp]; [|by rewrite (decide_False (P := _ ∧ _)) in Hi' by naive_solver].
  cbn [firsts]. destruct (decide (x ∈ got)) as [Hx|Hx].
  - by rewrite (decide_False (P := _ ∧ _)) in Hi' by naive_solver.
  - rewrite (decide_True (P := _ ∧ _)) in Hi' by done. rewrite <- app_assoc in Hi'.
    rewrite (firsts_seen _ (x :: got)) in Hi' by set_solver. done.
Qed.

(** ** Recording *)

(** The worker's primes are distinct, and [seenPrimes] is their set. *)
Definition worker_inv (wk : workerServer) : Prop :=
  NoDup (primesFound wk) ∧ seen_set (seenPrimes wk) (primesFound wk).

Lemma newWorkerServer_inv id : worker_inv (newWorkerServer id).
Proof. split; [constructor|]. intros x. by rewrite decide_False by set_solver. Qed.

Lemma record_primes_spec l wk :
  worker_inv wk →
  let wk' := foldl record_prime wk l in
  worker_inv wk' ∧ primesFound wk' = primesFound wk ++ firsts (primesFound wk) l ∧
  completedFiles wk' = completedFiles wk ∧ workerID wk' = workerID wk.
Proof.
  revert wk. induction l as [|x l IH]; intros wk Hwk; simpl; [by rewrite app_nil_r|].
  pose proof Hwk as [Hnd Hs]. unfold record_prime at 2 4 6 8. rewrite (seen_set_bool _ _ x Hs).
  case_decide as Hx.
  - rewrite bool_decide_true by done. by apply IH.
  - rewrite bool_decide_false by done. set (wk1 := mkWorkerServer _ _ _ _).
    assert (Hwk1 : worker_inv wk1).
    { split; [|by apply seen_set_snoc]. apply NoDup_app. split; [done|]. split; [set_solver|apply NoDup_singleton]. }
    destruct (IH wk1 Hwk1) as (Hi & -> & Hc & Hid). split; [done|]. split; [|done]. simpl.
    rewrite <- app_assoc. simpl. do 2 f_equal. apply firsts_seen. set_solver.
Qed.

Lemma record_file_spec `{!MapOrder} file m got wk :
  worker_inv wk → seen_set m got →
  let wk' := record_file file m wk in
  worker_inv wk' ∧ completedFiles wk' = completedFiles wk ++ [file] ∧ workerID wk' = workerID wk ∧
  ∀ p, p ∈ primesFound wk' ↔ p ∈ primesFound wk ∨ p ∈ got.
Proof.
  intros Hwk Hm. destruct (record_primes_spec (map_order m) wk Hwk) as (Hi & Hp & Hc & Hid).
  unfold record_file. split; [done|]. split; [simpl; by rewrite Hc|]. split; [done|]. intros p. simpl.
  rewrite Hp, elem_of_app, elem_of_firsts, map_order_keys.
  assert (Hk : p ∈ (map_to_list m).*1 ↔ p ∈ got).
  { rewrite list_elem_of_fmap. split.
    - intros ([k b] & -> & Hin%elem_of_map_to_list). rewrite Hm in Hin. simpl. by case_decide.
    - intros Hp'. exists (p, true). split; [done|]. apply elem_of_map_to_list. by rewrite Hm, decide_True. }
  rewrite Hk. destruct (decide (p ∈ primesFound wk)); naive_solver.
Qed.

(** Whatever happens to the stream, a scan sends batches only. *)
Lemma scan_line_sends line st :
  ∃ e st' bs, scan_line line st = Ret (e, st') ∧ sent (out st') = sent (out st) ++ map batch_msg bs.
Proof.
  unfold scan_line. case_decide; [by exists None, st, []; rewrite app_nil_r|].
  destruct (ParseUint _) as [x|e] eqn:Ep; [|by exists None, st, []; rewrite app_nil_r].
  destruct (IsPrime_u64 x (ParseUint_range _ _ Ep)) as [b Hb]. rewrite Hb. go_step.
  destruct (_ && _)%bool; [|by eexists None, _, []; rewrite app_nil_r].
  case_decide; [|by eexists None, _, []; rewrite app_nil_r]. unfold stream_Send. simpl.
  destruct (quota (out st)) as [[|k]|].
  - by eexists (Some _), _, []; rewrite app_nil_r.
  - by eexists None, _, [_].
  - by eexists None, _, [_].
Qed.

Lemma scan_loop_sends lines st :
  ∃ e st' bs, scan_loop lines st = Ret (e, st') ∧ sent (out st') = sent (out st) ++ map batch_msg bs.
Proof.
  revert st. induction lines as [|line lines IH]; intros st; simpl; [by exists None, st, []; rewrite app_nil_r|].
  destruct (scan_line_sends line st) as ([e|] & st1 & bs & -> & H1); go_step; [by exists (Some e), st1, bs|].
  destruct (IH st1) as (e & st2 & bs2 & -> & H2). exists e, st2, (bs ++ bs2). split; [done|].
  by rewrite H2, H1, <- app_assoc, map_app.
Qed.

(** ** The handler *)

Section Handler.
  Context (flt : OsFaults) {W : Type} `{!AfsService W, !SnapshotNet W, !MapOrder}.

(** The closing messages of a scan over an open stream. *)
Lemma send_rest_open st got n elapsed :
  scan_inv st got n →
  ∃ bs, send_rest st elapsed = (None, mkSend (map batch_msg bs ++ [count_msg (Z.of_nat n) elapsed]) None) ∧
    concat bs = got ∧ Forall (λ b, 0 < length b <= primeBatchSize) bs.
Proof.
  intros [Hc _ Hq (bs & Hsent & Hbs & ->) Hb]. unfold send_rest. rewrite Hc.
  assert (Hall : Forall (λ b : list Z, 0 < length b <= primeBatchSize) bs).
  { eapply Forall_impl; [exact Hbs|]. intros b. unfold primeBatchSize. simpl. lia. }
  destruct (batch st) as [|x b].
  - exists bs. rewrite stream_Send_open, Hsent, app_nil_r by done. done.
  - exists (bs ++ [x :: b]). rewrite stream_Send_open by done. rewrite stream_Send_open by done. cbn [sent].
    rewrite Hsent, map_app, concat_app. simpl. rewrite app_nil_r. split; [done|]. split; [done|].
    apply Forall_app. split; [done|]. constructor; [simpl in *; lia|done].
Qed.

(** What the loop over the lines and the end of the handler do with an open
    stream, when no line is too long. *)
Lemma scan_and_finish req elapsed wk lines client (w : W) :
  (Z.of_nat (length lines) < 2 ^ 63)%Z → worker_inv wk →
  ∃ st bs wk', scan_loop lines (mkScan ∅ [] 0 open_stream) = Ret (None, st) ∧
    (let '(_, client', w') := SaveWorkerSnapshot flt client (currentSnapshot wk' (time_Unix w)) w in
     finish_file flt req elapsed None None st wk client w =
       (None, mkSend (map batch_msg bs ++ [count_msg (Z.of_nat (length (numbers lines))) elapsed]) None,
        wk', cdisk client', w')) ∧
    concat bs = file_primes lines ∧ Forall (λ b, 0 < length b <= primeBatchSize) bs ∧
    worker_inv wk' ∧ completedFiles wk' = completedFiles wk ++ [FilePath req] ∧ workerID wk' = workerID wk ∧
    ∀ p, p ∈ primesFound wk' ↔ p ∈ primesFound wk ∨ p ∈ file_primes lines.
Proof.
  intros Hlen Hwk. destruct (scan_loop_open lines _ [] 0 scan_inv_start) as (st & E & Hi); [simpl; lia|].
  change (firsts [] _) with (file_primes lines) in Hi. cbn [app Nat.add] in Hi.
  destruct (send_rest_open st _ _ elapsed Hi) as (bs & Es & Hbs & Hall).
  destruct (record_file_spec (FilePath req) _ _ wk Hwk (si_seen _ _ _ Hi)) as (Hi' & Hcf & Hid & Hp).
  exists st, bs, (record_file (FilePath req) (fileSeenPrimes st) wk). split; [done|]. split; [|done].
  unfold finish_file. rewrite Es. by destruct (SaveWorkerSnapshot _ _ _ _) as [[e' c4] w4].
Qed.

(** C10: when the file can be read and no line is too long, the worker streams
    exactly the distinct numbers of the file that [IsPrime] accepts, in the
    order of their first occurrence, in batches of at most 10000, then the
    count of the numbers; it adds the file and its primes to its state.  This
    holds under any failure of the service and the disk that lets the read
    succeed. *)
Theorem ProcessFile_streams_primes cid elapsed req wk d (w : W) c d0 w0 h c1 w1 data c2 lines :
  NewClient flt (Split (AfsServers req) ",") (CacheDir req) cid d w = (Ok c, d0, w0) →
  client_Open flt (FilePath req) false c w0 = (Ok h, c1, w1) →
  read_to_end flt (Z.to_nat 65536) h c1 = Ret (data, None, c2) →
  Scan 256 data None = (lines, None) → (Z.of_nat (length lines) < 2 ^ 63)%Z → worker_inv wk →
  ∃ bs wk' d' w',
    ProcessFile flt cid elapsed req open_stream wk d w =
      Ret (None, mkSend (map batch_msg bs ++ [count_msg (Z.of_nat (length (numbers lines))) elapsed]) None,
           wk', d', w') ∧
    concat bs = file_primes lines ∧ Forall (λ b, 0 < length b <= primeBatchSize) bs ∧
    worker_inv wk' ∧ completedFiles wk' = completedFiles wk ++ [FilePath req] ∧
    ∀ p, p ∈ primesFound wk' ↔ p ∈ primesFound wk ∨ p ∈ file_primes lines.
Proof.
  intros Hc Ho Hr Hs Hlen Hwk. unfold ProcessFile. rewrite Hc, Ho, Hr. go_step. rewrite Hs.
  destruct (client_Close flt h c2 w1) as [[e c3] w3] eqn:Ec.
  destruct (scan_and_finish req elapsed wk lines c3 w3 Hlen Hwk) as (st & bs & wk' & -> & E & Hbs & Hall & Hi & Hcf & _ & Hp).
  go_step. destruct (SaveWorkerSnapshot _ _ _ _) as [[e' c4] w4]. rewrite E. by eexists bs, wk', _, _.
Qed.

(** What a call of the handler may do to the stream and the state. *)
Definition handled (file : string) (stream : send_stream ProcessFileResponse) (wk : workerServer)
    (r : error * send_stream ProcessFileResponse * workerServer * Disk * W) : Prop :=
  let '(e, s, wk', _, _) := r in
  ∃ new, sent s = sent stream ++ new ∧ worker_inv wk' ∧
    (wk' = wk ∧ (e ≠ None ∨ ∃ m, m ∈ new ∧ Error m ≠ "") ∨
     completedFiles wk' = completedFiles wk ++ [file] ∧ e = None ∧ Forall (λ m, Error m = "") new).

(** One more message. *)
Lemma stream_Send_cases {A} (st : send_stream A) x e s :
  stream_Send st x = (e, s) → e ≠ None ∧ sent s = sent st ∨ e = None ∧ sent s = sent st ++ [x].
Proof. unfold stream_Send. destruct (quota st) as [[|k]|]; naive_solver. Qed.

Lemma handled_error file stream st wk x bs d' (w' : W) :
  worker_inv wk → x ≠ "" → sent st = sent stream ++ map batch_msg bs →
  handled file stream wk (let '(e, s) := stream_Send st (error_msg x) in (e, s, wk, d', w')).
Proof.
  intros Hwk Hx Hst. destruct (stream_Send st (error_msg x)) as [e s] eqn:E. simpl.
  apply stream_Send_cases in E as [[He ->]|[-> ->]]; rewrite Hst.
  - exists (map batch_msg bs). split; [done|]. split; [done|]. left. split; [done|by left].
  - rewrite <- app_assoc. eexists. split; [done|]. split; [done|]. left. split; [done|]. right.
    exists (error_msg x). split; [set_solver|done].
Qed.

Lemma batches_no_error bs : Forall (λ m, Error m = "") (map batch_msg bs).
Proof. apply Forall_fmap. by apply Forall_true. Qed.

Lemma batches_primes bs : concat (Primes <$> map batch_msg bs) = concat bs.
Proof. induction bs as [|b bs IH]; [done|]. cbn [map fmap list_fmap concat]. by f_equal. Qed.

Lemma send_rest_cases st elapsed e s :
  send_rest st elapsed = (e, s) →
  ∃ new, sent s = sent (out st) ++ new ∧ Forall (λ m, Error m = "") new.
Proof.
  unfold send_rest. destruct (batch st) as [|x b].
  - intros [[_ ->]|[_ ->]]%stream_Send_cases; [exists []; by rewrite app_nil_r|].
    eexists. split; [done|by repeat constructor].
  - destruct (stream_Send (out st) _) as [[e1|] s1] eqn:E1; apply stream_Send_cases in E1 as [[? E1]|[? E1]]; try done.
    + intros [= <- <-]. exists []. by rewrite app_nil_r.
    + intros [[_ ->]|[_ ->]]%stream_Send_cases; rewrite E1; [|rewrite <- app_assoc];
        (eexists; split; [done|by repeat constructor]).
Qed.

Lemma record_file_inv file m wk :
  worker_inv wk → worker_inv (record_file file m wk) ∧ completedFiles (record_file file m wk) = completedFiles wk ++ [file].
Proof.
  intros Hwk. destruct (record_primes_spec (map_order m) wk Hwk) as (Hi & _ & Hc & _).
  split; [done|]. simpl. by rewrite Hc.
Qed.

Lemma finish_file_handled req elapsed scan_err err st stream wk client (w : W) bs :
  worker_inv wk → sent (out st) = sent stream ++ map batch_msg bs →
  handled (FilePath req) stream wk (finish_file flt req elapsed scan_err err st wk client w).
Proof.
  intros Hwk Hst. unfold finish_file. destruct err as [e|].
  { exists (map batch_msg bs). split; [done|]. split; [done|]. left. split; [done|by left]. }
  destruct scan_err as [e|]; [by eapply handled_error|].
  destruct (send_rest st elapsed) as [e s] eqn:E. destruct (send_rest_cases _ _ _ _ E) as (new & Hs & Hnew).
  rewrite Hst, <- app_assoc in Hs. destruct e as [e|].
  { eexists. split; [done|]. split; [done|]. left. split; [done|by left]. }
  destruct (SaveWorkerSnapshot _ _ _ _) as [[e' c4] w4].
  destruct (record_file_inv (FilePath req) (fileSeenPrimes st) wk Hwk) as [Hi Hc].
  eexists. split; [done|]. split; [done|]. right. split; [done|]. split; [done|].
  apply Forall_app. split; [apply batches_no_error|done].
Qed.

(** The handler always returns. *)
Lemma ProcessFile_returns cid elapsed req stream wk d (w : W) : ∃ r, ProcessFile flt cid elapsed req stream wk d w = Ret r.
Proof using Type.
  unfold ProcessFile. destruct (NewClient _ _ _ _ _ _) as [[[c|x] d0] w0]; [|destruct (stream_Send _ _); by eexists].
  destruct (client_Open _ _ _ _ _) as [[[h|x] c1] w1]; [|destruct (stream_Send _ _); by eexists].
  unfold read_to_end.
  destruct (read_loop_returns flt (Z.to_nat 65536) h (S (length (remaining h c1))) c1) as (data & e & c2 & ->); [lia..|].
  go_step. destruct (Scan 256 data e) as [lines scanErr].
  destruct (scan_loop_sends lines (mkScan ∅ [] 0 stream)) as (err & st & bs & -> & _). go_step.
  destruct (client_Close _ _ _ _) as [[e3 c3] w3]. by eexists.
Qed.

(** C25: under any failure of the file service, the local disk and the stream,
    [ProcessFile] returns; the worker adds the file to its state, once, exactly
    when the stream ended without an error and carried no error message, and
    otherwise keeps its state. *)
Theorem ProcessFile_records_once cid elapsed req stream wk d (w : W) :
  worker_inv wk →
  ∃ e s wk' d' w' new, ProcessFile flt cid elapsed req stream wk d w = Ret (e, s, wk', d', w') ∧
    sent s = sent stream ++ new ∧ worker_inv wk' ∧
    (wk' = wk ∧ (e ≠ None ∨ ∃ m, m ∈ new ∧ Error m ≠ "") ∨
     completedFiles wk' = completedFiles wk ++ [FilePath req] ∧ e = None ∧ Forall (λ m, Error m = "") new).
Proof.
  intros Hwk. enough (∃ r, ProcessFile flt cid elapsed req stream wk d w = Ret r ∧ handled (FilePath req) stream wk r)
    as ([[[[e s] wk'] d'] w'] & E & new & Hnew) by (exists e, s, wk', d', w', new; by split).
  unfold ProcessFile. destruct (NewClient _ _ _ _ _ _) as [[[c|x] d0] w0].
  2: { pose proof (handled_error (FilePath req) stream stream wk ("AFS connect failed: " +:+ x) [] d0 w0 Hwk ltac:(done)
         ltac:(by rewrite app_nil_r)) as Hh. destruct (stream_Send _ _). by eexists. }
  destruct (client_Open _ _ _ _ _) as [[[h|x] c1] w1].
  2: { pose proof (handled_error (FilePath req) stream stream wk ("Open failed: " +:+ x) [] (cdisk c1) w1 Hwk ltac:(done)
         ltac:(by rewrite app_nil_r)) as Hh. destruct (stream_Send _ _). by eexists. }
  unfold read_to_end.
  destruct (read_loop_returns flt (Z.to_nat 65536) h (S (length (remaining h c1))) c1) as (data & e & c2 & ->); [lia..|].
  go_step. destruct (Scan 256 data e) as [lines scanErr].
  destruct (scan_loop_sends lines (mkScan ∅ [] 0 stream)) as (err & st & bs & -> & Hst). go_step.
  destruct (client_Close _ _ _ _) as [[e3 c3] w3]. eexists. split; [done|]. by eapply finish_file_handled.
Qed.

End Handler.

(** A line of 256 bytes or more stops the scan: the whole file counts as failed. *)
Lemma scan_too_long ls w rest :
  Forall (λ l, (newline ∉ l) ∧ (length l < 256)) ls → newline ∉ w → length w = 256 →
  Scan 256 (concat (map (λ l, l ++ [newline]) ls) ++ w ++ rest) None = (map dropCR ls, Some ErrTooLong).
Proof.
  intros Hls Hw Hlen. induction Hls as [|l ls [Hl Hlt] _ IH]; simpl.
  - apply Scan_too_long; [done|done|lia].
  - rewrite <- !app_assoc. cbn [app]. rewrite Scan_line by done. by rewrite IH.
Qed.

(** ** The worker on a service that keeps its laws *)

Section OnService.
  Context {W : Type} `{!AfsService W, !AfsView W, !AfsLaws W, !SnapshotNet W, !MapOrder}.

(** A call on a service that keeps its laws: see [worker_processes_file]. *)
Lemma ProcessFile_on_service cid elapsed req wk d d1 (w : W) a rest data v lines :
  let client := fresh_client a rest (CacheDir req) cid d1 in
  let snap := WorkerSnapshotFile (workerID wk) in
  svc_user (W := W) cid → svc_past w → (∀ data, may_write W snap data) →
  Split (AfsServers req) "," = a :: rest → svc_ready w a → svc_unused w cid 0 →
  os_MkdirAll no_faults d (CacheDir req) = (None, d1) → disk_wf d1 →
  svc_known w (FilePath req) → svc_file w (FilePath req) = Some (data, v) → local_free client (FilePath req) →
  svc_name w snap → local_free client snap →
  Scan 256 data None = (lines, None) → (Z.of_nat (length lines) < 2 ^ 63)%Z → worker_inv wk →
  ∃ bs wk' d' w' now v',
    ProcessFile no_faults cid elapsed req open_stream wk d w =
      Ret (None, mkSend (map batch_msg bs ++ [count_msg (Z.of_nat (length (numbers lines))) elapsed]) None,
           wk', d', w') ∧
    concat bs = file_primes lines ∧ worker_inv wk' ∧ completedFiles wk' = completedFiles wk ++ [FilePath req] ∧
    svc_file w' snap = Some (Marshal WorkerSnapshot_codec (currentSnapshot wk' now), v') ∧
    svc_effect cid [snap] w w' ∧ workerID wk' = workerID wk ∧ disk_wf d' ∧ kept_beside (CacheDir req) d1 d'.
Proof.
  intros client snap Hus Hpast Hmay Hsp Hr Hu Hd Hwf Hkn Hf Hl Hn Hls Hs Hlen Hwk. unfold ProcessFile. rewrite Hsp.
  destruct (NewClient_ok a rest (CacheDir req) cid d d1 w Hus Hpast Hr Hu Hd Hwf) as (w0 & -> & Hok0 & Hk0).
  fold client in Hok0 |- *. pose proof (call_reads_effect cid _ _ Hk0) as He0.
  destruct (open_and_read_ok client w0 (FilePath req) data v (Z.to_nat 65536) Hok0) as
    (h & c1 & w1 & c2 & Eo & Er & Hok2 & A & Hq2 & Hrd & He1).
  { by apply He0. } { rewrite (eff_file _ _ _ _ He0) by set_solver. done. } { done. }
  { apply fresh_client_coherent. } { split; simpl; lia. } { lia. }
  rewrite Eo, Er. go_step. rewrite Hs.
  destruct (client_Close_clean c2 w1 h (FilePath req) [] Hok2 Hrd) as (c3 & w3 & Ec & Hok3 & B & Hq3 & Hk3 & _).
  destruct (scan_and_finish no_faults req elapsed wk lines c3 w3 Hlen Hwk) as
    (st & bs & wk' & -> & E & Hbs & _ & Hi & Hcf & Hid & _).
  go_step. rewrite Ec. unfold SaveWorkerSnapshot in E.
  assert (Heff : svc_effect cid [] w w3).
  { etrans; [exact He0|]. etrans; [exact He1|]. by apply call_reads_effect. }
  destruct (writeToAFS_ok c3 w3 snap (Marshal WorkerSnapshot_codec (currentSnapshot wk' (time_Unix w3)))) as
    (v' & c4 & w4 & Ew & Hok4 & D & Hf4 & He4 & _); [done|by apply Heff|apply Hmay| |simpl in *; lia|done|].
  { eapply same_client_free; [|exact Hls]. by etrans. }
  cbn [ws_WorkerID currentSnapshot] in E. rewrite Hid in E. fold snap in E. rewrite Ew in E. rewrite E.
  assert (clientId c3 = cid) as Hcid by (destruct A as (_ & A & _), B as (_ & B & _); rewrite B, A; reflexivity).
  rewrite Hcid in He4. eexists bs, wk', _, _, _, v'. split; [done|]. split; [done|]. split; [done|]. split; [done|].
  split; [exact Hf4|]. split; [etrans; [|exact He4]; eapply svc_effect_mono; [|exact Heff]; set_solver|].
  split; [exact Hid|]. split; [apply Hok4|]. assert (S : same_client client c4) by (etrans; [exact A|]; by etrans). apply S.
Qed.

(** On a file service that keeps its laws, a worker that is asked for a file
    of the service connects, reads the whole file, streams its primes, saves
    its snapshot under its id and changes no other file. *)
Theorem worker_processes_file `{!AfsUnwatched W} cid elapsed req wk d d1 (w : W) a rest data v lines :
  let client := fresh_client a rest (CacheDir req) cid d1 in
  let snap := WorkerSnapshotFile (workerID wk) in
  Split (AfsServers req) "," = a :: rest → svc_ready w a → svc_unused w cid 0 →
  os_MkdirAll no_faults d (CacheDir req) = (None, d1) → disk_wf d1 →
  svc_known w (FilePath req) → svc_file w (FilePath req) = Some (data, v) → local_free client (FilePath req) →
  svc_name w snap → local_free client snap →
  Scan 256 data None = (lines, None) → (Z.of_nat (length lines) < 2 ^ 63)%Z → worker_inv wk →
  ∃ bs wk' d' w' now v',
    ProcessFile no_faults cid elapsed req open_stream wk d w =
      Ret (None, mkSend (map batch_msg bs ++ [count_msg (Z.of_nat (length (numbers lines))) elapsed]) None,
           wk', d', w') ∧
    concat bs = file_primes lines ∧ worker_inv wk' ∧ completedFiles wk' = completedFiles wk ++ [FilePath req] ∧
    svc_file w' snap = Some (Marshal WorkerSnapshot_codec (currentSnapshot wk' now), v') ∧
    svc_effect cid [snap] w w'.
Proof.
  intros client snap H1 H2 H3 H4 H5 H6 H7 H8 H9 H10 H11 H12 H13.
  destruct (ProcessFile_on_service cid elapsed req wk d d1 w a rest data v lines) as
    (bs & wk' & d' & w' & now & v' & E & Hbs & Hi & Hc & Hf & He & _);
    [apply any_user|apply any_past|intros x; apply may_write_any|done..|].
  by exists bs, wk', d', w', now, v'.
Qed.

End OnService.

(** ** Witnesses: one file with a repeated prime and a line that is no number *)

#[export] Instance list_order : MapOrder.
Proof. refine {| map_order m := (map_to_list m).*1 |}. done. Defined.

Definition demo_lines : list bytes := s2b <$> ["7"; "8"; "x"; "2"; "7"].
Definition demo_text : bytes := concat (map (λ l, l ++ [newline]) demo_lines).

(** A primary whose input directory holds the file. *)
Definition input_disk : Disk :=
  set_content (new_file world_disk "in/input_dataset_001.txt") (next_ino world_disk) demo_text.
Definition input_world : World unit :=
  mkWorld "s1:1" no_faults true 0
    (mkHandler "in" "out" ∅ ∅ 0 ∅ "s1" "s1:1" true "s1:1" [] 0 false input_disk) tt.

Lemma input_world_ready : world_ready input_world "s1:1".
Proof.
  assert (Hn : ∀ q, names input_disk !! q ≠ Some DDir ∨ names world_disk !! q = Some DDir).
  { intros q. change (names input_disk) with
      (<["in/input_dataset_001.txt" := DFile (next_ino world_disk)]> (names world_disk)).
    rewrite lookup_insert. case_decide; [by left|]. destruct (names world_disk !! q) as [[]|]; auto. }
  split; [done|]. split; [done|]. split; [done|]. split; [done|]. split; [|split; [|split; [|done]]].
  - split; [apply disk_wf_set_content, disk_wf_new_file, world_disk_wf|]. intros b Hb.
    destruct (Hn (PathJoin "out" b)) as [H|H]; [exact H|]. rewrite demo_dirs in H by (done || by right). discriminate H.
  - intros b b' Hb Hb'. by apply demo_apart.
  - intros b Hb.
    destruct (Hn (PathJoin "in" b)) as [H|H]; [exact H|]. rewrite demo_dirs in H by (done || by left). discriminate H.
Qed.
Definition demo_request : ProcessFileRequest :=
  mkProcessFileRequest "input_dataset_001.txt" "s1:1,s2:1" "/tmp/w1" "w1".

(** A concrete name is plain. *)
Ltac demo_name :=
  split; [decide_now|]; intros b' E; apply (f_equal (λ s, rev (s2b s))) in E;
    rewrite s2b_app, rev_app_distr in E; by vm_compute in E.

Lemma ProcessFile_streams_primes_witness :
  ∃ bs wk' d' w',
    ProcessFile no_faults "c1" 5 demo_request open_stream (newWorkerServer "w1") empty_disk input_world =
      Ret (None, mkSend (map batch_msg bs ++ [count_msg 4 5]) None, wk', d', w') ∧ concat bs = [7; 2]%Z.
Proof.
  edestruct (ProcessFile_streams_primes no_faults "c1" 5 demo_request (newWorkerServer "w1") empty_disk input_world)
    as (bs & wk' & d' & w' & E & Hbs & _); [vm_compute; reflexivity|vm_compute; reflexivity|vm_compute; reflexivity|
    vm_compute; reflexivity|vm_compute; reflexivity|apply newWorkerServer_inv|].
  exists bs, wk', d', w'. split; [exact E|]. rewrite Hbs. vm_compute. reflexivity.
Defined.

Lemma worker_processes_file_witness :
  ∃ bs wk' d' w' now v',
    ProcessFile no_faults "c1" 5 demo_request open_stream (newWorkerServer "w1") empty_disk input_world =
      Ret (None, mkSend (map batch_msg bs ++ [count_msg 4 5]) None, wk', d', w') ∧ concat bs = [7; 2]%Z ∧
    svc_file w' "snapshot_w1.json" = Some (Marshal WorkerSnapshot_codec (currentSnapshot wk' now), v').
Proof.
  destruct (worker_processes_file "c1" 5 demo_request (newWorkerServer "w1") empty_disk
    (os_MkdirAll no_faults empty_disk "/tmp/w1").2 input_world "s1:1" ["s2:1"] demo_text 0
    (map dropCR demo_lines)) as (bs & wk' & d' & w' & now & v' & E & Hbs & _ & _ & Hf & _).
  - reflexivity.
  - exact input_world_ready.
  - intros seq Hseq. reflexivity.
  - vm_compute. reflexivity.
  - eapply os_MkdirAll_spec; [|apply surjective_pairing]. apply disk_wf_empty.
  - demo_name.
  - vm_compute. reflexivity.
  - split; vm_compute; discriminate.
  - split; [demo_name|vm_compute; reflexivity].
  - split; vm_compute; discriminate.
  - vm_compute. reflexivity.
  - vm_compute. reflexivity.
  - apply newWorkerServer_inv.
  - exists bs, wk', d', w', now, v'. split; [exact E|]. split; [|exact Hf]. rewrite Hbs. vm_compute. reflexivity.
Defined.

Lemma ProcessFile_records_once_witness :
  ∃ e s wk' d' w',
    ProcessFile no_faults "c1" 5 demo_request open_stream (newWorkerServer "w1") empty_disk input_world =
      Ret (e, s, wk', d', w') ∧ worker_inv wk'.
Proof.
  destruct (ProcessFile_records_once no_faults "c1" 5 demo_request open_stream (newWorkerServer "w1") empty_disk
    input_world (newWorkerServer_inv "w1")) as (e & s & wk' & d' & w' & new & E & _ & Hi & _).
  exists e, s, wk', d', w'. split; [exact E|exact Hi].
Defined.
