(* ===== verification/Coordinator.v ===== *)
(** * The coordinator: src/primefinder/pkg/coordinator/coordinator.go

    [Run] finds the input files, resumes from a snapshot if there is one, hands
    the pending files to the workers, merges their results as they arrive and
    writes the sorted primes.  Workers are reached through [WorkerService].

    The goroutines of [Run] are a transition system: a [run_state] holds the
    files each goroutine has left, the buffered channel and what the receiving
    loop has collected.  A [Work] step is one round of a goroutine (one
    [processOneFile] and the send on the channel, which blocks while the buffer
    is full); a [Recv] step is one round of the receiving loop.  The steps
    interleave freely; within a step the calls to the file service and to the
    workers happen in the order of the source. *)

From S2P Require Import Prelude GoLib GoText Json JsonCodec Disk AfsProto Server Cache Client AfsSpec SnapshotIO Snapshot Worker.

Record Config := mkConfig {
  cfg_AfsServers : list string;
  WorkerAddrs : list string;
  cfg_CacheDir : string;
  OutputFile : string;
}.

Record workerResult := mkWorkerResult {
  res_workerID : string;
  filePath : string;
  primes : list Z;
  res_count : Z;
  elapsed : Z;
  res_err : error;
}.

Record workerConn := mkWorkerConn { wc_id : string; wc_addr : string }.

#[export] Instance workerConn_eq_dec : EqDecision workerConn.
Proof. solve_decision. Defined.

(** The RPCs of a worker as the coordinator sees them; [wk_dial] is whether a
    connection to the address can be set up. *)
Class WorkerService (W : Type) := {
  wk_dial : string → bool;
  wk_Health : string → HealthRequest → W → result HealthResponse * W;
  wk_ProcessFile : string → ProcessFileRequest → W → result (recv_stream ProcessFileResponse) * W;
}.

(** ** Lists of files *)

Definition filterPending (all completed : list string) : list string :=
  let done := foldl (λ (m : gmap string bool) f, <[f := true]> m) ∅ completed in
  filter (λ f, default false (done !! f) = false) all.

(** A slice built with [append] from [nil]. *)
Definition appended {A} (l : list A) : slice A := match l with [] => None | _ => Some l end.

(** [i] is the index of the next file. *)
Fixpoint assign_loop (workers : list workerConn) (files : list string) (i : nat)
    (m : gmap string (list string)) : outcome (gmap string (list string)) :=
  match files with
  | [] => Ret m
  | file :: files =>
      if decide (workers = []) then Panic "runtime error: integer divide by zero"
      else match workers !! (i mod length workers) with
      | None => Panic "runtime error: index out of range"
      | Some w => assign_loop workers files (S i) (<[wc_addr w := default [] (m !! wc_addr w) ++ [file]]> m)
      end
  end.

Definition assignFiles (files : list string) (workers : list workerConn)
    : outcome (gmap string (list string)) := assign_loop workers files 0 ∅.

Definition dedupAndSort `{!MapOrder} (primes : list Z) : list Z :=
  let seen := foldl (λ (m : gmap Z bool) p, <[p := true]> m) ∅ primes in
  merge_sort Z.le (map_order seen).

(** The text of the output file: one prime a line. *)
Definition output_text (unique : list Z) : bytes := concat (map (λ p, s2b (fmt_d p) ++ [newline]) unique).

(** Every branch of the port computation gives 6100. *)
Definition worker_http_addr (addr : string) : string :=
  let parts := SplitN2 addr ":" in
  let host := default "" (head parts) in
  let httpPort := "6100" in
  let httpPort :=
    match parts with
    | [_; grpcPort] =>
        if (bool_decide (String.length grpcPort = 4) && bool_decide (head (s2b grpcPort) = Some "6"%char))%bool
        then "6100" else httpPort
    | _ => httpPort
    end in
  host +:+ ":" +:+ httpPort.

Definition buildWorkerHTTPAddrs (workers : list workerConn) : list string * list string :=
  (map (λ w, worker_http_addr (wc_addr w)) workers, map wc_id workers).

Section Coordinator.
  Context (flt : OsFaults) {W : Type} `{!AfsService W, !SnapshotNet W, !WorkerService W, !MapOrder}.

(** ** Finding files and workers *)

Definition input_name (i : Z) : string := "input_dataset_" +:+ fmt_03d i +:+ ".txt".

(** [n] rounds are left; the next file is number [i]. *)
Fixpoint discover_loop (n : nat) (i : Z) (client : Client) (w : W) : list string * Client * W :=
  match n with
  | O => ([], client, w)
  | S n =>
      match client_Open flt (input_name i) false client w with
      | (Err _, client, w) => ([], client, w)
      | (Ok handle, client, w) =>
          let '(_, client, w) := client_Close flt handle client w in
          let '(files, client, w) := discover_loop n (i + 1) client w in
          (input_name i :: files, client, w)
      end
  end.

Definition discoverInputFiles (client : Client) (w : W) : list string * Client * W :=
  discover_loop (Z.to_nat 9999) 1 client w.

(** The loop over the addresses; [i] is the index of the next one. *)
Fixpoint connect_workers_loop (addrs : list string) (i : Z) (w : W) : list workerConn * W :=
  match addrs with
  | [] => ([], w)
  | addr :: addrs =>
      if wk_dial addr then
        let id := "w" +:+ fmt_d (i + 1) in
        match wk_Health addr (mkHealthRequest id) w with
        | (Ok resp, w) =>
            let '(ws, w) := connect_workers_loop addrs (i + 1) w in
            ((if Alive resp then [mkWorkerConn id addr] else []) ++ ws, w)
        | (Err _, w) => connect_workers_loop addrs (i + 1) w
        end
      else connect_workers_loop addrs (i + 1) w
  end.

Definition connectToWorkers (addrs : list string) (w : W) : result (list workerConn) * W :=
  let '(workers, w) := connect_workers_loop addrs 0 w in
  match workers with [] => (Err "no workers available", w) | _ => (Ok workers, w) end.

(** ** One file *)

(** The receive loop of [tryWorker]. *)
Fixpoint recv_chunks (wid file : string) (chunks : list ProcessFileResponse) (rend : error)
    (allPrimes : list Z) (count elapsed : Z) : workerResult :=
  match chunks with
  | [] =>
      match rend with
      | None => mkWorkerResult wid file allPrimes count elapsed None
      | Some e => mkWorkerResult wid file [] 0 0 (Some e)
      end
  | chunk :: chunks =>
      if decide (Error chunk ≠ "") then mkWorkerResult wid file [] 0 0 (Some (Error chunk))
      else
        recv_chunks wid file chunks rend (allPrimes ++ Primes chunk)
          (if (Count chunk >? 0)%Z then Count chunk else count)
          (if (ElapsedMs chunk >? 0)%Z then ElapsedMs chunk else elapsed)
  end.

Definition process_request (wk : workerConn) (file : string) (cfg : Config) : ProcessFileRequest :=
  mkProcessFileRequest file (Join (cfg_AfsServers cfg) ",") ("/tmp/afs-worker-" +:+ wc_id wk) (wc_id wk).

Definition tryWorker (wk : workerConn) (file : string) (cfg : Config) (w : W) : workerResult * W :=
  match wk_ProcessFile (wc_addr wk) (process_request wk file cfg) w with
  | (Err e, w) => (mkWorkerResult (wc_id wk) file [] 0 0 (Some e), w)
  | (Ok stream, w) => (recv_chunks (wc_id wk) file (msgs stream) (recv_end stream) [] 0 0, w)
  end.

(** The other workers, in order. *)
Fixpoint try_others (self : workerConn) (file : string) (cfg : Config) (others : list workerConn) (w : W)
    : workerResult * W :=
  match others with
  | [] => (mkWorkerResult (wc_id self) file [] 0 0 (Some ("all workers failed for " +:+ file)), w)
  | other :: others =>
      if decide (wc_id other = wc_id self) then try_others self file cfg others w
      else
        let '(res, w) := tryWorker other file cfg w in
        match res_err res with
        | None => (res, w)
        | Some _ => try_others self file cfg others w
        end
  end.

Definition processOneFile (wk : workerConn) (file : string) (cfg : Config) (allWorkers : list workerConn) (w : W)
    : workerResult * W :=
  let '(res, w) := tryWorker wk file cfg w in
  match res_err res with
  | None => (res, w)
  | Some _ => try_others wk file cfg allWorkers w
  end.

(** ** Collecting results *)

Record run_state := mkRun {
  rs_todo : list (workerConn * list string);   (* the goroutines *)
  rs_chan : list workerResult;                 (* resultCh, first in first out *)
  rs_seen : gmap Z bool;
  rs_primes : list Z;                          (* collectedPrimes *)
  rs_completed : list string;                  (* completedFiles *)
  rs_client : Client;
  rs_world : W;
}.

(** What [Run] keeps fixed once the goroutines run. *)
Record run_env := mkEnv {
  re_cfg : Config;
  re_inputs : list string;     (* allInputFiles *)
  re_workers : list workerConn;
  re_cap : nat;                (* the capacity of resultCh *)
}.

Definition collect_prime (acc : gmap Z bool * list Z) (p : Z) : gmap Z bool * list Z :=
  let '(seen, collected) := acc in
  if map_bool seen p then (seen, collected) else (<[p := true]> seen, collected ++ [p]).

(** One round of the loop over [resultCh]; the snapshot may fail. *)
Definition handle_result (env : run_env) (res : workerResult) (s : run_state) : outcome run_state :=
  match res_err res with
  | Some _ => Ret s
  | None =>
      let '(seen, collected) := foldl collect_prime (rs_seen s, rs_primes s) (primes res) in
      let completed := rs_completed s ++ [filePath res] in
      let '(httpAddrs, ids) := buildWorkerHTTPAddrs (re_workers env) in
      '(_, client, w) ← InitiateSnapshot flt (rs_client s) (Some completed)
        (appended (filterPending (re_inputs env) completed)) (Some collected) httpAddrs ids (rs_world s);
      Ret (mkRun (rs_todo s) (rs_chan s) seen collected completed client w)
  end.

Inductive action := Work (i : nat) | Recv.

(** A step; [None] when the action is not enabled. *)
Definition do_work (env : run_env) (i : nat) (s : run_state) : option run_state :=
  '(wk, files) ← rs_todo s !! i;
  match files with
  | [] => None
  | file :: files =>
      if decide (length (rs_chan s) < re_cap env) then
        let '(res, w) := processOneFile wk file (re_cfg env) (re_workers env) (rs_world s) in
        Some (mkRun (<[i := (wk, files)]> (rs_todo s)) (rs_chan s ++ [res]) (rs_seen s) (rs_primes s)
                (rs_completed s) (rs_client s) w)
      else None
  end.

Definition do_recv (env : run_env) (s : run_state) : option (workerResult * outcome run_state) :=
  match rs_chan s with
  | [] => None
  | res :: chan =>
      Some (res, handle_result env res
        (mkRun (rs_todo s) chan (rs_seen s) (rs_primes s) (rs_completed s) (rs_client s) (rs_world s)))
  end.

(** Runs of the goroutines, with the results that were received, in order. *)
Inductive steps (env : run_env) : run_state → list workerResult → run_state → Prop :=
  | steps_refl s : steps env s [] s
  | steps_work s i s1 rs s2 :
      do_work env i s = Some s1 → steps env s1 rs s2 → steps env s rs s2
  | steps_recv s res s1 rs s2 :
      do_recv env s = Some (res, Ret s1) → steps env s1 rs s2 → steps env s (res :: rs) s2.

(** The channel is closed and drained: the receiving loop ends. *)
Definition drained (s : run_state) : Prop := rs_chan s = [] ∧ Forall (λ g, g.2 = []) (rs_todo s).

(** An executable schedule. *)
Fixpoint exec (env : run_env) (acts : list action) (s : run_state) : option (list workerResult * run_state) :=
  match acts with
  | [] => Some ([], s)
  | Work i :: acts => s ← do_work env i s; exec env acts s
  | Recv :: acts =>
      '(res, o) ← do_recv env s;
      match o with
      | Ret s => '(rs, s) ← exec env acts s; Some (res :: rs, s)
      | _ => None
      end
  end.

(** ** Run *)

Definition writeFinalOutput (client : Client) (outputFile : string) (ps : list Z) (w : W) : error * Client * W :=
  writeToAFS flt outputFile (output_text (dedupAndSort ps)) client w.

(** The goroutines that [Run] starts: one for each worker with files. *)
Definition goroutines (workers : list workerConn) (m : gmap string (list string)) : list (workerConn * list string) :=
  omap (λ wk, files ← m !! wc_addr wk; Some (wk, files)) workers.

(** [Run] up to the goroutines: it may end before. *)
Definition Run_start (cfg : Config) (cid : string) (d : Disk) (w : W)
    : outcome ((error * W) + (run_env * run_state)) :=
  match NewClient flt (cfg_AfsServers cfg) (cfg_CacheDir cfg) cid d w with
  | (Err e, _, w) => Ret (inl (Some ("AFS connect: " +:+ e), w))
  | (Ok client, _, w) =>
      let '(inputs, client, w) := discoverInputFiles client w in
      if decide (inputs = []) then Ret (inl (Some "no input files found on AFS server", w))
      else
        '(snap, client, w) ← LoadCoordSnapshot flt client w;
        let '(completed, collected) :=
          match snap with
          | Ok (Some s) => (elems (CompletedFiles s), elems (CollectedPrimes s))
          | _ => ([], [])
          end in
        let pending := filterPending inputs completed in
        if decide (pending = []) then
          let '(e, _, w) := writeFinalOutput client (OutputFile cfg) collected w in Ret (inl (e, w))
        else
          match connectToWorkers (WorkerAddrs cfg) w with
          | (Err e, w) => Ret (inl (Some ("connect workers: " +:+ e), w))
          | (Ok workers, w) =>
              assignments ← assignFiles pending workers;
              Ret (inr (mkEnv cfg inputs workers (length pending + 1),
                mkRun (goroutines workers assignments) [] (BuildSeenSet collected) collected completed client w))
          end
  end.

Fixpoint delete_worker_snapshots (workers : list workerConn) (client : Client) (w : W) : Client * W :=
  match workers with
  | [] => (client, w)
  | wk :: workers =>
      let '(client, w) := DeleteWorkerSnapshot flt client (wc_id wk) w in
      delete_worker_snapshots workers client w
  end.

(** The end of [Run], once the channel is drained. *)
Definition Run_finish (env : run_env) (s : run_state) : error * W :=
  match writeFinalOutput (rs_client s) (OutputFile (re_cfg env)) (rs_primes s) (rs_world s) with
  | (Some e, _, w) => (Some e, w)
  | (None, client, w) =>
      let '(client, w) := DeleteCoordSnapshot flt client w in
      let '(_, w) := delete_worker_snapshots (re_workers env) client w in
      (None, w)
  end.

(** A complete run. *)
Inductive Run (cfg : Config) (cid : string) (d : Disk) (w : W) : error * W → Prop :=
  | Run_early r : Run_start cfg cid d w = Ret (inl r) → Run cfg cid d w r
  | Run_full env s rs s' :
      Run_start cfg cid d w = Ret (inr (env, s)) → steps env s rs s' → drained s' →
      Run cfg cid d w (Run_finish env s').

End Coordinator.

Arguments run_state W : clear implicits.
