(* ===== verification/CoordSpec.v ===== *)
(** * What the operations of the coordinator do

    Lemmas on Coordinator.v: the helpers on lists, the assignment of files, the
    retry over workers, and what a step keeps. *)

From S2P Require Import Prelude GoLib GoText Json JsonCodec Disk AfsProto Server Cache Client AfsSpec SnapshotIO Snapshot SnapshotProps MillerRabin Worker WorkerProps Coordinator.

(** ** Sets as maps *)

Lemma filterPending_spec all completed : filterPending all completed = filter (λ f, f ∉ completed) all.
Proof.
  unfold filterPending. apply list_filter_iff. intros f.
  assert (E : ∀ l m, foldl (λ (m : gmap string bool) f, <[f := true]> m) m l !! f =
    if decide (f ∈ l) then Some true else m !! f).
  { induction l as [|g l IH]; intros m; simpl; [done|]. rewrite IH, lookup_insert.
    repeat case_decide; set_solver. }
  rewrite E, lookup_empty. case_decide; simpl; naive_solver.
Qed.

Lemma elem_of_filterPending f all completed : f ∈ filterPending all completed ↔ f ∈ all ∧ f ∉ completed.
Proof. rewrite filterPending_spec, list_elem_of_filter. naive_solver. Qed.

Lemma filterPending_nil all : filterPending all [] = all.
Proof.
  rewrite filterPending_spec. induction all as [|f all IH]; [done|].
  rewrite filter_cons_True by apply not_elem_of_nil. by rewrite IH.
Qed.

Lemma filterPending_length all completed : length (filterPending all completed) ≤ length all.
Proof. rewrite filterPending_spec. apply length_filter. Qed.

Lemma BuildSeenSet_seen ps : seen_set (BuildSeenSet ps) ps.
Proof. intros x. apply BuildSeenSet_lookup. Qed.

Lemma seen_set_keys `{!MapOrder} m l p : seen_set m l → p ∈ map_order m ↔ p ∈ l.
Proof.
  intros Hm. rewrite map_order_keys, list_elem_of_fmap. split.
  - intros ([k b] & -> & Hin%elem_of_map_to_list). rewrite Hm in Hin. simpl. by case_decide.
  - intros Hp. exists (p, true). split; [done|]. apply elem_of_map_to_list. by rewrite Hm, decide_True.
Qed.

Lemma map_order_NoDup `{!MapOrder} m : NoDup (map_order m).
Proof. rewrite map_order_keys. apply NoDup_fst_map_to_list. Qed.

(** ** The sorted output *)

Lemma dedupAndSort_perm `{!MapOrder} ps :
  dedupAndSort ps ≡ₚ map_order (BuildSeenSet ps).
Proof. apply merge_sort_Permutation. Qed.

Lemma elem_of_dedupAndSort `{!MapOrder} p ps : p ∈ dedupAndSort ps ↔ p ∈ ps.
Proof. rewrite dedupAndSort_perm. apply seen_set_keys, BuildSeenSet_seen. Qed.

Lemma NoDup_dedupAndSort `{!MapOrder} ps : NoDup (dedupAndSort ps).
Proof. rewrite dedupAndSort_perm. apply map_order_NoDup. Qed.

Lemma Sorted_dedupAndSort `{!MapOrder} ps : Sorted Z.le (dedupAndSort ps).
Proof. apply Sorted_merge_sort, _. Qed.

(** Two lists with the same elements give the same output. *)
Lemma dedupAndSort_ext `{!MapOrder} ps qs :
  (∀ p, p ∈ ps ↔ p ∈ qs) → dedupAndSort ps = dedupAndSort qs.
Proof.
  intros Hel. apply (Sorted_unique Z.le); [apply Sorted_dedupAndSort..|].
  apply NoDup_Permutation; [apply NoDup_dedupAndSort..|]. intros p. by rewrite !elem_of_dedupAndSort.
Qed.

(** ** The assignment of files *)

(** The files at the positions that are [j] modulo [k]; [i] is the position of
    the first one. *)
Fixpoint share (k j i : nat) (files : list string) : list string :=
  match files with
  | [] => []
  | f :: files => if decide (i mod k = j) then f :: share k j (S i) files else share k j (S i) files
  end.

Lemma assign_loop_spec workers files i m :
  NoDup (wc_addr <$> workers) → workers ≠ [] →
  ∃ m', assign_loop workers files i m = Ret m' ∧
    ∀ j w, workers !! j = Some w →
      default [] (m' !! wc_addr w) = default [] (m !! wc_addr w) ++ share (length workers) j i files.
Proof.
  intros Hnd Hne. revert i m. induction files as [|f files IH]; intros i m; simpl.
  { exists m. split; [done|]. intros j w _. by rewrite app_nil_r. }
  rewrite decide_False by done. assert (Hk : length workers ≠ 0) by (by destruct workers).
  destruct (lookup_lt_is_Some_2 workers (i mod length workers)) as [w Hw]; [by apply Nat.mod_upper_bound|].
  rewrite Hw. destruct (IH (S i) (<[wc_addr w := default [] (m !! wc_addr w) ++ [f]]> m)) as (m' & -> & Hm').
  exists m'. split; [done|]. intros j w' Hj. rewrite (Hm' j w' Hj).
  assert (Heq : wc_addr w = wc_addr w' ↔ i mod length workers = j).
  { split; [|intros Ej; rewrite Ej in Hw; by simplify_eq].
    intros E. eapply (NoDup_lookup (wc_addr <$> workers)); [done| |by rewrite list_lookup_fmap, Hj].
    rewrite list_lookup_fmap, Hw. simpl. by rewrite E. }
  case_decide as Hd.
  - apply Heq in Hd. rewrite Hd, lookup_insert_eq. simpl. by rewrite <- app_assoc.
  - rewrite lookup_insert_ne by naive_solver. done.
Qed.

(** Every file goes to exactly one worker. *)
Lemma shares_perm k i files :
  k ≠ 0 → concat ((λ j, share k j i files) <$> seq 0 k) ≡ₚ files.
Proof.
  intros Hk. revert i. induction files as [|f files IH]; intros i.
  { simpl. induction (seq 0 k) as [|j l IHl]; [done|]. simpl. done. }
  pose proof (Nat.mod_upper_bound i k Hk) as Hlt.
  assert (Hadd : ∀ l, NoDup l → concat ((λ j, share k j i (f :: files)) <$> l) ≡ₚ
    (if decide (i mod k ∈ l) then [f] else []) ++ concat ((λ j, share k j (S i) files) <$> l)).
  { induction l as [|j l IHl]; intros Hl; [done|]. apply NoDup_cons in Hl as [Hj Hl]. specialize (IHl Hl).
    rewrite !fmap_cons. cbn [concat]. rewrite IHl. cbn [share].
    destruct (decide (i mod k = j)) as [<-|Hne].
    - rewrite (decide_False (P := i mod k ∈ l)), decide_True by set_solver. done.
    - destruct (decide (i mod k ∈ l)).
      + rewrite decide_True by set_solver. simpl. by rewrite Permutation_middle.
      + rewrite decide_False by set_solver. done. }
  rewrite Hadd by apply NoDup_seq. rewrite decide_True by (apply elem_of_seq; lia). simpl. by rewrite IH.
Qed.

Lemma goroutines_files workers (m : gmap string (list string)) :
  concat (snd <$> goroutines workers m) = concat ((λ w, default [] (m !! wc_addr w)) <$> workers).
Proof.
  unfold goroutines. induction workers as [|w ws IH]; [done|]. rewrite fmap_cons. cbn [omap list_omap concat].
  destruct (m !! wc_addr w) as [fs|]; [cbn; by rewrite <- IH|exact IH].
Qed.

Lemma goroutines_perm files workers m :
  NoDup (wc_addr <$> workers) → workers ≠ [] → assignFiles files workers = Ret m →
  concat (snd <$> goroutines workers m) ≡ₚ files.
Proof.
  intros Hnd Hne E. destruct (assign_loop_spec workers files 0 ∅ Hnd Hne) as (m' & E' & Hm).
  unfold assignFiles in E. rewrite E' in E. injection E as ->. rewrite goroutines_files.
  etrans; [|apply (shares_perm (length workers) 0 files); by destruct workers].
  apply reflexive_eq. f_equal. apply list_eq. intros j. rewrite !list_lookup_fmap.
  destruct (workers !! j) as [w|] eqn:Hj; simpl.
  - apply lookup_lt_Some in Hj as Hlt. rewrite lookup_seq_lt by done. simpl. rewrite (Hm j w Hj), lookup_empty. done.
  - rewrite lookup_seq_ge; [done|]. by apply lookup_ge_None.
Qed.

(** ** One file *)

Section Files.
  Context {W : Type} `{!WorkerService W}.

Lemma recv_chunks_file wid file ms rend ps n e : filePath (recv_chunks wid file ms rend ps n e) = file.
Proof.
  revert ps n e. induction ms as [|m ms IH]; intros ps n e; simpl; [by destruct rend|].
  case_decide; [done|apply IH].
Qed.

(** The result of a stream: all primes of a stream without errors, nothing of
    another. *)
Lemma recv_chunks_spec wid file ms rend ps n e :
  let r := recv_chunks wid file ms rend ps n e in
  (res_err r = None ↔ rend = None ∧ Forall (λ m, Error m = "") ms) ∧
  primes r = (if decide (res_err r = None) then ps ++ concat (Primes <$> ms) else []).
Proof.
  revert ps n e. induction ms as [|m ms IH]; intros ps n e; simpl.
  - destruct rend; simpl; [naive_solver|]. rewrite app_nil_r. split; [|done]. by split.
  - case_decide as Hm; simpl.
    + split; [|done]. split; [done|]. intros [_ Hf]. by apply Forall_cons in Hf as [? _].
    + destruct (IH (ps ++ Primes m) (if (Count m >? 0)%Z then Count m else n)
        (if (ElapsedMs m >? 0)%Z then ElapsedMs m else e)) as [Hi Hp].
      rewrite <- app_assoc in Hp. split; [|done]. rewrite Hi, Forall_cons.
      assert (Error m = "") by (destruct (decide (Error m = "")); [done|by destruct Hm]). naive_solver.
Qed.

Lemma tryWorker_file wk file cfg (w : W) : filePath (tryWorker wk file cfg w).1 = file.
Proof.
  unfold tryWorker. destruct (wk_ProcessFile _ _ w) as [[s|e] w1]; [apply recv_chunks_file|done].
Qed.

Lemma try_others_file self file cfg others (w : W) : filePath (try_others self file cfg others w).1 = file.
Proof.
  revert w. induction others as [|o os IH]; intros w; simpl; [done|]. case_decide; [apply IH|].
  pose proof (tryWorker_file o file cfg w) as Hf. destruct (tryWorker o file cfg w) as [res w1].
  destruct (res_err res); [apply IH|done].
Qed.

Lemma processOneFile_file wk file cfg all (w : W) : filePath (processOneFile wk file cfg all w).1 = file.
Proof.
  unfold processOneFile. pose proof (tryWorker_file wk file cfg w) as Hf.
  destruct (tryWorker wk file cfg w) as [res w1]. destruct (res_err res); [apply try_others_file|done].
Qed.

(** ** Steps *)

(** The calls to the workers keep a property of the world. *)
Lemma try_others_keeps (P : W → Prop) self file cfg others w :
  (∀ o w, o ∈ others → P w → P (wk_ProcessFile (wc_addr o) (process_request o file cfg) w).2) →
  P w → P (try_others self file cfg others w).2.
Proof.
  revert w. induction others as [|o os IH]; intros w HP Hw; simpl; [done|].
  assert (HP' : ∀ o w, o ∈ os → P w → P (wk_ProcessFile (wc_addr o) (process_request o file cfg) w).2)
    by (intros o' w' Ho'; apply HP; by right).
  case_decide; [by apply IH|]. unfold tryWorker. pose proof (HP o w ltac:(by left) Hw) as H1.
  destruct (wk_ProcessFile _ _ w) as [[s|e] w1]; simpl; [|by apply IH].
  destruct (res_err _); [by apply IH|done].
Qed.

Lemma processOneFile_keeps (P : W → Prop) wk file cfg all w :
  (∀ o w, o ∈ wk :: all → P w → P (wk_ProcessFile (wc_addr o) (process_request o file cfg) w).2) →
  P w → P (processOneFile wk file cfg all w).2.
Proof.
  intros HP Hw. unfold processOneFile, tryWorker. pose proof (HP wk w ltac:(by left) Hw) as H1.
  assert (HP' : ∀ o w, o ∈ all → P w → P (wk_ProcessFile (wc_addr o) (process_request o file cfg) w).2)
    by (intros o' w' Ho'; apply HP; by right).
  destruct (wk_ProcessFile _ _ w) as [[s|e] w1]; simpl; [|by apply try_others_keeps].
  destruct (res_err _); [by apply try_others_keeps|done].
Qed.

End Files.

(** ** Collecting *)

Lemma collect_primes_spec ps m l :
  seen_set m l →
  ∃ m', foldl collect_prime (m, l) ps = (m', l ++ firsts l ps) ∧ seen_set m' (l ++ firsts l ps).
Proof.
  revert m l. induction ps as [|p ps IH]; intros m l Hm; simpl; [exists m; by rewrite app_nil_r|].
  rewrite (seen_set_bool _ _ p Hm). case_decide as Hp.
  - rewrite bool_decide_true by done. by apply IH.
  - rewrite bool_decide_false by done. destruct (IH _ _ (seen_set_snoc _ _ p Hm)) as (m' & E & Hm').
    rewrite <- app_assoc in E, Hm'. simpl in E, Hm'. rewrite (firsts_seen _ (p :: l)) in E, Hm' by set_solver.
    by exists m'.
Qed.

Lemma marker_loop_returns {W} `{!SnapshotNet W} addrs ids i chans sent acked (w : W) :
  i + length addrs <= length ids → ∃ cs s a, marker_loop addrs ids i chans sent acked w = Ret (cs, s, a, (posts addrs w).2).
Proof.
  revert i chans sent acked w. induction addrs as [|a addrs IH]; intros i chans sent acked w Hlen;
    cbn [marker_loop posts length] in *; [by eexists _, _, _|].
  destruct (lookup_lt_is_Some_2 ids i) as [id Hid]; [lia|]. rewrite Hid. unfold sendMarker.
  destruct (net_Post _ w) as [[e|] w1].
  - destruct (IH (S i) (chans ++ [mkChannelState id 0]) (i64 (sent + 1)) acked w1) as (cs & s & a' & ->); [lia|].
    destruct (posts addrs w1). by eexists _, _, _.
  - destruct (IH (S i) (chans ++ [mkChannelState id 0]) (i64 (sent + 1)) (i64 (acked + 1)) w1) as (cs & s & a' & ->); [lia|].
    destruct (posts addrs w1). by eexists _, _, _.
Qed.

(** ** Runs *)

Section Runs.
  Context (flt : OsFaults) {W : Type} `{!AfsService W, !SnapshotNet W, !WorkerService W}.

Definition ok_results (rs : list workerResult) : list workerResult := filter (λ r, res_err r = None) rs.

(** The set of collected primes is the map of seen ones. *)
Definition run_inv (s : run_state W) : Prop := seen_set (rs_seen s) (rs_primes s).

(** The snapshot that a state stands for. *)
Record snapshot_of (env : run_env) (s : run_state W) (snap : CoordSnapshot) : Prop := {
  sn_completed : CompletedFiles snap = Some (rs_completed s);
  sn_pending : PendingFiles snap = appended (filterPending (re_inputs env) (rs_completed s));
  sn_primes : CollectedPrimes snap = Some (rs_primes s);
  sn_markers : (Z.of_nat (length (re_workers env)) < 2 ^ 62)%Z →
    ChannelStates snap = Some (map (λ id, mkChannelState id 0) (map wc_id (re_workers env))) ∧
    is_nat63 (MarkersSent snap) ∧ is_nat63 (MarkersAcked snap);
  sn_time : ∃ w : W, TimestampUnix snap = time_Unix w;
}.

(** The snapshot that a marker round ends with. *)
Lemma snapshot_of_markers env s cs sent acked (w w1 w2 : W) :
  marker_loop (buildWorkerHTTPAddrs (re_workers env)).1 (buildWorkerHTTPAddrs (re_workers env)).2 0 [] 0 0 w =
    Ret (cs, sent, acked, w1) →
  snapshot_of env s (mkCoordSnapshot (Some (rs_completed s)) (appended (filterPending (re_inputs env) (rs_completed s)))
    (Some (rs_primes s)) (Some cs) sent acked (time_Unix w2)).
Proof.
  cbn [buildWorkerHTTPAddrs fst snd]. intros Em. split; [done..| |by eexists]. intros Hlen. cbn [ChannelStates MarkersSent MarkersAcked].
  rewrite (marker_loop_spec _ _ 0 [] 0) in Em by (rewrite ?length_map; done || lia).
  injection Em as <- <- <-. split; [done|]. unfold is_nat63. rewrite length_map.
  pose proof (length_filter (λ e, e = None)
    (posts (map (λ w, worker_http_addr (wc_addr w)) (re_workers env)) w).1) as Ha.
  rewrite posts_length, length_map in Ha. unfold acks. lia.
Qed.

Lemma handle_result_spec env res s :
  run_inv s →
  ∃ s', handle_result flt env res s = Ret s' ∧ run_inv s' ∧ rs_todo s' = rs_todo s ∧ rs_chan s' = rs_chan s ∧
    (res_err res ≠ None ∧ s' = s ∨
     res_err res = None ∧ rs_primes s' = rs_primes s ++ firsts (rs_primes s) (primes res) ∧
     rs_completed s' = rs_completed s ++ [filePath res] ∧
     ∃ snap e w1, snapshot_of env s' snap ∧ w1 = (posts (buildWorkerHTTPAddrs (re_workers env)).1 (rs_world s)).2 ∧
       SaveCoordSnapshot flt (rs_client s) snap w1 = (e, rs_client s', rs_world s')).
Proof.
  intros Hs. unfold handle_result. destruct (res_err res) as [x|]; [exists s; naive_solver|].
  destruct (collect_primes_spec (primes res) _ _ Hs) as (m' & -> & Hm').
  unfold InitiateSnapshot. cbn [buildWorkerHTTPAddrs].
  destruct (marker_loop_returns (map (λ w, worker_http_addr (wc_addr w)) (re_workers env))
    (map wc_id (re_workers env)) 0 [] 0 0 (rs_world s)) as (cs & sn & a & Em); [by rewrite !length_map|].
  rewrite Em. go_step. destruct (SaveCoordSnapshot flt _ _ _) as [[e c] w'] eqn:E. go_step.
  eexists. split; [done|]. split; [done|]. split; [done|]. split; [done|]. right. split; [done|]. split; [done|].
  split; [done|]. eexists _, e, _. split; [|split; [done|exact E]]. by eapply snapshot_of_markers.
Qed.

Lemma steps_collected env s rs s' :
  run_inv s → steps flt env s rs s' →
  run_inv s' ∧ rs_completed s' = rs_completed s ++ (filePath <$> ok_results rs) ∧
  ∀ p, p ∈ rs_primes s' ↔ p ∈ rs_primes s ∨ ∃ r, r ∈ ok_results rs ∧ p ∈ primes r.
Proof.
  intros Hs Hst. induction Hst as [s|s i s1 rs s2 Hw _ IH|s res s1 rs s2 Hr _ IH].
  - split; [done|]. split; [by rewrite app_nil_r|]. set_solver.
  - unfold do_work in Hw. destruct (rs_todo s !! i) as [[wk [|f fs]]|]; simpl in Hw; try done.
    case_decide; [|done]. destruct (processOneFile _ _ _ _ _) as [res w]. injection Hw as <-.
    by apply IH.
  - unfold do_recv in Hr. destruct (rs_chan s) as [|r chan]; [done|]. injection Hr as -> Hr.
    destruct (handle_result_spec env res
      (mkRun (rs_todo s) chan (rs_seen s) (rs_primes s) (rs_completed s) (rs_client s) (rs_world s)) Hs)
      as (s1' & E & Hs1 & _ & _ & Hcase). rewrite E in Hr. injection Hr as ->.
    destruct (IH Hs1) as (Hs2 & Hc & Hp). split; [done|]. unfold ok_results in *. rewrite filter_cons.
    destruct Hcase as [[Hne ->]|(He & Hps & Hcs & _)]; simpl in *.
    + rewrite (decide_False (P := res_err res = None)) by done. done.
    + rewrite (decide_True (P := res_err res = None)) by done. rewrite Hc, Hcs, <- app_assoc. split; [done|].
      intros p. rewrite Hp, Hps, elem_of_app, elem_of_firsts. setoid_rewrite elem_of_cons.
      destruct (decide (p ∈ rs_primes s)); naive_solver.
Qed.

Definition todo_files (todo : list (workerConn * list string)) : list string := concat (snd <$> todo).

Lemma todo_files_take todo i wk f fs :
  todo !! i = Some (wk, f :: fs) → todo_files todo ≡ₚ f :: todo_files (<[i := (wk, fs)]> todo).
Proof.
  unfold todo_files. revert i. induction todo as [|[wk' gs] todo IH]; intros [|i]; [done..| |]; simpl; intros H.
  - by simplify_eq.
  - rewrite (IH i H). by rewrite Permutation_middle.
Qed.

(** No file is lost or duplicated. *)
Lemma steps_files env s rs s' :
  steps flt env s rs s' →
  (filePath <$> rs) ++ (filePath <$> rs_chan s') ++ todo_files (rs_todo s') ≡ₚ
  (filePath <$> rs_chan s) ++ todo_files (rs_todo s).
Proof.
  induction 1 as [s|s i s1 rs s2 Hw _ IH|s res s1 rs s2 Hr _ IH]; [done|..].
  - rewrite IH. unfold do_work in Hw. destruct (rs_todo s !! i) as [[wk [|f fs]]|] eqn:Hi; simpl in Hw; try done.
    case_decide; [|done]. pose proof (processOneFile_file wk f (re_cfg env) (re_workers env) (rs_world s)) as Hf.
    destruct (processOneFile _ _ _ _ _) as [res w]. injection Hw as <-. simpl in *.
    rewrite (todo_files_take _ _ _ _ _ Hi), fmap_app, <- app_assoc. simpl. by rewrite Hf.
  - unfold do_recv in Hr. destruct (rs_chan s) as [|r chan]; [done|]. injection Hr as -> Hr.
    simpl. rewrite IH. unfold handle_result in Hr. destruct (res_err res); [by injection Hr as <-|].
    destruct (foldl _ _ _) as [m l]. destruct (buildWorkerHTTPAddrs _) as [aa ii].
    apply outcome_bind_inv in Hr as ([[e c] w] & _ & Hr). by injection Hr as <-.
Qed.

Lemma todo_files_nil todo : Forall (λ g : workerConn * list string, g.2 = []) todo → todo_files todo = [].
Proof. unfold todo_files. induction 1 as [|[wk fs] todo H _ IH]; simpl in *; [done|by subst]. Qed.

(** A complete run received one result for every file. *)
Lemma drained_files env s rs s' :
  steps flt env s rs s' → drained s' → rs_chan s = [] → filePath <$> rs ≡ₚ todo_files (rs_todo s).
Proof.
  intros Hst [Hc Ht] Hs. pose proof (steps_files _ _ _ _ Hst) as Hp.
  rewrite Hc, Hs, (todo_files_nil _ Ht) in Hp. simpl in Hp. by rewrite app_nil_r in Hp.
Qed.

(** ** A state that [Run_start] prepares *)

Record started (cfg : Config) (env : run_env) (s : run_state W) : Prop := {
  st_cfg : re_cfg env = cfg;
  st_chan : rs_chan s = [];
  st_inv : run_inv s;
  st_todo : todo_files (rs_todo s) ≡ₚ filterPending (re_inputs env) (rs_completed s);
  st_cap : 0 < re_cap env;
}.

Lemma connect_workers_addrs addrs i (w : W) : sublist (wc_addr <$> (connect_workers_loop addrs i w).1) addrs.
Proof.
  revert i w. induction addrs as [|a addrs IH]; intros i w; simpl; [done|].
  destruct (wk_dial a); [|by apply sublist_cons].
  destruct (wk_Health a _ w) as [[resp|e] w1]; [|by apply sublist_cons].
  specialize (IH (i + 1)%Z w1). destruct (connect_workers_loop addrs (i + 1) w1) as [ws w2]. simpl in *.
  destruct (Alive resp); simpl; [by apply sublist_skip|by apply sublist_cons].
Qed.

Lemma Run_start_started `{!MapOrder} cfg cid d w env s :
  NoDup (WorkerAddrs cfg) → Run_start flt cfg cid d w = Ret (inr (env, s)) → started cfg env s.
Proof.
  intros Hnd. unfold Run_start. destruct (NewClient _ _ _ _ _ _) as [[[c|e] d0] w0]; [|done].
  destruct (discoverInputFiles _ _ _) as [[inputs c1] w1]. case_decide; [done|].
  intros Hb. apply outcome_bind_inv in Hb as ([[snap c2] w2] & _ & Hb).
  set (cc := match snap with Ok (Some s) => _ | _ => _ end) in Hb. destruct cc as [completed collected].
  case_decide as Hp; [by destruct (writeFinalOutput _ _ _ _ _) as [[e c3] w3]|].
  unfold connectToWorkers in Hb. pose proof (connect_workers_addrs (WorkerAddrs cfg) 0 w2) as Hsub.
  destruct (connect_workers_loop _ _ _) as [ws w3]. simpl in Hsub.
  destruct ws as [|wk ws]; [done|]. apply outcome_bind_inv in Hb as (m & Hm & [= <- <-]).
  split; [done|done|apply BuildSeenSet_seen| |cbn [re_cap]; lia]. unfold todo_files.
  cbn [rs_todo re_inputs rs_completed]. refine (goroutines_perm _ (wk :: ws) m _ _ Hm); [by eapply sublist_NoDup|done].
Qed.

End Runs.
