(* ===== verification/CoordAfs.v ===== *)
(** * The coordinator on a file service that keeps its laws

    [WorkerLaws] is what the coordinator relies on when it calls a worker: the
    call may change files and use the service, but keeps the servers that are
    ready, the coordinator's unused numbers and the output names.  Under it the
    client of the coordinator works through the whole run ([client_ready]). *)

From S2P Require Import Prelude GoLib GoText Json JsonCodec Disk AfsProto Server Cache Client AfsSpec SnapshotIO Snapshot SnapshotProps MillerRabin Worker WorkerProps Coordinator CoordSpec.

Class WorkerLaws (W : Type) `{!AfsView W, !SnapshotNet W, !WorkerService W} := {
  wl_inv : W → Prop;                                (* the workers are in good order *)
  wl_up : string → Prop;                            (* a worker serves at the address *)
  wl_asked : string → ProcessFileRequest → Prop;    (* what it may be asked *)
  wl_reads : string → Prop;                         (* a file that the workers read *)
  wl_writes : string → Prop;                        (* a file that the workers write *)
  wl_client : string → Prop;                        (* the id of a client of a worker *)
  law_process a req (w : W) :
    wl_inv w → wl_up a → wl_asked a req →
    wl_inv (wk_ProcessFile a req w).2 ∧ others_keep wl_client wl_writes w (wk_ProcessFile a req w).2;
  law_health a req (w : W) :
    wl_inv w → wl_inv (wk_Health a req w).2 ∧ others_keep wl_client wl_writes w (wk_Health a req w).2 ∧
    ∀ resp, (wk_Health a req w).1 = Ok resp → Alive resp = true → wl_up a;
  law_post url (w : W) :
    wl_inv w → wl_inv (net_Post url w).2 ∧ others_keep wl_client wl_writes w (net_Post url w).2;
  law_effect cid ps (w w' : W) :
    ¬ wl_client cid → svc_effect cid ps w w' → (∀ p, p ∈ ps → ¬ wl_reads p) → wl_inv w → wl_inv w';
}.

(** Workers that answer, with the primes of the files. *)
Class WorkerServes (W : Type) (primes_of : string → list Z)
    `{!AfsView W, !SnapshotNet W, !WorkerService W, !WorkerLaws W} := {
  law_serves a req (w : W) :
    wl_inv w → wl_up a → wl_asked a req →
    ∃ ms, (wk_ProcessFile a req w).1 = Ok (mkRecv ms None) ∧ Forall (λ m, Error m = "") ms ∧
      ∀ p, p ∈ concat (Primes <$> ms) ↔ p ∈ primes_of (FilePath req);
  law_alive a req (w : W) :
    wl_inv w → wl_up a → wk_dial a = true ∧ ∃ resp, (wk_Health a req w).1 = Ok resp ∧ Alive resp = true;
}.

Section CoordAfs.
  Context {W : Type} (cid : string).
  Context `{!AfsService W, !AfsView W, !AfsLaws W, !SnapshotNet W, !WorkerService W, !WorkerLaws W}.

(** What the calls to the workers keep, for workers in good order. *)
Definition workers_keep (w w' : W) : Prop := wl_inv w' ∧ others_keep wl_client wl_writes w w'.

Lemma workers_keep_trans (w1 w2 w3 : W) : workers_keep w1 w2 → workers_keep w2 w3 → workers_keep w1 w3.
Proof. intros [_ H1] [Hi H2]. split; [done|]. by etrans. Qed.

Lemma client_ok_others c (w w' : W) :
  ¬ wl_client (clientId c) → others_keep wl_client wl_writes w w' → client_ok c w → client_ok c w'.
Proof.
  intros Hid Hk [(a & Hc & Hr) Hu Hs Hwf Hus Hpast].
  split; [exists a; split; [done|by apply Hk]|by apply Hk|done..|by apply Hk].
Qed.

Lemma posts_keep addrs (w : W) : wl_inv w → workers_keep w (posts addrs w).2.
Proof.
  revert w. induction addrs as [|a addrs IH]; intros w Hw; simpl; [done|].
  pose proof (law_post ("http://" +:+ a +:+ "/snapshot") w Hw) as H1.
  destruct (net_Post _ w) as [e w1]. specialize (IH w1 (proj1 H1)). destruct (posts addrs w1) as [es w2].
  by eapply workers_keep_trans.
Qed.

(** Every worker that [processOneFile] can ask may be asked for the file. *)
Definition may_ask (cfg : Config) (wk : workerConn) (all : list workerConn) (file : string) : Prop :=
  ∀ o, o ∈ wk :: all → wl_up (wc_addr o) ∧ wl_asked (wc_addr o) (process_request o file cfg).

Lemma processOneFile_others wk file cfg all (w : W) :
  may_ask cfg wk all file → wl_inv w → workers_keep w (processOneFile wk file cfg all w).2.
Proof.
  intros Hask Hw. apply (processOneFile_keeps (workers_keep w)); [|done].
  intros o w' Ho Hw'. destruct (Hask o Ho) as [Hup Hreq]. eapply workers_keep_trans; [exact Hw'|].
  apply law_process; [apply Hw'|done..].
Qed.

(** The client works, has numbers for [budget] more calls, and may use the
    names [ns]. *)
Record client_ready (ns : list string) (budget : Z) (c : Client) (w : W) : Prop := {
  cr_ok : client_ok c w;
  cr_id : clientId c = cid;
  cr_seq : (reqSeq c + budget < 2 ^ 63 - 1)%Z;
  cr_names : ∀ n, n ∈ ns → svc_name w n ∧ local_free c n ∧ ¬ wl_reads n;
  cr_inv : wl_inv w;
  cr_client : ¬ wl_client cid;
}.

Lemma client_ready_budget ns k k' c (w : W) : (k' ≤ k)%Z → client_ready ns k c w → client_ready ns k' c w.
Proof. intros Hk [H1 H2 H3 H4 H5 H6]. split; [done|done|lia|done..]. Qed.

Lemma client_ready_others ns k c (w w' : W) :
  workers_keep w w' → client_ready ns k c w → client_ready ns k c w'.
Proof.
  intros [Hi Hk] [H1 H2 H3 H4 H5 H6]. split; [eapply client_ok_others; [by rewrite H2|done..]|done|done| |done|done].
  intros n Hn. destruct (H4 n Hn) as (Hname & Hl & Hrd). split; [by apply Hk|done].
Qed.

(** After an operation of the client on the files [ps]. *)
Lemma client_ready_next ns ps k used c c' (w w' : W) :
  client_ready ns (k + used) c w → client_ok c' w' → same_client c c' → reqSeq c' = (reqSeq c + used)%Z →
  svc_effect cid ps w w' → ps ⊆ ns → client_ready ns k c' w'.
Proof.
  intros [H1 H2 H3 H4 H5 H6] Hok Hs Hq He Hps. pose proof Hs as (_ & Hid & _).
  split; [done|congruence|lia| | |done].
  - intros n Hin. destruct (H4 n Hin) as (Hname & Hl & Hrd).
    split; [by apply He|]. split; [by eapply same_client_free|done].
  - eapply law_effect; [exact H6|exact He| |done]. intros p Hp. by apply H4, Hps.
Qed.

Lemma writeToAFS_ready ns k c (w : W) p data :
  p ∈ ns → may_write W p data → client_ready ns (k + 3) c w → data ≠ [] → (0 ≤ k)%Z →
  ∃ v c' w', writeToAFS no_faults p data c w = (None, c', w') ∧ client_ready ns k c' w' ∧
    svc_file w' p = Some (data, v) ∧ svc_effect cid [p] w w'.
Proof.
  intros Hp Hm Hr Hne Hk. pose proof Hr as [H1 H2 H3 H4 H5 H6]. destruct (H4 p Hp) as (Hname & Hl & _).
  destruct (writeToAFS_ok c w p data H1 Hname Hm Hl) as (v & c' & w' & E & Hok & Hs & Hf & Heff & Hq & _); [lia|done|].
  rewrite H2 in Heff. exists v, c', w'. split; [done|]. split; [|done].
  apply (client_ready_next ns [p] k 3 c c' w w'); [done..|set_solver].
Qed.

Lemma Marshal_coord_ne snap : Marshal CoordSnapshot_codec snap ≠ [].
Proof. done. Qed.

(** The snapshot of the state may be saved. *)
Definition may_save (env : run_env) (s : run_state W) : Prop :=
  ∀ snap, snapshot_of env s snap → may_write W CoordSnapshotFile (Marshal CoordSnapshot_codec snap).

Lemma handle_result_ready ns k env res s s' :
  CoordSnapshotFile ∈ ns → (0 ≤ k)%Z → run_inv s → may_save env s' →
  client_ready ns (k + 3) (rs_client s) (rs_world s) → handle_result no_faults env res s = Ret s' →
  client_ready ns k (rs_client s') (rs_world s').
Proof.
  intros Hin Hk Hinv Hsv Hr E. destruct (handle_result_spec no_faults env res s Hinv) as (s1 & E1 & _ & _ & _ & Hcase).
  rewrite E in E1. injection E1 as <-. destruct Hcase as [[_ ->]|(_ & _ & _ & snap & e & w1 & Hsn & Hw1 & Hsave)].
  - eapply client_ready_budget; [|exact Hr]. lia.
  - pose proof (client_ready_others _ _ _ _ _
      (posts_keep (buildWorkerHTTPAddrs (re_workers env)).1 (rs_world s) (cr_inv _ _ _ _ Hr)) Hr) as Hr1.
    rewrite <- Hw1 in Hr1.
    destruct (writeToAFS_ready ns k _ w1 CoordSnapshotFile _ Hin (Hsv snap Hsn) Hr1 (Marshal_coord_ne snap) Hk) as (v & c' & w' & Ew & Hr' & _).
    unfold SaveCoordSnapshot in Hsave. rewrite Ew in Hsave. by injection Hsave as <- <- <-.
Qed.

(** Three calls are needed for every result to come. *)
Definition to_come (s : run_state W) : Z := Z.of_nat (length (rs_chan s) + length (todo_files (rs_todo s))).

(** The files that are left may be asked for. *)
Definition may_run (env : run_env) (todo : list (workerConn * list string)) : Prop :=
  ∀ wk fs f, (wk, fs) ∈ todo → f ∈ fs → may_ask (re_cfg env) wk (re_workers env) f.

Lemma may_run_take env todo i wk f fs :
  may_run env todo → todo !! i = Some (wk, f :: fs) →
  may_ask (re_cfg env) wk (re_workers env) f ∧ may_run env (<[i := (wk, fs)]> todo).
Proof.
  intros Hm Hi. pose proof (list_elem_of_lookup_2 _ _ _ Hi) as Hin. split; [eapply Hm; [exact Hin|by left]|].
  intros wk' fs' f' [j Hj]%list_elem_of_lookup Hf'. apply list_lookup_insert_Some in Hj.
  destruct Hj as [(_ & [= <- <-] & _)|[_ Hj]]; [|eapply Hm; [by eapply list_elem_of_lookup_2|done]].
  eapply Hm; [exact Hin|by right].
Qed.

(** A state from which the run goes on: [k] calls are kept for its end. *)
Record going (ns : list string) (k : Z) (env : run_env) (s : run_state W) : Prop := {
  go_inv : run_inv s;
  go_may : may_run env (rs_todo s);
  go_ready : client_ready ns (k + 3 * to_come s) (rs_client s) (rs_world s);
}.

(** A round of a goroutine: its worker and file, and the result it sends. *)
Lemma do_work_going ns k env i s s1 :
  going ns k env s → do_work env i s = Some s1 →
  going ns k env s1 ∧ ∃ wk f, may_ask (re_cfg env) wk (re_workers env) f ∧
    rs_chan s1 = rs_chan s ++ [(processOneFile wk f (re_cfg env) (re_workers env) (rs_world s)).1] ∧
    rs_world s1 = (processOneFile wk f (re_cfg env) (re_workers env) (rs_world s)).2 ∧
    todo_files (rs_todo s) ≡ₚ f :: todo_files (rs_todo s1) ∧
    rs_completed s1 = rs_completed s ∧ rs_primes s1 = rs_primes s.
Proof.
  intros [Hinv Hm Hr] Hw. unfold do_work in Hw.
  destruct (rs_todo s !! i) as [[wk [|f fs]]|] eqn:Hi; simpl in Hw; try done.
  case_decide; [|done]. destruct (may_run_take env _ _ _ _ _ Hm Hi) as [Hask Hm'].
  pose proof (processOneFile_others wk f (re_cfg env) (re_workers env) _ Hask (cr_inv _ _ _ _ Hr)) as Hk1.
  pose proof (todo_files_take _ _ _ _ _ Hi) as Htake.
  destruct (processOneFile wk f _ _ _) as [res w] eqn:E. injection Hw as <-.
  split; [|exists wk, f; split; [done|by rewrite E]]. split; [done|done|].
  simpl in *. eapply client_ready_others; [exact Hk1|].
  pose proof (Permutation_length (todo_files_take _ _ _ _ _ Hi)) as Hlen.
  eapply client_ready_budget; [|exact Hr]. unfold to_come in *. cbn [rs_chan rs_todo] in *.
  rewrite length_app. simpl in *. lia.
Qed.

(** A round of the receiving loop. *)
Lemma do_recv_going ns k env s res s1 :
  CoordSnapshotFile ∈ ns → (0 ≤ k)%Z → may_save env s1 → going ns k env s →
  do_recv no_faults env s = Some (res, Ret s1) →
  going ns k env s1 ∧ rs_chan s = res :: rs_chan s1 ∧ rs_todo s1 = rs_todo s.
Proof.
  intros Hin Hk Hsv [Hinv Hm Hr] Hrv. unfold do_recv in Hrv. destruct (rs_chan s) as [|r chan] eqn:Hch; [done|].
  injection Hrv as -> Hrv. set (s0 := mkRun _ _ _ _ _ _ _) in Hrv.
  destruct (handle_result_spec no_faults env res s0 Hinv) as (s1' & E & Hinv1 & Ht & Hc & _).
  rewrite E in Hrv. injection Hrv as ->. split; [|by rewrite Hc, Ht]. split; [done|by rewrite Ht|].
  assert (Hto : (to_come s = to_come s1 + 1)%Z).
  { unfold to_come. rewrite Ht, Hc, Hch. simpl. lia. }
  eapply (handle_result_ready ns _ env res s0); [done|unfold to_come; lia|done|exact Hsv| |exact E].
  eapply client_ready_budget; [|exact Hr]. simpl. lia.
Qed.

(** All snapshots may be saved. *)
Definition saves : Prop := ∀ data, may_write W CoordSnapshotFile data.

Lemma steps_going ns k env s rs s' :
  CoordSnapshotFile ∈ ns → (0 ≤ k)%Z → saves → going ns k env s → steps no_faults env s rs s' → going ns k env s'.
Proof.
  intros Hin Hk Hsv Hg Hst. induction Hst as [s|s i s1 rs s2 Hw _ IH|s res s1 rs s2 Hrv _ IH]; [done|..]; apply IH.
  - by eapply do_work_going.
  - eapply do_recv_going; [done|done|by intros snap _|done..].
Qed.

(** What holds of every result of the workers holds of the results received. *)
Lemma steps_results (P : workerResult → Prop) ns k env s rs s' :
  (∀ wk f w, may_ask (re_cfg env) wk (re_workers env) f → wl_inv w →
     P (processOneFile wk f (re_cfg env) (re_workers env) w).1) →
  CoordSnapshotFile ∈ ns → (0 ≤ k)%Z → saves → going ns k env s → Forall P (rs_chan s) →
  steps no_faults env s rs s' → Forall P rs.
Proof.
  intros HP Hin Hk Hsv Hg Hc Hst. induction Hst as [s|s i s1 rs s2 Hw _ IH|s res s1 rs s2 Hrv _ IH]; [done|..].
  - destruct (do_work_going _ _ _ _ _ _ Hg Hw) as (Hg1 & wk & f & Hask & Ec & _). apply IH; [done|].
    rewrite Ec. apply Forall_app. split; [done|]. constructor; [|done]. apply HP; [done|]. apply Hg.
  - destruct (do_recv_going _ _ _ _ _ _ Hin Hk (λ snap _, Hsv _) Hg Hrv) as (Hg1 & Ec & _). rewrite Ec in Hc.
    apply Forall_cons in Hc as [Hres Hc]. constructor; [done|by apply IH].
Qed.

(** ** The end of a run *)

Lemma client_DeleteFile_ready ns k c (w : W) p :
  p ∈ ns → svc_content (W := W) p None → client_ready ns (k + 1) c w → (0 ≤ k)%Z →
  ∃ c' w', client_DeleteFile no_faults p c w = (None, c', w') ∧ client_ready ns k c' w' ∧
    ∀ m, m ∈ ns → m ≠ p → svc_file w' m = svc_file w m.
Proof.
  intros Hp Hco Hr Hk. pose proof Hr as [H1 H2 H3 H4 H5 H6]. destruct (H4 p Hp) as (Hname & Hl & _).
  pose proof (ok_seq _ _ H1) as [Hs0 _].
  destruct (client_DeleteFile_ok c w p H1 Hname Hco) as (c' & w' & E & Hok & Hs & Hq & _ & Hkp & Hu); [split; lia|done|].
  exists c', w'. split; [done|]. split.
  - pose proof (call_keeps_effect _ _ _ _ _ _ Hkp Hu) as He. rewrite H2 in He.
    apply (client_ready_next ns [p] k 1 c c' w w'); [done..|set_solver].
  - intros m Hm Hne. rewrite (Hu m) by (apply law_name_known, H4, Hm). by rewrite decide_False.
Qed.

Lemma delete_worker_snapshots_ready ns workers k c (w : W) out :
  (∀ wk, wk ∈ workers → WorkerSnapshotFile (wc_id wk) ∈ ns ∧ WorkerSnapshotFile (wc_id wk) ≠ out) →
  (∀ wk, wk ∈ workers → svc_content (W := W) (WorkerSnapshotFile (wc_id wk)) None) →
  out ∈ ns → (0 ≤ k)%Z → client_ready ns (k + Z.of_nat (length workers)) c w →
  let '(c', w') := delete_worker_snapshots no_faults workers c w in
  client_ready ns k c' w' ∧ svc_file w' out = svc_file w out.
Proof.
  intros Hws Hco Hout Hk. revert c w. induction workers as [|wk ws IH]; intros c w Hr; simpl.
  { split; [|done]. eapply client_ready_budget; [|exact Hr]. simpl. lia. }
  destruct (Hws wk) as [Hin Hne]; [by left|]. unfold DeleteWorkerSnapshot.
  destruct (client_DeleteFile_ready ns (k + Z.of_nat (length ws)) c w _ Hin) as (c1 & w1 & -> & Hr1 & Hf);
    [apply Hco; by left| |lia|].
  { eapply client_ready_budget; [|exact Hr]. simpl. lia. }
  specialize (IH (λ wk' Hin', Hws wk' (list_elem_of_further _ _ _ Hin')) (λ wk' Hin', Hco wk' (list_elem_of_further _ _ _ Hin')) c1 w1 Hr1).
  destruct (delete_worker_snapshots no_faults ws c1 w1) as [c2 w2]. destruct IH as [Hr2 ->].
  split; [exact Hr2|by apply Hf].
Qed.

(** A text with at least one prime is written. *)
Lemma writeFinalOutput_ready `{!MapOrder} ns k c (w : W) out ps :
  out ∈ ns → (∀ data, may_write W out data) → client_ready ns (k + 3) c w → (0 ≤ k)%Z → ps ≠ [] →
  ∃ v c' w', writeFinalOutput no_faults c out ps w = (None, c', w') ∧ client_ready ns k c' w' ∧
    svc_file w' out = Some (output_text (dedupAndSort ps), v).
Proof.
  intros Hout Hm Hr Hk Hps.
  destruct (writeToAFS_ready ns k c w out (output_text (dedupAndSort ps)) Hout (Hm _) Hr) as (v & c' & w' & E & Hr' & Hf & _);
    [|done|by exists v, c', w'].
  destruct ps as [|p ps]; [done|].
  assert (Hp : p ∈ dedupAndSort (p :: ps)) by (apply elem_of_dedupAndSort; by left).
  destruct (dedupAndSort (p :: ps)) as [|q qs]; [set_solver|]. unfold output_text. simpl.
  rewrite <- app_assoc. by destruct (s2b (fmt_d q)).
Qed.

Lemma writeFinalOutput_empty `{!MapOrder} ns k c (w : W) out :
  out ∈ ns → svc_content (W := W) out None → svc_content (W := W) out (Some []) → client_ready ns (k + 3) c w → (0 ≤ k)%Z →
  ∃ e c' w', writeFinalOutput no_faults c out [] w = (Some e, c', w').
Proof.
  intros Hout Hm0 Hm1 [H1 H2 H3 H4 H5 H6] Hk. destruct (H4 out Hout) as (Hname & Hl & _).
  assert (E : dedupAndSort [] = []).
  { destruct (dedupAndSort []) as [|q qs] eqn:Ed; [done|].
    assert (Hq : q ∈ dedupAndSort []) by (rewrite Ed; by left). rewrite elem_of_dedupAndSort in Hq. by apply elem_of_nil in Hq. }
  unfold writeFinalOutput. rewrite E. apply (writeToAFS_empty c w out); [done..|lia].
Qed.

(** The end of a run with at least one prime leaves the sorted text. *)
Lemma Run_finish_ok `{!MapOrder} ns env s :
  let out := OutputFile (re_cfg env) in
  out ∈ ns → CoordSnapshotFile ∈ ns → out ≠ CoordSnapshotFile →
  (∀ wk, wk ∈ re_workers env → WorkerSnapshotFile (wc_id wk) ∈ ns ∧ WorkerSnapshotFile (wc_id wk) ≠ out) →
  (∀ data, may_write W out data) → svc_content (W := W) CoordSnapshotFile None →
  (∀ wk, wk ∈ re_workers env → svc_content (W := W) (WorkerSnapshotFile (wc_id wk)) None) →
  client_ready ns (Z.of_nat (length (re_workers env)) + 4) (rs_client s) (rs_world s) → rs_primes s ≠ [] →
  ∃ c' w' v, Run_finish no_faults env s = (None, w') ∧ client_ready ns 0 c' w' ∧
    svc_file w' out = Some (output_text (dedupAndSort (rs_primes s)), v).
Proof.
  intros out Hout Hcs Hne Hws Hm Hm1 Hm2 Hr Hps. unfold Run_finish.
  destruct (writeFinalOutput_ready ns (Z.of_nat (length (re_workers env)) + 1) (rs_client s) (rs_world s) out
    (rs_primes s) Hout Hm) as (v & c1 & w1 & E1 & Hr1 & Hf1); [by rewrite <- Z.add_assoc|lia|exact Hps|]. unfold out in E1.
  rewrite E1. unfold DeleteCoordSnapshot.
  destruct (client_DeleteFile_ready ns (Z.of_nat (length (re_workers env))) c1 w1 _ Hcs Hm1 Hr1) as
    (c2 & w2 & -> & Hr2 & Hf2); [lia|].
  pose proof (delete_worker_snapshots_ready ns (re_workers env) 0 c2 w2 out Hws Hm2 Hout ltac:(lia) Hr2) as Hf3.
  destruct (delete_worker_snapshots _ _ _ _) as [c3 w3]. destruct Hf3 as [Hr3 Hf3].
  exists c3, w3, v. split; [done|]. split; [done|]. by rewrite Hf3, Hf2.
Qed.

End CoordAfs.
