(* ===== verification/CoordProps.v ===== *)
(** * Properties of the coordinator *)

From S2P Require Import Prelude GoLib GoText GoPath Json JsonCodec MillerRabin Disk AfsProto Server Handler Cluster SyncSpec Cache Client AfsSpec AfsWorld SnapshotIO Snapshot ClientProps SnapshotProps Worker WorkerProps Coordinator CoordSpec CoordAfs.

(** ** What is collected *)

Section Collected.
  Context (flt : OsFaults) {W : Type} `{!AfsService W, !SnapshotNet W, !WorkerService W}.
  (* the primes that a file holds *)
  Context (primes_of : string → list Z).

(** A result that is not an error carries the primes of its file. *)
Definition faithful (r : workerResult) : Prop :=
  res_err r = None → ∀ p, p ∈ primes r ↔ p ∈ primes_of (filePath r).

(** Primes that are exactly those of the files. *)
Definition covers (files : list string) (ps : list Z) : Prop :=
  ∀ p, p ∈ ps ↔ ∃ f, f ∈ files ∧ p ∈ primes_of f.

Lemma steps_cover env s rs s' :
  run_inv s → covers (rs_completed s) (rs_primes s) → Forall faithful rs → steps flt env s rs s' →
  covers (rs_completed s') (rs_primes s').
Proof.
  intros Hinv Hc Hrs Hst. destruct (steps_collected flt env s rs s' Hinv Hst) as (_ & Hf & Hp).
  intros p. rewrite Hp, Hf, (Hc p). setoid_rewrite elem_of_app. setoid_rewrite list_elem_of_fmap.
  rewrite Forall_forall in Hrs. unfold ok_results. setoid_rewrite list_elem_of_filter. split.
  - intros [(f & Hin & Hpf)|(r & [He Hin] & Hpr)]; [by eauto|].
    exists (filePath r). split; [right; by exists r|]. by apply (Hrs r Hin He).
  - intros (f & [Hin|(r & -> & He & Hin)] & Hpf); [by eauto|]. right. exists r.
    split; [done|]. by apply (Hrs r Hin He).
Qed.

(** C12: at any moment of any run the collected primes are exactly those of the
    completed files, and this is what the snapshot holds that is saved after each
    result: a crash loses no completed file and no prime of one. (Results that are
    not errors carry the primes of their files, [faithful].) *)
Theorem snapshots_cover_completed_files env s rs s1 res s2 :
  run_inv s → covers (rs_completed s) (rs_primes s) → Forall faithful rs → faithful res → res_err res = None →
  steps flt env s rs s1 → do_recv flt env s1 = Some (res, Ret s2) →
  ∃ snap e w1, SaveCoordSnapshot flt (rs_client s1) snap w1 = (e, rs_client s2, rs_world s2) ∧
    elems (CompletedFiles snap) = rs_completed s1 ++ [filePath res] ∧
    covers (elems (CompletedFiles snap)) (elems (CollectedPrimes snap)) ∧
    ∀ f, f ∈ elems (PendingFiles snap) ↔ f ∈ re_inputs env ∧ f ∉ elems (CompletedFiles snap).
Proof.
  intros Hinv Hc Hrs Hres He Hst Hr.
  assert (Hst2 : steps flt env s1 [res] s2) by (eapply steps_recv; [exact Hr|constructor]).
  destruct (steps_collected flt env s rs s1 Hinv Hst) as (Hinv1 & _ & _).
  pose proof (steps_cover env s1 [res] s2 Hinv1 (steps_cover _ _ _ _ Hinv Hc Hrs Hst)
    (Forall_cons_2 _ _ _ Hres (Forall_nil_2 _)) Hst2) as Hcov.
  unfold do_recv in Hr. destruct (rs_chan s1) as [|r chan]; [done|]. injection Hr as -> Hr.
  destruct (handle_result_spec flt env res
    (mkRun (rs_todo s1) chan (rs_seen s1) (rs_primes s1) (rs_completed s1) (rs_client s1) (rs_world s1)) Hinv1)
    as (s2' & E & _ & _ & _ & [[? _]|(_ & _ & Hcs & snap & e & w1 & [Hcf Hpf Hps _ _] & _ & Hsave)]); [done|].
  rewrite E in Hr. injection Hr as ->. exists snap, e, w1. split; [done|]. rewrite Hcf, Hps, Hpf.
  split; [done|]. split; [done|]. intros f.
  change (elems (Some (rs_completed s2))) with (rs_completed s2). rewrite <- elem_of_filterPending.
  by destruct (filterPending (re_inputs env) (rs_completed s2)).
Qed.

(** A run in which no file fails collects the primes of all inputs. *)
Lemma complete_run_primes cfg env s rs s' :
  started cfg env s → covers (rs_completed s) (rs_primes s) → rs_completed s ⊆ re_inputs env →
  steps flt env s rs s' → drained s' → Forall (λ r, res_err r = None ∧ faithful r) rs →
  ∀ p, p ∈ rs_primes s' ↔ p ∈ concat (primes_of <$> re_inputs env).
Proof.
  intros Hs Hc Hsub Hst Hd Hrs.
  assert (Hfaith : Forall faithful rs) by (eapply Forall_impl; [exact Hrs|naive_solver]).
  assert (Hok : ok_results rs = rs).
  { unfold ok_results. clear -Hrs. induction Hrs as [|r rs [He _] _ IH]; [done|]. by rewrite filter_cons_True, IH. }
  destruct (steps_collected flt env s rs s' (st_inv _ _ _ Hs) Hst) as (_ & Hf & _). rewrite Hok in Hf.
  pose proof (steps_cover env s rs s' (st_inv _ _ _ Hs) Hc Hfaith Hst) as Hcov.
  pose proof (drained_files flt env s rs s' Hst Hd (st_chan _ _ _ Hs)) as Hfiles.
  rewrite (st_todo _ _ _ Hs) in Hfiles.
  intros p. rewrite (Hcov p), elem_of_concat_fmap, Hf. setoid_rewrite elem_of_app. setoid_rewrite Hfiles.
  setoid_rewrite elem_of_filterPending. split.
  - intros (f & Hin & Hp). exists f. set_solver.
  - intros (f & Hin & Hp). exists f. split; [|done]. destruct (decide (f ∈ rs_completed s)); auto.
Qed.

End Collected.

Lemma same_elements_nil (l k : list Z) : (∀ p, p ∈ l ↔ p ∈ k) → l = [] → k = [].
Proof. intros H ->. destruct k as [|p k]; [done|]. specialize (H p). set_solver. Qed.

(** ** What is written *)

Section Written.
  Context {W : Type} (cid : string).
  Context `{!AfsService W, !AfsView W, !AfsLaws W, !AfsUnwatched W, !SnapshotNet W, !WorkerService W, !WorkerLaws W, !MapOrder}.

(** The files the run writes, apart from each other. *)
Definition run_names (cfg : Config) (env : run_env) : list string :=
  OutputFile cfg :: CoordSnapshotFile :: (WorkerSnapshotFile ∘ wc_id <$> re_workers env).

(** The client can do all the calls of the run, and the workers may be asked
    for the files that are left. *)
Definition run_ready (cfg : Config) (env : run_env) (s : run_state W) : Prop :=
  client_ready cid (run_names cfg env)
    (Z.of_nat (length (re_workers env)) + 4 + 3 * to_come s) (rs_client s) (rs_world s) ∧
  may_run env (rs_todo s) ∧
  OutputFile cfg ∉ CoordSnapshotFile :: (WorkerSnapshotFile ∘ wc_id <$> re_workers env).

Lemma run_ready_going cfg env s :
  started cfg env s → run_ready cfg env s →
  going cid (run_names cfg env) (Z.of_nat (length (re_workers env)) + 4) env s.
Proof. intros Hs (Hr & Hmay & _). split; [apply Hs|done|done]. Qed.

(** How a run ends that collected [ps]: without an error, and their sorted text
    in the output file; when there are none, with an error, since the output
    would be empty and an empty file cannot be closed. *)
Definition ends_with (cfg : Config) (ps : list Z) (x : error * W) : Prop :=
  if decide (ps = []) then x.1 ≠ None
  else x.1 = None ∧ ∃ v, svc_file x.2 (OutputFile cfg) = Some (output_text (dedupAndSort ps), v).

Lemma ends_with_ext cfg ps qs x : (∀ p, p ∈ ps ↔ p ∈ qs) → ends_with cfg ps x → ends_with cfg qs x.
Proof.
  intros Hsame. unfold ends_with. rewrite (dedupAndSort_ext _ _ Hsame). pose proof (same_elements_nil ps qs Hsame).
  pose proof (same_elements_nil qs ps (λ p, iff_sym (Hsame p))). repeat case_decide; naive_solver.
Qed.

Lemma ends_with_some cfg ps x :
  ps ≠ [] → ends_with cfg ps x →
  ∃ w' v, x = (None, w') ∧ svc_file w' (OutputFile cfg) = Some (output_text (dedupAndSort ps), v).
Proof. intros Hne. unfold ends_with. rewrite decide_False by done. destruct x as [e w']. cbn [fst snd]. intros [-> [v Hv]]. by exists w', v. Qed.

(** The end of a run whose client has calls left for it. *)
Lemma run_end_output cfg env s :
  re_cfg env = cfg → OutputFile cfg ∉ CoordSnapshotFile :: (WorkerSnapshotFile ∘ wc_id <$> re_workers env) →
  client_ready cid (run_names cfg env) (Z.of_nat (length (re_workers env)) + 4) (rs_client s) (rs_world s) →
  ends_with cfg (rs_primes s) (Run_finish no_faults env s).
Proof.
  intros Hcfg Hout Hr. assert (Hin : CoordSnapshotFile ∈ run_names cfg env) by (right; left).
  rewrite <- Hcfg in *. unfold ends_with. case_decide as Hps.
  { unfold Run_finish. rewrite Hps.
    destruct (writeFinalOutput_empty cid (run_names (re_cfg env) env) (Z.of_nat (length (re_workers env)) + 1) (rs_client s)
      (rs_world s) (OutputFile (re_cfg env))) as (e & c & w & ->); [by left|apply any_content..| |lia|done].
    eapply client_ready_budget; [|exact Hr]. lia. }
  edestruct (Run_finish_ok cid (run_names (re_cfg env) env) env s) as (c & w & v & -> & _ & Hf);
    [by left|done|set_solver| |by intros data; apply may_write_any|apply any_content|by intros wk _; apply any_content|exact Hr|done
    |by split; [|exists v]].
  intros wk Hwk. assert (Hsn : WorkerSnapshotFile (wc_id wk) ∈ WorkerSnapshotFile ∘ wc_id <$> re_workers env)
    by (apply (list_elem_of_fmap_2 (WorkerSnapshotFile ∘ wc_id)); done).
  split; [by do 2 right|]. intros E. apply Hout. rewrite <- E. by right.
Qed.

Lemma run_finish_output cfg env s rs s' :
  started cfg env s → run_ready cfg env s → steps no_faults env s rs s' →
  ends_with cfg (rs_primes s') (Run_finish no_faults env s').
Proof.
  intros Hs Hrun Hst. pose proof Hrun as (_ & _ & Hout).
  assert (Hk : (0 ≤ Z.of_nat (length (re_workers env)) + 4)%Z) by lia.
  assert (Hin : CoordSnapshotFile ∈ run_names cfg env) by (right; left).
  pose proof (steps_going cid _ _ env s rs s' Hin Hk (λ data, may_write_any _ data) (run_ready_going _ _ _ Hs Hrun) Hst) as [_ _ Hr'].
  apply run_end_output; [apply Hs|done|]. eapply client_ready_budget; [|exact Hr']. unfold to_come. lia.
Qed.

(** C3: a run in which no file fails and every result carries the primes of its
    file ([faithful]) ends without an error and leaves in the output file the
    sorted distinct primes of all input files, whatever the order in which results
    arrive, whichever worker answers, and whether the run is fresh or resumes from
    a snapshot. When the input files hold no prime, it ends with an error
    ([ends_with]). *)
Theorem complete_run_writes_all_primes cfg env s rs s' primes_of :
  started cfg env s → run_ready cfg env s →
  covers primes_of (rs_completed s) (rs_primes s) → rs_completed s ⊆ re_inputs env →
  steps no_faults env s rs s' → drained s' →
  Forall (λ r, res_err r = None ∧ faithful primes_of r) rs →
  ends_with cfg (concat (primes_of <$> re_inputs env)) (Run_finish no_faults env s').
Proof.
  intros Hs Hr Hc Hsub Hst Hd Hrs. apply (ends_with_ext cfg (rs_primes s')); [|by eapply run_finish_output].
  exact (complete_run_primes no_faults primes_of cfg env s rs s' Hs Hc Hsub Hst Hd Hrs).
Qed.

(** C31: in general the output holds the primes of the files that some worker
    could process, when their results carry the primes of the files: a file on
    which all workers fail is left out, and the run still ends without an error;
    if those files hold no prime, or all files failed, it ends with an error
    ([ends_with]). *)
Theorem run_skips_failed_files cfg env s rs s' primes_of :
  started cfg env s → run_ready cfg env s → covers primes_of (rs_completed s) (rs_primes s) →
  steps no_faults env s rs s' → drained s' → Forall (faithful primes_of) rs →
  let files := rs_completed s ++ (filePath <$> ok_results rs) in
  ends_with cfg (concat (primes_of <$> files)) (Run_finish no_faults env s').
Proof.
  intros Hs Hr Hc Hst Hd Hrs files.
  destruct (steps_collected no_faults env s rs s' (st_inv _ _ _ Hs) Hst) as (_ & Hf & _).
  pose proof (steps_cover no_faults primes_of env s rs s' (st_inv _ _ _ Hs) Hc Hrs Hst) as Hcov.
  apply (ends_with_ext cfg (rs_primes s')); [|by eapply run_finish_output].
  intros p. by rewrite (Hcov p), Hf, elem_of_concat_fmap.
Qed.

End Written.

(** ** Failover between workers *)

Section Failover.
  Context {W : Type} `{!WorkerService W}.

Lemma try_others_spec self file cfg others (w : W) :
  let '(res, w') := try_others self file cfg others w in
  (res_err res = None → ∃ o w0, o ∈ others ∧ tryWorker o file cfg w0 = (res, w')) ∧
  (res_err res ≠ None → ∀ o, o ∈ others → wc_id o ≠ wc_id self →
     ∃ w0, res_err (tryWorker o file cfg w0).1 ≠ None).
Proof.
  revert w. induction others as [|o os IH]; intros w; simpl; [split; [done|]; set_solver|].
  case_decide as Hid.
  { specialize (IH w). destruct (try_others self file cfg os w) as [res w1]. destruct IH as [H1 H2]. split.
    - intros He. destruct (H1 He) as (o' & w0 & Hin & E). exists o', w0. split; [by right|done].
    - intros He o' [->|Hin]%elem_of_cons Hne; [done|by apply H2]. }
  destruct (tryWorker o file cfg w) as [res1 w1] eqn:E1. destruct (res_err res1) as [x|] eqn:Ex.
  - specialize (IH w1). destruct (try_others self file cfg os w1) as [res w2]. destruct IH as [H1 H2]. split.
    + intros He. destruct (H1 He) as (o' & w0 & Hin & E). exists o', w0. split; [by right|done].
    + intros He o' [->|Hin]%elem_of_cons Hne; [|by apply H2]. exists w. rewrite E1. simpl. by rewrite Ex.
  - rewrite Ex. split; [|done]. intros _. exists o, w. split; [by left|done].
Qed.

(** The result for a file is the success of some worker, and a failure is
    reported only after the assigned worker and every worker with another id
    were asked and failed. *)
Theorem file_fails_only_if_all_workers_fail wk file cfg all (w : W) :
  let '(res, w') := processOneFile wk file cfg all w in
  filePath res = file ∧
  (res_err res = None → ∃ o w0, o ∈ wk :: all ∧ tryWorker o file cfg w0 = (res, w')) ∧
  (res_err res ≠ None → ∀ o, o = wk ∨ o ∈ all ∧ wc_id o ≠ wc_id wk →
     ∃ w0, res_err (tryWorker o file cfg w0).1 ≠ None).
Proof.
  pose proof (processOneFile_file wk file cfg all w) as Hf. unfold processOneFile in *.
  destruct (tryWorker wk file cfg w) as [res1 w1] eqn:E1. destruct (res_err res1) as [x|] eqn:Ex.
  - pose proof (try_others_spec wk file cfg all w1) as Hs.
    destruct (try_others wk file cfg all w1) as [res w2]. destruct Hs as [H1 H2]. split; [done|]. split.
    + intros He. destruct (H1 He) as (o & w0 & Hin & E). exists o, w0. split; [by right|done].
    + intros He o [->|[Hin Hne]]; [|by apply H2]. exists w. rewrite E1. simpl. by rewrite Ex.
  - split; [done|]. split; [|done]. intros _. exists wk, w. split; [by left|done].
Qed.

End Failover.

(** ** Termination *)

Section Termination.
  Context (flt : OsFaults) {W : Type} `{!AfsService W, !SnapshotNet W, !WorkerService W}.

(** The rounds that are left: two for a file to process, one for a result. *)
Definition rounds (s : run_state W) : nat := 2 * length (todo_files (rs_todo s)) + length (rs_chan s).

Lemma do_work_rounds env i s s' : do_work env i s = Some s' → rounds s = S (rounds s') ∧ (run_inv s → run_inv s').
Proof.
  unfold do_work. destruct (rs_todo s !! i) as [[wk [|f fs]]|] eqn:Hi; simpl; try done. case_decide; [|done].
  destruct (processOneFile _ _ _ _ _) as [res w]. intros [= <-]. split; [|done].
  apply todo_files_take, Permutation_length in Hi. unfold rounds. simpl. rewrite length_app. simpl in *. lia.
Qed.

Lemma do_recv_rounds env s res o :
  run_inv s → do_recv flt env s = Some (res, o) → ∃ s', o = Ret s' ∧ rounds s = S (rounds s') ∧ run_inv s'.
Proof.
  unfold do_recv. intros Hinv. destruct (rs_chan s) as [|r chan] eqn:Hc; [done|]. intros [= -> <-].
  edestruct (handle_result_spec flt env res) as (s' & -> & Hi & Ht & Hch & _); [|exists s'; split; [done|]]; [done|].
  split; [|done]. unfold rounds. rewrite Ht, Hch, Hc. simpl. lia.
Qed.

(** While the run is not over some step is possible. *)
Lemma run_progress env s :
  run_inv s → 0 < re_cap env → ¬ drained s →
  (∃ i s', do_work env i s = Some s') ∨ (∃ res s', do_recv flt env s = Some (res, Ret s')).
Proof.
  intros Hinv Hcap Hd. destruct (rs_chan s) as [|r chan] eqn:Hc.
  - left. assert (Hex : ¬ Forall (λ g : workerConn * list string, g.2 = []) (rs_todo s)) by (by intros Hf; apply Hd).
    apply not_Forall_Exists in Hex; [|intros g; apply _]. apply Exists_exists in Hex as ([wk fs] & Hin & Hne).
    apply list_elem_of_lookup in Hin as [i Hi]. destruct fs as [|f fs]; [by destruct Hne|]. exists i.
    unfold do_work. rewrite Hi. simpl. rewrite decide_True by (rewrite Hc; exact Hcap).
    destruct (processOneFile _ _ _ _ _) as [res w]. by eexists.
  - right. destruct (do_recv flt env s) as [[res o]|] eqn:E; [|unfold do_recv in E; by rewrite Hc in E].
    destruct (do_recv_rounds env s res o Hinv E) as (s' & -> & _). by eexists _, _.
Qed.

Lemma run_completes env s :
  run_inv s → 0 < re_cap env → ∃ rs s', steps flt env s rs s' ∧ drained s'.
Proof.
  remember (rounds s) as n eqn:Hn. revert s Hn. induction n as [n IH] using lt_wf_ind. intros s -> Hinv Hcap.
  destruct (decide (rs_chan s = [] ∧ Forall (λ g : workerConn * list string, g.2 = []) (rs_todo s))) as [Hd|Hd].
  { exists [], s. split; [constructor|done]. }
  destruct (run_progress env s Hinv Hcap Hd) as [(i & s1 & E)|(res & s1 & E)].
  - destruct (do_work_rounds env i s s1 E) as [Hr Hi].
    destruct (IH (rounds s1)) with (s := s1) as (rs & s' & Hst & Hd'); [lia|done|by apply Hi|done|].
    exists rs, s'. split; [by eapply steps_work|done].
  - destruct (do_recv_rounds env s res _ Hinv E) as (s1' & [= <-] & Hr & Hi).
    destruct (IH (rounds s1)) with (s := s1) as (rs & s' & Hst & Hd'); [lia|done|done|done|].
    exists (res :: rs), s'. split; [by eapply steps_recv|done].
Qed.

(** An executed schedule is a run, and its length is bounded by the rounds. *)
Lemma exec_steps env acts s rs s' :
  run_inv s → exec flt env acts s = Some (rs, s') →
  steps flt env s rs s' ∧ length acts + rounds s' = rounds s.
Proof.
  revert s rs. induction acts as [|[i|] acts IH]; intros s rs Hinv E; simpl in E.
  - injection E as <- <-. split; [constructor|done].
  - destruct (do_work env i s) as [s1|] eqn:E1; [|done]. simpl in E.
    destruct (do_work_rounds env i s s1 E1) as [Hr Hi]. destruct (IH s1 rs (Hi Hinv) E) as [Hst Hl].
    split; [by eapply steps_work|simpl; lia].
  - destruct (do_recv flt env s) as [[res o]|] eqn:E1; [|done]. simpl in E.
    destruct (do_recv_rounds env s res o Hinv E1) as (s1 & -> & Hr & Hi).
    destruct (exec flt env acts s1) as [[rs1 s2]|] eqn:E2; [|done]. simpl in E. injection E as <- <-.
    destruct (IH s1 rs1 Hi E2) as [Hst Hl]. split; [by eapply steps_recv|simpl; lia].
Qed.

Lemma exec_snoc env acts act s rs s' res s'' :
  exec flt env acts s = Some (rs, s') → exec flt env [act] s' = Some (res, s'') →
  ∃ rs', exec flt env (acts ++ [act]) s = Some (rs', s'').
Proof.
  intros E E'. revert s rs E. induction acts as [|[i|] acts IH]; intros s rs E; cbn [app].
  - injection E as <- <-. by exists res.
  - cbn [exec] in E |- *. destruct (do_work env i s) as [s1|]; [|done]. simpl in E |- *. by eapply IH.
  - cbn [exec] in E |- *. destruct (do_recv flt env s) as [[r o]|]; [|done]. simpl in E |- *.
    destruct o as [s1| |]; try done. destruct (exec flt env acts s1) as [[rs1 s2]|] eqn:E2; [|done].
    simpl in E. injection E as <- ->. destruct (IH s1 rs1 E2) as [rs' ->]. by eexists.
Qed.

Lemma rounds_drained (s : run_state W) : rounds s = 0 → drained s.
Proof.
  unfold rounds, drained, todo_files. intros Hr. split; [destruct (rs_chan s); [done|simpl in Hr; lia]|].
  assert (Ht : concat (snd <$> rs_todo s) = []) by (destruct (concat _); [done|simpl in Hr; lia]).
  clear Hr. induction (rs_todo s) as [|[wk fs] todo IH]; [done|]. simpl in Ht. apply app_eq_nil in Ht as [-> Ht].
  constructor; [done|by apply IH].
Qed.

(** A schedule of as many rounds as are needed is a complete run. *)
Lemma exec_complete env acts s rs s' :
  run_inv s → exec flt env acts s = Some (rs, s') → length acts = rounds s →
  steps flt env s rs s' ∧ drained s'.
Proof.
  intros Hinv E Hl. destruct (exec_steps env acts s rs s' Hinv E) as [Hst Hr].
  split; [exact Hst|]. apply rounds_drained. lia.
Qed.

(** the coordinator's loops end and never block: from every prepared state
    the run can be completed, a schedule of the goroutines and the receiving
    loop has at most two rounds for each pending file, and with exactly that
    many everything is processed and received. *)
Theorem run_terminates cfg env (s : run_state W) :
  started cfg env s →
  (∃ rs s', steps flt env s rs s' ∧ drained s') ∧
  ∀ acts rs s', exec flt env acts s = Some (rs, s') →
    let n := length (filterPending (re_inputs env) (rs_completed s)) in
    length acts <= 2 * n ∧ (length acts = 2 * n → drained s') ∧
    (¬ drained s' → ∃ act rs' s'', exec flt env (acts ++ [act]) s = Some (rs', s'')).
Proof.
  intros Hs. split; [apply run_completes; [apply Hs|apply Hs]|]. intros acts rs s' E n.
  destruct (exec_steps env acts s rs s' (st_inv _ _ _ Hs) E) as [Hst Hl].
  assert (Hn : rounds s = 2 * n).
  { unfold rounds. rewrite (st_chan _ _ _ Hs), (st_todo _ _ _ Hs). simpl. lia. }
  split; [lia|]. split; [intros Hlen; apply rounds_drained; lia|]. intros Hd.
  destruct (steps_collected flt env s rs s' (st_inv _ _ _ Hs) Hst) as (Hinv' & _).
  destruct (run_progress env s' Hinv' (st_cap _ _ _ Hs) Hd) as [(i & s2 & E2)|(res & s2 & E2)].
  - destruct (exec_snoc env acts (Work i) s rs s' [] s2 E) as [rs' Ex]; [|by exists (Work i), rs', s2].
    simpl. by rewrite E2.
  - destruct (exec_snoc env acts Recv s rs s' [res] s2 E) as [rs' Ex]; [|by exists Recv, rs', s2].
    simpl. by rewrite E2.
Qed.

End Termination.

(** ** The assignment of files *)

Lemma share_length k j i files :
  j < k → length (share k j i files) * k <= length files + (i + (k - 1 - j)) mod k <
          length (share k j i files) * k + k.
Proof.
  intros Hj. revert i. induction files as [|f files IH]; intros i; cbn [share length].
  - pose proof (Nat.mod_upper_bound (i + (k - 1 - j)) k). lia.
  - assert (Hk : k ≠ 0) by lia. specialize (IH (S i)).
    assert (Hi : i mod k < k) by (by apply Nat.mod_upper_bound).
    assert (E : (i + (k - 1 - j)) mod k = if decide (i mod k = j) then k - 1
                else if decide (i mod k < j) then i mod k + (k - 1 - j) else i mod k - 1 - j).
    { rewrite Nat.Div0.add_mod, (Nat.mod_small (k - 1 - j)) by lia.
      repeat case_decide; [rewrite Nat.mod_small; lia|rewrite Nat.mod_small; lia|].
      symmetry. apply (Nat.mod_unique _ _ 1); lia. }
    assert (E' : (S i + (k - 1 - j)) mod k = if decide (i mod k = j) then 0
                 else if decide (i mod k < j) then i mod k + (k - j) else i mod k - j).
    { replace (S i + (k - 1 - j)) with (i + (k - j)) by lia. rewrite Nat.Div0.add_mod.
      destruct (decide (j = 0)) as [->|Hj0].
      - rewrite Nat.sub_0_r, Nat.Div0.mod_same, Nat.add_0_r, Nat.Div0.mod_mod. repeat case_decide; lia.
      - rewrite (Nat.mod_small (k - j)) by lia.
        repeat case_decide; [|rewrite Nat.mod_small; lia|].
        + replace (i mod k + (k - j)) with k by lia. by rewrite Nat.Div0.mod_same.
        + symmetry. apply (Nat.mod_unique _ _ 1); lia. }
    rewrite E, E' in *. repeat case_decide; cbn [length]; lia.
Qed.

(** C40: with distinct addresses of the workers, of which there is at least one,
    the goroutines get every pending file exactly once, and the loads of two workers differ by at most one file. *)
Theorem assignment_is_fair files workers :
  NoDup (wc_addr <$> workers) → workers ≠ [] →
  ∃ m, assignFiles files workers = Ret m ∧ concat (snd <$> goroutines workers m) ≡ₚ files ∧
    ∀ w w', w ∈ workers → w' ∈ workers →
      length (default [] (m !! wc_addr w)) <= length (default [] (m !! wc_addr w')) + 1.
Proof.
  intros Hnd Hne. destruct (assign_loop_spec workers files 0 ∅ Hnd Hne) as (m & E & Hm).
  exists m. split; [done|]. split; [by apply (goroutines_perm files workers m)|]. intros w w' Hw Hw'.
  apply list_elem_of_lookup in Hw as [j Hj]. apply list_elem_of_lookup in Hw' as [j' Hj'].
  rewrite (Hm j w Hj), (Hm j' w' Hj'), !lookup_empty. cbn [default app].
  apply lookup_lt_Some in Hj, Hj'. set (k := length workers) in *.
  pose proof (share_length k j 0 files Hj) as H1. pose proof (share_length k j' 0 files Hj') as H2.
  rewrite !Nat.add_0_l, !Nat.mod_small in H1, H2 by lia. unfold id. simpl. nia.
Qed.

(** ** The output *)

(** the output list is strictly increasing, holds exactly the collected
    primes, and depends on them only as a set: not on the order in which they
    were found or on the order of the map. *)
Theorem dedupAndSort_canonical `{!MapOrder} ps :
  StronglySorted Z.lt (dedupAndSort ps) ∧ (∀ p, p ∈ dedupAndSort ps ↔ p ∈ ps) ∧
  ∀ qs, (∀ p, p ∈ ps ↔ p ∈ qs) → dedupAndSort qs = dedupAndSort ps.
Proof.
  split; [|split; [intros p; apply elem_of_dedupAndSort|]].
  - pose proof (Sorted_StronglySorted Z.le _ (Sorted_dedupAndSort ps)) as Hs.
    pose proof (NoDup_dedupAndSort ps) as Hnd. clear -Hs Hnd.
    induction Hs as [|p l Hs IH Hp]; [constructor|]. apply NoDup_cons in Hnd as [Hin Hnd].
    constructor; [by apply IH|]. rewrite Forall_forall in Hp |- *. intros q Hq.
    assert (p ≠ q) by (intros ->; done). specialize (Hp q Hq). lia.
  - intros qs Hq. apply dedupAndSort_ext. intros p. by rewrite (Hq p).
Qed.

(** A number below [10 ^ n] takes at most [n] digits. *)
Lemma pretty_go_length n x s :
  (x < 10 ^ N.of_nat n)%N → String.length (pretty_N_go x s) <= n + String.length s.
Proof.
  revert x s. induction n as [|n IH]; intros x s Hx.
  - assert (x = 0%N) as -> by (simpl in Hx; lia). done.
  - destruct (decide (x = 0%N)) as [->|Hne]; [change (pretty_N_go 0 s) with s; lia|].
    rewrite pretty_N_go_step by lia. etrans; [apply IH|simpl; lia].
    apply N.Div0.div_lt_upper_bound. rewrite Nat2N.inj_succ, N.pow_succ_r' in Hx. lia.
Qed.

Lemma s2b_length s : length (s2b s) = String.length s.
Proof. induction s as [|c s IH]; [done|]. simpl. by rewrite IH. Qed.

Lemma fmt_d_length x : is_u64 x → length (s2b (fmt_d x)) <= 20.
Proof.
  intros [H0 H1]. rewrite s2b_length. destruct x as [|p|p]; [simpl; lia| |lia].
  change (fmt_d (Z.pos p)) with (pretty_N_go (N.pos p) ""). rewrite <- (Nat.add_0_r 20).
  apply (pretty_go_length 20 (N.pos p) ""). unfold two64 in H1. lia.
Qed.

Lemma digits_no_newline l : Forall is_digit l → newline ∉ l.
Proof. intros Hl Hin. rewrite Forall_forall in Hl. by destruct (Hl newline Hin). Qed.

Lemma line_number_fmt_d x : is_u64 x → line_number (dropCR (s2b (fmt_d x))) = Some x.
Proof.
  intros Hx. assert (H0 : (0 ≤ x)%Z) by (unfold is_u64 in Hx; lia).
  pose proof (fmt_d_digits x H0) as Hd. rewrite dropCR_digits by done. unfold line_number.
  rewrite TrimSpace_digits by done. pose proof (fmt_d_ne x H0) as Hne. pose proof (ParseUint_fmt_d x Hx) as Hp.
  destruct (s2b (fmt_d x)); [done|]. by rewrite Hp.
Qed.

(** the text of the output file reads back, line by line with the scanner
    of the worker, as the primes that were written. *)
Theorem output_text_reads_back ps :
  Forall is_u64 ps → ∃ lines, Scan 256 (output_text ps) None = (lines, None) ∧ numbers lines = ps.
Proof.
  intros Hps. exists (map dropCR (map (λ p, s2b (fmt_d p)) ps)). split.
  - pose proof (Scan_lines 256 (map (λ p, s2b (fmt_d p)) ps)) as Hs. rewrite map_map in Hs.
    apply Hs. apply Forall_fmap.
    eapply Forall_impl; [exact Hps|]. intros p Hp. simpl. split; [|pose proof (fmt_d_length p Hp); lia].
    apply digits_no_newline, fmt_d_digits. unfold is_u64 in Hp. lia.
  - unfold numbers. induction Hps as [|p ps Hp _ IH]; [done|]. cbn [map omap list_omap].
    by rewrite line_number_fmt_d, IH.
Qed.
