(* ===== verification/CoordRun.v ===== *)
(** * Whole runs of the coordinator

    What [Run_start] does on a file service that keeps its laws and with
    workers that keep theirs: the client connects, finds the input files, finds
    no snapshot, connects to the workers and prepares the goroutines.  With the
    lemmas on the goroutines this gives the result of [Run] itself. *)

From S2P Require Import Prelude GoLib GoText GoPath Json JsonCodec MillerRabin Disk AfsProto Server Cache Client AfsSpec SnapshotIO ClientStart Snapshot SnapshotProps Worker WorkerProps Coordinator CoordSpec CoordAfs CoordProps.

(** ** The names of input files *)

Lemma fmt_03d_value x : (0 ≤ x)%Z → digits_value 0 (s2b (fmt_03d x)) = Some x.
Proof.
  intros Hx. pose proof (digits_value_fmt_d x Hx) as E. unfold fmt_03d.
  destruct (String.length (fmt_d x)) as [|[|[|n]]]; [done|..]; rewrite ?s2b_app; done.
Qed.

Lemma input_name_inj i j : (0 ≤ i)%Z → (0 ≤ j)%Z → input_name i = input_name j → i = j.
Proof.
  intros Hi Hj E. unfold input_name in E. apply (inj (String.append "input_dataset_")) in E.
  apply string_app_inj_r in E. apply (f_equal (λ s, digits_value 0 (s2b s))) in E.
  rewrite !fmt_03d_value in E by done. by injection E.
Qed.

Lemma input_name_y i : (0 ≤ i)%Z → "y"%char ∉ s2b (input_name i).
Proof.
  intros Hi. unfold input_name. rewrite !s2b_app, !elem_of_app. intros [H|[H|H]].
  - revert H. apply (bool_decide_unpack ("y"%char ∉ s2b "input_dataset_")). by vm_compute.
  - pose proof (digits_value_digits _ _ _ (fmt_03d_value i Hi)) as Hd. rewrite Forall_forall in Hd.
    by destruct (Hd _ H) as [].
  - revert H. apply (bool_decide_unpack ("y"%char ∉ s2b ".txt")). by vm_compute.
Qed.

(** The first [m] input files. *)
Definition input_files (m : nat) : list string := input_name <$> seqZ 1 (Z.of_nat m).

Lemma elem_of_input_files m f : f ∈ input_files m ↔ ∃ i, f = input_name i ∧ (1 ≤ i ≤ Z.of_nat m)%Z.
Proof. unfold input_files. rewrite list_elem_of_fmap. setoid_rewrite elem_of_seqZ. naive_solver lia. Qed.

Section Start.
  Context {W : Type} (cid : string).
  Context `{!AfsService W, !AfsView W, !AfsLaws W}.

Lemma cache_disk_free c p : cache_disk (cacheDir (cache c)) (cdisk c) → local_free c p.
Proof. intros [_ _ Hf]. split; apply Hf; [|apply below_tmp]; apply localPath_below. Qed.

(** ** Finding the input files *)

Lemma discover_loop_ok m n i c (w : W) :
  m < n → (0 ≤ i)%Z → client_ok c w → clientId c = cid → (∀ p, local_free c p) →
  (reqSeq c + Z.of_nat m + 1 < 2 ^ 63 - 1)%Z →
  (∀ j, (i ≤ j < i + Z.of_nat m)%Z →
     svc_known w (input_name j) ∧ is_Some (svc_file w (input_name j)) ∧ cached (cache c) !! input_name j = None) →
  svc_known w (input_name (i + Z.of_nat m)) → svc_file w (input_name (i + Z.of_nat m)) = None →
  ∃ c' w', discover_loop no_faults n i c w = (input_name <$> seqZ i (Z.of_nat m), c', w') ∧
    client_ok c' w' ∧ same_client c c' ∧ reqSeq c' = (reqSeq c + Z.of_nat m + 1)%Z ∧ svc_effect cid [] w w' ∧
    ∀ q, (∀ j, (0 ≤ j)%Z → q ≠ input_name j) → cached (cache c') !! q = cached (cache c) !! q.
Proof.
  revert n i c w. induction m as [|m IH]; intros n i c w Hn Hi Hok Hid Hl Hq Hfs Hkn Hend;
    (destruct n as [|n]; [lia|]); cbn [discover_loop]; pose proof (ok_seq _ _ Hok) as [Hq0 _].
  - change (Z.of_nat 0) with 0%Z in *. rewrite Z.add_0_r in *. destruct (client_Open_missing c w (input_name i) false Hok Hkn Hend) as
      (e & w' & -> & Hk & Hok'); [split; lia|by apply input_name_y|].
    exists (set_seq (reqSeq c + 1) c), w'. split; [done|]. split; [done|]. split; [done|]. split; [simpl; lia|].
    split; [by apply call_reads_effect|done].
  - destruct (Hfs i) as (Hk & [[data v] Hf] & Hca); [lia|].
    destruct (client_Open_ok c w (input_name i) data v Hok Hk Hf (Hl _)) as
      (id & c1 & w1 & -> & Hok1 & A & Hq1 & Hr1 & Hk1 & Hu1 & Hc1 & _); [by intros e He; rewrite Hca in He|split; lia|].
    destruct (client_Close_clean c1 w1 id _ _ Hok1 Hr1) as (c2 & w2 & -> & Hok2 & B & Hq2 & Hk2 & _ & Hc2).
    assert (He : svc_effect cid [] w w2).
    { subst cid. rewrite <- Hf in Hu1. etrans; [by eapply call_keeps_read_effect|]. by apply call_reads_effect. }
    assert (Hs2 : same_client c c2) by by etrans. pose proof Hs2 as (_ & Sid & _).
    replace (i + Z.of_nat (S m))%Z with (i + 1 + Z.of_nat m)%Z in * by lia.
    destruct (IH n (i + 1)%Z c2 w2) as (c3 & w3 & -> & Hok3 & D & Hq3 & He3 & Hc3); [lia|lia|done|congruence| |lia| | | |].
    + intros p. by eapply same_client_free.
    + intros j Hj. destruct (Hfs j) as (Hkj & Hfj & Hcj); [lia|]. split; [by apply He|].
      rewrite (eff_file _ _ _ _ He) by (done || set_solver). split; [done|]. rewrite Hc2, Hc1; [done|].
      intros E. apply input_name_inj in E; lia.
    + by apply He.
    + by rewrite (eff_file _ _ _ _ He) by (done || set_solver).
    + exists c3, w3. rewrite (seqZ_cons i) by lia. replace (Z.pred (Z.of_nat (S m))) with (Z.of_nat m) by lia.
      replace (Z.succ i) with (i + 1)%Z by lia. split; [done|]. split; [done|]. split; [by etrans|].
      split; [lia|]. split; [by etrans|]. intros q Hq'. rewrite Hc3, Hc2, Hc1 by auto. done.
Qed.

(** ** No snapshot *)

Lemma LoadCoordSnapshot_missing c (w : W) :
  client_ok c w → svc_known w CoordSnapshotFile → svc_file w CoordSnapshotFile = None → seq_ok (reqSeq c + 1) →
  ∃ w', LoadCoordSnapshot no_faults c w = Ret (Ok None, set_seq (reqSeq c + 1) c, w') ∧ call_reads w w' ∧
    client_ok (set_seq (reqSeq c + 1) c) w'.
Proof.
  intros Hok Hk Hf Hq. unfold LoadCoordSnapshot, readFromAFS.
  destruct (client_Open_missing c w CoordSnapshotFile false Hok Hk Hf Hq) as (e & w' & -> & Hk' & Hok');
    [|exists w'; by go_step].
  apply (bool_decide_unpack ("y"%char ∉ s2b CoordSnapshotFile)). by vm_compute.
Qed.

End Start.

(** ** Workers *)

Section Workers.
  Context {W : Type} (cid : string).
  Context `{!AfsView W, !SnapshotNet W, !WorkerService W, !WorkerLaws W}.

(** The id the coordinator gives to the worker at index [j] of its list. *)
Definition worker_name (j : nat) : string := "w" +:+ fmt_d (Z.of_nat j + 1).

Lemma connect_workers_ok addrs i (w : W) :
  wl_inv w →
  let '(ws, w') := connect_workers_loop addrs (Z.of_nat i) w in
  workers_keep w w' ∧
  ∀ wk, wk ∈ ws → ∃ j, addrs !! j = Some (wc_addr wk) ∧ wc_id wk = worker_name (i + j) ∧ wl_up (wc_addr wk).
Proof.
  revert i w. induction addrs as [|a addrs IH]; intros i w Hw; cbn [connect_workers_loop].
  { split; [done|]. intros wk Hwk. by apply elem_of_nil in Hwk. }
  assert (Hrest : ∀ w1, workers_keep w w1 →
    let '(ws, w') := connect_workers_loop addrs (Z.of_nat i + 1) w1 in
    workers_keep w w' ∧ ∀ wk, wk ∈ ws →
      ∃ j, (a :: addrs) !! j = Some (wc_addr wk) ∧ wc_id wk = worker_name (i + j) ∧ wl_up (wc_addr wk)).
  { intros w1 H1. replace (Z.of_nat i + 1)%Z with (Z.of_nat (S i)) by lia. specialize (IH (S i) w1 (proj1 H1)).
    destruct (connect_workers_loop addrs _ w1) as [ws w2]. destruct IH as [H2 Hws].
    split; [by eapply workers_keep_trans|]. intros wk Hwk. destruct (Hws wk Hwk) as (j & Hj & Hid & Hup).
    exists (S j). split; [done|]. split; [|done]. by rewrite Nat.add_succ_r. }
  destruct (wk_dial a); [|by apply Hrest].
  destruct (law_health a (mkHealthRequest ("w" +:+ fmt_d (Z.of_nat i + 1))) w Hw) as (Hi & Hk & Hup).
  destruct (wk_Health _ _ w) as [[resp|e] w1]; [|by apply Hrest].
  specialize (Hrest w1 (conj Hi Hk)). destruct (connect_workers_loop addrs _ w1) as [ws w2].
  destruct Hrest as [H2 Hws]. split; [done|]. intros wk [Hwk|Hwk]%elem_of_app; [|by apply Hws].
  destruct (Alive resp) eqn:Ha; [|by apply elem_of_nil in Hwk]. apply list_elem_of_singleton in Hwk as ->.
  exists 0. split; [done|]. split; [by rewrite Nat.add_0_r|]. by apply (Hup resp).
Qed.

Lemma connect_workers_ne `{!WorkerServes W primes_of} addrs i (w : W) :
  wl_inv w → (∃ a, a ∈ addrs ∧ wl_up a) → (connect_workers_loop addrs i w).1 ≠ [].
Proof.
  intros Hw (a & Ha & Hup). revert i w Hw. induction addrs as [|b addrs IH]; intros i w Hw; cbn [connect_workers_loop];
    [by apply elem_of_nil in Ha|].
  destruct (law_health b (mkHealthRequest ("w" +:+ fmt_d (i + 1))) w Hw) as (Hi & _ & _).
  apply elem_of_cons in Ha as [<-|Ha].
  - destruct (law_alive a (mkHealthRequest ("w" +:+ fmt_d (i + 1))) w Hw Hup) as (-> & resp & E & Hr).
    destruct (wk_Health _ _ w) as [r w1]. simpl in E. subst r. destruct (connect_workers_loop _ _ w1). by rewrite Hr.
  - specialize (IH Ha). destruct (wk_dial b); [|by apply IH].
    destruct (wk_Health _ _ w) as [[resp|e] w1]; [|by apply IH]. specialize (IH (i + 1)%Z w1 Hi).
    destruct (connect_workers_loop _ _ w1). by destruct (Alive resp).
Qed.

(** What a worker that serves answers is a success with the primes of the file. *)
Definition served (primes_of : string → list Z) (r : workerResult) : Prop :=
  res_err r = None ∧ faithful primes_of r.

Lemma processOneFile_served `{!WorkerServes W primes_of} wk f cfg all (w : W) :
  may_ask cfg wk all f → wl_inv w → served primes_of (processOneFile wk f cfg all w).1.
Proof.
  intros Hask Hw. destruct (Hask wk) as [Hup Hreq]; [by left|].
  destruct (law_serves (wc_addr wk) _ w Hw Hup Hreq) as (ms & E & He & Hp). cbn [FilePath process_request] in Hp.
  pose proof (recv_chunks_spec (wc_id wk) f ms None [] 0 0) as [Hok Hps].
  pose proof (recv_chunks_file (wc_id wk) f ms None [] 0 0) as Hf.
  unfold processOneFile, tryWorker. destruct (wk_ProcessFile _ _ w) as [r w1]. simpl in E. subst r. cbn [msgs recv_end].
  assert (Hnone : res_err (recv_chunks (wc_id wk) f ms None [] 0 0) = None) by (by apply Hok).
  rewrite Hnone. split; [done|]. intros _ p. simpl. rewrite Hps, decide_True, Hf by done. apply Hp.
Qed.

End Workers.

(** ** Settings of a run *)

(** The files that the run writes or deletes. *)
Definition files_of_run (cfg : Config) : list string :=
  OutputFile cfg :: CoordSnapshotFile :: (WorkerSnapshotFile ∘ worker_name <$> seq 0 (length (WorkerAddrs cfg))).

Section Setting.
  Context {W : Type}.
  Context `{!AfsView W, !SnapshotNet W, !WorkerService W, !WorkerLaws W}.

(** A configuration for [m] input files: at least one worker is up, and the
    files that are written are not those that are read. *)
Record config_ok (cfg : Config) (m : nat) : Prop := {
  co_count : 0 < m < Z.to_nat 9999;
  co_files n : n ∈ files_of_run cfg → ¬ wl_reads n ∧ n ∉ input_files (S m);
  co_writes n : wl_writes n → n ≠ CoordSnapshotFile ∧ n ∉ input_files (S m);
  co_output : OutputFile cfg ∉ CoordSnapshotFile :: (WorkerSnapshotFile ∘ worker_name <$> seq 0 (length (WorkerAddrs cfg)));
  co_workers : NoDup (WorkerAddrs cfg) ∧ length (WorkerAddrs cfg) < Z.to_nat 100000;
  co_up : ∃ a, a ∈ WorkerAddrs cfg ∧ wl_up a;
  co_asked j a f : WorkerAddrs cfg !! j = Some a → wl_up a → f ∈ input_files m →
    wl_asked a (process_request (mkWorkerConn (worker_name j) a) f cfg);
}.

(** What coordinators with the ids [ids] find: a primary with [m] input files. *)
Record place (cfg : Config) (m : nat) (ids : list string) (w : W) : Prop := {
  pl_server : ∃ a rest, cfg_AfsServers cfg = a :: rest ∧ svc_ready w a;
  pl_unused c : c ∈ ids → svc_unused w c 0 ∧ ¬ wl_client c;
  pl_inputs f : f ∈ input_files m → svc_known w f ∧ is_Some (svc_file w f);
  pl_end : svc_known w (input_name (Z.of_nat m + 1)) ∧ svc_file w (input_name (Z.of_nat m + 1)) = None;
  pl_names n : n ∈ files_of_run cfg → svc_name w n;
  pl_inv : wl_inv w;
}.

(** The saved snapshot: none or an empty one, or one with these files and
    primes. *)
Definition saved (w : W) (completed : list string) (collected : list Z) : Prop :=
  (∀ data v, svc_file w CoordSnapshotFile = Some (data, v) → data = []) ∧ completed = [] ∧ collected = [] ∨
  ∃ snap v, svc_file w CoordSnapshotFile = Some (Marshal CoordSnapshot_codec snap, v) ∧ coord_snap_ok snap ∧
    elems (CompletedFiles snap) = completed ∧ elems (CollectedPrimes snap) = collected.

(** What a run resumes from. *)
Record progress (primes_of : string → list Z) (m : nat) (w : W) (completed : list string) (collected : list Z) : Prop := {
  pg_saved : saved w completed collected;
  pg_files : completed ⊆ input_files m;
  pg_primes : covers primes_of completed collected;
}.

End Setting.

(** ** The start of a run *)

Section Start.
  Context {W : Type} (cid : string).
  Context `{!AfsService W, !AfsView W, !AfsLaws W, !SnapshotNet W, !WorkerService W, !WorkerLaws W, !MapOrder}.

(** What [Run_start] takes from a loaded snapshot. *)
Definition resumed (r : result (option CoordSnapshot)) : list string * list Z :=
  match r with Ok (Some s) => (elems (CompletedFiles s), elems (CollectedPrimes s)) | _ => ([], []) end.

Lemma LoadCoordSnapshot_saved c (w : W) completed collected :
  client_ok c w → clientId c = cid → svc_known w CoordSnapshotFile → saved w completed collected →
  local_free c CoordSnapshotFile → cached (cache c) !! CoordSnapshotFile = None → seq_ok (reqSeq c + 1) →
  ∃ r c' w', LoadCoordSnapshot no_faults c w = Ret (r, c', w') ∧ resumed r = (completed, collected) ∧
    client_ok c' w' ∧ same_client c c' ∧ reqSeq c' = (reqSeq c + 1)%Z ∧ svc_effect cid [] w w'.
Proof.
  intros Hok Hid Hk [(Hf & -> & ->)|(snap & v & Hf & Hsn & <- & <-)] Hl Hca Hq.
  - destruct (svc_file w CoordSnapshotFile) as [[data v]|] eqn:Ef.
    { pose proof (Hf data v eq_refl) as ->.
      destruct (readFromAFS_reads c w CoordSnapshotFile [] v Hok Hk Ef Hl) as (c' & w' & E & Hok' & Hs & Hq' & He);
        [by intros e He; rewrite Hca in He|exact Hq|].
      exists (Ok None), c', w'. split; [unfold LoadCoordSnapshot; by rewrite E|]. rewrite Hid in He. done. }
    destruct (LoadCoordSnapshot_missing c w Hok Hk Ef Hq) as (w' & E & Hk' & Hok').
    exists (Ok None), (set_seq (reqSeq c + 1) c), w'. split; [exact E|]. split; [done|]. split; [exact Hok'|].
    split; [by split|]. split; [done|]. by apply call_reads_effect.
  - destruct (readFromAFS_ok c w CoordSnapshotFile _ v Hok Hk Hf Hl) as (c' & w' & E & Hok' & Hs & Hq' & He);
      [by intros e He; rewrite Hca in He|exact Hq|done|].
    exists (Ok (Some snap)), c', w'. split.
    { unfold LoadCoordSnapshot. rewrite E. go_step. by rewrite (Unmarshal_Marshal _ _ _ CoordSnapshot_codec_ok Hsn). }
    rewrite Hid in He. done.
Qed.

(** Connecting, finding the files and loading the snapshot. *)
Lemma Run_start_client cfg d w m ids completed collected :
  svc_user (W := W) cid → svc_past w →
  config_ok cfg m → place cfg m ids w → cid ∈ ids → saved w completed collected → cache_disk (cfg_CacheDir cfg) d →
  ∃ c d0 w0 c1 w1 r c2 w2,
    NewClient no_faults (cfg_AfsServers cfg) (cfg_CacheDir cfg) cid d w = (Ok c, d0, w0) ∧
    discoverInputFiles no_faults c w0 = (input_files m, c1, w1) ∧
    LoadCoordSnapshot no_faults c1 w1 = Ret (r, c2, w2) ∧ resumed r = (completed, collected) ∧
    client_ready cid (files_of_run cfg) (2 ^ 62) c2 w2 ∧ svc_effect cid [] w w2.
Proof.
  intros Hus Hpast Hcfg [(a & rest & Hsrv & Hr) Hu Hins [Hkend Hend] Hns Hinv] Hcid Hsnap Hdisk. rewrite Hsrv.
  destruct (Hu cid Hcid) as [Hu0 Hcl]. destruct (co_count _ _ Hcfg) as [Hm0 Hm1].
  destruct (cache_disk_mkdir _ _ Hdisk) as (d1 & Hd & Hdisk1).
  destruct (NewClient_ok a rest (cfg_CacheDir cfg) cid d d1 w Hus Hpast Hr Hu0 Hd (cd_wf _ _ Hdisk1)) as (w0 & E0 & Hok0 & Hk0).
  set (c := fresh_client _ _ _ _ _) in *. pose proof (call_reads_effect cid _ _ Hk0) as He0.
  assert (Hl : ∀ p, local_free c p) by (intros p; by apply cache_disk_free).
  assert (Hsame : ∀ f, svc_known w f → svc_file w0 f = svc_file w f) by (intros f Hf; apply He0; [done|set_solver]).
  destruct (discover_loop_ok cid m (Z.to_nat 9999) 1 c w0) as (c1 & w1 & E1 & Hok1 & A & Hq1 & He1 & Hca1);
    [lia|lia|done|done|done|simpl; lia| |rewrite (Z.add_comm 1); by apply He0|
     rewrite (Z.add_comm 1), Hsame by exact Hkend; exact Hend|].
  { intros j Hj. destruct (Hins (input_name j)) as [Hkj Hfj]; [apply elem_of_input_files; exists j; split; [done|lia]|].
    split; [by apply He0|]. rewrite Hsame by done. split; [done|apply lookup_empty]. }
  assert (He : svc_effect cid [] w w1) by by etrans. pose proof A as (_ & Aid & _). change (reqSeq c) with 0%Z in Hq1.
  assert (Hcs : svc_known w CoordSnapshotFile) by (apply law_name_known, Hns; by right; left).
  destruct (LoadCoordSnapshot_saved c1 w1 completed collected Hok1 Aid) as (r & c2 & w2 & E2 & Hres & Hok2 & B & Hq2 & He2).
  { exact (eff_known _ _ _ _ He _ Hcs). }
  { unfold saved in *. by rewrite (eff_file _ _ _ _ He _ Hcs (not_elem_of_nil _)). }
  { exact (same_client_free c c1 _ A (Hl _)). }
  { rewrite Hca1; [apply lookup_empty|]. intros j _ E. discriminate E. }
  { unfold seq_ok. lia. }
  assert (He' : svc_effect cid [] w w2) by by etrans. pose proof B as (_ & Bid & _).
  exists c, d1, w0, c1, w1, r, c2, w2. split; [exact E0|]. split; [exact E1|]. split; [exact E2|]. split; [exact Hres|].
  split; [|exact He']. split; [exact Hok2|by rewrite Bid|lia| | |exact Hcl].
  - intros n Hn. split; [by apply He', Hns|]. split; [|by apply (co_files _ _ Hcfg)].
    apply (same_client_free c1); [exact B|]. exact (same_client_free c c1 _ A (Hl _)).
  - eapply law_effect; [exact Hcl|exact He'| |exact Hinv]. intros p Hp. by apply elem_of_nil in Hp.
Qed.

Lemma input_files_length m : length (input_files m) = m.
Proof. unfold input_files. rewrite length_fmap, length_seqZ. lia. Qed.

(** When nothing is pending the collected primes are all. *)
Lemma all_collected {primes_of} m completed collected :
  covers primes_of completed collected → completed ⊆ input_files m → filterPending (input_files m) completed = [] →
  ∀ p, p ∈ collected ↔ p ∈ concat (primes_of <$> input_files m).
Proof.
  intros Hcov Hsub Hp p. rewrite (Hcov p), elem_of_concat_fmap. split; intros (f & Hf & Hpf); exists f; split; auto.
  destruct (decide (f ∈ completed)) as [|Hn]; [done|]. exfalso. apply (not_elem_of_nil f). rewrite <- Hp.
  by apply elem_of_filterPending.
Qed.

Lemma input_files_ne m : 0 < m → input_files m ≠ [].
Proof. intros Hm E. pose proof (input_files_length m) as Hl. rewrite E in Hl. simpl in Hl. lia. Qed.

(** All files are done: the output is written at once. *)
Lemma Run_start_done cfg d w m c d0 w0 c1 w1 r c2 w2 completed collected :
  NewClient no_faults (cfg_AfsServers cfg) (cfg_CacheDir cfg) cid d w = (Ok c, d0, w0) →
  discoverInputFiles no_faults c w0 = (input_files m, c1, w1) →
  LoadCoordSnapshot no_faults c1 w1 = Ret (r, c2, w2) → resumed r = (completed, collected) → 0 < m →
  filterPending (input_files m) completed = [] →
  Run_start no_faults cfg cid d w =
    let '(e, _, w) := writeFinalOutput no_faults c2 (OutputFile cfg) collected w2 in Ret (inl (e, w)).
Proof.
  intros E0 E1 E2 Hr Hm Hp. unfold Run_start. rewrite E0, E1, decide_False by by apply input_files_ne. rewrite E2. go_step.
  fold (resumed r). rewrite Hr. by rewrite decide_True.
Qed.

(** The state that [Run_start] prepares. *)
Lemma Run_start_prepares cfg d w m c d0 w0 c1 w1 r c2 w2 completed collected ws w3 assigned :
  NewClient no_faults (cfg_AfsServers cfg) (cfg_CacheDir cfg) cid d w = (Ok c, d0, w0) →
  discoverInputFiles no_faults c w0 = (input_files m, c1, w1) →
  LoadCoordSnapshot no_faults c1 w1 = Ret (r, c2, w2) → resumed r = (completed, collected) → 0 < m →
  filterPending (input_files m) completed ≠ [] →
  connect_workers_loop (WorkerAddrs cfg) 0 w2 = (ws, w3) → ws ≠ [] →
  assignFiles (filterPending (input_files m) completed) ws = Ret assigned →
  Run_start no_faults cfg cid d w =
    Ret (inr (mkEnv cfg (input_files m) ws (length (filterPending (input_files m) completed) + 1),
              mkRun (goroutines ws assigned) [] (BuildSeenSet collected) collected completed c2 w3)).
Proof.
  intros E0 E1 E2 Hr Hm Hp Ec Hne Em. unfold Run_start, connectToWorkers.
  rewrite E0, E1, decide_False by by apply input_files_ne. rewrite E2. go_step.
  fold (resumed r). rewrite Hr, decide_False by done. rewrite Ec. destruct ws as [|wk ws]; [done|]. by rewrite Em.
Qed.

(** The goroutines have the workers and the files of the run. *)
Lemma goroutines_elem files ws assigned wk fs f :
  NoDup (wc_addr <$> ws) → ws ≠ [] → assignFiles files ws = Ret assigned →
  (wk, fs) ∈ goroutines ws assigned → f ∈ fs → wk ∈ ws ∧ f ∈ files.
Proof.
  intros Hnd Hne Em Hwk Hf. split.
  - unfold goroutines in Hwk. apply list_elem_of_omap in Hwk as (x & Hx & Ex).
    apply bind_Some in Ex as (l & _ & [= <- <-]). done.
  - rewrite <- (goroutines_perm files ws assigned Hnd Hne Em), elem_of_concat_fmap. by exists (wk, fs).
Qed.

Lemma goroutines_nodup ws (m : gmap string (list string)) :
  NoDup (wc_addr <$> ws) → NoDup ((wc_addr ∘ fst) <$> goroutines ws m).
Proof.
  intros Hnd. eapply sublist_NoDup; [exact Hnd|]. clear Hnd. unfold goroutines.
  induction ws as [|wk ws IH]; [done|]. cbn [omap list_omap]. destruct (m !! wc_addr wk); simpl;
    [by apply sublist_skip|by apply sublist_cons].
Qed.

Lemma worker_snapshots_of_run cfg ws :
  (∀ wk, wk ∈ ws → ∃ j, WorkerAddrs cfg !! j = Some (wc_addr wk) ∧ wc_id wk = worker_name j) →
  WorkerSnapshotFile ∘ wc_id <$> ws ⊆ WorkerSnapshotFile ∘ worker_name <$> seq 0 (length (WorkerAddrs cfg)).
Proof.
  intros Hws n (wk & -> & Hwk)%list_elem_of_fmap. destruct (Hws wk Hwk) as (j & Hj & Hid).
  apply list_elem_of_fmap. exists j. simpl. rewrite Hid. split; [done|]. apply elem_of_seq.
  apply lookup_lt_Some in Hj. lia.
Qed.

(** A run from a setting starts its goroutines, if a file is pending. *)
Lemma Run_start_ok `{!WorkerServes W primes_of} cfg d w m ids completed collected :
  svc_user (W := W) cid → svc_past w →
  config_ok cfg m → place cfg m ids w → cid ∈ ids → saved w completed collected → cache_disk (cfg_CacheDir cfg) d →
  filterPending (input_files m) completed ≠ [] →
  ∃ env s, Run_start no_faults cfg cid d w = Ret (inr (env, s)) ∧ started cfg env s ∧
    run_ready cid cfg env s ∧ rs_completed s = completed ∧ rs_primes s = collected ∧ re_inputs env = input_files m ∧
    (∀ wk, wk ∈ re_workers env → ∃ j, WorkerAddrs cfg !! j = Some (wc_addr wk) ∧ wc_id wk = worker_name j) ∧
    length (re_workers env) ≤ length (WorkerAddrs cfg) ∧
    NoDup ((wc_addr ∘ fst) <$> rs_todo s) ∧
    ∃ w2, svc_effect cid [] w w2 ∧ workers_keep w2 (rs_world s).
Proof.
  intros Hus Hpast Hcfg Hpl Hcid Hsaved Hdisk Hpend.
  destruct (Run_start_client cfg d w m ids _ _ Hus Hpast Hcfg Hpl Hcid Hsaved Hdisk) as
    (c & d0 & w0 & c1 & w1 & r & c2 & w2 & E0 & E1 & E2 & Hres & Hr & He).
  pose proof Hcfg as [[Hm0 Hm1] _ _ Hout [Hnd Hlen] Hup Hask].
  pose proof (connect_workers_ok (WorkerAddrs cfg) 0 w2 (cr_inv _ _ _ _ _ Hr)) as Hws.
  pose proof (connect_workers_ne (WorkerAddrs cfg) 0 w2 (cr_inv _ _ _ _ _ Hr) Hup) as Hne.
  pose proof (connect_workers_addrs (WorkerAddrs cfg) 0 w2) as Hsub.
  change (Z.of_nat 0) with 0%Z in Hws. destruct (connect_workers_loop (WorkerAddrs cfg) 0 w2) as [ws w3] eqn:Ec.
  simpl in Hne, Hsub. destruct Hws as [Hk Hws].
  assert (Hnd' : NoDup (wc_addr <$> ws)) by by eapply sublist_NoDup.
  destruct (assign_loop_spec ws (filterPending (input_files m) completed) 0 ∅ Hnd' Hne) as (assigned & Em & _).
  pose proof (Run_start_prepares _ _ _ _ _ _ _ _ _ _ _ _ _ _ _ _ _ E0 E1 E2 Hres Hm0 Hpend Ec Hne Em) as E.
  pose proof (Run_start_started no_faults cfg cid d w _ _ Hnd E) as Hst.
  assert (Hlw : length ws ≤ length (WorkerAddrs cfg)) by (rewrite <- (length_fmap wc_addr ws); by apply sublist_length).
  assert (Hids : ∀ wk, wk ∈ ws → ∃ j, WorkerAddrs cfg !! j = Some (wc_addr wk) ∧ wc_id wk = worker_name j).
  { intros wk Hwk. destruct (Hws wk Hwk) as (j & Hj & Hid & _). by exists j. }
  pose proof (worker_snapshots_of_run cfg ws Hids) as Hsn.
  eexists _, _. split; [exact E|]. split; [exact Hst|]. split; [|split; [done|split; [done|split; [done|]]]].
  - split; [|split; [|clear -Hout Hsn; set_solver]].
    + pose proof (client_ready_others _ _ _ _ _ _ Hk Hr) as [H1 H2 H3 H4 H5 H6].
      split; [done|done| |intros n Hn; apply H4; clear -Hn Hsn; unfold run_names, files_of_run in *; set_solver|done|done].
      unfold to_come. rewrite (st_todo _ _ _ Hst). cbn [rs_chan re_inputs rs_completed rs_client re_workers].
      pose proof (filterPending_length (input_files m) completed). rewrite input_files_length in *. simpl in *. lia.
    + intros wk fs f Hwk Hf. destruct (goroutines_elem _ _ _ _ _ _ Hnd' Hne Em Hwk Hf) as [Hwk' Hf'].
      apply elem_of_filterPending in Hf' as [Hf' _].
      intros o Ho. assert (Ho' : o ∈ ws) by set_solver. destruct (Hws o Ho') as (j & Hj & Hid & Hupo).
      split; [done|]. destruct o as [oid oa]. simpl in *. subst oid. by apply Hask.
  - split; [exact Hids|]. split; [done|]. split; [by apply goroutines_nodup|]. by exists w2.
Qed.

(** When no file is pending the run ends early. *)
Lemma setting_early `{!AfsUnwatched W} {primes_of} cfg d w m ids completed collected :
  config_ok cfg m → place cfg m ids w → cid ∈ ids → cache_disk (cfg_CacheDir cfg) d →
  progress primes_of m w completed collected → filterPending (input_files m) completed = [] →
  ∃ x, Run_start no_faults cfg cid d w = Ret (inl x) ∧ ends_with cfg (concat (primes_of <$> input_files m)) x.
Proof.
  intros Hcfg Hpl Hcid Hdisk [Hsaved Hsub Hcov] Hp.
  destruct (Run_start_client cfg d w m ids _ _ (any_user cid) (any_past w) Hcfg Hpl Hcid Hsaved Hdisk) as
    (c & d0 & w0 & c1 & w1 & r & c2 & w2 & E0 & E1 & E2 & Hres & Hr & _).
  pose proof (Run_start_done _ _ _ _ _ _ _ _ _ _ _ _ _ _ E0 E1 E2 Hres (proj1 (co_count _ _ Hcfg)) Hp) as E.
  pose proof (all_collected m completed collected Hcov Hsub Hp) as Hsame.
  enough (ends_with cfg collected (let '(e, _, w) := writeFinalOutput no_faults c2 (OutputFile cfg) collected w2 in (e, w))) as He.
  { destruct (writeFinalOutput _ _ _ _ _) as [[e c3] w3]. exists (e, w3). split; [exact E|]. by apply (ends_with_ext cfg collected). }
  unfold ends_with. case_decide as Hnil.
  - rewrite Hnil. destruct (writeFinalOutput_empty cid (files_of_run cfg) (2 ^ 62 - 3) c2 w2 (OutputFile cfg)) as (e & c3 & w3 & ->);
      [by left|apply any_content..|exact Hr|lia|done].
  - destruct (writeFinalOutput_ready cid (files_of_run cfg) (2 ^ 62 - 3) c2 w2 (OutputFile cfg) collected) as
      (v & c3 & w3 & -> & _ & Hf); [by left|intros data; apply may_write_any|exact Hr|lia|exact Hnil|by split; [|exists v]].
Qed.

End Start.
