(* ===== verification/Moments.v ===== *)
(** * The moments of a run

    [Watched W] is a world that remembers the worlds it came through: one for
    every call of the coordinator, to a file server, to a worker, or a marker.
    A coordinator that dies leaves one of these worlds, since it does not know
    beforehand that it will die.  A call that was sent is carried out. *)

From S2P Require Import Prelude Disk AfsProto Server Cache Client AfsSpec Snapshot Worker Coordinator CoordAfs.

Record Watched (W : Type) := mkWatched {
  now : W;
  earlier : list W;
}.
Arguments mkWatched {W} _ _.
Arguments now {W} _.
Arguments earlier {W} _.

Definition moments {W} (t : Watched W) : list W := now t :: earlier t.
Definition watch {W} (w : W) : Watched W := mkWatched w [].

(** The world after a call is a moment of its own. *)
Definition move {W} (w : W) (t : Watched W) : Watched W := mkWatched w (moments t).
Definition watched {W A} (f : W → A * W) (t : Watched W) : A * Watched W :=
  let '(r, w) := f (now t) in (r, move w t).

Section Services.
  Context {W : Type} `{!AfsService W}.

#[export] Instance watched_afs : AfsService (Watched W) := {
  svc_GetPrimary a := watched (svc_GetPrimary a);
  svc_Heartbeat a req := watched (svc_Heartbeat a req);
  svc_Open a req := watched (svc_Open a req);
  svc_TestAuth a req := watched (svc_TestAuth a req);
  svc_FetchFile a req := watched (svc_FetchFile a req);
  svc_StoreFile a reqs err := watched (svc_StoreFile a reqs err);
  svc_CreateFile a req := watched (svc_CreateFile a req);
  svc_DeleteFile a req := watched (svc_DeleteFile a req);
  svc_CloseFile a req := watched (svc_CloseFile a req);
  svc_dial a := svc_dial (W := W) a;
  svc_sleep t := move (svc_sleep (now t)) t;
}.

#[export] Instance watched_net `{!SnapshotNet W} : SnapshotNet (Watched W) := {
  net_Post url := watched (net_Post url);
  time_Unix t := time_Unix (now t);
}.

#[export] Instance watched_workers `{!WorkerService W} : WorkerService (Watched W) := {
  wk_dial a := wk_dial (W := W) a;
  wk_Health a req := watched (wk_Health a req);
  wk_ProcessFile a req := watched (wk_ProcessFile a req);
}.

End Services.

(** ** What is kept at every moment *)

Section Laws.
  Context {W : Type} `{!AfsService W, !AfsView W, !AfsLaws W, !AfsUnwatched W}.
  (* the client that calls, the contents it may leave, and what they keep *)
  Context (user : string) (content : string → option bytes → Prop) (good : W → Prop).
  Context (good_effect : ∀ ps (w w' : W), svc_effect user ps w w' →
    (∀ p, p ∈ ps → svc_known w p ∧ content p (fst <$> svc_file w' p)) → good w → good w').

#[local] Instance watched_view : AfsView (Watched W) := {
  svc_ready t := svc_ready (now t);
  svc_unused t := svc_unused (now t);
  svc_name t := svc_name (now t);
  svc_known t := svc_known (now t);
  svc_file t := svc_file (now t);
  svc_side := svc_side (W := W);
  svc_rest t := svc_rest (now t);
  svc_past t := Forall good (moments t);
  svc_user c := c = user;
  svc_content := content;
}.

Lemma move_good (t : Watched W) w : (good (now t) → good w) → svc_past t → svc_past (move w t).
Proof. intros Hg Ht. constructor; [|exact Ht]. apply Hg. by apply Forall_cons in Ht as [? _]. Qed.

Lemma call_keeps_move n (t : Watched W) w :
  call_keeps user n (now t) w → (good (now t) → good w) → call_keeps user n t (move w t).
Proof. intros [H1 H2 H3 H4 H5 _] Hg. split; [done..|]. by apply move_good. Qed.

Lemma call_keeps_write n p f (t : Watched W) w :
  svc_known (now t) p → content p (fst <$> f) → call_keeps user n (now t) w → file_update p f (now t) w →
  call_keeps user n t (move w t).
Proof using good_effect.
  intros Hp Hc Hk Hu. apply call_keeps_move; [done|].
  apply (good_effect [p]); [by eapply call_keeps_effect|]. intros q ->%list_elem_of_singleton.
  split; [done|]. by rewrite (Hu p Hp), decide_True.
Qed.

Lemma call_reads_move (t : Watched W) w : call_reads (now t) w → call_reads t (move w t).
Proof using good_effect.
  intros Hr. pose proof (call_reads_effect user _ _ Hr) as He. destruct Hr as (H1 & H2 & H3 & H4 & H5 & _).
  split; [done|]. split; [done|]. split; [done|]. split; [done|]. split; [done|]. apply move_good.
  apply (good_effect [] _ _ He). by intros p Hp%elem_of_nil.
Qed.

Lemma watched_eq {A} (f : W → A * W) (t : Watched W) r w : f (now t) = (r, w) → watched f t = (r, move w t).
Proof. unfold watched. by intros ->. Qed.

Lemma watched_connect : connect_law (Watched W).
Proof using All.
  intros t a Hr. destruct (law_connect (now t) a Hr) as (Hne & Hd & (w1 & Hg & Hk1) & r & w' & Hh & Hk).
  split; [done|]. split; [done|]. split.
  - exists (move w1 t). split; [by apply watched_eq|by apply call_reads_move].
  - exists r, (move w' t). split; [by apply watched_eq|by apply call_reads_move].
Qed.

Lemma watched_open : open_law (Watched W).
Proof using All.
  intros t a cid n p write data v Hus Hr Hu Hs Hk Hf.
  change (cid = user) in Hus. subst cid.
  destruct (law_open (now t) a user n p write data v (any_user _) Hr Hu Hs Hk Hf) as (id & w' & E & Hkp & Hup).
  exists id, (move w' t). split; [by apply watched_eq|]. split; [|exact Hup]. apply call_keeps_move; [done|].
  rewrite <- Hf in Hup. apply (good_effect [] _ _ (call_keeps_read_effect _ _ _ _ _ Hkp Hup)).
  by intros q Hq%elem_of_nil.
Qed.

Lemma watched_open_missing : open_missing_law (Watched W).
Proof using All.
  intros t a cid n p write Hr Hu Hs Hk Hf.
  destruct (law_open_missing (now t) a cid n p write Hr Hu Hs Hk Hf) as (w' & E & Hkr).
  exists (move w' t). split; [by apply watched_eq|by apply call_reads_move].
Qed.

Lemma watched_create : create_law (Watched W).
Proof using All.
  intros t a cid n p Hus Hco Hr Hu Hs Hn Hf.
  change (cid = user) in Hus. subst cid.
  destruct (law_create (now t) a user n p (any_user _) (any_content _ _) Hr Hu Hs Hn Hf) as (id & w' & E & Hkp & Hup).
  exists id, (move w' t). split; [by apply watched_eq|]. split; [|exact Hup].
  by apply (call_keeps_write n p (Some ([], 1%Z))); [apply law_name_known|..].
Qed.

Lemma watched_delete : delete_law (Watched W).
Proof using All.
  intros t a cid n p Hus Hco Hr Hu Hs Hn.
  change (cid = user) in Hus. subst cid.
  destruct (law_delete (now t) a user n p (any_user _) (any_content _ _) Hr Hu Hs Hn) as (w' & E & Hkp & Hup).
  exists (move w' t). split; [by apply watched_eq|]. split; [|exact Hup].
  by apply (call_keeps_write n p None); [apply law_name_known|..].
Qed.

Lemma watched_store : store_law (Watched W).
Proof using All.
  intros t a cid n p c cs Hus Hco Hr Hu Hs Hn Hne.
  change (cid = user) in Hus. subst cid.
  destruct (law_store (now t) a user n p c cs (any_user _) (any_content _ _) Hr Hu Hs Hn Hne) as (v & w' & E & Hkp & Hup & Hv).
  exists v, (move w' t). split; [by apply watched_eq|]. split; [|split; [exact Hup|exact Hv]].
  by apply (call_keeps_write n p (Some (concat (c :: cs), v))); [apply law_name_known|..].
Qed.

Lemma watched_store_empty : store_empty_law (Watched W).
Proof using AfsLaws0.
  intros t a resp t'. change (svc_StoreFile a [] None t) with (watched (svc_StoreFile a [] None) t). unfold watched.
  destruct (svc_StoreFile a [] None _) as [r w'] eqn:E. intros [= -> _]. by eapply law_store_empty.
Qed.

Lemma watched_fetch : fetch_law (Watched W).
Proof using All.
  intros t a p data v Hr Hk Hf. destruct (law_fetch (now t) a p data v Hr Hk Hf) as (ms & w' & E & Hkr & Hms).
  exists ms, (move w' t). split; [by apply watched_eq|]. split; [by apply call_reads_move|exact Hms].
Qed.

Lemma watched_testauth : testauth_law (Watched W).
Proof using All.
  intros t a p data v k Hr Hk Hf. destruct (law_testauth (now t) a p data v k Hr Hk Hf) as (w' & E & Hkr).
  exists (move w' t). split; [by apply watched_eq|by apply call_reads_move].
Qed.

Lemma watched_close : close_law (Watched W).
Proof using All.
  intros t a id Hr. pose proof (law_close (now t) a id Hr) as Hk.
  change (svc_CloseFile a (mkCloseFileRequest id) t) with (watched (svc_CloseFile a (mkCloseFileRequest id)) t).
  unfold watched. destruct (svc_CloseFile a _ (now t)) as [r w']. by apply call_reads_move.
Qed.

(** The laws of the service hold at every moment. *)
#[local] Instance watched_laws : AfsLaws (Watched W).
Proof using All.
  split.
  - intros t m. apply (law_name_known (now t)).
  - intros t cid k k'. apply (law_unused_mono (now t)).
  - exact watched_connect.
  - exact watched_open.
  - exact watched_open_missing.
  - exact watched_create.
  - exact watched_delete.
  - exact watched_store.
  - exact watched_store_empty.
  - exact watched_fetch.
  - exact watched_testauth.
  - exact watched_close.
Qed.

(** ** The workers *)

Section Workers.
  Context `{!SnapshotNet W, !WorkerService W, !WorkerLaws W}.
  Context (good_workers : ∀ w w' : W, workers_keep w w' → good w → good w').

Lemma others_move (t : Watched W) w :
  wl_inv w → others_keep wl_client wl_writes (now t) w → others_keep wl_client wl_writes t (move w t).
Proof using good_workers.
  intros Hi Hk. pose proof Hk as [H1 H2 H3 H4 H5 _]. split; [done..|]. apply move_good. by apply good_workers.
Qed.

#[local] Instance watched_worker_laws : WorkerLaws (Watched W).
Proof using AfsUnwatched0 good_workers.
  refine {| wl_inv t := wl_inv (now t); wl_up := wl_up (W := W); wl_asked := wl_asked (W := W);
    wl_reads := wl_reads (W := W); wl_writes := wl_writes (W := W); wl_client := wl_client (W := W) |}.
  - intros a req t Hi Hup Hask. destruct (law_process a req (now t) Hi Hup Hask) as [H1 H2].
    cbn [wk_ProcessFile watched_workers]. unfold watched. destruct (wk_ProcessFile a req (now t)) as [r w'].
    split; [done|by apply others_move].
  - intros a req t Hi. destruct (law_health a req (now t) Hi) as (H1 & H2 & H3).
    cbn [wk_Health watched_workers]. unfold watched. destruct (wk_Health a req (now t)) as [r w'].
    split; [done|]. split; [by apply others_move|done].
  - intros url t Hi. destruct (law_post url (now t) Hi) as [H1 H2].
    cbn [net_Post watched_net]. unfold watched. destruct (net_Post url (now t)) as [r w'].
    split; [done|by apply others_move].
  - intros cid ps t t' Hcl [H1 H2 H3 H4 H5 H6 _] Hps. apply (law_effect cid ps); [done| |done].
    split; [done..|]. intros _. apply any_past.
Defined.

#[local] Instance watched_serves `{!WorkerServes W primes_of} : WorkerServes (Watched W) primes_of.
Proof using All.
  split.
  - intros a req t Hi Hup Hask. destruct (law_serves a req (now t) Hi Hup Hask) as (ms & E & H).
    cbn [wk_ProcessFile watched_workers]. unfold watched. destruct (wk_ProcessFile a req (now t)) as [r w'].
    simpl in E |- *. by exists ms.
  - intros a req t Hi Hup. destruct (law_alive a req (now t) Hi Hup) as (Hd & resp & E & Hr). split; [done|].
    cbn [wk_Health watched_workers]. unfold watched. destruct (wk_Health a req (now t)) as [r w'].
    simpl in E |- *. by exists resp.
Qed.

End Workers.

End Laws.
