(* ===== verification/CoordCrash.v ===== *)
(** * Coordinators that crash

    A coordinator that dies leaves one of the moments of a run (Moments.v): it
    may die between any two of its calls, also while it replaces the snapshot
    ([writeToAFS] deletes, creates and stores in separate calls) or writes the
    output.  Whatever moment it is, it is a setting for the next coordinator:
    the snapshot is missing, empty, or lists files that were completed with
    exactly their primes, and nothing else that a run needs has changed. *)

From S2P Require Import Prelude GoLib GoText GoPath Json JsonCodec MillerRabin Disk AfsProto Server Cache Client AfsSpec SnapshotIO ClientStart Snapshot SnapshotProps Worker WorkerProps Coordinator CoordSpec CoordAfs CoordProps CoordRun Moments.

(** ** The snapshot can be encoded *)

Lemma digit_ascii c : is_digit c → is_ascii c.
Proof. intros [v Hv]. unfold is_ascii. destruct c as [[] [] [] [] [] [] [] []]; vm_compute in Hv |- *; done. Qed.

Lemma digits_ascii l : Forall is_digit l → ascii_text l.
Proof. intros Hl. eapply Forall_impl; [exact Hl|]. apply digit_ascii. Qed.

Lemma ascii_string_app s t : ascii_string s → ascii_string t → ascii_string (s +:+ t).
Proof. intros Hs Ht. unfold ascii_string, ascii_text. rewrite s2b_app. by apply Forall_app. Qed.

Lemma input_name_ascii i : (0 ≤ i)%Z → ascii_string (input_name i).
Proof.
  intros Hi. unfold input_name. repeat apply ascii_string_app; [unfold ascii_string, ascii_text, is_ascii; decide_now| |
    unfold ascii_string, ascii_text, is_ascii; decide_now].
  apply digits_ascii. eapply digits_value_digits. by apply fmt_03d_value.
Qed.

Lemma input_files_ascii m files : files ⊆ input_files m → Forall ascii_string files.
Proof.
  intros Hsub. apply Forall_forall. intros f Hf. apply Hsub, elem_of_input_files in Hf as (i & -> & Hi).
  apply input_name_ascii. lia.
Qed.

Lemma worker_name_ascii j : ascii_string (worker_name j).
Proof.
  apply ascii_string_app; [unfold ascii_string, ascii_text, is_ascii; decide_now|]. apply digits_ascii, fmt_d_digits. lia.
Qed.

Lemma WorkerSnapshotFile_coord id : WorkerSnapshotFile id = CoordSnapshotFile → id = "coordinator".
Proof.
  intros E. unfold WorkerSnapshotFile in E. apply (string_app_inj_r _ _ ".json").
  by apply (inj (String.append "snapshot_")) in E.
Qed.

Lemma worker_snapshot_not_coord j : WorkerSnapshotFile (worker_name j) ≠ CoordSnapshotFile.
Proof. intros E%WorkerSnapshotFile_coord. discriminate E. Qed.

(** ** A run that is watched *)

Section Crash.
  Context {W : Type} (primes_of : string → list Z).
  Context `{!AfsService W, !AfsView W, !AfsLaws W, !SnapshotNet W, !WorkerService W, !WorkerLaws W, !MapOrder}.
  Context `{!WorkerServes W primes_of}.
  Context (cfg : Config) (m : nat) (Hcfg : config_ok cfg m).

(** A snapshot from which a run can resume. *)
Definition snap_fine (snap : CoordSnapshot) : Prop :=
  coord_snap_ok snap ∧ elems (CompletedFiles snap) ⊆ input_files m ∧
  covers primes_of (elems (CompletedFiles snap)) (elems (CollectedPrimes snap)).

(** What the coordinator leaves under its names. *)
Definition run_content (n : string) (f : option bytes) : Prop :=
  n ∈ files_of_run cfg ∧
  (n = CoordSnapshotFile →
   f = None ∨ f = Some [] ∨ ∃ snap, f = Some (Marshal CoordSnapshot_codec snap) ∧ snap_fine snap).

Lemma run_content_other n f : n ∈ files_of_run cfg → n ≠ CoordSnapshotFile → run_content n f.
Proof. by split. Qed.

Lemma run_content_snap f :
  f = None ∨ f = Some [] ∨ (∃ snap, f = Some (Marshal CoordSnapshot_codec snap) ∧ snap_fine snap) →
  run_content CoordSnapshotFile f.
Proof. split; [by right; left|done]. Qed.

Lemma input_files_last : input_name (Z.of_nat m + 1) ∈ input_files (S m).
Proof. apply elem_of_input_files. eexists. split; [done|lia]. Qed.

Lemma input_files_S f : f ∈ input_files m → f ∈ input_files (S m).
Proof. intros (i & -> & Hi)%elem_of_input_files. apply elem_of_input_files. exists i. split; [done|lia]. Qed.

Lemma place_others ids (w w' : W) : place cfg m ids w → workers_keep w w' → place cfg m ids w'.
Proof.
  intros [(a & rest & Ha & Hr) Hu Hins [Hke He] Hns Hinv] [Hinv' Hk].
  assert (Hno : ∀ f, f ∈ input_files (S m) → ¬ wl_writes f) by (intros f Hf Hw; by apply (co_writes _ _ Hcfg f Hw)).
  split; [exists a, rest; split; [done|by apply Hk]|..].
  - intros c Hc. destruct (Hu c Hc) as [H1 H2]. split; [by apply Hk|done].
  - intros f Hf. destruct (Hins f Hf) as [H1 H2]. split; [by apply Hk|].
    rewrite (ok_files _ _ _ _ Hk); [done|done|by apply Hno, input_files_S].
  - split; [by apply Hk|]. rewrite (ok_files _ _ _ _ Hk); [done|done|apply Hno, input_files_last].
  - intros n Hn. by apply Hk, Hns.
  - done.
Qed.

Lemma place_effect ids cid ps (w w' : W) :
  place cfg m ids w → cid ∉ ids → ¬ wl_client cid → ps ⊆ files_of_run cfg → svc_effect cid ps w w' → place cfg m ids w'.
Proof.
  intros [(a & rest & Ha & Hr) Hu Hins [Hke He] Hns Hinv] Hcid Hcl Hps Heff.
  assert (Hno : ∀ f, f ∈ input_files (S m) → f ∉ ps) by (intros f Hf Hin; by apply (co_files _ _ Hcfg f (Hps _ Hin))).
  split; [exists a, rest; split; [done|by apply Heff]|..].
  - intros c Hc. destruct (Hu c Hc) as [H1 H2]. split; [|done]. apply Heff; [by intros ->|done].
  - intros f Hf. destruct (Hins f Hf) as [H1 H2]. split; [by apply Heff|].
    rewrite (eff_file _ _ _ _ Heff); [done|done|by apply Hno, input_files_S].
  - split; [by apply Heff|]. rewrite (eff_file _ _ _ _ Heff); [done|done|apply Hno, input_files_last].
  - intros n Hn. by apply Heff, Hns.
  - eapply law_effect; [exact Hcl|exact Heff| |done]. intros p Hp. by apply (co_files _ _ Hcfg p (Hps _ Hp)).
Qed.

Lemma saved_others ids (w w' : W) cs ps : place cfg m ids w → workers_keep w w' → saved w cs ps → saved w' cs ps.
Proof.
  intros Hpl [_ Hk] Hs. unfold saved in *. rewrite (ok_files _ _ _ _ Hk); [done| |].
  - apply law_name_known, (pl_names _ _ _ _ Hpl). by right; left.
  - intros Hw. destruct (co_writes _ _ Hcfg _ Hw) as [H1 _]. by apply H1.
Qed.

(** ** Good moments *)

(** The next coordinators [ids] find their place and a snapshot to resume from. *)
Definition resumable (ids : list string) (w : W) : Prop :=
  place cfg m ids w ∧ ∃ completed collected, progress primes_of m w completed collected.

Lemma snap_known ids (w : W) : place cfg m ids w → svc_known w CoordSnapshotFile.
Proof. intros Hpl. apply law_name_known, (pl_names _ _ _ _ Hpl). by right; left. Qed.

Lemma saved_same (w w' : W) cs ps :
  svc_file w' CoordSnapshotFile = svc_file w CoordSnapshotFile → saved w cs ps → saved w' cs ps.
Proof. unfold saved. by intros ->. Qed.

Lemma covers_nil : covers primes_of [] [].
Proof. intros p. split; [by intros Hp%elem_of_nil|by intros (f & Hf%elem_of_nil & _)]. Qed.

(** A file left with [run_content] is one to resume from. *)
Lemma progress_content (w : W) :
  run_content CoordSnapshotFile (fst <$> svc_file w CoordSnapshotFile) → ∃ cs ps, progress primes_of m w cs ps.
Proof.
  intros [_ Hc]. destruct (Hc eq_refl) as [Hf|[Hf|(snap & Hf & Hsn & Hsub & Hcov)]].
  - exists [], []. split; [left|apply list_subseteq_nil|apply covers_nil]. split; [|done]. intros data v E. by rewrite E in Hf.
  - exists [], []. split; [left|apply list_subseteq_nil|apply covers_nil]. split; [|done]. intros data v E. rewrite E in Hf. by injection Hf.
  - apply fmap_Some in Hf as ([data v] & Hf & E). simpl in E. subst data.
    eexists _, _. split; [right; exists snap, v; split; [exact Hf|done]|done|done].
Qed.

Lemma resumable_effect ids cid ps (w w' : W) :
  cid ∉ ids → ¬ wl_client cid → svc_effect cid ps w w' →
  (∀ p, p ∈ ps → svc_known w p ∧ run_content p (fst <$> svc_file w' p)) → resumable ids w → resumable ids w'.
Proof.
  intros Hcid Hcl He Hps [Hpl (cs & qs & [Hsv Hf Hp])]. split.
  - eapply place_effect; [exact Hpl|done|done| |exact He]. intros n Hn. apply (Hps n Hn).
  - destruct (decide (CoordSnapshotFile ∈ ps)) as [Hin|Hout]; [apply progress_content; by apply Hps|].
    exists cs, qs. split; [|done|done]. eapply saved_same; [|exact Hsv].
    apply (eff_file _ _ _ _ He); [by eapply snap_known|done].
Qed.

Lemma resumable_workers ids (w w' : W) : workers_keep w w' → resumable ids w → resumable ids w'.
Proof.
  intros Hk [Hpl (cs & qs & [Hsv Hf Hp])]. split; [by eapply place_others|]. exists cs, qs.
  split; [by eapply saved_others|done|done].
Qed.

(** ** The parts of a run that keep what is watched *)

(** What [Run_start] fixes. *)
Record env_ok (env : run_env) : Prop := {
  eo_inputs : re_inputs env = input_files m;
  eo_names wk : wk ∈ re_workers env → ∃ j, WorkerAddrs cfg !! j = Some (wc_addr wk) ∧ wc_id wk = worker_name j;
  eo_count : length (re_workers env) ≤ length (WorkerAddrs cfg);
}.

(** A state's snapshot can be encoded. *)
Lemma snapshot_of_fine env (s : run_state W) snap :
  (∀ f p, p ∈ primes_of f → is_u64 p) → (∀ w : W, is_nat63 (time_Unix w)) →
  env_ok env → rs_completed s ⊆ input_files m → covers primes_of (rs_completed s) (rs_primes s) →
  snapshot_of env s snap → snap_fine snap.
Proof.
  intros primes_u64 clock_ok [Hin Hids Hlen] Hf Hp [Ec Epe Eps Hm [w Ew]]. destruct (co_workers _ _ Hcfg) as [_ Hmax].
  destruct Hm as (Ech & Hsent & Hack); [lia|]. unfold snap_fine. rewrite Ec, Eps. split; [|done].
  split; [rewrite Ec|rewrite Epe|rewrite Eps|rewrite Ech|done|done|rewrite Ew; apply clock_ok]; cbn [elems].
  - by eapply input_files_ascii.
  - assert (Happ : ∀ l : list string, elems (appended l) = l) by by intros []. rewrite Happ. eapply (input_files_ascii m).
    intros f [Hf' _]%elem_of_filterPending. by rewrite <- Hin.
  - apply Forall_forall. intros p Hp'. apply Hp in Hp' as (f & _ & Hpf). by eapply primes_u64.
  - apply Forall_map, Forall_map, Forall_forall. intros wk Hwk. destruct (Hids wk Hwk) as (j & _ & E). simpl. rewrite E.
    split; [apply worker_name_ascii|unfold is_nat63; simpl; lia].
Qed.

(** What is watched allows all that the coordinator leaves. *)
Context (content_ok : ∀ n f, run_content n f → svc_content (W := W) n f).

Lemma may_write_output data : may_write W (OutputFile cfg) data.
Proof using content_ok Hcfg.
  assert (OutputFile cfg ≠ CoordSnapshotFile) by (intros E; apply (co_output _ _ Hcfg); rewrite E; by left).
  split_and!; apply content_ok, run_content_other; done || by left.
Qed.

(** Up to the goroutines; a coordinator that finds nothing to do writes the
    output and returns. *)
Lemma Run_start_past cid d ids (w : W) completed collected :
  svc_user (W := W) cid → svc_past w → place cfg m ids w → cid ∈ ids → progress primes_of m w completed collected →
  cache_disk (cfg_CacheDir cfg) d → concat (primes_of <$> input_files m) ≠ [] →
  match Run_start no_faults cfg cid d w with
  | Ret (inl r) => svc_past r.2
  | Ret (inr (_, s)) => svc_past (rs_world s)
  | _ => True
  end.
Proof using All.
  intros Hus Hpast Hpl Hin [Hsv Hf Hp] Hdisk Hne.
  destruct (decide (filterPending (input_files m) completed = [])) as [Hpe|Hpe].
  - destruct (Run_start_client cid cfg d w m _ _ _ Hus Hpast Hcfg Hpl Hin Hsv Hdisk) as
      (c & d0 & w0 & c1 & w1 & r0 & c2 & w2 & E0 & E1 & E2 & Hres & Hr & _).
    rewrite (Run_start_done _ _ _ _ _ _ _ _ _ _ _ _ _ _ _ E0 E1 E2 Hres (proj1 (co_count _ _ Hcfg)) Hpe).
    pose proof (all_collected m completed collected Hp Hf Hpe) as Hsame.
    destruct (writeFinalOutput_ready cid (files_of_run cfg) (2 ^ 62 - 3) c2 w2 (OutputFile cfg) collected) as
      (v & c3 & w3 & E3 & Hr3 & _); [by left|by apply may_write_output|by eapply client_ready_budget; [|exact Hr]|lia|
        intros En; by apply Hne, (same_elements_nil _ _ Hsame)|].
    rewrite E3. apply Hr3.
  - destruct (Run_start_ok cid cfg d w m _ _ _ Hus Hpast Hcfg Hpl Hin Hsv Hdisk Hpe) as (env & s & -> & _ & (Hready & _) & _).
    apply Hready.
Qed.

Lemma Run_finish_past cid env (s : run_state W) :
  re_cfg env = cfg → env_ok env →
  client_ready cid (run_names cfg env) (Z.of_nat (length (re_workers env)) + 4) (rs_client s) (rs_world s) →
  rs_primes s ≠ [] → svc_past (Run_finish no_faults env s).2.
Proof using All.
  intros Ec [_ Hids _] Hready Hne. pose proof (worker_snapshots_of_run cfg (re_workers env) Hids) as Hsn.
  assert (Hws : ∀ wk, wk ∈ re_workers env →
    WorkerSnapshotFile (wc_id wk) ∈ (WorkerSnapshotFile ∘ worker_name <$> seq 0 (length (WorkerAddrs cfg)))).
  { intros wk Hwk. apply Hsn. by apply (list_elem_of_fmap_2 (WorkerSnapshotFile ∘ wc_id)). }
  edestruct (Run_finish_ok cid (run_names cfg env) env s) as (c' & w' & v & -> & Hr' & _); [..|by apply Hr'].
  - rewrite Ec. by left.
  - by right; left.
  - rewrite Ec. intros Eo. apply (co_output _ _ Hcfg). rewrite Eo. by left.
  - rewrite Ec. intros wk Hwk. split; [right; right; by apply (list_elem_of_fmap_2 (WorkerSnapshotFile ∘ wc_id))|].
    intros Eo. apply (co_output _ _ Hcfg). rewrite <- Eo. right. by apply Hws.
  - rewrite Ec. apply may_write_output.
  - apply content_ok, run_content_snap. by left.
  - intros wk Hwk. apply content_ok, run_content_other; [by right; right; apply Hws|].
    destruct (Hids wk Hwk) as (j & _ & ->). apply worker_snapshot_not_coord.
  - exact Hready.
  - exact Hne.
Qed.

End Crash.

(** ** What a coordinator leaves behind *)

Section Leaves.
  Context {W : Type} (primes_of : string → list Z).
  Context `{!AfsService W, !AfsView W, !AfsLaws W, !AfsUnwatched W, !SnapshotNet W, !WorkerService W, !WorkerLaws W,
    !MapOrder, !WorkerServes W primes_of}.
  Context (cfg : Config) (m : nat) (Hcfg : config_ok cfg m) (Hne : concat (primes_of <$> input_files m) ≠ []).
  Context (cid : string) (ids : list string) (Hcid : cid ∉ ids) (Hclient : ¬ wl_client cid).

Let content := run_content primes_of cfg m.
Let good := resumable primes_of cfg m ids.

Lemma good_effect ps (w w' : W) :
  svc_effect cid ps w w' → (∀ p, p ∈ ps → svc_known w p ∧ content p (fst <$> svc_file w' p)) → good w → good w'.
Proof using AfsLaws0 Hcfg Hcid Hclient. by eapply resumable_effect. Qed.

Lemma good_workers (w w' : W) : workers_keep w w' → good w → good w'.
Proof using AfsLaws0 Hcfg. by eapply resumable_workers. Qed.

#[local] Instance run_view : AfsView (Watched W) := watched_view cid content good.
#[local] Instance run_laws : AfsLaws (Watched W) := watched_laws cid content good good_effect.
#[local] Instance run_worker_laws : WorkerLaws (Watched W) := watched_worker_laws cid content good good_workers.
#[local] Instance run_serves : WorkerServes (Watched W) primes_of := watched_serves cid content good good_effect good_workers.

Lemma watched_config : config_ok (W := Watched W) cfg m.
Proof using Hcfg. destruct Hcfg as [H1 H2 H3 H4 H5 H6 H7]. by split. Qed.

(** Every moment of a start is a setting for the next coordinator. *)
Lemma start_leaves d (w w' : W) completed collected :
  place cfg m (cid :: ids) w → progress primes_of m w completed collected → cache_disk (cfg_CacheDir cfg) d →
  match Run_start no_faults cfg cid d (watch w) with
  | Ret (inl r) => w' ∈ moments r.2
  | Ret (inr (_, s)) => w' ∈ moments (rs_world s)
  | _ => False
  end → good w'.
Proof using All.
  intros Hpl Hpr Hdisk.
  assert (Hg : good w).
  { split; [|by exists completed, collected]. destruct Hpl as [H1 H2 H3 H4 H5 H6].
    split; [done|intros c Hc; apply H2; by right|done..]. }
  assert (Hpast := Run_start_past (W := Watched W) primes_of cfg m watched_config (λ _ _ H, H) cid d (cid :: ids) (watch w)
    completed collected eq_refl).
  destruct (Run_start no_faults cfg cid d (watch w)) as [[r|[env s]]|msg|]; [..|done|done];
    (intros Hin; eapply Forall_forall in Hin; [exact Hin|]; apply Hpast; try done; [by apply Forall_singleton| |by left|]);
    [by destruct Hpl|by destruct Hpr|by destruct Hpl|by destruct Hpr].
Qed.

(** Every moment of an end is one. *)
Lemma finish_leaves env (s : run_state (Watched W)) (w' : W) :
  re_cfg env = cfg → env_ok cfg m env → moments (rs_world s) = [now (rs_world s)] → good (now (rs_world s)) →
  client_ready cid (run_names cfg env) (Z.of_nat (length (re_workers env)) + 4) (rs_client s) (now (rs_world s)) →
  rs_primes s ≠ [] → w' ∈ moments (Run_finish no_faults env s).2 → good w'.
Proof using All.
  intros Ec Henv Hm Hg [[Hcn Hun Hseq Hwf _ _] R2 R3 R4 R5 R6] Hps Hin.
  assert (Hpast : svc_past (Run_finish no_faults env s).2); [|by eapply Forall_forall in Hpast].
  apply (Run_finish_past (W := Watched W) primes_of cfg m watched_config (λ _ _ H, H) cid env s Ec Henv); [|done].
  split; [|done..]. split; [done..|]. change (Forall good (moments (rs_world s))). rewrite Hm. by apply Forall_singleton.
Qed.

End Leaves.
