(* ===== verification/System.v ===== *)
(** * The whole system

    A [Deployment] is a file service with the worker processes beside it, each
    at its address, with its state and the disk of its machine.  A call of the
    coordinator to a worker runs [ProcessFile] of Worker.v, which is a client of
    the same file service; every such call starts a client with an id of its
    own ([fresh]: process id and time in the source).  A marker reaches the
    process whose HTTP server has that host and port.  [deployment_laws],
    [deployment_workers] and [deployment_serves] (SystemLaws.v) show that this system keeps
    what the coordinator relies on. *)

From S2P Require Import Prelude GoLib GoText GoPath Json JsonCodec MillerRabin Disk AfsProto Server Cache Client AfsSpec SnapshotIO ClientStart Snapshot SnapshotProps Worker WorkerProps Coordinator CoordSpec CoordAfs CoordProps CoordRun.

(** A worker process: src/primefinder/cmd/worker/main.go. *)
Record worker_proc := mkProc {
  wp_srv : workerServer;
  wp_disk : Disk;        (* of its machine *)
  wp_http : string;      (* host and port of its HTTP server *)
}.

(** The worker's [main] on the machine [host]. *)
Definition worker_main (id host snapshotPort : string) (d : Disk) : worker_proc :=
  mkProc (newWorkerServer id) d (host +:+ ":" +:+ snapshotPort).

Record Deployment (W : Type) := mkDeployment {
  dp_afs : W;
  dp_workers : gmap string worker_proc;
  dp_clients : nat;                       (* clients that workers started *)
}.
Arguments mkDeployment {W} _ _ _.
Arguments dp_afs {W} _.
Arguments dp_workers {W} _.
Arguments dp_clients {W} _.

Definition set_afs {W} (w : W) (s : Deployment W) : Deployment W := mkDeployment w (dp_workers s) (dp_clients s).

Section System.
  Context {W : Type} `{!AfsService W, !SnapshotNet W, !MapOrder}.
  Context (flt : OsFaults) (fresh : nat → string) (elapsed : nat → Z).

(** A call to the file service. *)
Definition on_afs {A} (f : W → A * W) (s : Deployment W) : A * Deployment W :=
  let '(r, w) := f (dp_afs s) in (r, set_afs w s).

#[export] Instance deployment_afs : AfsService (Deployment W) := {
  svc_GetPrimary a := on_afs (svc_GetPrimary a);
  svc_Heartbeat a req := on_afs (svc_Heartbeat a req);
  svc_Open a req := on_afs (svc_Open a req);
  svc_TestAuth a req := on_afs (svc_TestAuth a req);
  svc_FetchFile a req := on_afs (svc_FetchFile a req);
  svc_StoreFile a reqs err := on_afs (svc_StoreFile a reqs err);
  svc_CreateFile a req := on_afs (svc_CreateFile a req);
  svc_DeleteFile a req := on_afs (svc_DeleteFile a req);
  svc_CloseFile a req := on_afs (svc_CloseFile a req);
  svc_dial a := svc_dial (W := W) a;
  svc_sleep s := set_afs (svc_sleep (dp_afs s)) s;
}.

Definition no_worker : string := "rpc error: connection refused".

(** A handler that panics ends its process. *)
Definition run_ProcessFile (a : string) (req : ProcessFileRequest) (s : Deployment W)
    : result (recv_stream ProcessFileResponse) * Deployment W :=
  match dp_workers s !! a with
  | None => (Err no_worker, s)
  | Some p =>
      match ProcessFile flt (fresh (dp_clients s)) (elapsed (dp_clients s)) req open_stream (wp_srv p) (wp_disk p) (dp_afs s) with
      | Ret (e, stream, wk, d, w) =>
          (Ok (mkRecv (sent stream) e),
           mkDeployment w (<[a := mkProc wk d (wp_http p)]> (dp_workers s)) (S (dp_clients s)))
      | _ =>
          (Err "rpc error: transport is closing",
           mkDeployment (dp_afs s) (delete a (dp_workers s)) (S (dp_clients s)))
      end
  end.

Definition deployment_worker_service : WorkerService (Deployment W) := {|
  wk_dial _ := true;
  wk_Health a req s :=
    match dp_workers s !! a with
    | None => (Err no_worker, s)
    | Some p => (Ok (worker_Health (wp_srv p) req), s)
    end;
  wk_ProcessFile := run_ProcessFile;
|}.

(** Any answer acknowledges a marker; the handler only reads the state. *)
#[export] Instance deployment_net : SnapshotNet (Deployment W) := {
  net_Post url s :=
    ((if decide (map_Exists (λ _ p, has_prefix (s2b ("http://" +:+ wp_http p +:+ "/")) (s2b url) = true) (dp_workers s))
      then None else Some no_worker), s);
  time_Unix s := time_Unix (dp_afs s);
}.

End System.
