(* ===== verification/Concurrent.v ===== *)
(** * Workers and coordinator at the same time

    In Coordinator.v the processing of a file by a worker is one step.  Here
    the handlers of the workers and the coordinator's receiving loop run side by
    side: a step is one call of one of them to the file service or of a marker.
    Each goroutine of [Run] waits for its worker; a worker that serves a call
    runs [ProcessFile_calls], and the receiving loop runs
    [InitiateSnapshot_calls].  A worker serves one call at a time: another
    goroutine that asks it waits. *)

From S2P Require Import Prelude GoLib GoText GoPath Json JsonCodec MillerRabin Disk AfsProto Server Cache Client AfsSpec SnapshotIO ClientStart Snapshot Calls SnapshotProps Worker WorkerProps Coordinator CoordSpec CoordAfs CoordProps CoordRun Moments CoordCrash System.

(** ** The handler of a worker *)

Section Worker.
  Context (flt : OsFaults) `{!MapOrder}.

Definition finish_file_calls (req : ProcessFileRequest) (elapsed : Z) (scan_err err : error)
    (st : scan_state) (wk : workerServer) (client : Client)
    : program (error * send_stream ProcessFileResponse * workerServer * Disk) :=
  match err with
  | Some _ => Return (err, out st, wk, cdisk client)
  | None =>
      match scan_err with
      | Some e =>
          let '(e, s) := stream_Send (out st) (error_msg ("scan error: " +:+ e)) in
          Return (e, s, wk, cdisk client)
      | None =>
          match send_rest st elapsed with
          | (Some e, s) => Return (Some e, s, wk, cdisk client)
          | (None, s) =>
              let wk := record_file (FilePath req) (fileSeenPrimes st) wk in
              Clock (λ now,
                '(_, client) ← SaveWorkerSnapshot_calls flt client (currentSnapshot wk now);
                Return (None, s, wk, cdisk client))
          end
      end
  end.

(** Reading and scanning make no calls. *)
Definition scan_file (handle : Z) (stream : send_stream ProcessFileResponse) (client : Client)
    : outcome (error * error * scan_state * Client) :=
  '(data, readErr, client) ← read_to_end flt (Z.to_nat 65536) handle client;
  let '(lines, scanErr) := Scan 256 data readErr in
  '(err, st) ← scan_loop lines (mkScan ∅ [] 0 stream);
  Ret (scanErr, err, st, client).

Definition ProcessFile_calls (cid : string) (elapsed : Z) (req : ProcessFileRequest)
    (stream : send_stream ProcessFileResponse) (wk : workerServer) (d : Disk)
    : program (outcome (error * send_stream ProcessFileResponse * workerServer * Disk)) :=
  '(r, d) ← NewClient_calls flt (Split (AfsServers req) ",") (CacheDir req) cid d;
  match r with
  | Err err =>
      let '(e, s) := stream_Send stream (error_msg ("AFS connect failed: " +:+ err)) in
      Return (Ret (e, s, wk, d))
  | Ok client =>
      '(r, client) ← client_Open_calls flt (FilePath req) false client;
      match r with
      | Err err =>
          let '(e, s) := stream_Send stream (error_msg ("Open failed: " +:+ err)) in
          Return (Ret (e, s, wk, cdisk client))
      | Ok handle =>
          match scan_file handle stream client with
          | Ret (scanErr, err, st, client) =>
              '(_, client) ← client_Close_calls flt handle client;
              r ← finish_file_calls req elapsed scanErr err st wk client;
              Return (Ret r)
          | Panic msg => Return (Panic msg)
          | NoFuel => Return NoFuel
          end
      end
  end.

Lemma run_finish_file {W} `{!AfsService W, !SnapshotNet W} req elapsed scan_err err st wk client :
  runs_as (W := W) (finish_file_calls req elapsed scan_err err st wk client)
    (finish_file flt req elapsed scan_err err st wk client).
Proof.
  intros w. unfold finish_file_calls, finish_file. destruct err as [e|]; [done|]. destruct scan_err as [e|].
  { by destruct (stream_Send _ _). }
  destruct (send_rest st elapsed) as [[e|] s]; [done|]. cbn [run]. rewrite run_bind.
  unfold SaveWorkerSnapshot_calls, SaveWorkerSnapshot. rewrite run_writeToAFS.
  by destruct (writeToAFS _ _ _ _ _) as [[e c] w1].
Qed.

(** Run to its end, the program is the handler. *)
Lemma run_ProcessFile_calls {W} `{!AfsService W, !SnapshotNet W} cid elapsed req stream wk d (w : W) :
  join_world (run (ProcessFile_calls cid elapsed req stream wk d) w) = ProcessFile flt cid elapsed req stream wk d w.
Proof.
  unfold ProcessFile_calls, ProcessFile. rewrite run_bind, run_NewClient.
  destruct (NewClient _ _ _ _ _ w) as [[[c|e] d0] w0]; [|by destruct (stream_Send _ _)].
  rewrite run_bind, run_client_Open. destruct (client_Open _ _ _ _ w0) as [[[h|e] c1] w1]; [|by destruct (stream_Send _ _)].
  unfold scan_file. destruct (read_to_end _ _ _ _) as [[[data re] c2]|msg|]; [|done..]. go_step.
  destruct (Scan 256 data re) as [lines se]. destruct (scan_loop _ _) as [[err st]|msg|]; [|done..]. go_step.
  rewrite run_bind, run_client_Close. destruct (client_Close _ _ _ _) as [[e c3] w3].
  rewrite run_bind, run_finish_file. by destruct (finish_file _ _ _ _ _ _ _ _ _) as [[[[e1 s] wk1] d1] w4].
Qed.

End Worker.

(** ** The goroutines and the receiving loop *)

(** What a goroutine does: it waits for its next file, asks a worker ([others]
    are asked in turn if this one fails), waits while the worker serves the
    call, or has a result to send. *)
Inductive activity :=
  | Idle
  | Asking (file : string) (target : workerConn) (others : list workerConn)
  | Serving (file : string) (target : workerConn) (others : list workerConn) (p : worker_proc)
      (calls : program (outcome (error * send_stream ProcessFileResponse * workerServer * Disk)))
  | Finished (res : workerResult).

Record conc W := mkConc {
  cc_run : run_state (Deployment W);
  cc_doing : list activity;                                    (* of each goroutine of [rs_todo] *)
  cc_saving : option (program (outcome (error * Client)));     (* the loop takes a snapshot *)
}.
Arguments mkConc {W} _ _ _.
Arguments cc_run {W} _.
Arguments cc_doing {W} _.
Arguments cc_saving {W} _.

Definition set_doing {W} (i : nat) (a : activity) (x : conc W) : conc W :=
  mkConc (cc_run x) (<[i := a]> (cc_doing x)) (cc_saving x).
Definition set_todo {S} (todo : list (workerConn * list string)) (s : run_state S) : run_state S :=
  mkRun todo (rs_chan s) (rs_seen s) (rs_primes s) (rs_completed s) (rs_client s) (rs_world s).
Definition set_chan {S} (chan : list workerResult) (s : run_state S) : run_state S :=
  mkRun (rs_todo s) chan (rs_seen s) (rs_primes s) (rs_completed s) (rs_client s) (rs_world s).
Definition set_rclient {S} (c : Client) (s : run_state S) : run_state S :=
  mkRun (rs_todo s) (rs_chan s) (rs_seen s) (rs_primes s) (rs_completed s) c (rs_world s).
Definition set_rworld {S T} (w : T) (s : run_state S) : run_state T :=
  mkRun (rs_todo s) (rs_chan s) (rs_seen s) (rs_primes s) (rs_completed s) (rs_client s) w.
Definition set_run {W} (s : run_state (Deployment W)) (x : conc W) : conc W := mkConc s (cc_doing x) (cc_saving x).

Definition is_serving (a : activity) : Prop := match a with Serving _ _ _ _ _ => True | _ => False end.
#[export] Instance is_serving_dec a : Decision (is_serving a).
Proof. destruct a; simpl; apply _. Defined.

Definition serves (addr : string) (a : activity) : Prop :=
  match a with Serving _ target _ _ _ => wc_addr target = addr | _ => False end.
#[export] Instance serves_dec addr a : Decision (serves addr a).
Proof. destruct a; simpl; apply _. Defined.

(** The next worker of [processOneFile] after a failure. *)
Fixpoint next_worker (self : workerConn) (file : string) (others : list workerConn) : activity :=
  match others with
  | [] => Finished (mkWorkerResult (wc_id self) file [] 0 0 (Some ("all workers failed for " +:+ file)))
  | other :: others =>
      if decide (wc_id other = wc_id self) then next_worker self file others else Asking file other others
  end.

(** After the call of [tryWorker]. *)
Definition tried (self : workerConn) (others : list workerConn) (res : workerResult) : activity :=
  match res_err res with None => Finished res | Some _ => next_worker self (filePath res) others end.

Section Step.
  Context {S : Type} `{!AfsService S, !SnapshotNet S}.

(** Programs read the clock and dial at the moment of the call that follows. *)
Fixpoint settle {A} (m : program A) (w : S) : program A :=
  match m with
  | Clock k => settle (k (time_Unix w)) w
  | Dial a k => settle (k (svc_dial (W := S) a)) w
  | m => m
  end.

(** One call of a program, or its result. *)
Definition program_step {A} (m : program A) (w : S) : A + (program A * S) :=
  match settle m w with
  | Return a => inl a
  | Call c k => let '(r, w) := perform c w in inr (k r, w)
  | m => inr (m, w)
  end.

End Step.

Section Concurrent.
  Context {W : Type} `{!AfsService W, !SnapshotNet W, !MapOrder}.
  Context (flt : OsFaults) (fresh : nat → string) (elapsed : nat → Z).

Definition goroutine_step (env : run_env) (i : nat) (x : conc W) : option (conc W) :=
  let s := cc_run x in
  '(wk, files) ← rs_todo s !! i;
  doing ← cc_doing x !! i;
  match doing with
  | Idle =>
      match files with
      | [] => None
      | file :: files =>
          Some (set_doing i (Asking file wk (re_workers env)) (set_run (set_todo (<[i := (wk, files)]> (rs_todo s)) s) x))
      end
  | Asking file target others =>
      let a := wc_addr target in
      if decide (Exists (serves a) (cc_doing x)) then None
      else match dp_workers (rs_world s) !! a with
      | None => Some (set_doing i (tried wk others (mkWorkerResult (wc_id target) file [] 0 0 (Some no_worker))) x)
      | Some p =>
          let n := dp_clients (rs_world s) in
          Some (set_doing i (Serving file target others p
              (ProcessFile_calls flt (fresh n) (elapsed n) (process_request target file (re_cfg env)) open_stream
                 (wp_srv p) (wp_disk p)))
            (set_run (set_rworld (mkDeployment (dp_afs (rs_world s)) (dp_workers (rs_world s)) (S n)) s) x))
      end
  | Serving file target others p calls =>
      match program_step calls (rs_world s) with
      | inr (calls, w) => Some (set_doing i (Serving file target others p calls) (set_run (set_rworld w s) x))
      | inl (Ret (e, stream, wk', d)) =>
          Some (set_doing i (tried wk others (recv_chunks (wc_id target) file (sent stream) e [] 0 0))
            (set_run (set_rworld (mkDeployment (dp_afs (rs_world s))
              (<[wc_addr target := mkProc wk' d (wp_http p)]> (dp_workers (rs_world s))) (dp_clients (rs_world s))) s) x))
      | inl _ =>
          Some (set_doing i (tried wk others (mkWorkerResult (wc_id target) file [] 0 0 (Some "rpc error: transport is closing")))
            (set_run (set_rworld (mkDeployment (dp_afs (rs_world s)) (delete (wc_addr target) (dp_workers (rs_world s)))
              (dp_clients (rs_world s))) s) x))
      end
  | Finished res =>
      if decide (length (rs_chan s) < re_cap env) then
        Some (set_doing i Idle (set_run (set_chan (rs_chan s ++ [res]) s) x))
      else None
  end.

(** The receiving loop; it ends the process when the snapshot panics. *)
Definition receiver_step (env : run_env) (x : conc W) : option (conc W) :=
  let s := cc_run x in
  match cc_saving x with
  | Some calls =>
      match program_step calls (rs_world s) with
      | inr (calls, w) => Some (mkConc (set_rworld w s) (cc_doing x) (Some calls))
      | inl (Ret (_, client)) => Some (mkConc (set_rclient client s) (cc_doing x) None)
      | inl _ => None
      end
  | None =>
      match rs_chan s with
      | [] => None
      | res :: chan =>
          match res_err res with
          | Some _ => Some (set_run (set_chan chan s) x)
          | None =>
              let '(seen, collected) := foldl collect_prime (rs_seen s, rs_primes s) (primes res) in
              let completed := rs_completed s ++ [filePath res] in
              let '(httpAddrs, ids) := buildWorkerHTTPAddrs (re_workers env) in
              Some (mkConc (mkRun (rs_todo s) chan seen collected completed (rs_client s) (rs_world s)) (cc_doing x)
                (Some (InitiateSnapshot_calls flt (rs_client s) (Some completed)
                  (appended (filterPending (re_inputs env) completed)) (Some collected) httpAddrs ids)))
          end
      end
  end.

Definition conc_step (env : run_env) (act : action) (x : conc W) : option (conc W) :=
  match act with Work i => goroutine_step env i x | Recv => receiver_step env x end.

(** A schedule. *)
Fixpoint conc_exec (env : run_env) (acts : list action) (x : conc W) : option (conc W) :=
  match acts with
  | [] => Some x
  | act :: acts => x ← conc_step env act x; conc_exec env acts x
  end.

Definition conc_start (s : run_state (Deployment W)) : conc W := mkConc s (const Idle <$> rs_todo s) None.

(** All goroutines ended, the channel was closed and drained, the loop ended. *)
Definition conc_over (x : conc W) : Prop :=
  drained (cc_run x) ∧ Forall (λ a, a = Idle) (cc_doing x) ∧ cc_saving x = None.

(** A run of the coordinator with its workers. *)
Inductive concurrent_run (cfg : Config) (cid : string) (d : Disk) (w : Deployment W) : error * Deployment W → Prop :=
  | concurrent_early r :
      Run_start (WorkerService0 := deployment_worker_service flt fresh elapsed) flt cfg cid d w = Ret (inl r) →
      concurrent_run cfg cid d w r
  | concurrent_full env s acts x :
      Run_start (WorkerService0 := deployment_worker_service flt fresh elapsed) flt cfg cid d w = Ret (inr (env, s)) →
      conc_exec env acts (conc_start s) = Some x → conc_over x →
      concurrent_run cfg cid d w (Run_finish flt env (cc_run x)).

End Concurrent.
