(* ===== verification/SystemLaws.v ===== *)
(** * The system keeps the laws of its parts

    The file service of a [Deployment] is the one it holds; its workers keep
    what the coordinator relies on ([WorkerLaws]) and answer with the primes of
    the files ([WorkerServes]), as long as the deployment is in good order. *)

From S2P Require Import Prelude GoLib GoText GoPath Json JsonCodec MillerRabin Disk AfsProto Server Cache Client AfsSpec SnapshotIO ClientStart Snapshot SnapshotProps Worker WorkerProps Coordinator CoordSpec CoordAfs CoordProps CoordRun System.

(** ** The file service *)

Section Service.
  Context {W : Type} `{!AfsService W, !AfsView W, !AfsLaws W}.

#[export] Instance deployment_view : AfsView (Deployment W) := {
  svc_ready s := svc_ready (dp_afs s);
  svc_unused s := svc_unused (dp_afs s);
  svc_name s := svc_name (dp_afs s);
  svc_known s := svc_known (dp_afs s);
  svc_file s := svc_file (dp_afs s);
  svc_side := svc_side (W := W) * gmap string worker_proc * nat;
  svc_rest s := (svc_rest (dp_afs s), dp_workers s, dp_clients s);
  svc_past s := svc_past (dp_afs s);
  svc_user := svc_user (W := W);
  svc_content := svc_content (W := W);
}.

#[export] Instance deployment_unwatched `{!AfsUnwatched W} : AfsUnwatched (Deployment W).
Proof. split; [intros s; apply (any_past (dp_afs s))|exact (any_user (W := W))|exact (any_content (W := W))]. Qed.

Lemma call_keeps_lift cid n (s : Deployment W) w' :
  call_keeps cid n (dp_afs s) w' → call_keeps cid n s (set_afs w' s).
Proof. intros [H1 H2 H3 H4 H5 H6]. split; [done..| |done]. simpl. by rewrite H5. Qed.

Lemma call_reads_lift (s : Deployment W) w' : call_reads (dp_afs s) w' → call_reads s (set_afs w' s).
Proof. intros (H1 & H2 & H3 & H4 & H5 & H6). repeat (split; [done|]). split; [|done]. simpl. by rewrite H5. Qed.

(** A law of the service is one of the deployment. *)
Lemma on_afs_eq {A} (f : W → A * W) (s : Deployment W) r w' :
  f (dp_afs s) = (r, w') → on_afs f s = (r, set_afs w' s).
Proof. unfold on_afs. by intros ->. Qed.

#[export] Instance deployment_laws : AfsLaws (Deployment W).
Proof.
  split.
  - intros s m. apply (law_name_known (dp_afs s)).
  - intros s cid k k'. apply (law_unused_mono (dp_afs s)).
  - intros s a Hr. destruct (law_connect (dp_afs s) a Hr) as (Hne & Hd & (w1 & Hg & Hk1) & r & w' & Hh & Hk).
    split; [done|]. split; [done|]. split.
    + exists (set_afs w1 s). split; [by apply on_afs_eq|by apply call_reads_lift].
    + exists r, (set_afs w' s). split; [by apply on_afs_eq|by apply call_reads_lift].
  - intros s a cid n p write data v Hus Hr Hu Hs Hk Hf.
    destruct (law_open (dp_afs s) a cid n p write data v Hus Hr Hu Hs Hk Hf) as (id & w' & E & Hkp & Hup).
    exists id, (set_afs w' s). split; [by apply on_afs_eq|]. split; [by apply call_keeps_lift|exact Hup].
  - intros s a cid n p write Hr Hu Hs Hk Hf.
    destruct (law_open_missing (dp_afs s) a cid n p write Hr Hu Hs Hk Hf) as (w' & E & Hkr).
    exists (set_afs w' s). split; [by apply on_afs_eq|by apply call_reads_lift].
  - intros s a cid n p Hus Hco Hr Hu Hs Hn Hf.
    destruct (law_create (dp_afs s) a cid n p Hus Hco Hr Hu Hs Hn Hf) as (id & w' & E & Hkp & Hup).
    exists id, (set_afs w' s). split; [by apply on_afs_eq|]. split; [by apply call_keeps_lift|exact Hup].
  - intros s a cid n p Hus Hco Hr Hu Hs Hn.
    destruct (law_delete (dp_afs s) a cid n p Hus Hco Hr Hu Hs Hn) as (w' & E & Hkp & Hup).
    exists (set_afs w' s). split; [by apply on_afs_eq|]. split; [by apply call_keeps_lift|exact Hup].
  - intros s a cid n p c cs Hus Hco Hr Hu Hs Hn Hne.
    destruct (law_store (dp_afs s) a cid n p c cs Hus Hco Hr Hu Hs Hn Hne) as (v & w' & E & Hkp & Hup).
    exists v, (set_afs w' s). split; [by apply on_afs_eq|]. split; [by apply call_keeps_lift|exact Hup].
  - intros s a resp s'. change (svc_StoreFile a [] None s) with (on_afs (svc_StoreFile a [] None) s). unfold on_afs.
    destruct (svc_StoreFile a [] None (dp_afs s)) as [r w'] eqn:E. intros [= -> _]. by eapply law_store_empty.
  - intros s a p data v Hr Hk Hf. destruct (law_fetch (dp_afs s) a p data v Hr Hk Hf) as (ms & w' & E & Hkr & Hms).
    exists ms, (set_afs w' s). split; [by apply on_afs_eq|]. split; [by apply call_reads_lift|exact Hms].
  - intros s a p data v k Hr Hk Hf. destruct (law_testauth (dp_afs s) a p data v k Hr Hk Hf) as (w' & E & Hkr).
    exists (set_afs w' s). split; [by apply on_afs_eq|by apply call_reads_lift].
  - intros s a id Hr. pose proof (law_close (dp_afs s) a id Hr) as Hk.
    change (svc_CloseFile a (mkCloseFileRequest id) s) with (on_afs (svc_CloseFile a (mkCloseFileRequest id)) s).
    unfold on_afs. destruct (svc_CloseFile a _ (dp_afs s)) as [r w']. by apply call_reads_lift.
Qed.

End Service.

(** ** The workers *)

Section Workers.
  Context {W : Type} `{!AfsService W, !AfsView W, !AfsLaws W, !AfsUnwatched W, !SnapshotNet W, !MapOrder}.
  Context (fresh : nat → string) (elapsed : nat → Z) `{!Inj (=) (=) fresh}.
  (* the servers, the addresses of the workers, their cache directories and ids *)
  Context (a0 : string) (rest : list string) (addrs : gset string) (cdir : string → string) (wids : string → Prop).
  Context (servers_ok : Forall (λ a, ","%char ∉ s2b a) (a0 :: rest)).
  (* the input files and their content *)
  Context (reads : string → Prop) (text : string → bytes).
  Context (text_ok : ∀ f, reads f →
    ∃ lines, Scan 256 (text f) None = (lines, None) ∧ (Z.of_nat (length lines) < 2 ^ 63)%Z).

#[local] Instance workers : WorkerService (Deployment W) := deployment_worker_service no_faults fresh elapsed.

(** A worker process that can work: its snapshot has a name of its own. *)
Record proc_ok (s : Deployment W) (a : string) (p : worker_proc) : Prop := {
  po_srv : worker_inv (wp_srv p);
  po_disk : cache_disk (cdir a) (wp_disk p);
  po_name : svc_name (dp_afs s) (WorkerSnapshotFile (workerID (wp_srv p)));
  po_apart : ¬ reads (WorkerSnapshotFile (workerID (wp_srv p)));
  po_id : wids (workerID (wp_srv p));
}.

Record deployment_ok (s : Deployment W) : Prop := {
  do_server : svc_ready (dp_afs s) a0;
  do_ids n : dp_clients s ≤ n → svc_unused (dp_afs s) (fresh n) 0;
  do_files f : reads f → svc_known (dp_afs s) f ∧ ∃ v, svc_file (dp_afs s) f = Some (text f, v);
  do_up a : a ∈ addrs → is_Some (dp_workers s !! a);
  do_only a : is_Some (dp_workers s !! a) → a ∈ addrs;
  do_procs a p : dp_workers s !! a = Some p → proc_ok s a p;
  do_apart a b p q : dp_workers s !! a = Some p → dp_workers s !! b = Some q →
    workerID (wp_srv p) = workerID (wp_srv q) → a = b;   (* no two workers have the same id *)
}.

Definition may_be_asked (a : string) (req : ProcessFileRequest) : Prop :=
  reads (FilePath req) ∧ AfsServers req = Join (a0 :: rest) "," ∧ CacheDir req = cdir a.

Definition worker_client (c : string) : Prop := ∃ n, c = fresh n.
Definition worker_file (f : string) : Prop := ∃ id, f = WorkerSnapshotFile id ∧ wids id.

(** The primes of an input file. *)
Definition text_primes (f : string) : list Z := file_primes (Scan 256 (text f) None).1.

Lemma proc_ok_keeps (s s' : Deployment W) a p :
  (∀ m, svc_name (dp_afs s) m → svc_name (dp_afs s') m) → proc_ok s a p → proc_ok s' a p.
Proof. intros Hn [H1 H2 H3 H4 H5]. split; auto. Qed.

(** A process that comes back from a call keeps its id. *)
Lemma ids_insert (m : gmap string worker_proc) a p p' :
  m !! a = Some p → workerID (wp_srv p') = workerID (wp_srv p) →
  (∀ b b' q q', m !! b = Some q → m !! b' = Some q' → workerID (wp_srv q) = workerID (wp_srv q') → b = b') →
  ∀ b b' q q', <[a := p']> m !! b = Some q → <[a := p']> m !! b' = Some q' →
    workerID (wp_srv q) = workerID (wp_srv q') → b = b'.
Proof using Type.
  intros Hp Hid Hm b b' q q'. rewrite !lookup_insert. repeat case_decide; intros Hq Hq' E; simplify_eq; try done.
  - eapply Hm; [exact Hp|exact Hq'|congruence].
  - eapply Hm; [exact Hq|exact Hp|congruence].
  - by eapply Hm.
Qed.

(** A call to a worker in good order. *)
Lemma run_ProcessFile_ok a req (s : Deployment W) :
  deployment_ok s → a ∈ addrs → may_be_asked a req →
  ∃ bs n t s', run_ProcessFile no_faults fresh elapsed a req s =
      (Ok (mkRecv (map batch_msg bs ++ [count_msg n t]) None), s') ∧
    concat bs = text_primes (FilePath req) ∧ deployment_ok s' ∧ others_keep worker_client worker_file s s'.
Proof.
  intros [Hr Hids Hfs Hup Honly Hprocs Hapart'] Ha (Hrd & Hsrv & Hdir).
  destruct (Hup a Ha) as [p Hp]. destruct (Hprocs a p Hp) as [Hwk Hdisk Hname Hapart Hwid].
  destruct (Hfs _ Hrd) as [Hk [v Hf]]. destruct (text_ok _ Hrd) as (lines & Hscan & Hlen).
  destruct (cache_disk_mkdir _ _ Hdisk) as (d1 & Hd1 & Hdisk1).
  set (i := dp_clients s) in *. set (snap := WorkerSnapshotFile (workerID (wp_srv p))) in *.
  assert (Hl : ∀ q, local_free (fresh_client a0 rest (CacheDir req) (fresh i) d1) q).
  { intros q. apply cache_disk_free. cbn [cache cacheDir cdisk fresh_client]. by rewrite Hdir. }
  assert (Hsplit : Split (AfsServers req) "," = a0 :: rest) by (rewrite Hsrv; by apply Split_Join).
  rewrite <- Hdir in Hd1.
  destruct (ProcessFile_on_service (fresh i) (elapsed i) req (wp_srv p) (wp_disk p) d1 (dp_afs s) a0 rest
    (text (FilePath req)) v lines (any_user _) (any_past _) (λ x, may_write_any _ x) Hsplit Hr (Hids i (le_n _)) Hd1 (cd_wf _ _ Hdisk1) Hk Hf (Hl _) Hname (Hl _)
    Hscan Hlen Hwk) as (bs & wk' & d' & w' & now & v' & E & Hbs & Hwk' & _ & _ & He & Hid & Hwf' & Hb).
  exists bs, (Z.of_nat (length (numbers lines))), (elapsed i), (mkDeployment w' (<[a := mkProc wk' d' (wp_http p)]> (dp_workers s)) (S i)).
  split; [unfold run_ProcessFile; rewrite Hp; fold i; by rewrite E|].
  split; [unfold text_primes; by rewrite Hscan|].
  assert (Hnm : ∀ m, svc_name (dp_afs s) m → svc_name w' m) by apply He.
  split; [split; simpl|split; [apply He| |exact Hnm|apply He| |intros _; apply any_past]].
  - by apply He.
  - intros n Hn. apply (eff_unused _ _ _ _ He); [|apply Hids; lia]. intros En. apply (inj fresh) in En. lia.
  - intros f Hfr. destruct (Hfs f Hfr) as [Hkf [vf Hff]]. split; [by apply He|]. exists vf.
    rewrite (eff_file _ _ _ _ He); [done|done|]. intros ->%list_elem_of_singleton. done.
  - intros b Hb'. rewrite lookup_insert. case_decide; [by eexists|by apply Hup].
  - intros b. rewrite lookup_insert. case_decide; [by subst|apply Honly].
  - intros b q. rewrite lookup_insert. case_decide as Hab; [intros [= <-]; subst b|].
    + split; simpl; [done| |rewrite Hid; by apply Hnm|by rewrite Hid|by rewrite Hid].
      rewrite Hdir in Hb. by eapply cache_disk_beside.
    + intros Hq. eapply (proc_ok_keeps s); [exact Hnm|by apply Hprocs].
  - eapply ids_insert; [exact Hp|exact Hid|exact Hapart'].
  - intros c k Hc Hu. apply (eff_unused _ _ _ _ He); [|done]. intros En. apply Hc. by exists i.
  - intros f Hkf Hnw. apply (eff_file _ _ _ _ He); [done|]. intros ->%list_elem_of_singleton. apply Hnw.
    by exists (workerID (wp_srv p)).
Qed.

(** The calls of a client that is not one of the next ones keep the order. *)
Lemma deployment_ok_effect cid ps (s s' : Deployment W) :
  svc_effect cid ps s s' → (∀ n, dp_clients s ≤ n → fresh n ≠ cid) → (∀ p, p ∈ ps → ¬ reads p) →
  deployment_ok s → deployment_ok s'.
Proof using Type.
  intros He Hcid Hps [Hr Hids Hfs Hup Honly Hprocs Happ]. pose proof (eff_rest _ _ _ _ He) as [= _ Ew Ec]. split.
  - by apply He.
  - intros n. rewrite Ec. intros Hn. apply He; [by apply Hcid|by apply Hids].
  - intros f Hf. destruct (Hfs f Hf) as [Hk [v Hv]]. split; [by apply He|]. exists v.
    rewrite <- Hv. apply (eff_file _ _ _ _ He); [done|]. intros Hin. by apply (Hps f).
  - by rewrite Ew.
  - by rewrite Ew.
  - intros a p. rewrite Ew. intros Hp. eapply (proc_ok_keeps s); [apply He|by apply Hprocs].
  - by rewrite Ew.
Qed.

#[local] Instance deployment_workers : WorkerLaws (Deployment W).
Proof.
  refine {| wl_inv := deployment_ok; wl_up a := a ∈ addrs; wl_asked := may_be_asked; wl_reads := reads;
    wl_writes := worker_file; wl_client := worker_client |}.
  - intros a req s Hs Ha Hreq. destruct (run_ProcessFile_ok a req s Hs Ha Hreq) as (bs & n & t & s' & E & _ & Hs' & Hk).
    change (wk_ProcessFile a req s) with (run_ProcessFile no_faults fresh elapsed a req s). by rewrite E.
  - intros a req s Hs. cbn [wk_Health workers deployment_worker_service].
    destruct (dp_workers s !! a) as [p|] eqn:Hp; [|done]. split; [done|]. split; [done|].
    intros resp _ _. apply Hs. by rewrite Hp.
  - by intros url s Hs.
  - intros cid ps s s' Hcid He Hps. apply (deployment_ok_effect cid ps); [done| |done]. intros n _ E. apply Hcid. by exists n.
Defined.

#[local] Instance deployment_serves : WorkerServes (Deployment W) text_primes.
Proof.
  split.
  - intros a req s Hs Ha Hreq. destruct (run_ProcessFile_ok a req s Hs Ha Hreq) as (bs & n & t & s' & E & Hbs & _).
    change (wk_ProcessFile a req s) with (run_ProcessFile no_faults fresh elapsed a req s). rewrite E.
    exists (map batch_msg bs ++ [count_msg n t]). split; [done|]. split.
    + apply Forall_app. split; [apply batches_no_error|by repeat constructor].
    + intros q. by rewrite <- Hbs, fmap_app, concat_app, batches_primes, app_nil_r.
  - intros a req s Hs Ha. split; [done|]. destruct (do_up s Hs a Ha) as [p Hp].
    cbn [wk_Health workers deployment_worker_service]. rewrite Hp. by eexists.
Qed.

End Workers.
