(* ===== verification/ConcurrentSpec.v ===== *)
(** * What the components of a concurrent run do

    The program of a worker and that of the receiving loop are [safe]
    (Disturbed.v): whatever the others do between their calls, they write only
    their own snapshots and end with the results of the files. *)

From S2P Require Import Prelude GoLib GoText GoPath Json JsonCodec MillerRabin Disk AfsProto Server Cache Client AfsSpec SnapshotIO ClientStart Snapshot Calls Disturbed SnapshotProps Worker WorkerProps Coordinator CoordSpec CoordAfs CoordProps CoordRun System SystemLaws Concurrent.

(** ** Effects and the rely of another component *)

Section Rely.
  Context {W : Type} `{!AfsView W}.

(** The calls of another client are within the rely of a component, if they
    write none of the files it relies on. *)
Lemma guarantee_others cid mine content (ids writes : string → Prop) (w w' : W) :
  ids cid → (∀ m, mine m → writes m) → guarantee cid mine content w w' → others_keep ids writes w w'.
Proof.
  intros Hid Hw (ps & Hps & [H1 H2 H3 H4 H5 H6 H7]). split; [done| |done|done| |done].
  - intros c k Hc Hu. apply H2; [|done]. by intros ->.
  - intros m Hm Hn. apply H5; [done|]. intros Hin. by apply Hn, Hw, Hps.
Qed.

Lemma guarantee_rely cid mine content cid' writes (w w' : W) :
  cid ≠ cid' → (∀ m, mine m → writes m) → guarantee cid mine content w w' → rely cid' writes w w'.
Proof. intros Hid Hw Hg. by eapply guarantee_others. Qed.

(** A step that leaves the file service alone. *)
Lemma rely_same cid writes (w w' : W) : call_reads w w' → rely cid writes w w'.
Proof. intros (H1 & H2 & H3 & H4 & _ & H6). split; [done|auto|done|by intros m Hm; apply H4|by intros m Hm _; apply H4|done]. Qed.

End Rely.

(** ** A worker *)

#[export] Instance deployment_quiet {W} `{!AfsView W, !SnapshotNet W} : QuietNet (Deployment W).
Proof. by intros url a s _. Qed.

Section Workers.
  Context {W : Type} `{!AfsService W, !AfsView W, !AfsLaws W, !AfsUnwatched W, !SnapshotNet W, !MapOrder}.
  Context (fresh : nat → string) (elapsed : nat → Z) `{!Inj (=) (=) fresh}.
  Context (a0 : string) (rest : list string) (addrs : gset string) (cdir : string → string) (wids : string → Prop).
  Context (servers_ok : Forall (λ a, ","%char ∉ s2b a) (a0 :: rest)).
  Context (reads : string → Prop) (text : string → bytes).
  Context (text_ok : ∀ f, reads f →
    ∃ lines, Scan 256 (text f) None = (lines, None) ∧ (Z.of_nat (length lines) < 2 ^ 63)%Z).

(** A worker's snapshot may have any content. *)
Definition any_file (m : string) (data : option bytes) : Prop := True.

(** The files that others may write while the worker [id] serves a call. *)
Definition foreign_to (id : string) (m : string) : Prop := m ≠ WorkerSnapshotFile id ∧ ¬ reads m.

(** What the handler of the process [p] at [a] ends with. *)
Definition handler_done (a : string) (p : worker_proc) (file : string)
    (o : outcome (error * send_stream ProcessFileResponse * workerServer * Disk)) : Prop :=
  ∃ bs n t wk d, o = Ret (None, mkSend (map batch_msg bs ++ [count_msg n t]) None, wk, d) ∧
    concat bs = text_primes text file ∧ worker_inv wk ∧ workerID wk = workerID (wp_srv p) ∧ cache_disk (cdir a) d.

Lemma worker_safe a req (s : Deployment W) p :
  deployment_ok fresh a0 addrs cdir wids reads text s → dp_workers s !! a = Some p → may_be_asked a0 rest cdir reads a req →
  let cid := fresh (dp_clients s) in
  safe cid (eq (WorkerSnapshotFile (workerID (wp_srv p)))) any_file (foreign_to (workerID (wp_srv p)))
    (λ o _, handler_done a p (FilePath req) o)
    (ProcessFile_calls no_faults cid (elapsed (dp_clients s)) req open_stream (wp_srv p) (wp_disk p)) s.
Proof.
  intros [Hr Hids Hfs Hup Honly Hprocs _] Hp (Hrd & Hsrv & Hdir) cid.
  set (id := workerID (wp_srv p)). set (snap := WorkerSnapshotFile id).
  destruct (Hprocs a p Hp) as [Hwk Hdisk Hname Hapart _]. destruct (Hfs _ Hrd) as [Hk [v Hf]].
  destruct (text_ok _ Hrd) as (lines & Hscan & Hlen). destruct (cache_disk_mkdir _ _ Hdisk) as (d1 & Hd1 & Hdisk1).
  assert (Hmine : ∀ m, snap = m → ¬ foreign_to id m) by (intros m <- [? _]; done).
  apply (safe_program cid (eq snap) any_file (foreign_to id)). intros t Hnow Hsc Hlog.
  pose (V := disturbed_view (W := Deployment W) cid (eq snap) any_file (foreign_to id)).
  pose proof (disturbed_laws (W := Deployment W) cid (eq snap) any_file (foreign_to id) Hmine) as L.
  rewrite <- Hdir in Hd1.
  assert (Hl : ∀ q, local_free (fresh_client a0 rest (CacheDir req) cid d1) q).
  { intros q. apply cache_disk_free. cbn [cache cacheDir cdisk fresh_client]. by rewrite Hdir. }
  assert (Hsplit : Split (AfsServers req) "," = a0 :: rest) by (rewrite Hsrv; by apply Split_Join).
  destruct (ProcessFile_on_service cid (elapsed (dp_clients s)) req (wp_srv p) (wp_disk p) d1 t a0 rest
    (text (FilePath req)) v lines) as (bs & wk' & d' & t' & now & v' & E & Hbs & Hwk' & _ & _ & He & Hid & Hwf' & Hb).
  { done. } { change (Forall (λ x, guarantee cid (eq snap) any_file x.1 x.2) (ds_log t)). by rewrite Hlog. } { done. } { exact Hsplit. }
  { split; [by rewrite Hnow|by rewrite Hnow]. } { split; [rewrite Hnow; by apply Hids|done]. }
  { exact Hd1. } { apply Hdisk1. } { split; [by rewrite Hnow|]. by intros [_ Hn]. } { by rewrite <- Hf, <- Hnow. }
  { apply Hl. } { split; [by rewrite Hnow|done]. } { apply Hl. } { exact Hscan. } { exact Hlen. } { exact Hwk. }
  rewrite <- run_ProcessFile_calls in E.
  destruct (run (ProcessFile_calls _ _ _ _ _ _ _) t) as [[o|msg|] t1]; try discriminate E. injection E as -> ->.
  split.
  - apply He. change (Forall (λ x, guarantee cid (eq snap) any_file x.1 x.2) (ds_log t)). by rewrite Hlog.
  - intros w2 _. eexists bs, _, _, wk', d'. split; [done|]. split; [unfold text_primes; by rewrite Hscan|].
    split; [done|]. split; [done|]. rewrite <- Hdir. by eapply cache_disk_beside; [rewrite Hdir; exact Hdisk1|exact Hwf'|exact Hb].
Qed.

End Workers.

(** ** The receiving loop *)

Section Coordinator.
  Context {W : Type} `{!AfsService W, !AfsView W, !AfsLaws W, !SnapshotNet W, !QuietNet W}.

Lemma posts_reads a addrs (w : W) : svc_ready w a → call_reads w (posts addrs w).2.
Proof.
  revert w. induction addrs as [|b addrs IH]; intros w Hw; simpl; [done|].
  pose proof (quiet_post ("http://" +:+ b +:+ "/snapshot") a w Hw) as H1. destruct (net_Post _ w) as [e w1].
  specialize (IH w1 (proj1 H1 a Hw)). destruct (posts addrs w1) as [es w2]. by etrans.
Qed.

(** The snapshot that the loop takes. *)
Definition snapshot_calls (env : run_env) (c : Client) (completed : list string) (collected : list Z)
    : program (outcome (error * Client)) :=
  InitiateSnapshot_calls no_faults c (Some completed) (appended (filterPending (re_inputs env) completed))
    (Some collected) (buildWorkerHTTPAddrs (re_workers env)).1 (buildWorkerHTTPAddrs (re_workers env)).2.

Lemma InitiateSnapshot_ok env c (s : run_state W) a (w : W) :
  client_ok c w → svc_ready w a → svc_name w CoordSnapshotFile → local_free c CoordSnapshotFile →
  (∀ snap, snapshot_of env s snap → may_write W CoordSnapshotFile (Marshal CoordSnapshot_codec snap)) →
  (reqSeq c + 3 < 2 ^ 63 - 1)%Z →
  ∃ c' w', run (snapshot_calls env c (rs_completed s) (rs_primes s)) w = (Ret (None, c'), w') ∧ client_ok c' w' ∧
    same_client c c' ∧ reqSeq c' = (reqSeq c + 3)%Z ∧ svc_effect (clientId c) [CoordSnapshotFile] w w'.
Proof.
  intros Hok Hr Hn Hl Hm Hq. pose proof (run_InitiateSnapshot no_faults c (Some (rs_completed s))
    (appended (filterPending (re_inputs env) (rs_completed s))) (Some (rs_primes s)) (buildWorkerHTTPAddrs (re_workers env)).1
    (buildWorkerHTTPAddrs (re_workers env)).2 w) as E. fold (snapshot_calls env c (rs_completed s) (rs_primes s)) in E.
  unfold InitiateSnapshot in E.
  destruct (marker_loop_returns (buildWorkerHTTPAddrs (re_workers env)).1 (buildWorkerHTTPAddrs (re_workers env)).2
    0 [] 0 0 w) as (cs & sn & k & Em); [unfold buildWorkerHTTPAddrs; simpl; by rewrite !length_map|].
  pose proof (posts_reads a (buildWorkerHTTPAddrs (re_workers env)).1 w Hr) as Hk.
  pose proof (λ w2, snapshot_of_markers env s _ _ _ _ _ w2 Em) as Hsn.
  rewrite Em in E. destruct (posts _ w) as [es w1]. cbn [snd] in E, Hk. go_step. unfold SaveCoordSnapshot in E.
  rewrite outcome_bind_Ret in E. cbn beta iota in E. set (snap := mkCoordSnapshot _ _ _ _ _ _ _) in E.
  pose proof (Hk : call_reads w w1) as (_ & _ & K3 & _).
  destruct (writeToAFS_ok c w1 CoordSnapshotFile (Marshal CoordSnapshot_codec snap)) as
    (v & c' & w' & Ew & Hok' & Hsm & _ & He & Hq' & _); [by eapply client_ok_reads|by apply K3|apply Hm, Hsn|done|done|done|].
  rewrite Ew in E. destruct (run _ w) as [[o|msg|] w2]; try discriminate E. injection E as -> ->.
  exists c', w'. split; [done|]. split; [done|]. split; [done|]. split; [done|]. etrans; [|exact He].
  eapply svc_effect_mono; [|by apply call_reads_effect]. set_solver.
Qed.

End Coordinator.

Section Receiver.
  Context {W : Type} `{!AfsService W, !AfsView W, !AfsLaws W, !AfsUnwatched W, !SnapshotNet W, !QuietNet W}.

(** What the client of the coordinator keeps while it saves a snapshot. *)
Definition saved_client (c : Client) (o : outcome (error * Client)) (w : W) : Prop :=
  ∃ c', o = Ret (None, c') ∧ client_ok c' w ∧ same_client c c' ∧ reqSeq c' = (reqSeq c + 3)%Z.

Lemma receiver_safe cid content writes env c (s : run_state W) a (w : W) :
  ¬ writes CoordSnapshotFile → clientId c = cid → client_ok c w → grpcConn c = Some a → svc_ready w a →
  svc_name w CoordSnapshotFile → local_free c CoordSnapshotFile →
  (∀ snap, snapshot_of env s snap → content CoordSnapshotFile None ∧ content CoordSnapshotFile (Some []) ∧
     content CoordSnapshotFile (Some (Marshal CoordSnapshot_codec snap))) →
  (reqSeq c + 3 < 2 ^ 63 - 1)%Z →
  safe cid (eq CoordSnapshotFile) content writes (saved_client c) (snapshot_calls env c (rs_completed s) (rs_primes s)) w.
Proof.
  intros Hw Hid Hok Ha Hr Hn Hl Hm Hq.
  assert (Hmine : ∀ m, CoordSnapshotFile = m → ¬ writes m) by (by intros m <-).
  apply (safe_program cid (eq CoordSnapshotFile) content writes). intros t Hnow Hsc Hlog. rewrite <- Hnow in *.
  pose (V := disturbed_view (W := W) cid (eq CoordSnapshotFile) content writes).
  pose proof (disturbed_laws (W := W) cid (eq CoordSnapshotFile) content writes Hmine) as L.
  pose proof (disturbed_quiet (W := W) cid (eq CoordSnapshotFile) content writes) as Q.
  assert (Hpast : svc_past t).
  { change (Forall (λ x, guarantee cid (eq CoordSnapshotFile) content x.1 x.2) (ds_log t)). by rewrite Hlog. }
  assert (Hrt : svc_ready t a) by done.
  destruct (InitiateSnapshot_ok env c (set_rworld t s) a t) as (c' & t' & E & Hok' & Hs & Hq' & He); [|done|done|done| |done|].
  { destruct Hok as [_ Hu Hseq Hwf Hus Hp]. split; [by exists a|by split|done|done|done|done]. }
  { intros snap [S1 S2 S3 S4 [t1 S5]]. apply Hm. split; [done..|]. by exists (next_world t1). }
  change (rs_completed (set_rworld t s)) with (rs_completed s) in E.
  change (rs_primes (set_rworld t s)) with (rs_primes s) in E.
  rewrite E. split; [by apply He|]. intros w2 H2. exists c'. split; [done|]. split; [|done].
  destruct Hok' as [(a' & Ha' & [Hr' _]) [Hu' Hid'] Hseq' Hwf' _ _].
  split; [exists a'; split; [done|by apply H2]|by apply H2; [intros []|]|done|done|apply any_user|apply any_past].
Qed.

End Receiver.
