(* ===== verification/ConcurrentInv.v ===== *)
(** * The invariant of a concurrent run

    At every step of a run of Concurrent.v the programs of the workers and of
    the receiving loop are safe in the current world, the goroutines and the
    channel hold what is left of the files, and the collected primes are those
    of the completed files.  A step of one component keeps the part of every
    other one because what it guarantees is within what the other relies on. *)

From S2P Require Import Prelude GoLib GoText GoPath Json JsonCodec MillerRabin Disk AfsProto Server Cache Client AfsSpec SnapshotIO ClientStart Snapshot Calls Disturbed SnapshotProps Worker WorkerProps Coordinator CoordSpec CoordAfs CoordProps CoordRun System SystemLaws Concurrent ConcurrentSpec.

(** ** One step of a safe program *)

Section Step.
  Context {W : Type} `{!AfsService W, !AfsView W, !SnapshotNet W}.
  Context (cid : string) (mine : string → Prop) (content : string → option bytes → Prop) (writes : string → Prop).

Lemma settle_safe {A} (post : A → W → Prop) m (w : W) :
  safe_now cid mine content writes post m w →
  (∃ a, settle m w = Return a ∧ post a w) ∨
  ∃ c k, settle m w = Call c k ∧ safe_now cid mine content writes post (Call c k) w.
Proof.
  induction m as [a|c k _|k IH|a k IH]; cbn [settle]; intros Hm; [left; by exists a|right; by exists c, k|by apply IH..].
Qed.

Lemma program_step_safe {A} (post : A → W → Prop) m (w : W) :
  safe cid mine content writes post m w →
  (∃ a, program_step m w = inl a ∧ post a w) ∨
  ∃ m' w', program_step m w = inr (m', w') ∧ guarantee cid mine content w w' ∧ safe cid mine content writes post m' w'.
Proof.
  intros Hm. unfold program_step.
  destruct (settle_safe post m w (Hm w (reflexivity w))) as [(a & -> & Ha)|(c & k & -> & Hc)]; [left; by exists a|].
  right. cbn [safe_now] in Hc. destruct (perform c w) as [r w']. destruct Hc as [Hg Hs]. by exists (k r), w'.
Qed.

End Step.

Section Inv.
  Context {W : Type} `{!AfsService W, !AfsView W, !AfsLaws W, !AfsUnwatched W, !SnapshotNet W, !MapOrder}.
  Context (fresh : nat → string) (elapsed : nat → Z) `{!Inj (=) (=) fresh}.
  Context (a0 : string) (rest : list string) (addrs : gset string) (cdir : string → string) (wids : string → Prop).
  Context (servers_ok : Forall (λ a, ","%char ∉ s2b a) (a0 :: rest)).
  Context (reads : string → Prop) (text : string → bytes).
  Context (text_ok : ∀ f, reads f →
    ∃ lines, Scan 256 (text f) None = (lines, None) ∧ (Z.of_nat (length lines) < 2 ^ 63)%Z).
  (* the coordinator, the names it uses and the calls it keeps for the end *)
  Context (cid : string) (names : list string) (budget : Z) (env : run_env).
  Context (coord_apart : ¬ worker_client fresh cid) (budget_pos : (0 ≤ budget)%Z) (coord_name : CoordSnapshotFile ∈ names).
  Context (coord_file : ¬ worker_file wids CoordSnapshotFile) (names_apart : ∀ n, n ∈ names → ¬ reads n).

Let order (s : Deployment W) : Prop := deployment_ok fresh a0 addrs cdir wids reads text s.

  (* all files, what the coordinator leaves in its snapshot, and what is kept of
     the world by this and by the workers *)
  Context (all : list string) (content : string → option bytes → Prop) (good : Deployment W → Prop).
  Context (good_coord : ∀ ps w w', svc_effect cid ps w w' →
    (∀ p, p ∈ ps → svc_known w p ∧ content p (fst <$> svc_file w' p)) → good w → good w').
  Context (good_worker : ∀ w w', order w' → others_keep (worker_client fresh) (worker_file wids) w w' → good w → good w').
  Context (may_snap : ∀ (s : run_state (Deployment W)) snap, rs_completed s ⊆ all →
    covers (text_primes text) (rs_completed s) (rs_primes s) → snapshot_of env s snap →
    content CoordSnapshotFile None ∧ content CoordSnapshotFile (Some []) ∧
    content CoordSnapshotFile (Some (Marshal CoordSnapshot_codec snap))).

(** ** The parts of the invariant *)

(** A goroutine with the worker [wk], the call of which has the client [n]. *)
Definition act_ok (w : Deployment W) (n : nat) (wk : workerConn) (a : activity) : Prop :=
  match a with
  | Idle => True
  | Asking f target others =>
      target = wk ∧ wc_addr wk ∈ addrs ∧ may_be_asked a0 rest cdir reads (wc_addr wk) (process_request wk f (re_cfg env))
  | Serving f target others p calls =>
      target = wk ∧ dp_workers w !! wc_addr wk = Some p ∧ n < dp_clients w ∧
      safe (fresh n) (eq (WorkerSnapshotFile (workerID (wp_srv p)))) any_file (foreign_to reads (workerID (wp_srv p)))
        (λ o _, handler_done cdir text (wc_addr wk) p f o) calls w
  | Finished res => served (text_primes text) res
  end.

(** The files that goroutines hold. *)
Definition in_hand (a : activity) : list string :=
  match a with
  | Idle => []
  | Asking f _ _ | Serving f _ _ _ _ => [f]
  | Finished res => [filePath res]
  end.

Definition files_left (x : conc W) : list string :=
  (filePath <$> rs_chan (cc_run x)) ++ concat (in_hand <$> cc_doing x) ++ todo_files (rs_todo (cc_run x)).

(** The client of the coordinator, but for its connection. *)
Record client_rest (k : Z) (c : Client) (w : Deployment W) : Prop := {
  cl_id : clientId c = cid;
  cl_seq : (reqSeq c + k < 2 ^ 63 - 1)%Z;
  cl_names n : n ∈ names → svc_name w n ∧ local_free c n;
}.

Definition recv_ok (left : nat) (c : Client) (saving : option (program (outcome (error * Client)))) (w : Deployment W) : Prop :=
  match saving with
  | None => client_ok c w ∧ client_rest (budget + 3 * Z.of_nat left) c w
  | Some calls =>
      client_rest (budget + 3 + 3 * Z.of_nat left) c w ∧
      safe cid (eq CoordSnapshotFile) content (worker_file wids) (saved_client c) calls w
  end.

(** The clients of the calls are given by [num]. *)
Record conc_inv (num : nat → nat) (x : conc W) : Prop := {
  ci_world : order (rs_world (cc_run x));
  ci_good : good (rs_world (cc_run x));
  ci_len : length (cc_doing x) = length (rs_todo (cc_run x));
  ci_nodup : NoDup ((wc_addr ∘ fst) <$> rs_todo (cc_run x));
  ci_todo wk fs f : (wk, fs) ∈ rs_todo (cc_run x) → f ∈ fs →
    wc_addr wk ∈ addrs ∧ may_be_asked a0 rest cdir reads (wc_addr wk) (process_request wk f (re_cfg env));
  ci_acts i wk fs a : rs_todo (cc_run x) !! i = Some (wk, fs) → cc_doing x !! i = Some a →
    act_ok (rs_world (cc_run x)) (num i) wk a;
  ci_num i j a b : cc_doing x !! i = Some a → cc_doing x !! j = Some b → is_serving a → is_serving b →
    num i = num j → i = j;
  ci_chan : Forall (served (text_primes text)) (rs_chan (cc_run x));
  ci_recv : recv_ok (length (files_left x)) (rs_client (cc_run x)) (cc_saving x) (rs_world (cc_run x));
  ci_seen : run_inv (cc_run x);
  ci_files : rs_completed (cc_run x) ++ files_left x ≡ₚ all;
  ci_cover : covers (text_primes text) (rs_completed (cc_run x)) (rs_primes (cc_run x));
}.

(** ** What one component keeps of the others *)

Lemma others_afs ids writes (w w' : Deployment W) : dp_afs w = dp_afs w' → others_keep ids writes w w'.
Proof using Type. destruct w as [x m n], w' as [x' m' n']. simpl. by intros <-. Qed.

Lemma rely_afs c writes (w w' : Deployment W) : dp_afs w = dp_afs w' → rely c writes w w'.
Proof using Type. apply others_afs. Qed.

(** What the workers do is within the rely of the receiving loop. *)
Lemma workers_rely (w w' : Deployment W) :
  others_keep (worker_client fresh) (worker_file wids) w w' → rely cid (worker_file wids) w w'.
Proof using coord_apart.
  intros [O1 O2 O3 O4 O5 O6]. split; [done| |done|done|done|done].
  intros c k Hc Hu. apply O2; [|done]. intros Hw. apply Hc. by intros ->.
Qed.

Lemma client_rest_names k c w w' : (∀ m, svc_name w m → svc_name w' m) → client_rest k c w → client_rest k c w'.
Proof using Type.
  intros Hw [H1 H2 H3]. split; [done|done|]. intros n Hn. destruct (H3 n Hn) as [Hs Hl]. split; [by apply Hw|done].
Qed.

Lemma client_ok_rely c writes (w w' : Deployment W) : rely (clientId c) writes w w' → client_ok c w → client_ok c w'.
Proof using Type.
  intros Hw [(a & Hc & Hr) Hu Hs Hwf Hus Hp].
  split; [exists a; split; [done|by apply Hw]|by apply Hw; [intros []|]|done..|by apply Hw].
Qed.

Lemma recv_ok_rely left c saving w w' : rely cid (worker_file wids) w w' → recv_ok left c saving w → recv_ok left c saving w'.
Proof using Type.
  intros Hw. destruct saving as [calls|]; intros [H1 H2].
  - split; [by apply (client_rest_names _ _ w), H1; apply Hw|by eapply safe_rely].
  - split; [|by apply (client_rest_names _ _ w), H2; apply Hw]. eapply client_ok_rely; [|exact H1]. rewrite (cl_id _ _ _ H2). exact Hw.
Qed.

Lemma act_ok_rely w w' n wk a :
  (∀ p, dp_workers w !! wc_addr wk = Some p → is_serving a → dp_workers w' !! wc_addr wk = Some p ∧
     rely (fresh n) (foreign_to reads (workerID (wp_srv p))) w w') →
  dp_clients w ≤ dp_clients w' → act_ok w n wk a → act_ok w' n wk a.
Proof using Type.
  intros Hr Hc. destruct a as [|f t o|f t o p calls|res]; cbn [act_ok]; [done|done| |done].
  intros (Ht & Hp & Hn & Hs). destruct (Hr p Hp I) as [Hp' Hrel]. split; [done|]. split; [done|]. split; [lia|].
  by eapply safe_rely.
Qed.

Lemma WorkerSnapshotFile_inj id id' : WorkerSnapshotFile id = WorkerSnapshotFile id' → id = id'.
Proof using Type.
  unfold WorkerSnapshotFile. intros E. apply (inj (String.append "snapshot_")) in E. by apply string_app_inj_r in E.
Qed.

(** A call of the worker with the client [n]. *)
Lemma worker_call_others n p a w w' :
  order w → n < dp_clients w → dp_workers w !! a = Some p →
  guarantee (fresh n) (eq (WorkerSnapshotFile (workerID (wp_srv p)))) any_file w w' →
  order w' ∧ dp_workers w' = dp_workers w ∧ dp_clients w' = dp_clients w ∧
  others_keep (worker_client fresh) (worker_file wids) w w' ∧
  ∀ b q m, b ≠ a → dp_workers w !! b = Some q → m ≠ n → rely (fresh m) (foreign_to reads (workerID (wp_srv q))) w w'.
Proof using All.
  intros Ho Hn Hp Hg. destruct (do_procs _ _ _ _ _ _ _ _ Ho a p Hp) as [_ _ _ Hapart Hwid].
  pose proof Hg as (ps & Hps & He). pose proof (eff_rest _ _ _ _ He) as [= _ Ew Ec].
  split; [|split; [done|split; [done|split]]].
  - eapply deployment_ok_effect; [exact He| | |exact Ho].
    + intros k Hk E. apply (inj fresh) in E. lia.
    + intros q Hq. by destruct (Hps q Hq) as [<- _].
  - eapply guarantee_others; [by exists n|intros m Hm|exact Hg]. subst m. by exists (workerID (wp_srv p)).
  - intros b q m Hb Hq Hm. eapply guarantee_rely; [|intros f Hf|exact Hg].
    + intros E. apply (inj fresh) in E. done.
    + subst f. split; [|done]. intros E. apply WorkerSnapshotFile_inj in E. apply Hb. by eapply (do_apart _ _ _ _ _ _ _ _ Ho).
Qed.

(** A call of the receiving loop. *)
Lemma coord_call_others w w' :
  order w → guarantee cid (eq CoordSnapshotFile) content w w' →
  order w' ∧ (good w → good w') ∧ dp_workers w' = dp_workers w ∧ dp_clients w' = dp_clients w ∧
  ∀ b q m, dp_workers w !! b = Some q → rely (fresh m) (foreign_to reads (workerID (wp_srv q))) w w'.
Proof using All.
  intros Ho Hg. pose proof Hg as (ps & Hps & He). pose proof (eff_rest _ _ _ _ He) as [= _ Ew Ec].
  split; [|split; [|split; [done|split; [done|]]]].
  - eapply deployment_ok_effect; [exact He| | |exact Ho].
    + intros k _ E. apply coord_apart. by exists k.
    + intros q Hq. destruct (Hps q Hq) as [<- _]. by apply names_apart.
  - apply (good_coord ps); [exact He|]. intros q Hq. apply (Hps q Hq).
  - intros b q m Hq. destruct (do_procs _ _ _ _ _ _ _ _ Ho b q Hq) as [_ _ _ _ Hwid].
    eapply guarantee_rely; [|intros f Hf|exact Hg].
    + intros E. apply coord_apart. by exists m.
    + subst f. split; [|by apply names_apart]. intros E. apply coord_file. by exists (workerID (wp_srv q)).
Qed.

(** ** The steps of a goroutine *)

Lemma in_hand_insert l i a a' :
  l !! i = Some a → concat (in_hand <$> <[i := a']> l) ++ in_hand a ≡ₚ concat (in_hand <$> l) ++ in_hand a'.
Proof using Type.
  revert i. induction l as [|b l IH]; intros [|i] Hi; simplify_eq/=; [by rewrite <- !app_assoc, (Permutation_app_comm (in_hand a')), <- app_assoc, Permutation_app_comm, <- app_assoc, (Permutation_app_comm (concat _))|].
  by rewrite <- !app_assoc, (IH i Hi).
Qed.

Definition renumber (num : nat → nat) (i n : nat) (j : nat) : nat := if decide (j = i) then n else num j.

(** A goroutine changes what it does, in a world that the others accept. *)
Lemma inv_doing num x i wk fs a a' w' n :
  let s := cc_run x in
  conc_inv num x → rs_todo s !! i = Some (wk, fs) → cc_doing x !! i = Some a → in_hand a' = in_hand a →
  order w' → others_keep (worker_client fresh) (worker_file wids) (rs_world s) w' → dp_clients (rs_world s) ≤ dp_clients w' →
  (∀ j wkj fsj b p, j ≠ i → rs_todo s !! j = Some (wkj, fsj) → cc_doing x !! j = Some b → is_serving b →
     wc_addr wkj ≠ wc_addr wk → dp_workers (rs_world s) !! wc_addr wkj = Some p →
     dp_workers w' !! wc_addr wkj = Some p ∧ rely (fresh (num j)) (foreign_to reads (workerID (wp_srv p))) (rs_world s) w') →
  act_ok w' n wk a' →
  (is_serving a' → ∀ j b, j ≠ i → cc_doing x !! j = Some b → is_serving b → num j ≠ n) →
  conc_inv (renumber num i n) (set_doing i a' (set_run (set_rworld w' s) x)).
Proof using good_worker coord_apart.
  intros s [H1 Hgood H2 H3 H4 H5 H6 H7 H8 H9 H10 H11] Hi Ha Hh Ho Hrec Hcl Hoth Hact Hn. fold s in H1, Hgood, H2, H3, H4, H5, H7, H8, H9, H10, H11.
  set (x' := set_doing _ _ _).
  assert (Hleft : files_left x' ≡ₚ files_left x).
  { unfold files_left. cbn. apply Permutation_app_head, Permutation_app_tail.
    pose proof (in_hand_insert _ _ _ a' Ha) as E. rewrite Hh in E. by apply Permutation_app_inv_r in E. }
  split; try done.
  - by apply (good_worker (rs_world s)).
  - cbn. by rewrite length_insert.
  - intros j wkj fsj b Hj Hb. cbn in Hj, Hb |- *. unfold renumber. destruct (decide (j = i)) as [->|Hji].
    + rewrite list_lookup_insert_eq in Hb by (by eapply lookup_lt_Some). by simplify_eq.
    + rewrite list_lookup_insert_ne in Hb by done. apply (act_ok_rely (rs_world s)); [|done|by eapply H5].
      intros p Hp Hsv. eapply Hoth; try done. intros E. apply Hji.
      eapply (NoDup_lookup _ _ _ (wc_addr wk) H3); rewrite list_lookup_fmap; [rewrite Hj|rewrite Hi]; simpl; by rewrite ?E.
  - intros j k b b' Hj Hk Hsj Hsk E. cbn in Hj, Hk. unfold renumber in E.
    rewrite list_lookup_insert in Hj, Hk. destruct (decide (j = i)) as [->|Hji]; destruct (decide (k = i)) as [->|Hki]; try done.
    + rewrite decide_True in Hj by (split; [done|by eapply lookup_lt_Some]). rewrite decide_False in Hk by (by intros [? _]).
      simplify_eq. by edestruct (Hn Hsj k b').
    + rewrite decide_True in Hk by (split; [done|by eapply lookup_lt_Some]). rewrite decide_False in Hj by (by intros [? _]).
      simplify_eq. by edestruct (Hn Hsk j b).
    + rewrite decide_False in Hj by (by intros [? _]). rewrite decide_False in Hk by (by intros [? _]). by eapply H6.
  - rewrite Hleft. eapply recv_ok_rely; [by apply workers_rely|done].
  - by rewrite Hleft.
Qed.

(** It takes its next file. *)
Lemma inv_take num x i wk f fs :
  let s := cc_run x in
  conc_inv num x → rs_todo s !! i = Some (wk, f :: fs) → cc_doing x !! i = Some Idle →
  conc_inv num (set_doing i (Asking f wk (re_workers env)) (set_run (set_todo (<[i := (wk, fs)]> (rs_todo s)) s) x)).
Proof using Type.
  intros s [H1 Hgood H2 H3 H4 H5 H6 H7 H8 H9 H10 H11] Hi Ha. fold s in H1, Hgood, H2, H3, H4, H5, H7, H8, H9, H10, H11.
  set (x' := set_doing _ _ _). pose proof (list_elem_of_lookup_2 _ _ _ Hi) as Hin.
  assert (Hleft : files_left x' ≡ₚ files_left x).
  { unfold files_left. cbn. fold s. rewrite (todo_files_take _ _ _ _ _ Hi).
    pose proof (in_hand_insert _ _ _ (Asking f wk (re_workers env)) Ha) as E. cbn [in_hand] in E.
    rewrite app_nil_r in E. rewrite E, <- !app_assoc. done. }
  split; try done.
  - cbn. by rewrite !length_insert.
  - cbn. rewrite list_fmap_insert. rewrite list_insert_id; [done|]. by rewrite list_lookup_fmap, Hi.
  - intros wk' fs' f' Hin' Hf'. cbn in Hin'. apply list_elem_of_lookup in Hin' as [j Hj].
    apply list_lookup_insert_Some in Hj as [(<- & [= <- <-] & _)|[_ Hj]]; [eapply H4; [exact Hin|by right]|].
    eapply H4; [by eapply list_elem_of_lookup_2|done].
  - intros j wkj fsj b Hj Hb. cbn in Hj, Hb |- *. apply list_lookup_insert_Some in Hb as [(<- & <- & _)|[Hij Hb]].
    + rewrite list_lookup_insert_eq in Hj by (by eapply lookup_lt_Some). injection Hj as <- <-. split; [done|].
      eapply H4; [exact Hin|by left].
    + rewrite list_lookup_insert_ne in Hj by done. by eapply H5.
  - intros j k b b' Hj Hk Hsj Hsk. cbn in Hj, Hk.
    apply list_lookup_insert_Some in Hj as [(_ & <- & _)|[_ Hj]]; [done|].
    apply list_lookup_insert_Some in Hk as [(_ & <- & _)|[_ Hk]]; [done|]. by eapply H6.
  - by rewrite Hleft.
  - by rewrite Hleft.
Qed.

(** It sends its result. *)
Lemma inv_send num x i res :
  let s := cc_run x in
  conc_inv num x → cc_doing x !! i = Some (Finished res) → served (text_primes text) res →
  conc_inv num (set_doing i Idle (set_run (set_chan (rs_chan s ++ [res]) s) x)).
Proof using Type.
  intros s [H1 Hgood H2 H3 H4 H5 H6 H7 H8 H9 H10 H11] Ha Hres. fold s in H1, Hgood, H2, H3, H4, H5, H7, H8, H9, H10, H11.
  set (x' := set_doing _ _ _).
  assert (Hleft : files_left x' ≡ₚ files_left x).
  { unfold files_left. cbn. fold s. pose proof (in_hand_insert _ _ _ Idle Ha) as E. cbn [in_hand] in E.
    rewrite app_nil_r in E. rewrite <- E, fmap_app, <- !app_assoc. apply Permutation_app_head. simpl.
    by rewrite Permutation_middle. }
  split; try done.
  - cbn. by rewrite length_insert.
  - intros j wkj fsj b Hj Hb. cbn in Hj, Hb |- *. apply list_lookup_insert_Some in Hb as [(_ & <- & _)|[_ Hb]]; [done|by eapply H5].
  - intros j k b b' Hj Hk Hsj Hsk. cbn in Hj, Hk.
    apply list_lookup_insert_Some in Hj as [(_ & <- & _)|[_ Hj]]; [done|].
    apply list_lookup_insert_Some in Hk as [(_ & <- & _)|[_ Hk]]; [done|]. by eapply H6.
  - cbn. apply Forall_app. split; [done|by apply Forall_singleton].
  - by rewrite Hleft.
  - by rewrite Hleft.
Qed.

(** The result of a handler that ended well. *)
Lemma handler_result f target bs n t :
  concat bs = text_primes text f →
  let res := recv_chunks (wc_id target) f (map batch_msg bs ++ [count_msg n t]) None [] 0 0 in
  served (text_primes text) res ∧ filePath res = f.
Proof using Type.
  intros Hbs res. split; [|apply recv_chunks_file].
  pose proof (recv_chunks_spec (wc_id target) f (map batch_msg bs ++ [count_msg n t]) None [] 0 0) as [Hok Hps].
  fold res in Hok, Hps. assert (Hnone : res_err res = None).
  { apply Hok. split; [done|]. apply Forall_app. split; [apply batches_no_error|by repeat constructor]. }
  split; [done|]. intros _ q. unfold res. rewrite recv_chunks_file. fold res. rewrite Hps, decide_True by done.
  by rewrite fmap_app, concat_app, batches_primes, <- Hbs, app_nil_r.
Qed.

(** The client of the next call is there, and the worker has a new state: the
    order of the deployment stays. *)
Lemma order_next w :
  order w → order (mkDeployment (dp_afs w) (dp_workers w) (S (dp_clients w))).
Proof using Type.
  intros [O1 O2 O3 O4 O5 O6 O7]. split; [done| |done|done|done| |exact O7].
  - intros n Hn. apply O2. cbn in Hn. lia.
  - intros b q Hq. eapply proc_ok_keeps; [|by apply O6]. done.
Qed.

Lemma order_answered w a p wk' d :
  order w → dp_workers w !! a = Some p → worker_inv wk' → workerID wk' = workerID (wp_srv p) → cache_disk (cdir a) d →
  order (mkDeployment (dp_afs w) (<[a := mkProc wk' d (wp_http p)]> (dp_workers w)) (dp_clients w)).
Proof using Type.
  intros Ho Hp Hwk' Hid Hdisk. pose proof Ho as [O1 O2 O3 O4 O5 O6 O7].
  split; [done|done|done| | | |]; cbn; [| | |by eapply ids_insert].
  - intros b Hb. rewrite lookup_insert. case_decide; [by eexists|by apply O4].
  - intros b. rewrite lookup_insert. case_decide; [subst; intros _; apply O5; by rewrite Hp|apply O5].
  - intros b q. rewrite lookup_insert. case_decide as Hb; [intros [= <-]; subst b|intros Hq; eapply proc_ok_keeps; [|by apply O6]; done].
    destruct (O6 _ _ Hp) as [P1 P2 P3 P4 P5]. split; cbn; rewrite ?Hid; done.
Qed.

(** It calls a worker. *)
Lemma inv_serve num x i wk fs f others p :
  let s := cc_run x in
  let n := dp_clients (rs_world s) in
  conc_inv num x → rs_todo s !! i = Some (wk, fs) → cc_doing x !! i = Some (Asking f wk others) →
  dp_workers (rs_world s) !! wc_addr wk = Some p →
  may_be_asked a0 rest cdir reads (wc_addr wk) (process_request wk f (re_cfg env)) →
  conc_inv (renumber num i n) (set_doing i (Serving f wk others p
      (ProcessFile_calls no_faults (fresh n) (elapsed n) (process_request wk f (re_cfg env)) open_stream (wp_srv p) (wp_disk p)))
    (set_run (set_rworld (mkDeployment (dp_afs (rs_world s)) (dp_workers (rs_world s)) (S n)) s) x)).
Proof using All.
  intros s n Hinv Hi Ha Hp Hask. pose proof (ci_world _ _ Hinv) as Ho.
  eapply inv_doing; [done|exact Hi|exact Ha|done|by apply order_next|by apply others_afs|exact (Nat.le_succ_diag_r _)|..].
  - intros j wkj fsj b q _ _ _ _ _ Hq. split; [done|by apply rely_afs].
  - split; [done|]. split; [exact Hp|]. split; [cbn; lia|]. eapply safe_rely;
      [|by apply (worker_safe fresh elapsed a0 rest addrs cdir wids servers_ok reads text text_ok _
        (process_request wk f (re_cfg env)) _ p Ho Hp)].
    by apply rely_afs.
  - intros _ j b Hj Hb Hsv En. destruct b as [|? ? ?|f' t' o' p' c'|?]; try done.
    destruct (lookup_lt_is_Some_2 (rs_todo (cc_run x)) j) as [[wkj fsj] Hj'].
    { rewrite <- (ci_len _ _ Hinv). by eapply lookup_lt_Some. }
    destruct (ci_acts _ _ Hinv _ _ _ _ Hj' Hb) as (_ & _ & Hlt & _). subst n s. lia.
Qed.

(** The worker answers. *)
Lemma inv_answered num x i wk fs f others p calls bs n t wk' d :
  let s := cc_run x in
  let res := recv_chunks (wc_id wk) f (map batch_msg bs ++ [count_msg n t]) None [] 0 0 in
  conc_inv num x → rs_todo s !! i = Some (wk, fs) → cc_doing x !! i = Some (Serving f wk others p calls) →
  dp_workers (rs_world s) !! wc_addr wk = Some p →
  concat bs = text_primes text f → worker_inv wk' → workerID wk' = workerID (wp_srv p) → cache_disk (cdir (wc_addr wk)) d →
  conc_inv (renumber num i 0) (set_doing i (tried wk others res)
    (set_run (set_rworld (mkDeployment (dp_afs (rs_world s)) (<[wc_addr wk := mkProc wk' d (wp_http p)]> (dp_workers (rs_world s)))
       (dp_clients (rs_world s))) s) x)).
Proof using All.
  intros s res Hinv Hi Ha Hp Hbs Hwk' Hid Hdisk. pose proof (ci_world _ _ Hinv) as Ho.
  destruct (handler_result f wk bs n t Hbs) as [Hres Hf]. fold res in Hres, Hf. unfold tried. rewrite (proj1 Hres).
  eapply inv_doing; [done|exact Hi|exact Ha|by cbn; rewrite Hf|by apply order_answered|by apply others_afs|done|..].
  - intros j wkj fsj b q Hj _ _ _ Hne Hq. cbn. rewrite lookup_insert_ne by done. split; [done|by apply rely_afs].
  - exact Hres.
  - done.
Qed.

(** The worker makes a call. *)
Lemma inv_called num x i wk fs f others p calls calls' w' :
  let s := cc_run x in
  let mine := eq (WorkerSnapshotFile (workerID (wp_srv p))) in
  conc_inv num x → rs_todo s !! i = Some (wk, fs) → cc_doing x !! i = Some (Serving f wk others p calls) →
  guarantee (fresh (num i)) mine any_file (rs_world s) w' →
  safe (fresh (num i)) mine any_file (foreign_to reads (workerID (wp_srv p)))
    (λ o _, handler_done cdir text (wc_addr wk) p f o) calls' w' →
  conc_inv (renumber num i (num i)) (set_doing i (Serving f wk others p calls') (set_run (set_rworld w' s) x)).
Proof using All.
  intros s mine Hinv Hi Ha Hg Hs. pose proof (ci_world _ _ Hinv) as Ho.
  destruct (ci_acts _ _ Hinv _ _ _ _ Hi Ha) as (_ & Hp & Hn & _).
  destruct (worker_call_others (num i) p (wc_addr wk) _ w' Ho Hn Hp Hg) as (Ho' & Ew & Ec & Hrc & Hoth).
  eapply inv_doing; [done|exact Hi|exact Ha|done|done|done|by rewrite Ec|..].
  - intros j wkj fsj b q Hj Hj' Hb Hsv Hne Hq. rewrite Ew. split; [done|]. apply (Hoth (wc_addr wkj)); [done|done|].
    intros En. apply Hj. by eapply (ci_num _ _ Hinv).
  - split; [done|]. rewrite Ew, Ec. done.
  - intros _ j b Hj Hb Hsv En. apply Hj. by eapply (ci_num _ _ Hinv).
Qed.

Lemma goroutine_step_inv num i x x' :
  conc_inv num x → goroutine_step no_faults fresh elapsed env i x = Some x' → ∃ num', conc_inv num' x'.
Proof using All.
  intros Hinv E. unfold goroutine_step in E.
  apply bind_Some in E as ([wk files] & Hi & E). apply bind_Some in E as (a & Ha & E).
  pose proof (ci_acts _ _ Hinv _ _ _ _ Hi Ha) as Hact. destruct a as [|f target others|f target others p calls|res].
  - destruct files as [|f fs]; [done|]. injection E as <-. exists num. by apply inv_take.
  - destruct Hact as (-> & Hup & Hask). case_decide as Hbusy; [done|].
    destruct (do_up _ _ _ _ _ _ _ _ (ci_world _ _ Hinv) (wc_addr wk) Hup) as [p Hp]. rewrite Hp in E. injection E as <-.
    eexists. by eapply inv_serve.
  - destruct Hact as (-> & Hp & Hn & Hs).
    destruct (program_step_safe _ _ _ _ _ _ _ Hs) as [(o & Eo & Hd)|(m' & w' & Eo & Hg & Hs')]; rewrite Eo in E.
    + destruct Hd as (bs & n & t & wk' & d & -> & Hbs & Hwk' & Hid & Hdisk). injection E as <-. eexists. by eapply inv_answered.
    + injection E as <-. eexists. by eapply inv_called.
  - case_decide; [|done]. injection E as <-. exists num. by apply inv_send.
Qed.

(** ** The steps of the receiving loop *)

(** The loop changes its client or its snapshot, in a world that the workers
    accept. *)
Lemma inv_saving num x c saving w' :
  let s := cc_run x in
  conc_inv num x → order w' → good w' →
  dp_workers w' = dp_workers (rs_world s) → dp_clients w' = dp_clients (rs_world s) →
  (∀ b q m, dp_workers (rs_world s) !! b = Some q → rely (fresh m) (foreign_to reads (workerID (wp_srv q))) (rs_world s) w') →
  recv_ok (length (files_left x)) c saving w' →
  conc_inv num (mkConc (set_rclient c (set_rworld w' s)) (cc_doing x) saving).
Proof using Type.
  intros s [H1 Hgood H2 H3 H4 H5 H6 H7 H8 H9 H10 H11] Ho Hgd Ew Ec Hoth Hr. split; try done.
  intros i wk fs a Hi Ha. apply (act_ok_rely (rs_world s)); [|cbn; by rewrite Ec|by eapply H5].
  intros p Hp _. cbn. rewrite Ew. split; [done|by eapply Hoth].
Qed.

Lemma receiver_step_inv num x x' :
  conc_inv num x → receiver_step no_faults env x = Some x' → conc_inv num x'.
Proof using All.
  intros Hinv E. pose proof Hinv as [Ho Hgood H2 H3 H4 H5 H6 Hchan Hrecv Hseen Hfiles Hcov]. unfold receiver_step in E.
  destruct (cc_saving x) as [calls|] eqn:Hsav.
  - destruct Hrecv as [Hrest Hs].
    destruct (program_step_safe _ _ _ _ _ _ _ Hs) as [(o & Eo & c' & -> & Hok & Hsame & Hq)|(m' & w' & Eo & Hg & Hs')]; rewrite Eo in E;
      injection E as <-.
    + apply (inv_saving num x c' None (rs_world (cc_run x)) Hinv); [exact Ho|exact Hgood|exact eq_refl|exact eq_refl|intros; by apply rely_afs|].
      split; [exact Hok|]. destruct Hrest as [R1 R2 R3]. pose proof Hsame as (_ & Sid & _).
      split; [congruence|rewrite Hq; lia|]. intros n Hn. destruct (R3 n Hn) as [Hnm Hl]. split; [done|]. by eapply same_client_free.
    + destruct (coord_call_others _ w' Ho Hg) as (Ho' & Hgd & Ew & Ec & Hoth).
      destruct x as [[td ch sn ps cp c w0] doing saving].
      apply (inv_saving num (mkConc (mkRun td ch sn ps cp c w0) doing saving) c (Some m') w' Hinv);
        [exact Ho'|exact (Hgd Hgood)|exact Ew|exact Ec|exact Hoth|].
      split; [|exact Hs']. destruct Hg as (l & _ & He). eapply client_rest_names; [|exact Hrest]. apply He.
  - destruct (rs_chan (cc_run x)) as [|res chan] eqn:Hch; [done|]. apply Forall_cons in Hchan as [Hres Hchan].
    rewrite (proj1 Hres) in E.
    destruct (collect_primes_spec (primes res) _ _ Hseen) as (m' & Em & Hm'). rewrite Em in E.
    cbn beta iota zeta in E. injection E as <-. set (x' := mkConc _ _ _).
    assert (Hleft : files_left x ≡ₚ filePath res :: files_left x') by (unfold files_left; by rewrite Hch).
    destruct Hrecv as [Hok Hrest]. rewrite Hleft in Hrest. cbn [length] in Hrest. pose proof Hrest as [R1 R2 R3].
    assert (Hcov' : covers (text_primes text) (rs_completed (cc_run x')) (rs_primes (cc_run x'))).
    { intros q. cbn. pose proof (proj2 Hres (proj1 Hres) q) as Hq. rewrite elem_of_app, elem_of_firsts, Hq.
      setoid_rewrite elem_of_app. setoid_rewrite list_elem_of_singleton. split.
      - intros [(f & Hf & Hqf)%Hcov|[Hqf _]]; [exists f|exists (filePath res)]; auto.
      - intros (f & [Hf| ->] & Hqf); [left; apply Hcov; by exists f|].
        destruct (decide (q ∈ rs_primes (cc_run x))); [by left|by right]. }
    assert (Hall : rs_completed (cc_run x') ++ files_left x' ≡ₚ all).
    { cbn. rewrite <- app_assoc, <- Hfiles, Hleft. done. }
    assert (Hsub : rs_completed (cc_run x') ⊆ all) by (intros f Hf; rewrite <- Hall; apply elem_of_app; by left).
    split; try done.
    + change (rs_client (cc_run x')) with (rs_client (cc_run x)). split; [split; [done|lia|exact R3]|]. pose proof Hok as [(a & Ha & Hr) _ _ _ _ _]. destruct (R3 _ coord_name) as [Hn Hl].
      assert (Hsn : ∀ snap, snapshot_of env (cc_run x') snap → content CoordSnapshotFile None ∧ content CoordSnapshotFile (Some []) ∧
        content CoordSnapshotFile (Some (Marshal CoordSnapshot_codec snap))) by (intros snap; apply may_snap; [exact Hsub|exact Hcov']).
      pose proof (receiver_safe cid content (worker_file wids) env (rs_client (cc_run x)) (cc_run x') a (rs_world (cc_run x)) coord_file
        R1 Hok Ha Hr Hn Hl Hsn) as Hsafe.
      change (rs_completed (cc_run x')) with (rs_completed (cc_run x) ++ [filePath res]) in Hsafe.
      change (rs_primes (cc_run x')) with (rs_primes (cc_run x) ++ firsts (rs_primes (cc_run x)) (primes res)) in Hsafe.
      exact (Hsafe ltac:(lia)).
Qed.

End Inv.
