(* ===== verification/ConcurrentEnd.v ===== *)
(** * Concurrent runs end

    No schedule of a concurrent run goes on for ever: the programs are finite
    trees, a goroutine takes finitely many files and asks finitely many
    workers.  And a run that is not over can take a step: a worker that is busy
    makes a call, the channel has room or the loop receives. *)

From S2P Require Import Prelude GoLib GoText GoPath Json JsonCodec MillerRabin Disk AfsProto Server Cache Client AfsSpec SnapshotIO ClientStart Snapshot Calls SnapshotProps Worker WorkerProps Coordinator CoordSpec System Concurrent.

(** ** Programs end *)

Section Programs.
  Context {S : Type} `{!AfsService S, !SnapshotNet S}.

Definition program_lt {A} (m' m : program A) : Prop := ∃ w w' : S, program_step m w = inr (m', w').

Lemma program_wf {A} (m : program A) : Acc program_lt m.
Proof.
  induction m as [a|c k IH|k IH|a k IH]; constructor; intros m' (w & w' & E).
  - discriminate E.
  - unfold program_step in E. cbn [settle] in E. destruct (perform c w) as [r w1]. injection E as <- <-. apply IH.
  - apply (Acc_inv (IH (time_Unix w))). by exists w, w'.
  - apply (Acc_inv (IH (svc_dial (W := S) a))). by exists w, w'.
Qed.

(** All results of a program. *)
Fixpoint leaves {A} (P : A → Prop) (m : program A) : Prop :=
  match m with
  | Return a => P a
  | Call c k => ∀ r, leaves P (k r)
  | Clock k => ∀ t, leaves P (k t)
  | Dial a k => ∀ b, leaves P (k b)
  end.

Lemma leaves_bind {A B} (P : A → Prop) (Q : B → Prop) m (f : A → program B) :
  leaves P m → (∀ a, P a → leaves Q (f a)) → leaves Q (m ≫= f).
Proof using Type. induction m as [a|c k IH|k IH|a k IH]; simpl; auto. Qed.

Lemma leaves_all {A} (m : program A) : leaves (λ _, True) m.
Proof using Type. induction m; simpl; auto. Qed.

Lemma program_step_leaves {A} (P : A → Prop) m (w : S) :
  leaves P m →
  (∃ a, program_step m w = inl a ∧ P a) ∨ ∃ m' w', program_step m w = inr (m', w') ∧ leaves P m'.
Proof using Type.
  unfold program_step. induction m as [a|c k _|k IH|a k IH]; cbn [settle leaves]; intros Hm; [left; by exists a| |by apply IH..].
  right. destruct (perform c w) as [r w']. by eexists _, _.
Qed.

End Programs.

Definition returns {A} (o : outcome A) : Prop := ∃ a, o = Ret a.

Lemma marker_loop_leaves addrs ids i cs sent acked :
  i + length addrs <= length ids → leaves returns (marker_loop_calls addrs ids i cs sent acked).
Proof.
  revert i cs sent acked. induction addrs as [|a addrs IH]; intros i cs sent acked Hlen; cbn [marker_loop_calls].
  { by eexists. }
  simpl in Hlen. destruct (lookup_lt_is_Some_2 ids i) as [id ->]; [lia|]. intros [e|]; apply IH; lia.
Qed.

Lemma InitiateSnapshot_leaves flt c done pending ps addrs ids :
  length addrs <= length ids → leaves returns (InitiateSnapshot_calls flt c done pending ps addrs ids).
Proof.
  intros Hlen. unfold InitiateSnapshot_calls. eapply leaves_bind; [by apply marker_loop_leaves|].
  intros o [[[cs sent] acked] ->]. cbn [leaves]. intros t. eapply leaves_bind; [apply leaves_all|]. intros r _. by exists r.
Qed.

Section End_.
  Context {W : Type} `{!AfsService W, !SnapshotNet W, !MapOrder}.
  Context (flt : OsFaults) (fresh : nat → string) (elapsed : nat → Z) (env : run_env).

(** ** Goroutines end *)

Definition stage (a : activity) : nat :=
  match a with
  | Idle => 0
  | Finished _ => 1
  | Serving _ _ others _ _ => 2 * length others + 2
  | Asking _ _ others => 2 * length others + 3
  end.

Inductive activity_lt : activity → activity → Prop :=
  | lt_stage a a' : stage a' < stage a → activity_lt a' a
  | lt_call f t o p m m' : program_lt (S := Deployment W) m' m → activity_lt (Serving f t o p m') (Serving f t o p m).

Lemma activity_wf a : Acc activity_lt a.
Proof using Type.
  remember (stage a) as n eqn:Hn. revert a Hn. induction n as [n IH] using lt_wf_ind. intros a ->.
  assert (Hlow : ∀ a', stage a' < stage a → Acc activity_lt a') by (intros a' Hlt; by eapply IH).
  destruct a as [|f t o|f t o p m|res]; try (constructor; intros a' Ha'; inversion Ha'; subst; by apply Hlow).
  induction (program_wf (S := Deployment W) m) as [m _ IHm]. constructor. intros a' Ha'.
  inversion Ha' as [x x' Hlt|f' t' o' p' x x' Hlt]; subst; [by apply Hlow|]. by apply IHm.
Qed.

(** One of the goroutines goes on. *)
Definition doing_lt (l' l : list activity) : Prop :=
  ∃ i a a', l !! i = Some a ∧ l' = <[i := a']> l ∧ activity_lt a' a.

Lemma doing_wf l : Acc doing_lt l.
Proof using Type.
  induction l as [|a l IHl]; [constructor; by intros l' (i & a & a' & Hi & _)|].
  revert l IHl. induction (activity_wf a) as [a _ IHa]. intros l IHl. induction IHl as [l Hl IHl]. constructor.
  intros l' ([|i] & b & b' & Hi & -> & Hlt); simplify_eq/=; [apply IHa; [done|by constructor]|].
  apply IHl. by exists i, b, b'.
Qed.

Lemma next_worker_stage self file others : stage (next_worker self file others) < 2 * length others + 2.
Proof using Type. induction others as [|o os IH]; simpl; [lia|]. case_decide; simpl; lia. Qed.

Lemma tried_stage self others res : stage (tried self others res) < 2 * length others + 2.
Proof using Type. unfold tried. destruct (res_err res); [apply next_worker_stage|simpl; lia]. Qed.

(** A step of a goroutine takes a file or brings the goroutine on. *)
Lemma goroutine_step_lt i (x x' : conc W) :
  goroutine_step flt fresh elapsed env i x = Some x' →
  cc_saving x' = cc_saving x ∧
  (length (todo_files (rs_todo (cc_run x'))) < length (todo_files (rs_todo (cc_run x))) ∨
   rs_todo (cc_run x') = rs_todo (cc_run x) ∧ doing_lt (cc_doing x') (cc_doing x)).
Proof using Type.
  unfold goroutine_step. intros E. apply bind_Some in E as ([wk files] & Hi & E). apply bind_Some in E as (a & Ha & E).
  assert (Hgo : ∀ a', activity_lt a' a → doing_lt (<[i := a']> (cc_doing x)) (cc_doing x)) by (intros a' Hlt; by exists i, a, a').
  destruct a as [|f target others|f target others p m|res].
  - destruct files as [|f fs]; [done|]. injection E as <-. split; [done|]. left.
    apply todo_files_take, Permutation_length in Hi. simpl in Hi.
    change (length (todo_files (<[i := (wk, fs)]> (rs_todo (cc_run x)))) < length (todo_files (rs_todo (cc_run x)))). lia.
  - case_decide; [done|]. destruct (dp_workers _ !! _) as [p|]; injection E as <-; (split; [done|right; split; [done|]]); apply Hgo.
    + apply lt_stage. simpl. lia.
    + apply lt_stage. pose proof (tried_stage wk others (mkWorkerResult (wc_id target) f [] 0 0 (Some no_worker))). simpl. lia.
  - destruct (program_step m _) as [[[[[e st] wk'] d]|msg|]|[m' w']] eqn:Em; injection E as <-; (split; [done|right; split; [done|]]); apply Hgo.
    all: try (apply lt_stage; apply tried_stage). apply lt_call. by eexists _, _.
  - case_decide; [|done]. injection E as <-. split; [done|right; split; [done|]]. apply Hgo, lt_stage. simpl. lia.
Qed.

Lemma receiver_step_lt (x x' : conc W) :
  receiver_step flt env x = Some x' →
  rs_todo (cc_run x') = rs_todo (cc_run x) ∧ cc_doing x' = cc_doing x ∧
  (length (rs_chan (cc_run x')) < length (rs_chan (cc_run x)) ∨
   rs_chan (cc_run x') = rs_chan (cc_run x) ∧
   ∃ m, cc_saving x = Some m ∧ (cc_saving x' = None ∨ ∃ m', cc_saving x' = Some m' ∧ program_lt (S := Deployment W) m' m)).
Proof using Type.
  unfold receiver_step. destruct (cc_saving x) as [m|] eqn:Hs.
  - destruct (program_step m _) as [[[e c]|msg|]|[m' w']] eqn:Em; [intros [= <-]|done|done|intros [= <-]];
      (split; [done|]; split; [done|]; right; split; [done|]; exists m; split; [done|]); [by left|].
    right. exists m'. split; [done|]. by eexists _, _.
  - destruct (rs_chan (cc_run x)) as [|res chan] eqn:Hc; [done|].
    destruct (res_err res); [intros [= <-]|]; [split; [done|]; split; [done|]; left; cbn; lia|].
    destruct (foldl _ _ _) as [seen collected]. cbn beta iota zeta. destruct (buildWorkerHTTPAddrs _) as [aa ii].
    intros [= <-]. split; [done|]. split; [done|]. left. cbn. lia.
Qed.

Definition conc_lt (x' x : conc W) : Prop := ∃ act, conc_step flt fresh elapsed env act x = Some x'.

(** No schedule goes on for ever. *)
Lemma conc_wf x : Acc conc_lt x.
Proof using Type.
  remember (length (todo_files (rs_todo (cc_run x)))) as n eqn:Hn. revert x Hn.
  induction n as [n IHn] using lt_wf_ind. intros x Hn.
  remember (cc_doing x) as l eqn:Hl. revert x Hn Hl. induction (doing_wf l) as [l _ IHl]. intros x Hn Hl.
  remember (length (rs_chan (cc_run x))) as k eqn:Hk. revert x Hn Hl Hk.
  induction k as [k IHk] using lt_wf_ind.
  (* a goroutine, or the loop when it receives *)
  assert (Hwork : ∀ x i x', n = length (todo_files (rs_todo (cc_run x))) → l = cc_doing x →
    goroutine_step flt fresh elapsed env i x = Some x' → Acc conc_lt x').
  { intros x i x' -> -> E. destruct (goroutine_step_lt i x x' E) as [_ [Hlt|[Et Hlt]]]; [by eapply IHn|].
    eapply IHl; [exact Hlt|by rewrite Et|done]. }
  assert (Hnone : ∀ x, n = length (todo_files (rs_todo (cc_run x))) → l = cc_doing x → k = length (rs_chan (cc_run x)) →
    cc_saving x = None → Acc conc_lt x).
  { intros x Hn Hl Hk Hs. constructor. intros x' [[i|] E]; [by eapply Hwork|].
    destruct (receiver_step_lt x x' E) as (Et & Ed & [Hlt|(_ & m & Em & _)]); [|by rewrite Hs in Em].
    eapply IHk; [by rewrite Hk|by rewrite Et|by rewrite Ed|done]. }
  intros x Hn Hl Hk. destruct (cc_saving x) as [m|] eqn:Hs; [|by apply Hnone].
  revert x Hn Hl Hk Hs. induction (program_wf (S := Deployment W) m) as [m _ IHm]. intros x Hn Hl Hk Hs.
  constructor. intros x' [[i|] E]; [by eapply Hwork|].
  destruct (receiver_step_lt x x' E) as (Et & Ed & [Hlt|(Ec & m0 & Em & [Hs'|(m' & Hs' & Hlt)])]).
  - eapply IHk; [by rewrite Hk|by rewrite Et|by rewrite Ed|done].
  - apply Hnone; [by rewrite Et|by rewrite Ed|by rewrite Ec|done].
  - assert (m0 = m) as -> by congruence. eapply IHm; [exact Hlt|by rewrite Et|by rewrite Ed|by rewrite Ec|done].
Qed.

(** ** Progress *)

#[local] Instance idle_dec a : Decision (a = Idle).
Proof. destruct a; first [by left|by right]. Defined.

(** What the steps keep: every goroutine does something, and the snapshot that
    is taken does not panic. *)
Definition conc_sound (x : conc W) : Prop :=
  length (cc_doing x) = length (rs_todo (cc_run x)) ∧ ∀ m, cc_saving x = Some m → leaves returns m.

Lemma conc_step_sound act x x' : conc_sound x → conc_step flt fresh elapsed env act x = Some x' → conc_sound x'.
Proof using Type.
  intros [Hl Hs] E. destruct act as [i|]; cbn [conc_step] in E.
  - destruct (goroutine_step_lt i x x' E) as [Es _]. split; [|by rewrite Es].
    unfold goroutine_step in E. apply bind_Some in E as ([wk files] & Hi & E). apply bind_Some in E as (a & Ha & E).
    repeat case_match; simplify_eq; cbn; by rewrite ?length_insert.
  - destruct (receiver_step_lt x x' E) as (Et & Ed & _). split; [by rewrite Et, Ed|]. unfold receiver_step in E.
    destruct (cc_saving x) as [m|] eqn:Hsv.
    + destruct (program_step_leaves returns m (rs_world (cc_run x)) (Hs m eq_refl)) as [(o & Em & r & ->)|(m' & w' & Em & Hm')];
        rewrite Em in E; [destruct r as [e c]|]; injection E as <-; intros m0 [= <-]. done.
    + destruct (rs_chan (cc_run x)) as [|res chan]; [done|]. destruct (res_err res); [injection E as <-; cbn; by rewrite Hsv|].
      destruct (foldl _ _ _) as [seen collected]. cbn in E. injection E as <-. cbn. intros m [= <-].
      apply InitiateSnapshot_leaves. by rewrite !length_map.
Qed.

Lemma conc_progress x : 0 < re_cap env → conc_sound x → conc_over x ∨ ∃ act x', conc_step flt fresh elapsed env act x = Some x'.
Proof using Type.
  intros Hcap [Hlen Hsv].
  (* the loop can go on while it saves or while a result waits *)
  assert (Hrecv : cc_saving x ≠ None ∨ rs_chan (cc_run x) ≠ [] → ∃ act x', conc_step flt fresh elapsed env act x = Some x').
  { intros Hne. exists Recv. cbn [conc_step]. unfold receiver_step. destruct (cc_saving x) as [m|] eqn:Em.
    - destruct (program_step_leaves returns m (rs_world (cc_run x)) (Hsv m eq_refl)) as [(o & -> & [e c] & ->)|(m' & w' & -> & _)]; by eexists.
    - destruct Hne as [Hne|Hne]; [done|]. destruct (rs_chan (cc_run x)) as [|res chan]; [done|]. destruct (res_err res); [by eexists|].
      destruct (foldl _ _ _). cbn. by eexists. }
  destruct (decide (cc_saving x = None ∧ rs_chan (cc_run x) = [])) as [[Hnone Hch]|Hn].
  2: { right. apply Hrecv. destruct (cc_saving x); [by left|]. right. intros Hc. by apply Hn. }
  assert (Htodo : ∀ i a, cc_doing x !! i = Some a → ∃ wk files, rs_todo (cc_run x) !! i = Some (wk, files)).
  { intros i a Ha. destruct (lookup_lt_is_Some_2 (rs_todo (cc_run x)) i) as [[wk fs] Hi]; [|by eauto].
    rewrite <- Hlen. by eapply lookup_lt_Some. }
  assert (Hgo : ∀ i a wk files, rs_todo (cc_run x) !! i = Some (wk, files) → cc_doing x !! i = Some a → a ≠ Idle ∨ files ≠ [] →
    is_serving a ∨ ¬ Exists is_serving (cc_doing x) → ∃ act x', conc_step flt fresh elapsed env act x = Some x').
  { intros i a wk files Hi Ha Hne Hex. exists (Work i). cbn [conc_step]. unfold goroutine_step. rewrite Hi. cbn. rewrite Ha. cbn.
    destruct a as [|f target others|f target others p m|res].
    - destruct files; [by destruct Hne|by eexists].
    - destruct Hex as [[]|Hex]. rewrite decide_False; [destruct (dp_workers _ !! _); by eexists|].
      intros Hb. apply Hex. eapply Exists_impl; [exact Hb|]. by intros [].
    - destruct (program_step m _) as [[[[[e st] wk'] d]|msg|]|[m' w']]; by eexists.
    - rewrite decide_True by (rewrite Hch; simpl; lia). by eexists. }
  destruct (decide (Exists is_serving (cc_doing x))) as [Hs|Hs].
  { right. apply Exists_exists in Hs as (a & Hin & Ha). apply list_elem_of_lookup in Hin as [i Hi].
    destruct (Htodo i a Hi) as (wk & fs & Hw). eapply Hgo; [exact Hw|exact Hi|left; by intros ->|by left]. }
  destruct (decide (Forall (λ a, a = Idle) (cc_doing x))) as [Hidle|Hidle].
  - destruct (decide (Forall (λ g : workerConn * list string, g.2 = []) (rs_todo (cc_run x)))) as [Hf|Hf]; [by left|].
    right. apply not_Forall_Exists in Hf; [|intros g; apply _]. apply Exists_exists in Hf as ([wk fs] & Hin & Hne).
    apply list_elem_of_lookup in Hin as [i Hi]. destruct (lookup_lt_is_Some_2 (cc_doing x) i) as [a Ha].
    { rewrite Hlen. by eapply lookup_lt_Some. }
    eapply Hgo; [exact Hi|exact Ha|by right|by right].
  - right. apply not_Forall_Exists in Hidle; [|intros a; apply idle_dec]. apply Exists_exists in Hidle as (a & Hin & Hne).
    apply list_elem_of_lookup in Hin as [i Hi]. destruct (Htodo i a Hi) as (wk & fs & Hw).
    eapply Hgo; [exact Hw|exact Hi|by left|by right].
Qed.

End End_.
