(* ===== verification/ConcurrentProps.v ===== *)
(** * Properties of concurrent runs

    A run whose workers and receiving loop interleave their calls in any way
    ends, and writes the primes of all input files. *)

From S2P Require Import Prelude GoLib GoText GoPath Json JsonCodec MillerRabin Disk AfsProto Server Handler Cluster SyncSpec Cache Client AfsSpec AfsWorld SnapshotIO ClientStart Snapshot Calls Disturbed Shared ClientProps SnapshotProps Worker WorkerProps Coordinator CoordSpec CoordAfs CoordProps CoordRun Moments CoordCrash System SystemLaws Concurrent ConcurrentSpec ConcurrentInv ConcurrentEnd.

Section Run.
  Context {W : Type} `{!AfsService W, !AfsView W, !AfsLaws W, !AfsUnwatched W, !SnapshotNet W, !MapOrder}.
  Context (fresh : nat → string) (elapsed : nat → Z) `{!Inj (=) (=) fresh}.
  Context (a0 : string) (rest : list string) (addrs : gset string) (cdir : string → string) (wids : string → Prop).
  Context (servers_ok : Forall (λ a, ","%char ∉ s2b a) (a0 :: rest)).
  Context (reads : string → Prop) (text : string → bytes).
  Context (text_ok : ∀ f, reads f →
    ∃ lines, Scan 256 (text f) None = (lines, None) ∧ (Z.of_nat (length lines) < 2 ^ 63)%Z).

#[local] Instance conc_service : WorkerService (Deployment W) := deployment_worker_service no_faults fresh elapsed.
#[local] Instance conc_laws : WorkerLaws (Deployment W) :=
  deployment_workers (W := W) fresh elapsed a0 rest addrs cdir wids servers_ok reads text text_ok.
#[local] Instance conc_serves : WorkerServes (Deployment W) (text_primes text) :=
  deployment_serves (W := W) fresh elapsed a0 rest addrs cdir wids servers_ok reads text text_ok.

(** The invariant of a run with the names and the calls that the end needs. *)
Definition run_conc_inv (cid : string) (cfg : Config) (env : run_env) (content : string → option bytes → Prop)
    (good : Deployment W → Prop) (all : list string) : (nat → nat) → conc W → Prop :=
  conc_inv fresh a0 rest addrs cdir wids reads text cid (run_names cfg env)
    (Z.of_nat (length (re_workers env)) + 4) env all content good.

(** What the coordinator [cid], which leaves [content], and the workers keep. *)
Record keeps_good (cid : string) (content : string → option bytes → Prop) (good : Deployment W → Prop) : Prop := {
  kg_coord ps w w' : svc_effect cid ps w w' →
    (∀ p, p ∈ ps → svc_known w p ∧ content p (fst <$> svc_file w' p)) → good w → good w';
  kg_worker w w' : workers_keep w w' → good w → good w';
}.

(** The snapshots of a run may be left. *)
Definition snapshots_fit (content : string → option bytes → Prop) (env : run_env) (all : list string) : Prop :=
  ∀ (s : run_state (Deployment W)) snap, rs_completed s ⊆ all →
    covers (text_primes text) (rs_completed s) (rs_primes s) → snapshot_of env s snap →
    content CoordSnapshotFile None ∧ content CoordSnapshotFile (Some []) ∧
    content CoordSnapshotFile (Some (Marshal CoordSnapshot_codec snap)).

Lemma keeps_any cid : keeps_good cid (λ _ _, True) (λ _, True).
Proof. done. Qed.

Lemma fits_any env all : snapshots_fit (λ _ _, True) env all.
Proof. done. Qed.

Lemma conc_start_inv cid cfg env content good (s : run_state (Deployment W)) :
  started cfg env s → run_ready cid cfg env s → NoDup ((wc_addr ∘ fst) <$> rs_todo s) →
  covers (text_primes text) (rs_completed s) (rs_primes s) → good (rs_world s) →
  run_conc_inv cid cfg env content good (rs_completed s ++ todo_files (rs_todo s)) (λ _, 0) (conc_start s).
Proof.
  intros Hst ([H1 H2 H3 H4 H5 H6] & Hmay & _) Hnd Hcov Hgood.
  assert (Hidle : ∀ i a, (const Idle <$> rs_todo s) !! i = Some a → a = Idle).
  { intros i a. rewrite list_lookup_fmap. by destruct (rs_todo s !! i); intros [= <-]. }
  assert (Hhand : files_left (conc_start s) = todo_files (rs_todo s)).
  { unfold files_left, conc_start. cbn [cc_run cc_doing]. rewrite (st_chan _ _ _ Hst). simpl.
    replace (concat (in_hand <$> (const Idle <$> rs_todo s))) with (@nil string); [done|].
    clear. induction (rs_todo s); [done|]. simpl. done. }
  split.
  - exact H5.
  - exact Hgood.
  - cbn. by rewrite length_fmap.
  - exact Hnd.
  - intros wk fs f Hwk Hf. destruct (Hmay wk fs f Hwk Hf wk) as [Hup Hask]; [by left|].
    split; [exact Hup|]. destruct Hask as (A1 & A2 & A3). done.
  - intros i wk fs a _ Ha. apply Hidle in Ha as ->. done.
  - intros i j a b Ha _ Hs. apply Hidle in Ha as ->. done.
  - cbn. rewrite (st_chan _ _ _ Hst). constructor.
  - rewrite Hhand. cbn. split; [exact H1|]. split; [exact H2| |].
    + revert H3. unfold to_come. rewrite (st_chan _ _ _ Hst). simpl. lia.
    + intros n Hn. destruct (H4 n Hn) as (Hs & Hl & _). done.
  - apply Hst.
  - by rewrite Hhand.
  - exact Hcov.
Qed.

Lemma conc_exec_inv cid cfg env content good all num acts x x' :
  ¬ worker_client fresh cid → ¬ worker_file wids CoordSnapshotFile → (∀ n, n ∈ run_names cfg env → ¬ reads n) →
  keeps_good cid content good → snapshots_fit content env all →
  run_conc_inv cid cfg env content good all num x → conc_exec no_faults fresh elapsed env acts x = Some x' →
  ∃ num', run_conc_inv cid cfg env content good all num' x'.
Proof.
  intros Hc Hf Hn [Hg1 Hg2] Hfit. assert (Hb : (0 ≤ Z.of_nat (length (re_workers env)) + 4)%Z) by lia.
  assert (Hin : CoordSnapshotFile ∈ run_names cfg env) by (right; left).
  assert (Hg2' : ∀ w w' : Deployment W, deployment_ok fresh a0 addrs cdir wids reads text w' →
    others_keep (worker_client fresh) (worker_file wids) w w' → good w → good w') by (intros w w' H1 H2; by apply Hg2).
  revert num x. induction acts as [|act acts IH]; intros num x Hinv E; cbn [conc_exec] in E.
  { injection E as <-. by exists num. }
  apply bind_Some in E as (x1 & E1 & E).
  assert (Hinv1 : ∃ num1, run_conc_inv cid cfg env content good all num1 x1).
  { destruct act as [i|]; cbn [conc_step] in E1; [eapply goroutine_step_inv|exists num; eapply receiver_step_inv]; eassumption. }
  destruct Hinv1 as [num1 Hinv1]. by eapply IH.
Qed.

(** Nothing is left when a run is over. *)
Lemma conc_over_inv cid cfg env content good all num x :
  run_conc_inv cid cfg env content good all num x → conc_over x → ¬ worker_client fresh cid →
  (∀ n, n ∈ run_names cfg env → ¬ reads n) →
  rs_completed (cc_run x) ≡ₚ all ∧
  client_ready cid (run_names cfg env) (Z.of_nat (length (re_workers env)) + 4) (rs_client (cc_run x)) (rs_world (cc_run x)).
Proof.
  intros [Ho _ _ _ _ _ _ _ Hrecv _ Hfiles _] ([Hc Ht] & Hd & Hs) Hapart Hnames.
  assert (Hleft : files_left x = []).
  { unfold files_left. rewrite Hc, (todo_files_nil _ Ht), app_nil_r. simpl. clear -Hd.
    induction Hd as [|a l -> _ IH]; [done|exact IH]. }
  rewrite Hleft in Hfiles, Hrecv. rewrite app_nil_r in Hfiles. rewrite Hs in Hrecv. destruct Hrecv as [Hok [R1 R2 R3]].
  cbn [length] in R2. rewrite Z.mul_0_r, Z.add_0_r in R2. split; [done|].
  split; [done|done|exact R2| |exact Ho|exact Hapart]. intros n Hn. destruct (R3 n Hn) as [Hs' Hl].
  split; [done|]. split; [done|]. by apply Hnames.
Qed.

(** Some schedule ends the run: there is always a step, and no schedule is
    endless. *)
Lemma conc_completes flt env (x : conc W) :
  0 < re_cap env → conc_sound x → ∃ acts x', conc_exec flt fresh elapsed env acts x = Some x' ∧ conc_over x'.
Proof.
  intros Hcap. induction (conc_wf flt fresh elapsed env x) as [x _ IH]. intros Hs.
  destruct (conc_progress flt fresh elapsed env x Hcap Hs) as [Ho|(act & x1 & E)]; [by exists [], x|].
  destruct (IH x1) as (acts & x2 & E2 & Ho); [by exists act|by eapply conc_step_sound|].
  exists (act :: acts), x2. split; [|exact Ho]. cbn [conc_exec]. by rewrite E.
Qed.

Lemma conc_start_sound (s : run_state (Deployment W)) : conc_sound (conc_start s).
Proof. split; [apply length_fmap|done]. Qed.

(** ** A run from its setting *)

Section Setting.
  Context (cid : string) (cfg : Config) (d : Disk) (w : Deployment W) (m : nat) (ids : list string).
  Context (completed : list string) (collected : list Z).
  Context (Hcfg : config_ok cfg m) (Hpl : place cfg m ids w) (Hcid : cid ∈ ids) (Hdisk : cache_disk (cfg_CacheDir cfg) d).
  Context (Hpr : progress (text_primes text) m w completed collected).

(** What holds while the run lasts. *)
Lemma concurrent_run_inv content good env s acts x :
  keeps_good cid content good → good w →
  (env_ok cfg m env → rs_completed s ++ todo_files (rs_todo s) ⊆ input_files m →
   snapshots_fit content env (rs_completed s ++ todo_files (rs_todo s))) →
  Run_start no_faults cfg cid d w = Ret (inr (env, s)) → conc_exec no_faults fresh elapsed env acts (conc_start s) = Some x →
  started cfg env s ∧ run_ready cid cfg env s ∧ env_ok cfg m env ∧
  (∃ num, run_conc_inv cid cfg env content good (rs_completed s ++ todo_files (rs_todo s)) num x) ∧
  (conc_over x → (∀ p, p ∈ rs_primes (cc_run x) ↔ p ∈ concat (text_primes text <$> input_files m)) ∧
    client_ready cid (run_names cfg env) (Z.of_nat (length (re_workers env)) + 4) (rs_client (cc_run x)) (rs_world (cc_run x))).
Proof using All.
  intros Hkeep Hgood Hfit Es Hx. destruct Hpr as [Hsaved Hsub Hcov].
  assert (Hp : filterPending (input_files m) completed ≠ []).
  { intros Hp. destruct (setting_early cid cfg d w m ids _ _ Hcfg Hpl Hcid Hdisk Hpr Hp) as (r & E & _).
    unfold conc_service in *. by rewrite E in Es. }
  destruct (Run_start_ok cid cfg d w m ids _ _ (any_user cid) (any_past w) Hcfg Hpl Hcid Hsaved Hdisk Hp) as
    (env' & s' & E & Hst & Hrun & Hc & Hps & Hin & Hids & Hlen & Hnd & w2 & He2 & Hk2).
  unfold conc_service in *. rewrite Es in E. injection E as <- <-. pose proof Hrun as ([_ _ _ H4 _ H6] & _ & Hout).
  assert (Hnames : ∀ n, n ∈ run_names cfg env → ¬ reads n) by (intros n Hn; by apply H4).
  assert (Hfile : ¬ worker_file wids CoordSnapshotFile) by (intros Hn; by destruct (co_writes _ _ Hcfg _ Hn)).
  destruct (conc_exec_inv cid cfg env content good (rs_completed s ++ todo_files (rs_todo s)) (λ _, 0) acts (conc_start s) x)
    as [num Hinv]; [exact H6|exact Hfile|exact Hnames|exact Hkeep| | |exact Hx|].
  { apply Hfit; [by split|]. rewrite Hc. apply list_subseteq_app_iff_l. split; [exact Hsub|]. intros f Hf.
    rewrite (st_todo _ _ _ Hst), Hin in Hf. by apply elem_of_filterPending in Hf as [? _]. }
  { apply conc_start_inv; [done|done|done|by rewrite Hc, Hps|]. eapply (kg_worker _ _ _ Hkeep); [exact Hk2|].
    eapply (kg_coord _ _ _ Hkeep); [exact He2|by intros p Hin'%elem_of_nil|exact Hgood]. }
  split; [done|]. split; [done|]. split; [by split|]. split; [by exists num|]. intros Hover.
  destruct (conc_over_inv _ _ _ _ _ _ _ _ Hinv Hover H6 Hnames) as [Hall Hready]. split; [|exact Hready].
  intros p. rewrite (ci_cover _ _ _ _ _ _ _ _ _ _ _ _ _ _ _ _ _ Hinv p), elem_of_concat_fmap, Hc in *. setoid_rewrite Hall.
  setoid_rewrite elem_of_app. setoid_rewrite (st_todo _ _ _ Hst). rewrite Hc, Hin. setoid_rewrite elem_of_filterPending.
  split; intros (f & Hf & Hpf); exists f; (split; [|done]); [destruct Hf as [Hf|[Hf _]]; auto|].
  destruct (decide (f ∈ completed)); auto.
Qed.

(** Every concurrent run from a setting ends with the primes of all files, and
    there is one. *)
Lemma concurrent_setting_run :
  (∀ r, concurrent_run no_faults fresh elapsed cfg cid d w r → ends_with cfg (concat (text_primes text <$> input_files m)) r) ∧
  ∃ r, concurrent_run no_faults fresh elapsed cfg cid d w r.
Proof using All.
  pose proof Hpr as [Hsaved _ _]. split.
  - intros r Hr. destruct Hr as [r Er|env s acts x Es Hx Hover].
    + destruct (decide (filterPending (input_files m) completed = [])) as [Hp|Hp].
      * destruct (setting_early cid cfg d w m ids _ _ Hcfg Hpl Hcid Hdisk Hpr Hp) as (x & E & Hf).
        unfold conc_service in *. rewrite E in Er. by injection Er as <-.
      * destruct (Run_start_ok cid cfg d w m ids _ _ (any_user cid) (any_past w) Hcfg Hpl Hcid Hsaved Hdisk Hp) as (env & s & E & _).
        unfold conc_service in *. by rewrite E in Er.
    + destruct (concurrent_run_inv (λ _ _, True) (λ _, True) env s acts x (keeps_any cid) I (λ _ _, fits_any env _) Es Hx) as
        (Hst & (_ & _ & Hout) & _ & _ & Hend). destruct (Hend Hover) as [Hsame Hready].
      apply (ends_with_ext cfg _ _ _ Hsame). by apply (run_end_output cid cfg env); [apply Hst|..].
  - destruct (decide (filterPending (input_files m) completed = [])) as [Hp|Hp].
    + destruct (setting_early cid cfg d w m ids _ _ Hcfg Hpl Hcid Hdisk Hpr Hp) as (x & E & _).
      eexists. by apply concurrent_early.
    + destruct (Run_start_ok cid cfg d w m ids _ _ (any_user cid) (any_past w) Hcfg Hpl Hcid Hsaved Hdisk Hp) as (env & s & E & Hst & _).
      destruct (conc_completes no_faults env (conc_start s)) as (acts & x & Hx & Hover); [apply Hst|apply conc_start_sound|].
      eexists. by eapply concurrent_full.
Qed.

End Setting.

End Run.

(** C26: the workers and the receiving loop end and never block each other,
    whatever the service answers and whatever fails: from every prepared state no
    schedule of their calls goes on for ever, after every schedule the run is
    over or somebody can go on, and some schedule ends the run. *)
Theorem concurrent_calls_end {W} `{!AfsService W, !SnapshotNet W, !MapOrder} flt fresh elapsed cfg env
    (s : run_state (Deployment W)) :
  started cfg env s →
  (∀ f : nat → conc W, f 0 = conc_start s → ¬ ∀ n, ∃ act, conc_step flt fresh elapsed env act (f n) = Some (f (S n))) ∧
  (∀ acts x, conc_exec flt fresh elapsed env acts (conc_start s) = Some x →
     conc_over x ∨ ∃ act x', conc_step flt fresh elapsed env act x = Some x') ∧
  ∃ acts x, conc_exec flt fresh elapsed env acts (conc_start s) = Some x ∧ conc_over x.
Proof.
  intros Hst. split; [|split].
  - intros f Hf0 Hf. clear Hf0. generalize 0. intros n.
    assert (Hacc : ∀ x, Acc (conc_lt flt fresh elapsed env) x → ∀ n, x = f n → False).
    { induction 1 as [x _ IH]. intros k ->. by apply (IH (f (S k)) (Hf k) (S k)). }
    exact (Hacc (f n) (conc_wf _ _ _ _ _) n eq_refl).
  - intros acts x Hx. apply conc_progress; [apply Hst|]. revert Hx. generalize (conc_start_sound s). generalize (conc_start s).
    induction acts as [|act acts IH]; intros y Hy E; cbn [conc_exec] in E; [by injection E as <-|].
    apply bind_Some in E as (y1 & E1 & E). eapply IH; [|exact E]. by eapply conc_step_sound.
  - apply conc_completes; [apply Hst|apply conc_start_sound].
Qed.
