(* ===== verification/ConcurrentCrash.v ===== *)
(** * Coordinators that crash in a concurrent run

    A coordinator that dies leaves the world of some moment: of a moment before
    its goroutines start, of any point of the schedule of calls, its own and
    those of the workers that serve it, or of a moment of its end.  The workers
    may go on for a while, since the schedule may go on without a step of the
    receiving loop.  Whatever moment it is, it is a setting for the next
    coordinator (CoordCrash.v). *)

From S2P Require Import Prelude GoLib GoText GoPath Json JsonCodec MillerRabin Disk AfsProto Server Handler Cluster SyncSpec Cache Client AfsSpec AfsWorld SnapshotIO ClientStart Snapshot Calls Disturbed Shared ClientProps SnapshotProps Worker WorkerProps Coordinator CoordSpec CoordAfs CoordProps CoordRun Moments CoordCrash System SystemLaws Concurrent ConcurrentSpec ConcurrentInv ConcurrentEnd ConcurrentProps.

Section Dies.
  Context {W : Type} `{!AfsService W, !SnapshotNet W, !MapOrder}.
  Context (flt : OsFaults) (fresh : nat → string) (elapsed : nat → Z) (cfg : Config).

#[local] Instance dies_service : WorkerService (Deployment W) := deployment_worker_service flt fresh elapsed.

(** The worlds that the start of a coordinator goes through. *)
Definition start_moments (cid : string) (d : Disk) (w : Deployment W) : list (Deployment W) :=
  match Run_start flt cfg cid d (watch w) with
  | Ret (inl r) => moments r.2
  | Ret (inr (_, s)) => moments (rs_world s)
  | _ => []
  end.

(** Those of its end, when the schedule left [s]. *)
Definition finish_moments (env : run_env) (s : run_state (Deployment W)) : list (Deployment W) :=
  moments (Run_finish flt env (set_rworld (watch (rs_world s)) s)).2.

(** What a coordinator with this client id and disk may leave. *)
Inductive dies (cid : string) (d : Disk) (w : Deployment W) : Deployment W → Prop :=
  | dies_starting w' : w' ∈ start_moments cid d w → dies cid d w w'
  | dies_running env s acts x :
      Run_start flt cfg cid d w = Ret (inr (env, s)) → conc_exec flt fresh elapsed env acts (conc_start s) = Some x →
      dies cid d w (rs_world (cc_run x))
  | dies_finishing env s acts x w' :
      Run_start flt cfg cid d w = Ret (inr (env, s)) → conc_exec flt fresh elapsed env acts (conc_start s) = Some x →
      conc_over x → w' ∈ finish_moments env (cc_run x) → dies cid d w w'.

(** Coordinators that died, one after the other. *)
Inductive crashes : list (string * Disk) → Deployment W → Deployment W → Prop :=
  | crashes_none w : crashes [] w w
  | crashes_one cid d rest w w1 w' : dies cid d w w1 → crashes rest w1 w' → crashes ((cid, d) :: rest) w w'.

End Dies.

(** ** Moments computed by a scheduler *)

Section Drive.
  Context {W : Type} `{!AfsService W, !SnapshotNet W, !MapOrder}.
  Context (flt : OsFaults) (fresh : nat → string) (elapsed : nat → Z).

(** Always the first of [prefs] that can move; at most [n] steps. *)
Fixpoint drive (env : run_env) (prefs : list action) (n : nat) (x : conc W) : list (conc W) :=
  x :: match n with
       | 0 => []
       | S n =>
           match omap (λ act, conc_step flt fresh elapsed env act x) prefs with
           | x' :: _ => drive env prefs n x'
           | [] => []
           end
       end.

Lemma drive_exec env prefs n x x' : x' ∈ drive env prefs n x → ∃ acts, conc_exec flt fresh elapsed env acts x = Some x'.
Proof.
  revert x. induction n as [|n IH]; intros x [->|Hin]%elem_of_cons; [by exists []|by apply elem_of_nil in Hin|by exists []|].
  destruct (omap _ prefs) as [|x1 l] eqn:El; [by apply elem_of_nil in Hin|].
  assert (Hx1 : x1 ∈ omap (λ act, conc_step flt fresh elapsed env act x) prefs) by (rewrite El; by left).
  apply list_elem_of_omap in Hx1 as (act & _ & E1). destruct (IH x1 Hin) as (acts & E). exists (act :: acts).
  cbn [conc_exec]. by rewrite E1.
Qed.

Definition running_moments (cfg : Config) (cid : string) (d : Disk) (prefs : list action) (n : nat) (w : Deployment W)
    : list (Deployment W) :=
  match Run_start (WorkerService0 := deployment_worker_service flt fresh elapsed) flt cfg cid d w with
  | Ret (inr (env, s)) => rs_world ∘ cc_run <$> drive env prefs n (conc_start s)
  | _ => []
  end.

Lemma running_moments_die cfg cid d prefs n (w w' : Deployment W) :
  w' ∈ running_moments cfg cid d prefs n w → dies flt fresh elapsed cfg cid d w w'.
Proof.
  unfold running_moments. destruct (Run_start _ _ _ _ _) as [[r|[env s]]|msg|] eqn:Es; try by intros Hn%elem_of_nil.
  intros (x & -> & Hx)%list_elem_of_fmap. destruct (drive_exec _ _ _ _ _ Hx) as [acts E]. by eapply dies_running.
Qed.

End Drive.

Section Leave.
  Context {W : Type} `{!AfsService W, !AfsView W, !AfsLaws W, !AfsUnwatched W, !SnapshotNet W, !MapOrder}.
  Context (fresh : nat → string) (elapsed : nat → Z) `{!Inj (=) (=) fresh}.
  Context (a0 : string) (rest : list string) (addrs : gset string) (cdir : string → string) (wids : string → Prop).
  Context (servers_ok : Forall (λ a, ","%char ∉ s2b a) (a0 :: rest)).
  Context (reads : string → Prop) (text : string → bytes).
  Context (text_ok : ∀ f, reads f →
    ∃ lines, Scan 256 (text f) None = (lines, None) ∧ (Z.of_nat (length lines) < 2 ^ 63)%Z).
  Context (text_u64 : ∀ f p, p ∈ text_primes text f → is_u64 p) (clock_ok : ∀ w : Deployment W, is_nat63 (time_Unix w)).

#[local] Instance leave_service : WorkerService (Deployment W) := deployment_worker_service no_faults fresh elapsed.
#[local] Instance leave_laws : WorkerLaws (Deployment W) :=
  deployment_workers (W := W) fresh elapsed a0 rest addrs cdir wids servers_ok reads text text_ok.
#[local] Instance leave_serves : WorkerServes (Deployment W) (text_primes text) :=
  deployment_serves (W := W) fresh elapsed a0 rest addrs cdir wids servers_ok reads text text_ok.

  Context (cfg : Config) (m : nat) (Hcfg : config_ok cfg m) (Hne : concat (text_primes text <$> input_files m) ≠ []).

(** Every moment is a setting for the next coordinators [ids]. *)
Lemma dies_leaves cid d ids (w w' : Deployment W) completed collected :
  cid ∉ ids → ¬ wl_client cid → place cfg m (cid :: ids) w → progress (text_primes text) m w completed collected →
  cache_disk (cfg_CacheDir cfg) d → dies no_faults fresh elapsed cfg cid d w w' → resumable (text_primes text) cfg m ids w'.
Proof using All.
  intros Hcid Hcl Hpl Hpr Hdisk. set (content := run_content (text_primes text) cfg m). set (good := resumable (text_primes text) cfg m ids).
  assert (Hkeep : keeps_good fresh elapsed a0 rest addrs cdir wids servers_ok reads text text_ok cid content good).
  { split; [intros ps v v' He Hc; exact (resumable_effect (text_primes text) cfg m Hcfg ids cid ps v v' Hcid Hcl He Hc)
      |intros v v'; exact (resumable_workers (text_primes text) cfg m Hcfg ids v v')]. }
  assert (Hrun : ∀ env s acts x, Run_start no_faults cfg cid d w = Ret (inr (env, s)) →
    conc_exec no_faults fresh elapsed env acts (conc_start s) = Some x →
    started cfg env s ∧ env_ok cfg m env ∧ good (rs_world (cc_run x)) ∧
    (conc_over x → rs_primes (cc_run x) ≠ [] ∧
      client_ready cid (run_names cfg env) (Z.of_nat (length (re_workers env)) + 4) (rs_client (cc_run x)) (rs_world (cc_run x)))).
  { intros env s acts x Es Hx.
    destruct (concurrent_run_inv fresh elapsed a0 rest addrs cdir wids servers_ok reads text text_ok cid cfg d w m (cid :: ids)
      completed collected Hcfg Hpl ltac:(by left) Hdisk Hpr content good env s acts x Hkeep) as
      (Hst & _ & Henv & [num Hinv] & Hend); [| |exact Es|exact Hx|].
    - destruct Hpl as [H1 H2 H3 H4 H5 H6]. split; [|by exists completed, collected].
      split; [done|intros c Hc; apply H2; by right|done..].
    - intros Henv Hsub s0 snap Hc Hcov Hsn.
      assert (Hfine : snap_fine (text_primes text) m snap) by (eapply snapshot_of_fine; try done; by etrans).
      split_and!; apply run_content_snap; eauto.
    - split; [exact Hst|]. split; [exact Henv|]. split; [by apply (ci_good _ _ _ _ _ _ _ _ _ _ _ _ _ _ _ _ _ Hinv)|].
      intros Hover. destruct (Hend Hover) as [Hsame Hready]. split; [|exact Hready]. intros En. by apply Hne, (same_elements_nil _ _ Hsame). }
  intros Hdies. destruct Hdies as [w' Hin|env s acts x Es Hx|env s acts x w' Es Hx Hover Hin].
  - eapply (start_leaves (text_primes text) cfg m Hcfg Hne cid ids Hcid Hcl d w w'); [exact Hpl|exact Hpr|exact Hdisk|]. unfold start_moments in Hin.
    destruct (Run_start _ _ _ _ (watch w)) as [[r|[env s]]|msg|]; [exact Hin|exact Hin|by apply elem_of_nil in Hin..].
  - by apply (Hrun env s acts x).
  - destruct (Hrun env s acts x Es Hx) as (Hst & Henv & Hg & Hend). destruct (Hend Hover) as [Hps Hready].
    eapply (finish_leaves (text_primes text) cfg m Hcfg Hne cid ids Hcid Hcl env (set_rworld (watch (rs_world (cc_run x))) (cc_run x)));
      [apply Hst|exact Henv|exact eq_refl|exact Hg|exact Hready|exact Hps|exact Hin].
Qed.

(** Any number of crashes. *)
Lemma crashes_leave cs ids (w w' : Deployment W) completed collected :
  NoDup (cs.*1 ++ ids) → Forall (λ c, cache_disk (cfg_CacheDir cfg) c.2) cs →
  place cfg m (cs.*1 ++ ids) w → progress (text_primes text) m w completed collected →
  crashes no_faults fresh elapsed cfg cs w w' → resumable (text_primes text) cfg m ids w'.
Proof using All.
  intros Hnd Hds Hpl Hpr Hc. revert completed collected Hpl Hpr.
  induction Hc as [w|cid d tl w w1 w' Hdies _ IH]; intros completed collected Hpl Hpr; [split; [exact Hpl|by eexists _, _]|].
  apply Forall_cons in Hds as [Hd Hds]. cbn [fmap list_fmap fst app] in *. apply NoDup_cons in Hnd as [Hcid Hnd].
  assert (Hcl : ¬ wl_client cid) by (by apply (pl_unused _ _ _ _ Hpl cid); left).
  destruct (dies_leaves cid d _ w w1 completed collected Hcid Hcl Hpl Hpr Hd Hdies) as [Hpl1 (cs1 & ps1 & Hpr1)].
  by eapply IH.
Qed.

End Leave.
