(* ===== verification/FailoverWorker.v ===== *)
(** * A worker whose primary dies

    [ProcessFile] of a worker (connect, open and read its file, close it, stream
    the primes, save the snapshot) when the file service loses its primary at one
    of the calls: the steps of the handler before and after a backup took over. *)

From S2P Require Import Prelude GoLib GoText GoPath Json JsonCodec MillerRabin Disk AfsProto Server Handler HandlerSpec Service Cluster SyncSpec Election ElectionProps Cache Client AfsSpec AfsWorld SnapshotIO ClientStart ClientProps Replicas ReplicasSpec Failover Takeover Snapshot Calls Interrupt MidWrite MidRead SnapshotProps Worker WorkerProps Concurrent.

(** ** The part of the handler that makes no calls *)

Section Pure.
  Context `{!MapOrder}.

(** The handler's answer for the lines of a file, and its state then. *)
Record answered (req : ProcessFileRequest) (elapsed : Z) (lines : list bytes) (wk wk' : workerServer)
    (s : send_stream ProcessFileResponse) : Prop := {
  an_stream : ∃ bs, s = mkSend (map batch_msg bs ++ [count_msg (Z.of_nat (length (numbers lines))) elapsed]) None ∧
    concat bs = file_primes lines ∧ Forall (λ b, 0 < length b <= primeBatchSize) bs;
  an_inv : worker_inv wk';
  an_file : completedFiles wk' = completedFiles wk ++ [FilePath req];
  an_id : workerID wk' = workerID wk;
  an_primes p : p ∈ primesFound wk' ↔ p ∈ primesFound wk ∨ p ∈ file_primes lines;
}.

(** What is left once the file was scanned: save the snapshot. *)
Definition save_and_return (wk : workerServer) (s : send_stream ProcessFileResponse) (client : Client)
    : program (error * send_stream ProcessFileResponse * workerServer * Disk) :=
  Clock (λ now, '(_, client) ← SaveWorkerSnapshot_calls no_faults client (currentSnapshot wk now);
    Return (None, s, wk, cdisk client)).

Lemma scan_file_answers req elapsed wk h c1 c2 data lines :
  read_to_end no_faults (Z.to_nat 65536) h c1 = Ret (data, None, c2) → Scan 256 data None = (lines, None) →
  (Z.of_nat (length lines) < 2 ^ 63)%Z → worker_inv wk →
  ∃ st wk' s, scan_file no_faults h open_stream c1 = Ret (None, None, st, c2) ∧ answered req elapsed lines wk wk' s ∧
    ∀ client, finish_file_calls no_faults req elapsed None None st wk client = save_and_return wk' s client.
Proof.
  intros Er Es Hlen Hwk. destruct (scan_loop_open lines _ [] 0 scan_inv_start) as (st & E & Hi); [simpl; lia|].
  change (firsts [] _) with (file_primes lines) in Hi. cbn [app Nat.add] in Hi.
  destruct (send_rest_open st _ _ elapsed Hi) as (bs & Ebs & Hbs & Hall).
  destruct (record_file_spec (FilePath req) _ _ wk Hwk (si_seen _ _ _ Hi)) as (Hi' & Hcf & Hid & Hp).
  eexists st, (record_file (FilePath req) (fileSeenPrimes st) wk), _. split; [|split].
  - unfold scan_file. rewrite Er. go_step. rewrite Es. rewrite E. reflexivity.
  - split; [by exists bs|done..].
  - intros client. unfold finish_file_calls, save_and_return. by rewrite Ebs.
Qed.

End Pure.

(** ** The handler, a part at a time *)

Section Parts.
  Context `{!MapOrder}.

Abbreviation reply := (outcome (error * send_stream ProcessFileResponse * workerServer * Disk)).

Definition after_read (req : ProcessFileRequest) (elapsed : Z) (wk : workerServer) (handle : Z)
    : error * error * scan_state * Client → program reply := λ '(scanErr, err, st, client),
  '(_, client) ← client_Close_calls no_faults handle client;
  r ← finish_file_calls no_faults req elapsed scanErr err st wk client;
  Return (Ret r).

Definition after_open (req : ProcessFileRequest) (elapsed : Z) (wk : workerServer) : result Z * Client → program reply := λ '(r, client),
  match r with
  | Err err =>
      let '(e, s) := stream_Send open_stream (error_msg ("Open failed: " +:+ err)) in Return (Ret (e, s, wk, cdisk client))
  | Ok handle =>
      match scan_file no_faults handle open_stream client with
      | Ret x => after_read req elapsed wk handle x
      | Panic msg => Return (Panic msg)
      | NoFuel => Return NoFuel
      end
  end.

Definition after_connect (req : ProcessFileRequest) (elapsed : Z) (wk : workerServer) : result Client * Disk → program reply := λ '(r, d),
  match r with
  | Err err => let '(e, s) := stream_Send open_stream (error_msg ("AFS connect failed: " +:+ err)) in Return (Ret (e, s, wk, d))
  | Ok client => client_Open_calls no_faults (FilePath req) false client ≫= after_open req elapsed wk
  end.

(** The search for the primary, after the answers to [GetPrimary] and [Heartbeat]. *)
Definition after_beat (x : string) (rest : list string) (c : Client) (r : result HeartbeatResponse) : program (bool * Client) :=
  match r with Ok _ => Return (true, set_primary x c) | Err _ => connect_loop_calls rest c end.

Definition after_who (rest : list string) (c : Client) (r : result string) : program (bool * Client) :=
  match r with
  | Ok x =>
      if decide (x = "") then connect_loop_calls rest c
      else Dial x (λ ok, if ok then ask (CallHeartbeat x (mkHeartbeatRequest "client")) ≫= after_beat x rest c
                         else connect_loop_calls rest c)
  | Err _ => connect_loop_calls rest c
  end.

(** The client before it is connected. *)
Definition unconnected (addrs : list string) (dir cid : string) (d : Disk) : Client :=
  mkClient None (mkCache dir ∅ ∅ 0) cid 0 addrs "" d.

Lemma ProcessFile_parts cid elapsed req wk d :
  ProcessFile_calls no_faults cid elapsed req open_stream wk d =
    NewClient_calls no_faults (Split (AfsServers req) ",") (CacheDir req) cid d ≫= after_connect req elapsed wk.
Proof using Type. reflexivity. Qed.

(** The answer of [NewClient]. *)
Definition connected_client (d : Disk) (y : bool * Client) : result Client * Disk :=
  (if y.1 then Ok y.2 else Err "finding primary: could not find primary", d).

Lemma NewClient_parts x rest dir cid d d1 :
  os_MkdirAll no_faults d dir = (None, d1) →
  ∃ f, NewClient_calls no_faults (x :: rest) dir cid d = connect_loop_calls (x :: rest) (unconnected (x :: rest) dir cid d1) ≫= f ∧
    ∀ y, f y = Return (connected_client d1 y).
Proof using Type.
  intros Hd. unfold NewClient_calls, newCacheManager. rewrite Hd. eexists. split; [reflexivity|]. by intros [ok c].
Qed.

End Parts.
(** ** After the failover *)

(** The worker reads 64 KiB at a time. *)
Lemma buffer_pos : 0 < Z.to_nat 65536.
Proof. lia. Qed.

Section After.
  Context (fuel : nat) (Hfuel : 0 < fuel) (a b : string) `{!SnapshotNet Replicas, !MapOrder}.
  (* the call of the worker [wk], and the file it is asked for *)
  Context (req : ProcessFileRequest) (elapsed : Z) (wk : workerServer) (data : bytes) (lines : list bytes).
  Context (Hpl : plain (FilePath req)) (Hscan : Scan 256 data None = (lines, None)).
  Context (Hlen : (Z.of_nat (length lines) < 2 ^ 63)%Z) (Hwk : worker_inv wk).

#[local] Hint Extern 0 (AfsService Replicas) => exact (interrupt_afs fuel) : typeclass_instances.
#[local] Instance work_view : AfsView Replicas := replicas_view b (λ _ _, True).
#[local] Instance work_laws : AfsLaws Replicas := failover_laws fuel Hfuel b.

Abbreviation buf := (Z.to_nat 65536).
Abbreviation p := (FilePath req).
Abbreviation snap := (WorkerSnapshotFile (workerID wk)).
Abbreviation only := (λ q : string, q = snap).
(* the worker gets the whole file *)
Abbreviation all := (λ x : bytes, x = data).
Abbreviation settles := (settled a b only).

(** The client may open the file next. *)
Definition opens (c : Client) (r : Replicas) : Prop :=
  settles c r ∧ ∃ v, svc_file r p = Some (data, v) ∧ sees p data all c v.

Lemma open_settled c r :
  opens c r → local_free c p → seq_ok (reqSeq c + 1) →
  opened buf p all settles c (reqSeq c + 1) (run (client_Open_calls no_faults p false c) r).
Proof using Hfuel Hpl.
  intros [[[Hok|Hl] Hn] (v & Hf & Hco)] Hfree Hs.
  { exact (open_at_b fuel Hfuel a b buf buffer_pos p data Hpl all only v c r Hok Hn Hf Hfree Hco Hs). }
  destruct (lost_Open fuel Hfuel a b p false c r data v Hl Hpl Hf) as (r1 & E & (_ & _ & R3 & R4 & _) & Hok1).
  pose proof (eq_trans (proj2 (R4 p Hpl)) Hf) as Hf1.
  pose proof (open_at_b fuel Hfuel a b buf buffer_pos p data Hpl all only v (set_primary b c) r1 Hok1 (λ q Hq, R3 q (Hn q Hq)) Hf1 Hfree Hco Hs)
    as Hop. rewrite run_client_Open in Hop |- *.
  enough (∀ x, x = client_Open no_faults p false (set_primary b c) r1 → opened buf p all settles c (reqSeq c + 1) x) as Hx by exact (Hx _ E).
  by intros x ->.
Qed.

Lemma write_settled text c r :
  settles c r → local_free c snap → text ≠ [] → (reqSeq c + 3 < 2 ^ 63 - 1)%Z →
  written b snap text (run (writeToAFS_calls no_faults snap text c) r).
Proof using Hfuel.
  intros [[Hok|Hl] Hn] Hfree Hne Hs; [exact (write_at_b fuel Hfuel b snap text c r Hok (Hn _ eq_refl) Hfree Hne Hs)|].
  rewrite run_writeToAFS. destruct (lost_writes fuel Hfuel a b snap c r text Hl (Hn _ eq_refl) Hfree Hs Hne) as (v & c' & r' & E & _ & Hf).
  enough (∀ x, x = (None, c', r') → written b snap text x) as Hx by exact (Hx _ E).
  intros x ->. split; [done|]. by exists v.
Qed.

(** ** The rest of the handler *)

(** The snapshot at the new primary; it is empty when the answer that it was
    created got lost ([carried]: the dying server carried its last call out). *)
Definition saved (carried : bool) (wk' : workerServer) (r : Replicas) : Prop :=
  (∃ now v, file_at b snap r = Some (Marshal WorkerSnapshot_codec (currentSnapshot wk' now), v)) ∨
  carried = true ∧ file_at b snap r = Some ([], 1%Z).

Definition processed (carried : bool) (x : outcome (error * send_stream ProcessFileResponse * workerServer * Disk) * Replicas) : Prop :=
  ∃ s wk' d', x.1 = Ret (None, s, wk', d') ∧ answered req elapsed lines wk wk' s ∧ saved carried wk' x.2.

Abbreviation answers := (answered req elapsed lines wk).

(** The outcome of the save does not change the answer. *)
Lemma returned_processed carried wk' s now (x : error * Client * Replicas) :
  answers wk' s →
  written b snap (Marshal WorkerSnapshot_codec (currentSnapshot wk' now)) x ∨ carried = true ∧ refused b snap x →
  processed carried (Ret (None, s, wk', cdisk x.1.2), x.2).
Proof using Type.
  intros Ha Hx. exists s, wk', (cdisk x.1.2). split; [done|]. split; [done|].
  destruct Hx as [[_ [v Hv]]|[Hc [_ Hv]]]; [left; by exists now, v|by right].
Qed.

Lemma save_settled carried wk' s c r :
  answers wk' s → settles c r → local_free c snap → (reqSeq c + 3 < 2 ^ 63 - 1)%Z →
  processed carried (run (r ← save_and_return wk' s c; Return (Ret r)) r).
Proof using Hfuel.
  intros Han Hset Hfree Hs. rewrite run_bind. unfold save_and_return. cbn [run]. set (now := time_Unix r). rewrite run_bind.
  unfold SaveWorkerSnapshot_calls. cbn [ws_WorkerID currentSnapshot]. rewrite (an_id _ _ _ _ _ _ Han).
  pose proof (write_settled (Marshal WorkerSnapshot_codec (currentSnapshot wk' now)) c r Hset Hfree ltac:(done) Hs) as Hw.
  pose proof (returned_processed carried wk' s now _ Han (or_introl Hw)) as Hp.
  destruct (run (writeToAFS_calls _ _ _ _) r) as [[e c3] r3]. exact Hp.
Qed.

(** From the open file on. *)
Lemma opened_settled carried c0 s x :
  opened buf p all settles c0 s x → local_free c0 snap → (s + 3 < 2 ^ 63 - 1)%Z →
  processed carried (run (after_open req elapsed wk x.1) x.2).
Proof using Hfuel Hscan Hlen Hwk.
  intros (got & id & c1 & c2 & -> & Ex & Er & Hrd & Hal & Hs & Hset) Hfree Hlt. rewrite Ex.
  destruct (scan_file_answers req elapsed wk id c1 c2 data lines Er Hscan Hlen Hwk) as (st & wk' & out & E & Han & Hfin).
  cbn [after_open]. rewrite E. unfold after_read. rewrite run_bind.
  destruct (close_settled fuel Hfuel a b p only id c2 x.2 Hset Hrd) as (c3 & r3 & -> & Hal3 & Hs3 & Hset3).
  rewrite Hfin. apply save_settled; [done|done| |by rewrite Hs3, Hs].
  eapply alike_free; [|exact Hfree]. by etrans.
Qed.

(** From the connection on. *)
Lemma connected_settled carried c r y :
  opens c r → local_free c p → local_free c snap → reqSeq c = 0%Z → y.1 = Ok c →
  processed carried (run (after_connect req elapsed wk y) r).
Proof using Hfuel Hpl Hscan Hlen Hwk.
  intros Hop Hfp Hfs Hs. destruct y as [z d]. cbn [fst]. intros ->. cbn [after_connect]. rewrite run_bind.
  pose proof (open_settled c r Hop Hfp ltac:(rewrite Hs; split; lia)) as Hopd.
  pose proof (opened_settled carried _ _ _ Hopd Hfs ltac:(rewrite Hs; lia)) as Hp.
  destruct (run (client_Open_calls _ _ _ _) r) as [x r1]. exact Hp.
Qed.

(** The search for the primary. *)
Lemma connects_at_b addrs c v r :
  b ∈ addrs → b ∈ serverAddrs c → MidWrite.serves a b p (Some (data, v)) r → names_b b only r → sees p data all c v →
  seq_ok (reqSeq c) → disk_wf (cdisk c) →
  ∃ r', run (connect_loop_calls addrs c) r = ((true, set_primary b c), r') ∧ opens (set_primary b c) r'.
Proof using Hfuel Hpl.
  intros Hb Hin [_ Hl (w & Hw & Hr & Hu) Hf] Hn Hco Hs Hwf. assert (Hready : svc_ready r b) by (split; [done|by exists w]).
  destruct (connect_loop_leader fuel Hfuel b addrs c r Hb Hready Hl) as (r1 & E & A1 & A2 & A3 & A4 & _). exists r1. split.
  - rewrite run_connect_loop. exact E.
  - split; [split; [left|by intros q Hq; apply A3, Hn]|].
    + split; [exists b; split; [done|by apply A1]|apply A2; by exists w|exact Hs|exact Hwf|exact I|exact (λ _ _, I)].
    + exists v. split; [exact (eq_trans (proj2 (A4 p Hpl)) Hf)|exact Hco].
Qed.

End After.

(** ** While the primary serves, and until it dies *)

Section Phases.
  Context (fuel : nat) (Hfuel : 0 < fuel) (a b : string) (alive : gset string) (outs : string → Prop) (ins : gmap string bytes).
  Context (Ha : a ∉ alive) (Hb : b ∈ alive) `{!SnapshotNet Replicas, !MapOrder}.
  Context (req : ProcessFileRequest) (elapsed : Z) (wk : workerServer) (data : bytes) (lines : list bytes).
  Context (Hpl : plain (FilePath req)) (Hscan : Scan 256 data None = (lines, None)).
  Context (Hlen : (Z.of_nat (length lines) < 2 ^ 63)%Z) (Hwk : worker_inv wk).

#[local] Hint Extern 0 (AfsService Replicas) => exact (interrupt_afs fuel) : typeclass_instances.
#[local] Instance duty_view : AfsView Replicas := deployed_view a alive outs ins.
#[local] Instance duty_laws : AfsLaws Replicas := deployed_laws a alive outs ins fuel Hfuel Ha.

Abbreviation buf := (Z.to_nat 65536).
Abbreviation p := (FilePath req).
Abbreviation snap := (WorkerSnapshotFile (workerID wk)).
Abbreviation only := (λ q : string, q = snap).
(* the worker gets the whole file *)
Abbreviation all := (λ x : bytes, x = data).
Abbreviation works := (at_a a alive outs ins only).
Abbreviation result_ok := (processed b req elapsed wk lines).
Context (Hout : outs snap) (Hsnap : plain snap).
Context (Hno : Contains ("file already exists: " +:+ snap) "not primary" = false).

Lemma only_snap q : q = snap → outs q ∧ plain q.
Proof using Hout Hsnap. by intros ->. Qed.

Lemma in_save n carried wk' s c r :
  answered req elapsed lines wk wk' s → works c r → b ∈ serverAddrs c → local_free c snap → (reqSeq c + 3 < 2 ^ 63 - 1)%Z →
  result_ok carried (failover_run fuel a b n carried (r ← save_and_return wk' s c; Return (Ret r)) r).
Proof using Hfuel Ha Hb Hout Hsnap Hno.
  intros Han [Hok Hn] Hin Hfree Hs. unfold save_and_return.
  change (failover_run fuel a b n carried (Clock ?k ≫= ?f) r) with (failover_run fuel a b n carried (k (time_Unix r) ≫= f) r).
  set (now := time_Unix r).
  rewrite (failover_run_map fuel a b n carried _ _ Ret) by done.
  rewrite (failover_run_map fuel a b n carried _ _ (λ y : error * Client, (None, s, wk', cdisk y.2))) by (by intros [e c3]).
  unfold SaveWorkerSnapshot_calls. cbn [ws_WorkerID currentSnapshot]. rewrite (an_id _ _ _ _ _ _ Han).
  pose proof (in_delete fuel Hfuel a b alive outs ins Ha Hb n carried snap (Marshal WorkerSnapshot_codec (currentSnapshot wk' now)) c r
    Hout Hsnap Hok Hin (Hn _ eq_refl) Hfree ltac:(done) Hs Hno) as Hw. cbv zeta in Hw.
  pose proof (λ x, returned_processed b req elapsed wk lines carried wk' s now x Han) as Hp.
  destruct (failover_run _ _ _ _ _ (writeToAFS_calls _ _ _ _) r) as [[e c3] r3].
  apply (Hp (e, c3, r3)). case_decide as Hc; [right; by split; [apply Hc|]|by left].
Qed.

(** From the open file on. *)
Lemma in_opened n carried c0 s x :
  opened buf p all works c0 s x → b ∈ serverAddrs c0 → local_free c0 snap → (s + 3 < 2 ^ 63 - 1)%Z →
  result_ok carried (failover_run fuel a b n carried (after_open req elapsed wk x.1) x.2).
Proof using Hfuel Ha Hb Hscan Hlen Hwk Hout Hsnap Hno.
  intros (got & id & c1 & c2 & -> & Ex & Er & Hrd & Hal & Hs & Hat) Hin Hfree Hlt. rewrite Ex.
  destruct (scan_file_answers req elapsed wk id c1 c2 data lines Er Hscan Hlen Hwk) as (st & wk' & out & E & Han & Hfin).
  rewrite <- (alike_addrs _ _ Hal) in Hin. pose proof (λ c3, alike_free c0 c3 snap) as Hkeep.
  cbn [after_open]. rewrite E. unfold after_read. rewrite failover_run_bind. set (m := n - _). destruct (n <? _).
  - destruct (in_close_clean fuel Hfuel a b alive outs ins Ha Hb p only only_snap n carried id c2 x.2 Hat Hin Hrd)
      as (c3 & r3 & -> & Hal3 & Hs3 & Hset3).
    rewrite Hfin. apply (save_settled fuel Hfuel a b); [done|done| |by rewrite Hs3, Hs]. apply Hkeep; [by etrans|done].
  - destruct (close_runs fuel Hfuel a alive outs ins Ha p only id c2 x.2 Hat Hrd) as (c3 & r3 & -> & Hal3 & Hs3 & Hat3).
    rewrite Hfin. apply in_save; [done|done|by rewrite (alike_addrs _ _ Hal3)| |by rewrite Hs3, Hs]. apply Hkeep; [by etrans|done].
Qed.

Abbreviation reads := (reader a b alive outs ins p data all only).

(** From the connection on. *)
Lemma in_connected n carried c r y :
  reads c r → local_free c snap → reqSeq c = 0%Z → y.1 = Ok c →
  result_ok carried (failover_run fuel a b n carried (after_connect req elapsed wk y) r).
Proof using Hfuel Ha Hb Hpl Hscan Hlen Hwk Hout Hsnap Hno.
  intros Hrd Hfree Hs. destruct y as [z d]. cbn [fst]. intros ->. cbn [after_connect]. rewrite failover_run_bind.
  set (m := n - _). destruct (n <? _).
  - pose proof (in_open fuel Hfuel a b alive outs ins Ha Hb buf buffer_pos p data Hpl all eq_refl only only_snap n carried c r Hrd
      ltac:(rewrite Hs; split; lia)) as Hop.
    pose proof (opened_settled fuel Hfuel a b req elapsed wk data lines Hscan Hlen Hwk carried _ _ _ Hop Hfree ltac:(rewrite Hs; lia)) as Hp.
    destruct (failover_run _ _ _ _ _ _ r) as [x r1]. exact Hp.
  - pose proof (open_runs fuel Hfuel a b alive outs ins Ha buf buffer_pos p data Hpl all only c r Hrd ltac:(rewrite Hs; split; lia)) as Hop.
    pose proof (in_opened m carried c _ _ Hop (rd_addrs _ _ _ _ _ _ _ _ _ _ _ Hrd) Hfree ltac:(rewrite Hs; lia)) as Hp.
    destruct (run (client_Open_calls _ _ _ _) r) as [x r1]. exact Hp.
Qed.

(** The search for the primary. *)
Abbreviation readable_by := (readable a alive outs ins p data all only).
Abbreviation succeeds := (succession fuel a b).
Abbreviation opens_next := (opens a b req wk data).

Lemma find_calls c r :
  client_ok (set_primary a c) r → readable_by c r →
  a ≠ "" ∧ ∃ r1 r2 resp, svc_GetPrimary a r = (Ok a, r1) ∧ svc_Heartbeat a (mkHeartbeatRequest "client") r1 = (Ok resp, r2) ∧
    client_ok (set_primary a c) r2 ∧ readable_by c r1 ∧ readable_by c r2.
Proof using Hfuel Ha Hpl.
  intros Hok Hre. destruct (client_ok_step a alive outs ins _ r Hok) as (_ & Hr & _).
  destruct (law_connect r a Hr) as (Hne & _ & (r1 & Hg & Hk1) & _).
  destruct (law_connect r1 a (proj1 Hk1 a Hr)) as (_ & _ & _ & resp & r2 & Hh & Hk2).
  pose proof (readable_reads a alive outs ins p data Hpl all only c r r1 Hre Hk1) as Hre1. split; [exact Hne|].
  exists r1, r2, resp. split; [exact Hg|]. split; [exact Hh|]. split; [|split; [exact Hre1|]].
  - by do 2 (eapply client_ok_reads; [eassumption|]).
  - exact (readable_reads a alive outs ins p data Hpl all only c r1 r2 Hre1 Hk2).
Qed.

(** A server it knows names the new primary. *)
Lemma finds_b addrs c r :
  b ∈ addrs → b ∈ serverAddrs c → seq_ok (reqSeq c) → disk_wf (cdisk c) → readable_by c r →
  ∃ r', run (connect_loop_calls addrs c) (succeeds r) = ((true, set_primary b c), r') ∧ opens_next (set_primary b c) r'.
Proof using Hfuel Ha Hb Hpl Hout Hsnap.
  intros Hin Hin' Hs Hwf Hre.
  destruct (readable_serves fuel a b alive outs ins Ha Hb p data Hpl all only only_snap c r Hre) as (v & S & Hco & Hn).
  exact (connects_at_b fuel Hfuel a b req wk data Hpl addrs c v _ Hin Hin' S Hn Hco Hs Hwf).
Qed.

Lemma in_find n carried rest c r :
  client_ok (set_primary a c) r → readable_by c r → b ∈ rest → b ∈ serverAddrs c →
  ∃ c' r', failover_run fuel a b n carried (connect_loop_calls (a :: rest) c) r = ((true, c'), r') ∧
    alike c c' ∧ reqSeq c' = reqSeq c ∧ opens_next c' r'.
Proof using Hfuel Ha Hb Hpl Hout Hsnap.
  intros Hok Hre Hrest Hin. destruct (find_calls c r Hok Hre) as (Hne & r1 & r2 & resp & E1 & E2 & Hok2 & Hre1 & Hre2).
  assert (Hfind : ∀ addrs r0 q, b ∈ addrs → readable_by c r0 → q = r0 → ∃ c' r',
    run (connect_loop_calls addrs c) (succeeds q) = ((true, c'), r') ∧ alike c c' ∧ reqSeq c' = reqSeq c ∧ opens_next c' r').
  { intros addrs r0 q Hx Hr0 ->. destruct (finds_b addrs c r0 Hx Hin (ok_seq _ _ Hok) (ok_cdisk _ _ Hok) Hr0) as (r' & E & Hop).
    exists (set_primary b c), r'. by split; [|split; [apply alike_primary|]]. }
  change (failover_run fuel a b n carried (connect_loop_calls (a :: rest) c) r) with
    (failover_run fuel a b n carried (ask (CallGetPrimary a) ≫= after_who rest c) r).
  destruct n as [|n].
  { destruct carried; [exact (Hfind rest r1 _ Hrest Hre1 (f_equal snd E1))|].
    exact (Hfind (a :: rest) r r ltac:(by right) Hre eq_refl). }
  change (failover_run fuel a b (S n) carried (ask (CallGetPrimary a) ≫= after_who rest c) r) with
    (let '(x, r) := svc_GetPrimary a r in failover_run fuel a b n carried (after_who rest c x) r).
  rewrite E1. cbn [after_who]. rewrite decide_False by done. set (hb := CallHeartbeat a (mkHeartbeatRequest "client")).
  change (∃ c' r', failover_run fuel a b n carried (ask hb ≫= after_beat a rest c) r1 = ((true, c'), r') ∧
    alike c c' ∧ reqSeq c' = reqSeq c ∧ opens_next c' r').
  destruct n as [|n].
  { destruct carried; [exact (Hfind rest r2 _ Hrest Hre2 (f_equal snd E2))|].
    pose proof (readable_serves fuel a b alive outs ins Ha Hb p data Hpl all only only_snap c r1 Hre1) as (v & S & _).
    change (failover_run fuel a b 0 false (ask hb ≫= after_beat a rest c) r1) with
      (let '(x, q) := svc_Heartbeat a (mkHeartbeatRequest "client") (succeeds r1) in run (after_beat a rest c x) q).
    assert (E : svc_Heartbeat a (mkHeartbeatRequest "client") (succeeds r1) = (Err unavailable, succeeds r1))
      by exact (dead_call a _ _ (sv_dead _ _ _ _ _ S)).
    rewrite E. exact (Hfind rest r1 r1 Hrest Hre1 eq_refl). }
  change (failover_run fuel a b (S n) carried (ask hb ≫= after_beat a rest c) r1) with
    (let '(x, q) := svc_Heartbeat a (mkHeartbeatRequest "client") r1 in failover_run fuel a b n carried (after_beat a rest c x) q).
  rewrite E2. exists (set_primary a c), (succeeds r2). split; [done|]. split; [apply alike_primary|]. split; [done|].
  destruct (readable_serves fuel a b alive outs ins Ha Hb p data Hpl all only only_snap c r2 Hre2) as (v & S & Hco & _). split.
  - apply (leave fuel a b alive outs ins Ha Hb only only_snap); [|done]. split; [done|apply Hre2].
  - exists v. split; [apply S|exact Hco].
Qed.

(** The handler from its start. *)
Lemma in_handler n carried cid d d1 r rest :
  Split (AfsServers req) "," = a :: rest → b ∈ rest → os_MkdirAll no_faults d (CacheDir req) = (None, d1) → disk_wf d1 →
  let client := fresh_client a rest (CacheDir req) cid d1 in
  client_ok client r → readable_by client r → local_free client p → local_free client snap →
  result_ok carried (failover_run fuel a b n carried (ProcessFile_calls no_faults cid elapsed req open_stream wk d) r).
Proof using Hfuel Ha Hb Hpl Hscan Hlen Hwk Hout Hsnap Hno.
  intros Hsp Hin Hd Hwf client Hok Hre Hfp Hfs. rewrite ProcessFile_parts, Hsp, failover_run_bind.
  set (c := unconnected (a :: rest) (CacheDir req) cid d1).
  assert (Hokc : client_ok (set_primary a c) r) by exact Hok. assert (Hrec : readable_by c r) by (destruct Hre; by split).
  assert (Hinc : b ∈ serverAddrs c) by by right.
  set (m := n - _).
  destruct (NewClient_parts a rest (CacheDir req) cid d d1 Hd) as (f & -> & Hf).
  destruct (n <? _).
  - rewrite (failover_run_map fuel a b n carried _ f (connected_client d1) r Hf).
    destruct (in_find n carried rest c r Hokc Hrec Hin Hinc) as (c' & r' & E & Hal & Hs & Hop). fold c. rewrite E.
    apply (connected_settled fuel Hfuel a b req elapsed wk data lines Hpl Hscan Hlen Hwk carried c'); [done|..|done|done].
    + by apply (alike_free c).
    + by apply (alike_free c).
  - rewrite run_bind. fold c. destruct (find_calls c r Hokc Hrec) as (Hne & r1 & r2 & resp & E1 & E2 & Hok2 & _ & Hre2).
    assert (E : run (connect_loop_calls (a :: rest) c) r = ((true, client), r2)).
    { rewrite run_connect_loop. cbn [connect_loop]. change (svc_dial (W := Replicas) a) with true. cbv beta iota.
      rewrite E1, decide_False by done. change (svc_dial (W := Replicas) a) with true. cbv beta iota. by rewrite E2. }
    rewrite E, Hf. cbn [run]. apply (in_connected m carried client); [|done..].
    split; [exact Hok2|exact Hinc|destruct Hre2; by split|exact Hfp].
Qed.

End Phases.
