(* ===== verification/FailoverProps.v ===== *)
(** * A client survives the death of the primary

    The whole failover: the primary dies after a client wrote a file, or anywhere
    while it does, a backup elects itself (Election.v), and clients that were
    connected to the dead server go on with the new one (Failover.v); the same
    for a read, and for a worker that processes a file (FailoverWorker.v). *)

From S2P Require Import Prelude GoLib GoText GoPath Disk AfsProto Server Handler HandlerSpec Service Cluster SyncSpec Election ElectionProps Cache Client AfsSpec AfsWorld Json JsonCodec SnapshotIO ClientStart ClientProps Replicas ReplicasSpec Failover Takeover Snapshot Calls Interrupt MidWrite MidRead SnapshotProps Worker WorkerProps Concurrent FailoverWorker.

(** C4: a client writes a file at the primary, where it then has version 2; the
    primary dies and a backup runs its election alone: it becomes primary without
    announcing it to anybody; then the writer reads what it wrote from the new
    primary, and can overwrite it.  So does every other client that was connected
    to the dead server, knows the address of the new primary and holds no copy of
    the file or one of another version; one that holds a copy under version 2
    reads that copy instead, which is an old file if it was cached before the
    write (rewritten_file_reads_stale in ClientProps.v). *)
Theorem client_survives_failover fuel a b alive outs ins c r p data data' :
  0 < fuel → a ∉ alive → b ∈ alive → outs p → plain p →
  deployed a alive outs ins r → attached a c p r → b ∈ serverAddrs c → local_free c p →
  (reqSeq c + 6 < 2 ^ 63 - 1)%Z → data ≠ [] → data' ≠ [] →
  let svc : AfsService Replicas := replicas_service fuel in
  ∃ c' r' r2, writeToAFS no_faults p data c r = (None, c', r') ∧ file_at a p r' = Some (data, 2%Z) ∧
    election_at fuel b (dies_at a r') = ([], r2) ∧
    (∃ c3 r3, readFromAFS no_faults p c' r2 = Ret (Ok data, c3, r3)) ∧
    (∀ c2, grpcConn c2 = Some a → b ∈ serverAddrs c2 → seq_ok (reqSeq c2) → seq_ok (reqSeq c2 + 1) →
       disk_wf (cdisk c2) → local_free c2 p →
       (isCached p (cache c2) ≠ Some 2%Z → ∃ c3 r3, readFromAFS no_faults p c2 r2 = Ret (Ok data, c3, r3)) ∧
       ∀ x, holds_copy c2 p x 2 → x ≠ [] → ∃ c3 r3, readFromAFS no_faults p c2 r2 = Ret (Ok x, c3, r3)) ∧
    ∃ v c3 r3, writeToAFS no_faults p data' c' r2 = (None, c3, r3) ∧ file_at b p r3 = Some (data', v).
Proof.
  intros Hfuel Ha Hb Hp Hpl Hd Hatt Hbc Hfree Hseq Hne Hne' svc.
  destruct (write_deployed a alive outs ins fuel p data c r) as (c' & r' & E & Hd' & Hatt' & Hsame & Hq & Hco & Hf); [done..|lia|done|].
  destruct (takeover a alive outs ins fuel b r' Ha Hb Hd') as (r2 & Ee & Hdead & Hl & Hat & Hfiles & _).
  destruct Hatt' as (Hc' & Hwf' & Hs' & (w & Hw & _ & Hn)).
  destruct (Hfiles p Hp Hpl) as [Hn2 Hf2]; [by exists w|]. rewrite Hf in Hf2.
  assert (Hfree' : local_free c' p) by by eapply same_client_free. assert (Hs6 : seq_ok (reqSeq c')) by (split; lia).
  assert (Hlost : lost a b c' r2) by (destruct Hsame as ([_ Hsa] & _); apply orphan_lost; [done..|by rewrite Hsa|done|done]).
  exists c', r', r2. split; [exact E|]. split; [exact Hf|]. split; [exact Ee|]. split; [|split].
  - destruct (lost_reads fuel Hfuel a b p c' r2 data 2 data Hlost Hpl Hf2 Hfree' (coherent_sees _ _ _ _ (λ _ _ _, Hco))) as (c3 & r3 & Er & _);
      [split; lia|done|]. by exists c3, r3.
  - intros c2 H1 H2 H3 H4 H5 H6. assert (Hlost2 : lost a b c2 r2) by by apply orphan_lost.
    assert (Hread : ∀ x, reader_sees c2 p data 2 = Some x → x ≠ [] → ∃ c3 r3, readFromAFS no_faults p c2 r2 = Ret (Ok x, c3, r3)).
    { intros x Hx Hx0. destruct (lost_reads fuel Hfuel a b p c2 r2 data 2 x Hlost2 Hpl Hf2 H6 Hx H4 Hx0) as (c3 & r3 & Er & _).
      by exists c3, r3. }
    split; [intros Hv; apply Hread; [unfold reader_sees; by rewrite decide_False|done]|].
    intros x Hx. by apply Hread, holds_copy_sees.
  - destruct (lost_writes fuel Hfuel a b p c' r2 data' Hlost Hn2 Hfree') as (v' & c3 & r3 & Ew & _ & Hf3); [lia|done|].
    by exists v', c3, r3.
Qed.

(** C6: a client writes a file that is not empty (delete, create, store, close)
    and the primary dies at any of its calls: before the call, or after it carried
    the call out and before the answer. A backup takes over, the client repeats
    the call there, and the write succeeds with the complete content at the new
    primary, except when the answer to [CreateFile] was lost: the new primary has
    the file but not the old one's deduplication table, refuses the repeated call,
    and the write fails and leaves an empty file. (The refusal names the file; a
    name that contains "not primary" would make the client try again.) *)
Theorem write_survives_primary_death `{!SnapshotNet Replicas} fuel a b alive outs ins c r p data n carried :
  0 < fuel → a ∉ alive → b ∈ alive → outs p → plain p →
  deployed a alive outs ins r → attached a c p r → b ∈ serverAddrs c → local_free c p →
  (reqSeq c + 3 < 2 ^ 63 - 1)%Z → data ≠ [] → Contains ("file already exists: " +:+ p) "not primary" = false →
  let x := failover_run fuel a b n carried (writeToAFS_calls no_faults p data c) r in
  if decide (n = 1 ∧ carried = true) then refused b p x else written b p data x.
Proof.
  intros Hfuel Ha Hb Hp Hpl Hd Hatt Hin Hfree Hs Hne Hno.
  destruct (attached_ok a alive outs ins c p r Hd Hatt) as [Hok Hn]; [split; [apply Hatt|lia]|].
  by apply (in_delete fuel Hfuel a b alive outs ins Ha Hb n carried p data c r).
Qed.

(** C7: a client reads a file to the end, an output file or an input file that
    every server has, which is not empty, and the primary dies at any of its calls
    (open, the question whether the cached copy is valid, the fetch, close),
    before the call or before its answer: a backup takes over, and the read
    returns the whole file, or the whole copy that the client held, if the server
    confirms it: for an output file that is a copy under the version of the file.
    (A copy in the cache is a file of the local disk, and not empty.) *)
Theorem read_survives_primary_death `{!SnapshotNet Replicas} fuel a b alive outs ins c r p data v n carried :
  0 < fuel → a ∉ alive → b ∈ alive → plain p →
  deployed a alive outs ins r → connected a c r → b ∈ serverAddrs c → local_free c p →
  file_at a p r = Some (data, v) →
  (outs p ∧ at_primary a (λ w, svc_name w p) r) ∨ ins !! p = Some data →
  (∀ k, isCached p (cache c) = Some k → ∃ x, holds_copy c p x k ∧ x ≠ []) →
  (reqSeq c + 2 < 2 ^ 63 - 1)%Z → data ≠ [] →
  ∃ x c' r', failover_run fuel a b n carried (readFromAFS_calls no_faults p c) r = (Ret (Ok x, c'), r') ∧
    (x = data ∨ ∃ k, holds_copy c p x k ∧ (k = v ∨ ins !! p = Some data)).
Proof.
  intros Hfuel Ha Hb Hpl Hd Hconn Hin Hfree Hf Hkind Hcopy Hs Hne. pose proof Hconn as (_ & _ & Hs0 & _).
  pose proof (connected_ok a alive outs ins c r Hd Hconn ltac:(split; lia)) as Hok. apply deployed_past in Hd as [Hr Hp].
  set (can x := x = data ∨ ∃ k, holds_copy c p x k ∧ (k = v ∨ ins !! p = Some data)).
  assert (Hsees : ∀ k, k = v ∨ ins !! p = Some data → sees p data can c k).
  { intros k Hk. unfold sees, reader_sees. case_decide as Hv; [|exists data; split; [done|by left]].
    destruct (Hcopy k Hv) as (x & [_ Hx] & _). exists x. split; [exact Hx|]. right. by exists k. }
  destruct (in_read fuel Hfuel a b alive outs ins Ha Hb (Z.to_nat 32768) ltac:(lia) p data Hpl can ltac:(by left) (λ _, False) ltac:(done)
    carried c r n eq_refl) as (x & c' & E & Hx); [|split; lia| |].
  - split; [done|done| |done]. split; [done|done|exists v; split; [done|apply Hsees; by left]| |done].
    destruct Hkind as [Hkind|Hkind]; [by left|right]. split; [done|]. intros k. apply Hsees. by right.
  - intros x [->|(k & [Hk Hx] & _)]; [done|]. destruct (Hcopy k Hk) as (y & [_ Hy] & Hy0). rewrite Hx in Hy. by injection Hy as ->.
  - exists x, c'. destruct (failover_run _ _ _ _ _ _ _) as [y r']. exists r'. cbn [fst] in E. subst y. by split.
Qed.

(** C5: a worker is asked for an input file that every server has, and the
    primary dies at any of the calls that the worker makes (while it looks for
    the primary, opens, reads and closes the file, or saves its snapshot), before
    the call or before its answer: a backup takes over, and the worker streams
    exactly the primes of the file, records them and answers without an error.
    The snapshot is complete at the new primary, or it is empty, when the dead
    server had carried its last call out. *)
Theorem worker_survives_primary_death `{!SnapshotNet Replicas, !MapOrder} fuel a b alive outs ins cid elapsed req wk d d1 r
    rest data lines n carried :
  let client := fresh_client a rest (CacheDir req) cid d1 in
  let snap := WorkerSnapshotFile (workerID wk) in
  0 < fuel → a ∉ alive → b ∈ alive → deployed a alive outs ins r → at_primary a (λ w, svc_unused w cid 0) r →
  Split (AfsServers req) "," = a :: rest → b ∈ rest → os_MkdirAll no_faults d (CacheDir req) = (None, d1) → disk_wf d1 →
  plain (FilePath req) → ins !! FilePath req = Some data → local_free client (FilePath req) →
  outs snap → plain snap → at_primary a (λ w, svc_name w snap) r → local_free client snap →
  Contains ("file already exists: " +:+ snap) "not primary" = false →
  Scan 256 data None = (lines, None) → (Z.of_nat (length lines) < 2 ^ 63)%Z → worker_inv wk →
  ∃ bs wk' d' r',
    failover_run fuel a b n carried (ProcessFile_calls no_faults cid elapsed req open_stream wk d) r =
      (Ret (None, mkSend (map batch_msg bs ++ [count_msg (Z.of_nat (length (numbers lines))) elapsed]) None, wk', d'), r') ∧
    concat bs = file_primes lines ∧ worker_inv wk' ∧ completedFiles wk' = completedFiles wk ++ [FilePath req] ∧
    (∀ p, p ∈ primesFound wk' ↔ p ∈ primesFound wk ∨ p ∈ file_primes lines) ∧
    ((∃ now v, file_at b snap r' = Some (Marshal WorkerSnapshot_codec (currentSnapshot wk' now), v)) ∨
     carried = true ∧ file_at b snap r' = Some ([], 1%Z)).
Proof.
  intros client snap Hfuel Ha Hb Hd Hu Hsp Hin Hmk Hwf Hpl Hins Hfp Hout Hsnap Hname Hfs Hno Hscan Hlen Hwk.
  destruct (deployed_input a alive outs ins _ data r Hd Hins) as [v Hf].
  assert (Hconn : connected a client r) by by split_and!.
  pose proof (connected_ok a alive outs ins client r Hd Hconn ltac:(split; simpl; lia)) as Hok. apply deployed_past in Hd as [Hr Hp].
  destruct (in_handler fuel Hfuel a b alive outs ins Ha Hb req elapsed wk data lines Hpl Hscan Hlen Hwk Hout Hsnap Hno
    n carried cid d d1 r rest Hsp Hin Hmk Hwf Hok) as (s & wk' & d' & E & [(bs & -> & Hbs & _) Hi Hc _ Hpr] & Hsv); [|done..|].
  { assert (Hsees : ∀ k, sees (FilePath req) data (λ x, x = data) client k)
      by (intros k; exists data; split; [by apply coherent_sees, fresh_client_coherent|done]).
    split; [done|done|by exists v|by right|by intros q ->]. }
  destruct (failover_run _ _ _ _ _ _ _) as [x r']. cbn [fst] in E. subst x. by exists bs, wk', d', r'.
Qed.

(** ** Witness: a primary [s1:1] and two backups, which have an input file *)

Definition triple_outs (p : string) : Prop := p = snap_name ∨ p = "snapshot_w1.json".
Definition triple_ins : gmap string bytes := {["input_dataset_001.txt" := demo_text]}.

Definition triple (id addr : string) (ps : list peerClient) (prim : bool) : Node :=
  mkNode no_faults None (mkHandler "in" "out" ∅ ∅ 0 ∅ id addr prim "s1:1" ps 0 false input_disk).
Definition triple_s1 : Node := triple "s1" "s1:1" [mkPeer "s2" "s2:1" 0; mkPeer "s3" "s3:1" 0] true.
Definition triple_s2 : Node := triple "s2" "s2:1" [mkPeer "s1" "s1:1" 0; mkPeer "s3" "s3:1" 0] false.
Definition triple_s3 : Node := triple "s3" "s3:1" [mkPeer "s1" "s1:1" 0; mkPeer "s2" "s2:1" 0] false.
Definition triple_net : gmap string Node := <["s2:1" := triple_s2]> {["s3:1" := triple_s3]}.
Definition triple_up : Replicas := mkReplicas (<["s1:1" := triple_s1]> triple_net) 0.
Definition triple_alive : gset string := {["s2:1"; "s3:1"]}.
Definition triple_client (id dir : string) : Client :=
  mkClient (Some "s1:1") (mkCache dir ∅ ∅ 0) id 0 ["s1:1"; "s2:1"; "s3:1"] "s1:1" empty_disk.

Lemma triple_srv_ok id addr ps prim : srv_ok (node_srv (triple id addr ps prim)) ∧
  apart (node_srv (triple id addr ps prim)) ∧ inputs_ok (node_srv (triple id addr ps prim)).
Proof. destruct input_world_ready as (_ & _ & _ & _ & H1 & H2 & H3 & _). destruct H1 as [Hwf Hd]. split; [split; [exact Hwf|exact Hd]|split; [exact H2|exact H3]]. Qed.

Lemma triple_input m data :
  triple_ins !! m = Some data → safe_name m ∧ read_file input_disk (PathJoin "in" m) = Some data.
Proof. unfold triple_ins. intros [<- <-]%lookup_singleton_Some. split; [decide_now|vm_compute; reflexivity]. Qed.

Lemma triple_out p : triple_outs p → safe_name p ∧ names input_disk !! PathJoin "in" p = None.
Proof. intros [->| ->]; (split; [decide_now|vm_compute; reflexivity]). Qed.

Lemma triple_standby id addr ps :
  addr ≠ "" → (∀ y, y ∈ triple_alive → y ≠ addr → y ∈ peer_addr <$> ps) →
  standby "s1:1" triple_alive triple_outs triple_ins addr (triple id addr ps false).
Proof.
  intros Hne Hps. destruct (triple_srv_ok id addr ps false) as (H1 & H2 & H3).
  split; [done|exact H1|exact H2|exact H3|done|done|by split; [|right]|exact Hps|exact triple_out|exact triple_input].
Qed.

Lemma triple_cluster : cluster_ok (node_srv triple_s1) triple_net.
Proof.
  destruct (triple_srv_ok "s1" "s1:1" [] true) as ([Hwf Hdir] & _).
  split; [exact Hwf|]. split; [decide_now|]. intros p nd _ Hnd.
  assert (Hnode : ∃ id addr ps, nd = triple id addr ps false).
  { unfold triple_net in Hnd. apply lookup_insert_Some in Hnd as [[_ <-]|[_ [_ <-]%lookup_singleton_Some]].
    - by exists "s2", "s2:1", [mkPeer "s1" "s1:1" 0; mkPeer "s3" "s3:1" 0].
    - by exists "s3", "s3:1", [mkPeer "s1" "s1:1" 0; mkPeer "s2" "s2:1" 0]. }
  destruct Hnode as (id & addr & ps & ->). split; [split; [done|done|exact Hwf|exact Hdir]|]. by intros b _.
Qed.

Lemma triple_alive_elem y : y ∈ triple_alive → y = "s2:1" ∨ y = "s3:1".
Proof. unfold triple_alive. rewrite elem_of_union, !elem_of_singleton. tauto. Qed.

Lemma triple_guarded : guarded "s1:1" triple_alive triple_outs triple_ins (node_srv triple_s1) triple_net.
Proof.
  destruct (triple_srv_ok "s1" "s1:1" [] true) as (_ & Hap & _).
  split; [apply triple_cluster|decide_now| | |exact Hap|exact triple_input].
  - intros x nd. unfold triple_net.
    intros [[<- <-]|[_ [<- <-]%lookup_singleton_Some]]%lookup_insert_Some; apply triple_standby; [done| |done|];
      intros y [->| ->]%triple_alive_elem Hy; try done; decide_now.
  - intros y [->| ->]%triple_alive_elem; decide_now.
Qed.

Lemma triple_deployed : deployed "s1:1" triple_alive triple_outs triple_ins triple_up.
Proof.
  exists (mkWorld "s1:1" no_faults true 0 (node_srv triple_s1) triple_net). split.
  - unfold here. cbn [rp_nodes triple_up]. rewrite lookup_insert_eq. simpl. unfold as_world. cbn [rp_nodes triple_up].
    rewrite delete_insert_id; [done|]. vm_compute. reflexivity.
  - split; [|apply triple_guarded]. destruct (triple_srv_ok "s1" "s1:1" (peers (node_srv triple_s1)) true) as (H1 & H2 & H3).
    by repeat split; try apply H1.
Qed.

Lemma triple_attached id dir : attached "s1:1" (triple_client id dir) snap_name triple_up.
Proof.
  split; [done|]. split; [apply disk_wf_empty|]. split; [done|].
  exists (as_world "s1:1" triple_s1 triple_up). split; [apply here_node; apply lookup_insert_eq|].
  split; [done|]. split; [apply demo_svc_name|]. vm_compute. reflexivity.
Qed.

Lemma client_survives_failover_witness :
  let svc : AfsService Replicas := replicas_service 4 in
  ∃ c' r' r2, writeToAFS no_faults snap_name (s2b "{}") (triple_client "c1" "/tmp/1") triple_up = (None, c', r') ∧
    election_at 4 "s2:1" (dies_at "s1:1" r') = ([], r2) ∧
    ∃ c3 r3, readFromAFS no_faults snap_name (triple_client "c2" "/tmp/2") r2 = Ret (Ok (s2b "{}"), c3, r3).
Proof.
  destruct (client_survives_failover 4 "s1:1" "s2:1" triple_alive triple_outs triple_ins (triple_client "c1" "/tmp/1")
    triple_up snap_name (s2b "{}") (s2b "{1}")) as (c' & r' & r2 & E & _ & Ee & _ & Hread & _);
    [lia|decide_now|decide_now|by left|apply demo_svc_name|apply triple_deployed|apply triple_attached|
     decide_now|by split|simpl; lia|done|done|].
  exists c', r', r2. split; [exact E|]. split; [exact Ee|].
  refine (proj1 (Hread _ _ _ _ _ _ _) _); [done|decide_now|split; simpl; lia|split; simpl; lia|apply disk_wf_empty|by split|done].
Defined.

#[local] Instance triple_posts : SnapshotNet Replicas := {| net_Post _ r := (None, r); time_Unix r := rp_now r |}.

Lemma write_survives_primary_death_witness :
  let x n carried := failover_run 4 "s1:1" "s2:1" n carried
    (writeToAFS_calls no_faults snap_name (s2b "{}") (triple_client "c1" "/tmp/1")) triple_up in
  written "s2:1" snap_name (s2b "{}") (x 2 true) ∧ refused "s2:1" snap_name (x 1 true).
Proof.
  assert (Ht : Contains ("file already exists: " +:+ snap_name) "not primary" = false) by (vm_compute; reflexivity).
  intros x. pose proof (λ n carried, write_survives_primary_death 4 "s1:1" "s2:1" triple_alive triple_outs triple_ins
    (triple_client "c1" "/tmp/1") triple_up snap_name (s2b "{}") n carried ltac:(lia) ltac:(decide_now) ltac:(decide_now)
    (or_introl eq_refl) (proj1 demo_svc_name) triple_deployed (triple_attached _ _) ltac:(decide_now) ltac:(by split)
    ltac:(simpl; lia) ltac:(done) Ht) as H.
  split; [exact (H 2 true)|exact (H 1 true)].
Defined.

Lemma attached_connected a c p r : attached a c p r → connected a c r.
Proof. intros (H1 & H2 & H3 & w & Hw & H4 & _). split; [done|]. split; [done|]. split; [done|]. by exists w. Qed.

Lemma attached_name a c p r : attached a c p r → at_primary a (λ w, svc_name w p) r.
Proof. intros (_ & _ & _ & w & Hw & _ & H). by exists w. Qed.

Lemma triple_connected id dir : connected "s1:1" (triple_client id dir) triple_up.
Proof. exact (attached_connected _ _ _ _ (triple_attached id dir)). Qed.

(** The snapshot, after it was written, and the input file. *)
Lemma read_survives_primary_death_witness :
  let svc : AfsService Replicas := replicas_service 4 in
  (∃ c1 r1 c' r', writeToAFS no_faults snap_name (s2b "{}") (triple_client "c1" "/tmp/1") triple_up = (None, c1, r1) ∧
    failover_run 4 "s1:1" "s2:1" 1 true (readFromAFS_calls no_faults snap_name c1) r1 = (Ret (Ok (s2b "{}"), c'), r')) ∧
  ∃ c' r', failover_run 4 "s1:1" "s2:1" 1 true
    (readFromAFS_calls no_faults "input_dataset_001.txt" (triple_client "c1" "/tmp/1")) triple_up = (Ret (Ok demo_text, c'), r').
Proof.
  assert (Ha : "s1:1" ∉ triple_alive) by decide_now. assert (Hb : "s2:1" ∈ triple_alive) by decide_now. split.
  - destruct (write_deployed "s1:1" triple_alive triple_outs triple_ins 4 snap_name (s2b "{}") (triple_client "c1" "/tmp/1") triple_up)
      as (c1 & r1 & E & Hd & Hatt & Hsame & Hq & Hloc & Hf);
      [lia|exact Ha|apply triple_deployed|apply triple_attached|by split|simpl; lia|done|].
    assert (Hin : "s2:1" ∈ serverAddrs c1) by (destruct Hsame as ([_ ->] & _); decide_now).
    destruct (read_survives_primary_death 4 "s1:1" "s2:1" triple_alive triple_outs triple_ins c1 r1 snap_name (s2b "{}") 2 1 true
      ltac:(lia) Ha Hb (proj1 demo_svc_name) Hd (attached_connected _ _ _ _ Hatt) Hin
      (same_client_free _ _ _ Hsame ltac:(by split)) Hf (or_introl (conj (or_introl eq_refl) (attached_name _ _ _ _ Hatt))))
      as (x & c' & r' & E2 & Hx); [intros k Hk; exists (s2b "{}"); split; [split; [exact Hk|exact Hloc]|discriminate]|rewrite Hq; simpl; lia|done|].
    assert (x = s2b "{}") as -> by (destruct Hx as [->|(k & [_ Hx] & _)]; [done|congruence]).
    exists c1, r1, c', r'. split; [exact E|exact E2].
  - destruct (read_survives_primary_death 4 "s1:1" "s2:1" triple_alive triple_outs triple_ins (triple_client "c1" "/tmp/1") triple_up
      "input_dataset_001.txt" demo_text 0 1 true ltac:(lia) Ha Hb ltac:(demo_name) triple_deployed (triple_connected _ _)
      ltac:(decide_now) ltac:(by split) ltac:(vm_compute; reflexivity) ltac:(right; vm_compute; reflexivity)) as (x & c' & r' & E2 & Hx);
      [intros k Hk; discriminate Hk|simpl; lia|done|].
    assert (x = demo_text) as -> by (destruct Hx as [->|(k & [Hk _] & _)]; [done|discriminate Hk]).
    exists c', r'. exact E2.
Defined.

Definition triple_request : ProcessFileRequest :=
  mkProcessFileRequest "input_dataset_001.txt" "s1:1,s2:1,s3:1" "/tmp/w1" "w1".

Lemma worker_survives_primary_death_witness :
  ∃ bs wk' d' r',
    failover_run 4 "s1:1" "s2:1" 3 true
      (ProcessFile_calls no_faults "c1" 5 triple_request open_stream (newWorkerServer "w1") empty_disk) triple_up =
      (Ret (None, mkSend (map batch_msg bs ++ [count_msg 4 5]) None, wk', d'), r') ∧ concat bs = [7; 2]%Z.
Proof.
  edestruct (worker_survives_primary_death 4 "s1:1" "s2:1" triple_alive triple_outs triple_ins "c1" 5 triple_request
    (newWorkerServer "w1") empty_disk (os_MkdirAll no_faults empty_disk "/tmp/w1").2 triple_up ["s2:1"; "s3:1"] demo_text
    (map dropCR demo_lines) 3 true) as (bs & wk' & d' & r' & E & Hbs & _).
  - lia.
  - decide_now.
  - decide_now.
  - exact triple_deployed.
  - exact (proj2 (proj2 (proj2 (triple_connected "c1" "/tmp/w1")))).
  - vm_compute. reflexivity.
  - by left.
  - vm_compute. reflexivity.
  - eapply os_MkdirAll_spec; [|apply surjective_pairing]. apply disk_wf_empty.
  - demo_name.
  - vm_compute. reflexivity.
  - split; vm_compute; discriminate.
  - by right.
  - demo_name.
  - exists (as_world "s1:1" triple_s1 triple_up). split; [apply here_node; apply lookup_insert_eq|].
    split; [demo_name|vm_compute; reflexivity].
  - split; vm_compute; discriminate.
  - vm_compute. reflexivity.
  - vm_compute. reflexivity.
  - vm_compute. reflexivity.
  - apply newWorkerServer_inv.
  - exists bs, wk', d', r'. split; [exact E|]. rewrite Hbs. vm_compute. reflexivity.
Defined.
