(* ===== verification/SystemProps.v ===== *)
(** * Properties of the whole system

    No assumption on workers or on the service is left: the servers, clients,
    workers and the coordinator are those of the other files, and the calls of
    all workers and of the receiving loop interleave in any way (Concurrent.v).
    The service is shared (Shared.v): between any two calls other clients, with
    the ids [ids], may open files and replace, store and delete the files
    [writes]. *)

From S2P Require Import Prelude GoLib GoText GoPath Json JsonCodec MillerRabin Disk AfsProto Server Handler Cluster SyncSpec Cache Client AfsSpec AfsWorld SnapshotIO ClientStart Snapshot Calls Disturbed Shared ClientProps SnapshotProps Worker WorkerProps Coordinator CoordSpec CoordAfs CoordProps CoordRun Moments CoordCrash System Concurrent SystemLaws ConcurrentProps ConcurrentCrash.

(** The position of an address in the list of workers. *)
Fixpoint index_of (a : string) (l : list string) : nat :=
  match l with [] => 0 | b :: l => if decide (b = a) then 0 else S (index_of a l) end.

Lemma index_of_lookup a l j : NoDup l → l !! j = Some a → index_of a l = j.
Proof.
  intros Hnd. revert j. induction Hnd as [|b l Hb _ IH]; intros [|j] Hj; simplify_eq/=; [by rewrite decide_True|].
  rewrite decide_False; [by rewrite (IH j)|]. intros ->. apply Hb. by eapply list_elem_of_lookup_2.
Qed.

(** The cache directory that the worker at an address is told to use. *)
Definition worker_cache (cfg : Config) (a : string) : string :=
  "/tmp/afs-worker-" +:+ worker_name (index_of a (WorkerAddrs cfg)).

(** A worker's snapshot is no input file, and the coordinator's only under the
    id "coordinator". *)
Lemma snapshot_not_input m id : WorkerSnapshotFile id ∉ input_files m.
Proof. intros (i & E & _)%elem_of_input_files. discriminate E. Qed.
Lemma coord_snapshot_not_input m : CoordSnapshotFile ∉ input_files m.
Proof. intros (i & E & _)%elem_of_input_files. discriminate E. Qed.

Lemma text_primes_u64 text f p : p ∈ text_primes text f → is_u64 p.
Proof.
  unfold text_primes. intros [Hp _]%elem_of_file_primes. unfold numbers in Hp.
  apply list_elem_of_omap in Hp as (l & _ & El). unfold line_number in El.
  destruct (TrimSpace l) as [|c l']; [done|]. destruct (ParseUint (c :: l')) as [n|e] eqn:E; [|done].
  injection El as <-. by eapply ParseUint_range.
Qed.

Section System.
  Context {W : Type} `{!AfsService W, !AfsView W, !AfsLaws W, !AfsUnwatched W, !SnapshotNet W, !MapOrder}.

(** A primary with [m] readable input files and no snapshot, workers of which
    one at least is up, and the ids [ids] for coordinators.  On a shared service
    [svc_ready] also says that the others can do what they are going to do
    ([others_ok]), [svc_known] and [svc_name] that they do not write the file. *)
Record system_setting (fresh : nat → string) (cfg : Config) (ids : list string) (s : Deployment W)
    (m : nat) (text : string → bytes) : Prop := {
  ss_server : ∃ a rest, cfg_AfsServers cfg = a :: rest ∧ svc_ready (dp_afs s) a ∧
    Forall (λ b, ","%char ∉ s2b b) (a :: rest);
  ss_ids : Inj (=) (=) fresh ∧ (∀ n, svc_unused (dp_afs s) (fresh n) 0) ∧
    ∀ c, c ∈ ids → svc_unused (dp_afs s) c 0 ∧ ∀ n, fresh n ≠ c;
  ss_inputs f : f ∈ input_files m → svc_known (dp_afs s) f ∧ (∃ v, svc_file (dp_afs s) f = Some (text f, v)) ∧
    ∃ lines, Scan 256 (text f) None = (lines, None) ∧ (Z.of_nat (length lines) < 2 ^ 63)%Z;
  ss_end : svc_known (dp_afs s) (input_name (Z.of_nat m + 1)) ∧
    svc_file (dp_afs s) (input_name (Z.of_nat m + 1)) = None;
  ss_count : 0 < m < Z.to_nat 9999;
  ss_snapshot : svc_file (dp_afs s) CoordSnapshotFile = None;
  ss_names n : n ∈ files_of_run cfg → svc_name (dp_afs s) n;
  ss_output : OutputFile cfg ∉ input_files (S m) ++ CoordSnapshotFile ::
    (WorkerSnapshotFile ∘ worker_name <$> seq 0 (length (WorkerAddrs cfg)));
  ss_workers : NoDup (WorkerAddrs cfg) ∧ length (WorkerAddrs cfg) < Z.to_nat 100000;
  ss_up : ∃ a, a ∈ WorkerAddrs cfg ∧ is_Some (dp_workers s !! a);
  ss_procs a p : dp_workers s !! a = Some p → worker_inv (wp_srv p) ∧ cache_disk (worker_cache cfg a) (wp_disk p) ∧
    svc_name (dp_afs s) (WorkerSnapshotFile (workerID (wp_srv p))) ∧ workerID (wp_srv p) ≠ "coordinator";
  ss_apart a b p q : dp_workers s !! a = Some p → dp_workers s !! b = Some q →
    workerID (wp_srv p) = workerID (wp_srv q) → a = b;
}.

(** What [IsPrime] accepts among the numbers of the first [m] input files. *)
Definition found (m : nat) (text : string → bytes) (p : Z) : Prop :=
  ∃ f lines, f ∈ input_files m ∧ Scan 256 (text f) None = (lines, None) ∧ p ∈ numbers lines ∧ IsPrime p = Ret true.

Section Setting.
  Context (fresh : nat → string) (elapsed : nat → Z) (cfg : Config) (ids : list string) (s : Deployment W).
  Context (m : nat) (text : string → bytes) (Hs : system_setting fresh cfg ids s m text).
  Context (a : string) (rest : list string) (Ha : cfg_AfsServers cfg = a :: rest) (Hr : svc_ready (dp_afs s) a).
  Context (Hcom : Forall (λ b, ","%char ∉ s2b b) (a :: rest)) `{!Inj (=) (=) fresh}.

Let reads (f : string) : Prop := f ∈ input_files m.

Lemma setting_text f : reads f → ∃ lines, Scan 256 (text f) None = (lines, None) ∧ (Z.of_nat (length lines) < 2 ^ 63)%Z.
Proof using Hs. intros Hf. by destruct (ss_inputs _ _ _ _ _ _ Hs f Hf) as (_ & _ & ?). Qed.

#[local] Instance setting_service : WorkerService (Deployment W) := deployment_worker_service no_faults fresh elapsed.
#[local] Instance setting_laws : WorkerLaws (Deployment W) :=
  deployment_workers (W := W) fresh elapsed a rest (dom (dp_workers s)) (worker_cache cfg)
    (λ id, id ≠ "coordinator") Hcom reads text setting_text.
#[local] Instance setting_serves : WorkerServes (Deployment W) (text_primes text) :=
  deployment_serves (W := W) fresh elapsed a rest (dom (dp_workers s)) (worker_cache cfg)
    (λ id, id ≠ "coordinator") Hcom reads text setting_text.

Lemma setting_deployment :
  deployment_ok fresh a (dom (dp_workers s)) (worker_cache cfg) (λ id, id ≠ "coordinator") reads text s.
Proof using Hs Hr.
  destruct Hs as [_ (_ & Hfr & _) Hins _ _ _ _ _ _ _ Hpr Hap]. split; [..|exact Hap].
  - done.
  - intros n _. apply Hfr.
  - intros f Hf. by destruct (Hins f Hf) as (Hk & Hv & _).
  - intros b. by rewrite elem_of_dom.
  - intros b. by rewrite elem_of_dom.
  - intros b p Hp. destruct (Hpr b p Hp) as (H1 & H2 & H3 & H4). split; [done..|apply snapshot_not_input|done].
Qed.

Lemma setting_config : config_ok cfg m.
Proof using Hs Ha.
  destruct Hs as [_ _ _ _ Hm _ _ Hout Hws (b & Hb & Hin) _ _]. apply not_elem_of_app in Hout as [Hout1 Hout2].
  split; [exact Hm| | |exact Hout2|exact Hws| |].
  - intros n Hn. assert (Hn' : n ∉ input_files (S m)).
    { unfold files_of_run in Hn. apply elem_of_cons in Hn as [->|Hn]; [exact Hout1|].
      apply elem_of_cons in Hn as [->|Hn]; [apply coord_snapshot_not_input|].
      apply list_elem_of_fmap in Hn as (j & -> & _). apply snapshot_not_input. }
    split; [|exact Hn']. intros Hrd. by apply Hn', input_files_S.
  - intros n (id & -> & Hid). split; [|apply snapshot_not_input]. intros E. by apply Hid, WorkerSnapshotFile_coord.
  - exists b. split; [done|]. by apply elem_of_dom.
  - intros j b' f Hj _ Hf. split; [exact Hf|]. split; [by rewrite <- Ha|].
    cbn. unfold worker_cache. by rewrite (index_of_lookup b' _ j) by (done || apply Hws).
Qed.

Lemma setting_place : place cfg m ids s.
Proof using Hs Ha Hr.
  destruct Hs as [_ (_ & _ & Hids) Hins Hend _ _ Hns _ _ _ _ _]. split.
  - by exists a, rest.
  - intros c Hc. destruct (Hids c Hc) as [Hu Hf]. split; [exact Hu|]. intros [n ->]. by apply (Hf n).
  - intros f Hf. destruct (Hins f Hf) as (Hk & [v Hv] & _). split; [exact Hk|]. by exists (text f, v).
  - exact Hend.
  - exact Hns.
  - exact setting_deployment.
Qed.

Lemma found_primes p : p ∈ concat (text_primes text <$> input_files m) ↔ found m text p.
Proof using Hs.
  rewrite elem_of_concat_fmap. unfold text_primes, found. split.
  - intros (f & Hf & Hp). destruct (setting_text f Hf) as (lines & E & _). rewrite E in Hp.
    apply elem_of_file_primes in Hp as [Hp1 Hp2]. by exists f, lines.
  - intros (f & lines & Hf & E & Hp). exists f. split; [done|]. rewrite E. by apply elem_of_file_primes.
Qed.

Lemma setting_fresh : progress (text_primes text) m s [] [].
Proof using Hs.
  split; [left; split; [|done]|apply list_subseteq_nil|apply covers_nil].
  pose proof (ss_snapshot _ _ _ _ _ _ Hs) as En. change (svc_file s CoordSnapshotFile = None) in En.
  intros data v E. by rewrite En in E.
Qed.

(** From where the work of other coordinators left off, a run ends with the
    accepted numbers, or with an error if there are none. *)
Lemma setting_run cid d s' completed collected :
  place cfg m [cid] s' → progress (text_primes text) m s' completed collected → cache_disk (cfg_CacheDir cfg) d →
  (∀ r, concurrent_run no_faults fresh elapsed cfg cid d s' r →
     ((∃ p, found m text p) → ∃ s1 v ps, r = (None, s1) ∧
        svc_file (dp_afs s1) (OutputFile cfg) = Some (output_text ps, v) ∧ StronglySorted Z.lt ps ∧
        ∀ p, p ∈ ps ↔ found m text p) ∧
     ((∀ p, ¬ found m text p) → ∃ e s1, r = (Some e, s1))) ∧
  ∃ r, concurrent_run no_faults fresh elapsed cfg cid d s' r.
Proof using AfsLaws0 AfsUnwatched0 Hs Ha Hr Hcom Inj0.
  intros Hpl Hpr Hd.
  destruct (concurrent_setting_run fresh elapsed a rest (dom (dp_workers s)) (worker_cache cfg) (λ id, id ≠ "coordinator") Hcom
    reads text setting_text cid cfg d s' m [cid] completed collected setting_config Hpl ltac:(by left) Hd Hpr) as [Hall Hsome].
  split; [|exact Hsome]. intros r Hr0. specialize (Hall r Hr0). destruct r as [e s1]. unfold ends_with in Hall.
  case_decide as Hnil; [split; [intros [p Hp]|intros _]|split; [intros _|intros Hno]].
  - apply found_primes in Hp. rewrite Hnil in Hp. by apply elem_of_nil in Hp.
  - destruct e as [e|]; [by exists e, s1|done].
  - cbn [fst snd] in Hall. destruct Hall as [-> [v Hf]]. eexists s1, v, _. split; [done|]. split; [exact Hf|].
    destruct (dedupAndSort_canonical (concat (text_primes text <$> input_files m))) as (H1 & H2 & _).
    split; [exact H1|]. intros p. by rewrite H2, found_primes.
  - exfalso. destruct (concat _) as [|p ps] eqn:E; [done|]. apply (Hno p), found_primes. rewrite E. by left.
Qed.

(** After any crashes the next coordinator writes everything. *)
Lemma setting_crashes cs cid d s' p0 :
  (∀ w : W, is_nat63 (time_Unix w)) →
  NoDup (cs.*1 ++ [cid]) → cs.*1 ++ [cid] ⊆ ids → Forall (λ c, cache_disk (cfg_CacheDir cfg) c.2) cs →
  cache_disk (cfg_CacheDir cfg) d → crashes no_faults fresh elapsed cfg cs s s' → found m text p0 →
  (∀ r, concurrent_run no_faults fresh elapsed cfg cid d s' r → ∃ s1 v ps, r = (None, s1) ∧
     svc_file (dp_afs s1) (OutputFile cfg) = Some (output_text ps, v) ∧ StronglySorted Z.lt ps ∧
     ∀ p, p ∈ ps ↔ found m text p) ∧
  ∃ r, concurrent_run no_faults fresh elapsed cfg cid d s' r.
Proof using AfsLaws0 AfsUnwatched0 Hs Ha Hr Hcom Inj0.
  intros Hclock Hnd Hsub Hds Hd Hcr Hp0.
  assert (Hpl0 : place cfg m (cs.*1 ++ [cid]) s).
  { destruct setting_place as [H1 H2 H3 H4 H5 H6]. split; [done|by intros c Hc; apply H2, Hsub|done..]. }
  pose proof setting_fresh as Hpr0.
  assert (Hne : concat (text_primes text <$> input_files m) ≠ []).
  { intros E. apply (not_elem_of_nil p0). rewrite <- E. by apply found_primes. }
  assert (Hafter : resumable (text_primes text) cfg m [cid] s').
  { eapply (crashes_leave fresh elapsed a rest (dom (dp_workers s)) (worker_cache cfg) (λ id, id ≠ "coordinator") Hcom reads text
        setting_text); [apply text_primes_u64|intros w; apply Hclock|exact setting_config|
        exact Hne|exact Hnd|exact Hds|exact Hpl0|exact Hpr0|exact Hcr]. }
  destruct Hafter as [Hpl (cs' & ps' & Hpr)].
  destruct (setting_run cid d s' cs' ps' Hpl Hpr Hd) as [Hall Hsome]. split; [|exact Hsome].
  intros r Hr0. apply (Hall r Hr0). by exists p0.
Qed.

End Setting.

End System.

Section Claims.
  Context {N : Type} `{!PeerNet N, !SnapshotNet (World N), !MapOrder} (ids writes : string → Prop).

#[local] Instance system_view : AfsView (Shared (World N)) := shared_view ids writes.
#[local] Instance system_laws : AfsLaws (Shared (World N)) := shared_laws ids writes.
#[local] Instance system_unwatched : AfsUnwatched (Shared (World N)) := shared_unwatched ids writes.

(** C1: the whole system: however the calls of the workers and of the receiving
    loop to the file servers interleave, and whatever other clients do to other
    files between any two calls, a run of the coordinator on a primary with [m]
    readable input files and no snapshot, with workers of which at least one is up
    ([system_setting]), returns nil and leaves in the output file the numbers of
    all input files that [IsPrime] accepts, each once and in increasing order, one
    a line, if there is such a number; if there is none, it returns an error (the
    empty output cannot be closed). There is such a run. *)
Theorem system_writes_all_primes fresh elapsed cfg cid d (s : Deployment (Shared (World N))) m text :
  system_setting fresh cfg [cid] s m text → cache_disk (cfg_CacheDir cfg) d →
  (∀ r, concurrent_run no_faults fresh elapsed cfg cid d s r →
     ((∃ p, found m text p) → ∃ s1 v ps, r = (None, s1) ∧
        svc_file (dp_afs s1) (OutputFile cfg) = Some (output_text ps, v) ∧ StronglySorted Z.lt ps ∧
        ∀ p, p ∈ ps ↔ found m text p) ∧
     ((∀ p, ¬ found m text p) → ∃ e s1, r = (Some e, s1))) ∧
  ∃ r, concurrent_run no_faults fresh elapsed cfg cid d s r.
Proof.
  intros Hs Hd. destruct (ss_server _ _ _ _ _ _ Hs) as (a & rest & Ha & Hr & Hcom).
  destruct (ss_ids _ _ _ _ _ _ Hs) as [Hinj _].
  apply (setting_run fresh elapsed cfg [cid] s m text Hs a rest Ha Hr Hcom cid d s [] []); [|by eapply setting_fresh|exact Hd].
  by eapply setting_place.
Qed.

(** C2: crash recovery: when any number of coordinators died, each at any point
    of the interleaved calls of its own and of the workers that serve it, also
    while it replaced the snapshot or wrote the output, the next coordinator that
    runs to its end returns nil and leaves the complete output: no file and no
    prime is lost.  This is for input files that hold at least one number that
    [IsPrime] accepts (without one no run can write its output and every run ends
    with an error), and for a clock, from which the
    snapshots take their time stamps, that shows a time in [0, 2^63) seconds
    since 1970. *)
Theorem system_survives_crashes fresh elapsed cfg cs cid d (s s' : Deployment (Shared (World N))) m text :
  system_setting fresh cfg (cs.*1 ++ [cid]) s m text → NoDup (cs.*1 ++ [cid]) →
  (∀ w : Shared (World N), is_nat63 (time_Unix w)) →
  Forall (λ c, cache_disk (cfg_CacheDir cfg) c.2) cs → cache_disk (cfg_CacheDir cfg) d → (∃ p, found m text p) →
  crashes no_faults fresh elapsed cfg cs s s' →
  (∀ r, concurrent_run no_faults fresh elapsed cfg cid d s' r → ∃ s1 v ps, r = (None, s1) ∧
     svc_file (dp_afs s1) (OutputFile cfg) = Some (output_text ps, v) ∧ StronglySorted Z.lt ps ∧
     ∀ p, p ∈ ps ↔ found m text p) ∧
  ∃ r, concurrent_run no_faults fresh elapsed cfg cid d s' r.
Proof.
  intros Hs Hnd Hclock Hds Hd [p Hp] Hcr. destruct (ss_server _ _ _ _ _ _ Hs) as (a & rest & Ha & Hr & Hcom).
  destruct (ss_ids _ _ _ _ _ _ Hs) as [Hinj _].
  apply (setting_crashes fresh elapsed cfg _ s m text Hs a rest Ha Hr Hcom cs cid d s' p);
    [exact Hclock|exact Hnd|done|exact Hds|exact Hd|exact Hcr|exact Hp].
Qed.

End Claims.

(** ** Witness: one input file, two configured workers of which one is up

    A guest writes, reads and deletes between the calls. *)

Definition demo_fresh (n : nat) : string := "worker-" +:+ pretty n.
Definition demo_config : Config := mkConfig ["s1:1"] ["w1:6001"; "w2:6001"] "/tmp/c" "primes.txt".
Definition guest (c : string) : Prop := c = "guest".
Definition guest_file (f : string) : Prop := f = "notes.txt".
Definition guest_script : list (list (string * other_op)) :=
  [[("guest", OtherReplace "notes.txt")];
   [("guest", OtherOpen "input_dataset_001.txt" false); ("guest", OtherStore "notes.txt" (s2b "seen") [])];
   []; []; [("guest", OtherDelete "notes.txt")]].
Definition demo_workers : gmap string worker_proc := {["w1:6001" := worker_main "w1" "w1" "6100" empty_disk]}.
Definition demo_deployment : Deployment (Shared (World unit)) :=
  mkDeployment (mkShared input_world "s1:1" (λ _, 0%Z) guest_script) demo_workers 0.

#[local] Instance demo_view : AfsView (Shared (World unit)) := system_view guest guest_file.

Lemma guest_ok : others_ok guest guest_file (dp_afs demo_deployment).
Proof.
  assert (Hn : svc_name input_world "notes.txt") by (split; [demo_name|vm_compute; reflexivity]).
  split.
  - exact input_world_ready.
  - repeat (apply Forall_cons_2; [split; [reflexivity|]; first [exact (conj eq_refl Hn)|split; [reflexivity|split; [exact Hn|discriminate]]|demo_name]|]). apply Forall_nil_2.
  - done.
  - intros c. simpl. lia.
Qed.

Lemma empty_cache_disk dir : cache_disk dir empty_disk.
Proof. split; [apply disk_wf_empty|intros i; cbn [names empty_disk]; by rewrite lookup_empty|intros q _; cbn [names empty_disk]; by rewrite lookup_empty]. Qed.

Lemma demo_scan : Scan 256 demo_text None = (map dropCR demo_lines, None).
Proof. vm_compute. reflexivity. Qed.

Lemma demo_input : input_files 1 = ["input_dataset_001.txt"].
Proof. vm_compute. reflexivity. Qed.

Lemma demo_setting : system_setting demo_fresh demo_config ["coord1"; "coord"] demo_deployment 1 (λ _, demo_text).
Proof.
  assert (Hn : ∀ n, n ∈ files_of_run demo_config → svc_name (dp_afs demo_deployment) n).
  { intros n Hn. cbn in Hn.
    repeat (apply elem_of_cons in Hn as [->|Hn]; [split; [split; [demo_name|vm_compute; reflexivity]|discriminate]|]).
    by apply elem_of_nil in Hn. }
  split.
  - exists "s1:1", []. split; [reflexivity|]. split; [split; [exact input_world_ready|exact guest_ok]|].
    apply Forall_singleton. decide_now.
  - split; [|split].
    + intros n n' E. apply (inj (String.append "worker-")) in E. by apply (inj pretty) in E.
    + intros n. split; [done|intros E; discriminate E].
    + intros c Hc. repeat (apply elem_of_cons in Hc as [->|Hc];
        [split; [split; [done|intros E; discriminate E]|intros n E; discriminate E]|]). by apply elem_of_nil in Hc.
  - intros f. rewrite demo_input. intros ->%list_elem_of_singleton. split; [split; [demo_name|discriminate]|].
    split; [exists 0%Z; vm_compute; reflexivity|]. exists (map dropCR demo_lines).
    split; [exact demo_scan|vm_compute; reflexivity].
  - split; [split; [demo_name|discriminate]|vm_compute; reflexivity].
  - lia.
  - vm_compute. reflexivity.
  - exact Hn.
  - decide_now.
  - split; [decide_now|simpl; lia].
  - exists "w1:6001". split; [left|]. by eexists.
  - intros a p Hp. change (demo_workers !! a = Some p) in Hp. unfold demo_workers in Hp. apply lookup_singleton_Some in Hp as [<- <-].
    split; [apply newWorkerServer_inv|]. split; [apply empty_cache_disk|]. split; [|discriminate].
    apply Hn. cbn. by right; right; left.
  - intros a b p q Hp Hq _. change (demo_workers !! a = Some p) in Hp. change (demo_workers !! b = Some q) in Hq.
    unfold demo_workers in *. apply lookup_singleton_Some in Hp as [<- _]. by apply lookup_singleton_Some in Hq as [<- _].
Qed.

Lemma demo_found p : p ∈ [2; 7]%Z → found 1 (λ _, demo_text) p.
Proof.
  intros Hp. exists "input_dataset_001.txt", (map dropCR demo_lines). split; [rewrite demo_input; by left|].
  split; [exact demo_scan|].
  repeat (apply elem_of_cons in Hp as [->|Hp]; [split; [decide_now|vm_compute; reflexivity]|]). by apply elem_of_nil in Hp.
Qed.

Lemma demo_not_found : ¬ found 1 (λ _, demo_text) 8.
Proof. intros (f & lines & _ & _ & _ & H8). vm_compute in H8. discriminate H8. Qed.

Lemma demo_setting_one : system_setting demo_fresh demo_config ["coord"] demo_deployment 1 (λ _, demo_text).
Proof. destruct demo_setting as [? (? & ? & Hc)]. split; try done. split; [done|]. split; [done|]. intros c Hin. apply Hc. by right. Qed.

Lemma system_writes_all_primes_witness :
  ∃ s' v ps, concurrent_run no_faults demo_fresh (λ _, 1%Z) demo_config "coord" empty_disk demo_deployment (None, s') ∧
    svc_file (sh_world (dp_afs s')) "primes.txt" = Some (output_text ps, v) ∧ StronglySorted Z.lt ps ∧ (2 ∈ ps ∧ 7 ∈ ps ∧ 8 ∉ ps)%Z.
Proof.
  destruct (system_writes_all_primes guest guest_file demo_fresh (λ _, 1%Z) demo_config "coord" empty_disk demo_deployment 1 (λ _, demo_text)
    demo_setting_one) as [Hall [r Hr]].
  - apply empty_cache_disk.
  - destruct (proj1 (Hall r Hr)) as (s' & v & ps & -> & Hf & Hs & Hps); [exists 2%Z; apply demo_found; by left|].
    exists s', v, ps. split; [exact Hr|]. split; [exact Hf|]. split; [exact Hs|]. split; [apply Hps, demo_found; by left|]. split; [apply Hps, demo_found; by right; left|].
    intros H8. by apply demo_not_found, Hps.
Defined.

(** A coordinator that died while it saved its first snapshot: the file was
    created, but nothing was stored in it. *)
Definition demo_crash : option (Deployment (Shared (World unit))) :=
  head (filter (λ s, fst <$> svc_file (sh_world (dp_afs s)) CoordSnapshotFile = Some [])
    (running_moments no_faults demo_fresh (λ _, 1%Z) demo_config "coord1" empty_disk [Recv; Work 0] 100 demo_deployment)).

Lemma demo_crash_exists : (λ s, fst <$> svc_file (sh_world (dp_afs s)) CoordSnapshotFile) <$> demo_crash = Some (Some []).
Proof. vm_compute. reflexivity. Qed.

Lemma demo_crash_crashes s' :
  demo_crash = Some s' →
  crashes no_faults demo_fresh (λ _, 1%Z) demo_config [("coord1", empty_disk)] demo_deployment s'.
Proof.
  intros E. eapply crashes_one; [|apply crashes_none]. apply head_Some_elem_of, list_elem_of_filter in E as [_ Hin].
  by eapply running_moments_die.
Qed.

Lemma system_survives_crashes_witness :
  ∃ s s' v ps, demo_crash = Some s ∧
    concurrent_run no_faults demo_fresh (λ _, 1%Z) demo_config "coord" empty_disk s (None, s') ∧
    svc_file (sh_world (dp_afs s')) "primes.txt" = Some (output_text ps, v) ∧ StronglySorted Z.lt ps ∧ (2 ∈ ps ∧ 7 ∈ ps ∧ 8 ∉ ps)%Z.
Proof.
  pose proof demo_crash_exists as Hex. destruct demo_crash as [s|] eqn:E; [clear Hex|discriminate Hex].
  destruct (system_survives_crashes guest guest_file demo_fresh (λ _, 1%Z) demo_config [("coord1", empty_disk)] "coord" empty_disk
    demo_deployment s 1 (λ _, demo_text) demo_setting) as [Hall [r Hr]].
  - decide_now.
  - intros w. change (is_nat63 1700000000). unfold is_nat63. lia.
  - apply Forall_singleton, empty_cache_disk.
  - apply empty_cache_disk.
  - exists 2%Z. apply demo_found. by left.
  - by apply demo_crash_crashes.
  - destruct (Hall r Hr) as (s' & v & ps & -> & Hf & Hs & Hps). exists s, s', v, ps. split; [reflexivity|]. split; [exact Hr|].
    split; [exact Hf|]. split; [exact Hs|]. split; [apply Hps, demo_found; by left|].
    split; [apply Hps, demo_found; by right; left|]. intros H8. by apply demo_not_found, Hps.
Defined.

(** ** Work that a crash loses *)

(** Two input files; the same workers. *)
Definition two_inputs : Deployment (World unit) :=
  let disk2 := set_content (new_file input_disk "in/input_dataset_002.txt") (next_ino input_disk) (s2b "11" ++ [newline]) in
  mkDeployment (mkWorld "s1:1" no_faults true 0
    (mkHandler "in" "out" ∅ ∅ 0 ∅ "s1" "s1:1" true "s1:1" [] 0 false disk2) tt) demo_workers 0.

(** The files that the snapshot lists as done. *)
Definition recorded_files (s : Deployment (World unit)) : option (list string) :=
  '(data, _) ← svc_file (dp_afs s) CoordSnapshotFile;
  match Unmarshal CoordSnapshot_codec data with Ok snap => Some (elems (CompletedFiles snap)) | Err _ => None end.

(** The first moment of a run with one goroutine at which the files are as
    described. *)
Definition first_moment (cid : string) (P : Deployment (World unit) → Prop) `{!∀ s, Decision (P s)}
    (s : Deployment (World unit)) : option (Deployment (World unit)) :=
  head (filter P (running_moments no_faults demo_fresh (λ _, 1%Z) demo_config cid empty_disk [Recv; Work 0] 100 s)).

Lemma first_moment_dies cid P `{!∀ s, Decision (P s)} s s' :
  first_moment cid P s = Some s' → dies no_faults demo_fresh (λ _, 1%Z) demo_config cid empty_disk s s' ∧ P s'.
Proof.
  intros E. apply head_Some_elem_of, list_elem_of_filter in E as [HP Hin]. split; [|exact HP].
  by eapply running_moments_die.
Qed.

#[local] Instance demo_workers_service : WorkerService (Deployment (World unit)) :=
  deployment_worker_service no_faults demo_fresh (λ _, 1%Z).

Definition lost_work : option (Deployment (World unit) * Deployment (World unit) * (run_env * run_state (Deployment (World unit)))) :=
  s1 ← first_moment "coord1" (λ s, recorded_files s = Some ["input_dataset_001.txt"]) two_inputs;
  s2 ← first_moment "coord2" (λ s, fst <$> svc_file (dp_afs s) CoordSnapshotFile = Some []) s1;
  match Run_start no_faults demo_config "coord3" empty_disk s2 with Ret (inr r) => Some (s1, s2, r) | _ => None end.

Lemma lost_work_restarts :
  (λ x, (rs_completed x.2.2, todo_files (rs_todo x.2.2))) <$> lost_work =
    Some ([], ["input_dataset_001.txt"; "input_dataset_002.txt"]).
Proof. vm_compute. reflexivity. Qed.

(** C35: the snapshot bounds the lost work only between saves: a coordinator that
    dies while it replaces a snapshot leaves an empty one, and the next one
    starts from the first file again, although a file was recorded as done. *)
Theorem crash_can_lose_all_work :
  ∃ s1 s2 env s, dies no_faults demo_fresh (λ _, 1%Z) demo_config "coord1" empty_disk two_inputs s1 ∧
    recorded_files s1 = Some ["input_dataset_001.txt"] ∧
    dies no_faults demo_fresh (λ _, 1%Z) demo_config "coord2" empty_disk s1 s2 ∧
    Run_start no_faults demo_config "coord3" empty_disk s2 = Ret (inr (env, s)) ∧
    rs_completed s = [] ∧ todo_files (rs_todo s) = ["input_dataset_001.txt"; "input_dataset_002.txt"].
Proof.
  pose proof lost_work_restarts as H. destruct lost_work as [[[s1 s2] [env s]]|] eqn:E; [|discriminate H].
  injection H as Hc Ht. unfold lost_work in E. apply bind_Some in E as (s1' & E1 & E).
  apply bind_Some in E as (s2' & E2 & E). apply first_moment_dies in E1 as [D1 R1]. apply first_moment_dies in E2 as [D2 _].
  destruct (Run_start no_faults demo_config "coord3" empty_disk s2') as [[r|r]|msg|] eqn:E3; try discriminate E.
  injection E as -> -> ->. exists s1, s2, env, s. split; [exact D1|]. split; [exact R1|]. split; [exact D2|].
  split; [exact E3|]. split; [exact Hc|exact Ht].
Qed.

(** ** Two workers at the same time *)

Definition both_up : Deployment (World unit) :=
  mkDeployment (dp_afs two_inputs) (<["w2:6001" := worker_main "w2" "w2" "6101" empty_disk]> demo_workers) 0.

Definition is_prepared {A B} (o : outcome (A + B)) : option B := match o with Ret (inr r) => Some r | _ => None end.

Lemma is_prepared_inv {A B} (o : outcome (A + B)) r : is_prepared o = Some r → o = Ret (inr r).
Proof. destruct o as [[a|b]|msg|]; [done|by intros [= ->]|done|done]. Qed.

Definition prepared : option (run_env * run_state (Deployment (World unit))) :=
  is_prepared (Run_start no_faults demo_config "coord" empty_disk both_up).

Lemma prepared_started env s : prepared = Some (env, s) → started demo_config env s.
Proof. intros E. apply is_prepared_inv in E. eapply Run_start_started; [|exact E]. decide_now. Qed.

(** Both have opened their file, and none has answered. *)
Definition both_serving (env : run_env) (s : run_state (Deployment (World unit))) : option (conc (World unit)) :=
  conc_exec no_faults demo_fresh (λ _, 1%Z) env (concat (replicate 5 [Work 0; Work 1])) (conc_start s).

Lemma both_serving_two :
  ('(env, s) ← prepared; x ← both_serving env s; Some (length (filter is_serving (cc_doing x)))) = Some 2.
Proof. vm_compute. reflexivity. Qed.

Lemma concurrent_calls_end_witness :
  ∃ env s x, prepared = Some (env, s) ∧ both_serving env s = Some x ∧ length (filter is_serving (cc_doing x)) = 2 ∧
    (conc_over x ∨ ∃ act x', conc_step no_faults demo_fresh (λ _, 1%Z) env act x = Some x') ∧
    ∃ acts x', conc_exec no_faults demo_fresh (λ _, 1%Z) env acts (conc_start s) = Some x' ∧ conc_over x'.
Proof.
  pose proof both_serving_two as H2. destruct prepared as [[env s]|] eqn:E; [|discriminate H2].
  cbn [mbind option_bind] in H2. destruct (both_serving env s) as [x|] eqn:Ex; [|discriminate H2]. injection H2 as H2.
  destruct (concurrent_calls_end no_faults demo_fresh (λ _, 1%Z) demo_config env s (prepared_started env s E)) as (_ & Hgo & Hend).
  exists env, s, x. split; [reflexivity|]. split; [exact Ex|]. split; [exact H2|]. split; [exact (Hgo _ x Ex)|exact Hend].
Defined.
