(* ===== verification/CoordDemo.v ===== *)
(** * The coordinator's theorems at concrete inputs

    One primary, two workers and three input files: worker [w1] knows the first
    file, [w2] the second, and nobody can process the third.  The witnesses run
    the coordinator on a schedule and apply the theorems of CoordProps.v. *)

From S2P Require Import Prelude GoLib GoText GoPath Json JsonCodec MillerRabin Disk AfsProto Server Handler Cluster SyncSpec Cache Client AfsSpec AfsWorld SnapshotIO Snapshot ClientProps SnapshotProps Worker WorkerProps Coordinator CoordSpec CoordAfs CoordProps.

Definition file1 : string := "input_dataset_001.txt".
Definition file2 : string := "input_dataset_002.txt".
Definition file3 : string := "input_dataset_003.txt".

Definition demo_primes (f : string) : list Z :=
  if decide (f = file1) then [7; 2]%Z else if decide (f = file2) then [3; 2]%Z else [5]%Z.

Definition demo_stream (ps : list Z) : result (recv_stream ProcessFileResponse) :=
  Ok (mkRecv [batch_msg ps; count_msg 4 1] None).

#[export] Instance demo_workers : WorkerService (World unit) := {
  wk_dial _ := true;
  wk_Health a req w := (Ok (mkHealthResponse true (hq_WorkerId req)), w);
  wk_ProcessFile a req w :=
    ((if decide (a = "w1:6001" ∧ FilePath req = file1 ∨ a = "w2:6001" ∧ FilePath req = file2)
      then demo_stream (demo_primes (FilePath req)) else Ok (mkRecv [error_msg "Open failed"] None)), w);
}.

#[export] Instance demo_worker_laws : WorkerLaws (World unit).
Proof.
  refine {| wl_inv _ := True; wl_up _ := True; wl_asked _ _ := True; wl_reads _ := False;
    wl_writes _ := False; wl_client _ := False |}; [by intros..|].
  by intros.
Defined.

Definition worker1 : workerConn := mkWorkerConn "w1" "w1:6001".
Definition worker2 : workerConn := mkWorkerConn "w2" "w2:6001".
Definition demo_cfg : Config := mkConfig ["s1:1"] ["w1:6001"; "w2:6001"] "/tmp/1" "primes.txt".
Definition demo_env (inputs : list string) : run_env := mkEnv demo_cfg inputs [worker1; worker2] 3.
Definition demo_start (todo : list (workerConn * list string)) : run_state (World unit) :=
  mkRun todo [] ∅ [] [] (demo_client "c1" "/tmp/1") demo_world.

Lemma demo_started inputs todo :
  todo_files todo ≡ₚ filterPending inputs [] → started demo_cfg (demo_env inputs) (demo_start todo).
Proof.
  intros Ht. split; [done|done| |exact Ht|simpl; lia]. intros x. cbn [rs_seen rs_primes demo_start].
  rewrite decide_False by set_solver. apply lookup_empty.
Qed.

Lemma demo_ready inputs todo :
  (to_come (demo_start todo) < 100)%Z → run_ready "c1" demo_cfg (demo_env inputs) (demo_start todo).
Proof.
  intros Ht. split.
  - split; [apply demo_client_ok|done| | |done|by intros []].
    + change (reqSeq (rs_client (demo_start todo))) with 0%Z.
      change (Z.of_nat (length (re_workers (demo_env inputs)))) with 2%Z. lia.
    + intros n Hn. split; [|split; [apply demo_client_free|intros []]]. unfold run_names in Hn. simpl in Hn.
      repeat (apply elem_of_cons in Hn as [->|Hn]); [(split; [demo_name|done])..|]. by apply elem_of_nil in Hn.
  - split; [by intros wk fs f _ _ o _|]. simpl. intros Hn. repeat (apply elem_of_cons in Hn as [Hn|Hn]; [by vm_compute in Hn|]). by apply elem_of_nil in Hn.
Qed.

Lemma demo_covers todo : covers demo_primes (rs_completed (demo_start todo)) (rs_primes (demo_start todo)).
Proof. intros p. simpl. set_solver. Qed.

(** What the workers answer. *)
Definition answer (wid f : string) : workerResult := mkWorkerResult wid f (demo_primes f) 4 1 None.
Definition failure (wid f : string) : workerResult :=
  mkWorkerResult wid f [] 0 0 (Some ("all workers failed for " +:+ f)).

Lemma answer_faithful wid f : faithful demo_primes (answer wid f).
Proof. by intros _ p. Qed.

Lemma failure_faithful wid f : faithful demo_primes (failure wid f).
Proof. intros He. discriminate He. Qed.

Definition good_todo : list (workerConn * list string) := [(worker1, [file1]); (worker2, [file2])].
Definition good_env := demo_env [file1; file2].
Definition good_run := exec no_faults good_env [Work 1; Work 0; Recv; Recv] (demo_start good_todo).
Definition bad_todo : list (workerConn * list string) := [(worker1, [file1]); (worker2, [file3])].
Definition bad_env := demo_env [file1; file3].
Definition bad_run := exec no_faults bad_env [Work 1; Work 0; Recv; Recv] (demo_start bad_todo).

Definition lost_todo : list (workerConn * list string) := [(worker2, [file3])].
Definition lost_run := exec no_faults (demo_env [file3]) [Work 0; Recv] (demo_start lost_todo).

Lemma good_run_results : (λ r, (r.1, rs_primes r.2)) <$> good_run = Some ([answer "w2" file2; answer "w1" file1], [3; 2; 7]%Z).
Proof. vm_compute. reflexivity. Qed.
Lemma bad_run_results : (λ r, (r.1, rs_primes r.2)) <$> bad_run = Some ([failure "w2" file3; answer "w1" file1], [7; 2]%Z).
Proof. vm_compute. reflexivity. Qed.

Lemma lost_run_results : fst <$> lost_run = Some [failure "w2" file3].
Proof. vm_compute. reflexivity. Qed.

Lemma complete_run_writes_all_primes_witness :
  ∃ s' w' v, good_run = Some ([answer "w2" file2; answer "w1" file1], s') ∧
    Run_finish no_faults good_env s' = (None, w') ∧
    svc_file w' "primes.txt" = Some (s2b "2" ++ newline :: s2b "3" ++ newline :: s2b "7" ++ [newline], v).
Proof.
  pose proof good_run_results as Hrs. destruct good_run as [[rs s']|] eqn:E; [|discriminate Hrs].
  injection Hrs as Hrs _. subst rs.
  pose proof (demo_started [file1; file2] good_todo ltac:(reflexivity)) as Hs.
  destruct (exec_complete no_faults _ _ _ _ _ (st_inv _ _ _ Hs) E eq_refl) as [Hst Hd].
  pose proof (complete_run_writes_all_primes "c1" demo_cfg good_env (demo_start good_todo) _ s' demo_primes Hs
    (demo_ready [file1; file2] good_todo ltac:(vm_compute; reflexivity)) (demo_covers good_todo) (list_subseteq_nil _) Hst Hd) as Hend.
  assert (Hgood : Forall (λ r, res_err r = None ∧ faithful demo_primes r) [answer "w2" file2; answer "w1" file1]).
  { repeat (apply Forall_cons_2; [split; [reflexivity|apply answer_faithful]|]). apply Forall_nil_2. }
  assert (Hne : concat (demo_primes <$> re_inputs good_env) ≠ []) by (vm_compute; discriminate).
  destruct (ends_with_some _ _ _ Hne (Hend Hgood)) as (w' & v & Ef & Hf). exists s', w', v. split; [reflexivity|]. split; [exact Ef|]. change "primes.txt" with (OutputFile demo_cfg).
  rewrite Hf. vm_compute. reflexivity.
Defined.

Lemma run_skips_failed_files_witness :
  (∃ s' w' v, bad_run = Some ([failure "w2" file3; answer "w1" file1], s') ∧
    Run_finish no_faults bad_env s' = (None, w') ∧
    svc_file w' "primes.txt" = Some (s2b "2" ++ newline :: s2b "7" ++ [newline], v)) ∧
  ∃ s', lost_run = Some ([failure "w2" file3], s') ∧ (Run_finish no_faults (demo_env [file3]) s').1 ≠ None.
Proof.
  split.
  - pose proof bad_run_results as Hrs. destruct bad_run as [[rs s']|] eqn:E; [|discriminate Hrs].
    injection Hrs as Hrs Hps. subst rs.
    pose proof (demo_started [file1; file3] bad_todo ltac:(reflexivity)) as Hs.
    destruct (exec_complete no_faults _ _ _ _ _ (st_inv _ _ _ Hs) E eq_refl) as [Hst Hd].
    assert (Hne : concat (demo_primes <$> (rs_completed (demo_start bad_todo) ++
      (filePath <$> ok_results [failure "w2" file3; answer "w1" file1]))) ≠ []) by (vm_compute; discriminate).
    destruct (ends_with_some _ _ _ Hne (run_skips_failed_files "c1" demo_cfg bad_env (demo_start bad_todo) _ s'
      demo_primes Hs (demo_ready [file1; file3] bad_todo ltac:(vm_compute; reflexivity)) (demo_covers bad_todo) Hst Hd
      (Forall_cons_2 _ _ _ (failure_faithful _ _) (Forall_cons_2 _ _ _ (answer_faithful _ _) (Forall_nil_2 _))))) as (w' & v & Ef & Hf).
    exists s', w', v. split; [reflexivity|]. split; [exact Ef|]. change "primes.txt" with (OutputFile demo_cfg).
    rewrite Hf. vm_compute. reflexivity.
  - pose proof lost_run_results as Hrs. destruct lost_run as [[rs s']|] eqn:E; [|discriminate Hrs].
    injection Hrs as Hrs. subst rs.
    pose proof (demo_started [file3] lost_todo ltac:(reflexivity)) as Hs.
    destruct (exec_complete no_faults _ _ _ _ _ (st_inv _ _ _ Hs) E eq_refl) as [Hst Hd]. exists s'. split; [reflexivity|].
    exact (run_skips_failed_files "c1" demo_cfg (demo_env [file3]) (demo_start lost_todo) _ s' demo_primes Hs
      (demo_ready [file3] lost_todo ltac:(vm_compute; reflexivity)) (demo_covers lost_todo) Hst Hd
      (Forall_cons_2 _ _ _ (failure_faithful _ _) (Forall_nil_2 _))).
Defined.

Lemma snapshots_cover_completed_files_witness :
  ∃ s1 s2 snap e w1, exec no_faults good_env [Work 1] (demo_start good_todo) = Some ([], s1) ∧
    SaveCoordSnapshot no_faults (rs_client s1) snap w1 = (e, rs_client s2, rs_world s2) ∧
    elems (CompletedFiles snap) = [file2].
Proof.
  pose proof (demo_started [file1; file2] good_todo ltac:(reflexivity)) as Hs.
  destruct (exec no_faults good_env [Work 1] (demo_start good_todo)) as [[rs s1]|] eqn:E; [|discriminate E].
  assert (Hc : rs = [] ∧ rs_chan s1 = [answer "w2" file2] ∧ rs_completed s1 = []).
  { assert (Hv : (λ r, (r.1, rs_chan r.2, rs_completed r.2)) <$> exec no_faults good_env [Work 1] (demo_start good_todo) =
      Some ([], [answer "w2" file2], [])) by (vm_compute; reflexivity).
    rewrite E in Hv. injection Hv as Hv1 Hv2 Hv3. split; [exact Hv1|split; [exact Hv2|exact Hv3]]. }
  destruct Hc as (-> & Hch & Hcf).
  destruct (exec_steps no_faults good_env _ _ _ _ (st_inv _ _ _ Hs) E) as [Hst _].
  destruct (steps_collected _ _ _ _ _ (st_inv _ _ _ Hs) Hst) as (Hinv1 & _).
  destruct (do_recv no_faults good_env s1) as [[res o]|] eqn:Er; [|unfold do_recv in Er; rewrite Hch in Er; discriminate Er].
  assert (res = answer "w2" file2) as -> by (unfold do_recv in Er; rewrite Hch in Er; congruence).
  destruct (do_recv_rounds _ _ _ _ _ Hinv1 Er) as (s2 & -> & _).
  destruct (snapshots_cover_completed_files no_faults demo_primes good_env (demo_start good_todo) [] s1
    (answer "w2" file2) s2 (st_inv _ _ _ Hs) (demo_covers good_todo) (Forall_nil_2 _) (answer_faithful _ _) eq_refl Hst Er)
    as (snap & e & w1 & Hsave & Hfiles & _).
  rewrite Hcf in Hfiles. exists s1, s2, snap, e, w1. split; [reflexivity|]. split; [exact Hsave|exact Hfiles].
Defined.

Lemma file_fails_only_if_all_workers_fail_witness :
  let '(res, w') := processOneFile worker1 file3 demo_cfg [worker1; worker2] demo_world in
  res = failure "w1" file3 ∧ ∃ w0, res_err (tryWorker worker2 file3 demo_cfg w0).1 ≠ None.
Proof.
  destruct (processOneFile worker1 file3 demo_cfg [worker1; worker2] demo_world) as [res w'] eqn:E.
  pose proof (file_fails_only_if_all_workers_fail worker1 file3 demo_cfg [worker1; worker2] demo_world) as H.
  rewrite E in H. destruct H as (_ & _ & H).
  assert (Hres : res = failure "w1" file3).
  { change res with (res, w').1. rewrite <- E. vm_compute. reflexivity. }
  split; [exact Hres|]. apply H; [rewrite Hres; discriminate|]. right. split; [right; left|discriminate].
Defined.

Lemma run_terminates_witness :
  ∃ rs s', steps no_faults good_env (demo_start good_todo) rs s' ∧ drained s'.
Proof.
  apply (run_terminates no_faults demo_cfg good_env (demo_start good_todo)
    (demo_started [file1; file2] good_todo ltac:(reflexivity))).
Defined.

Lemma assignment_is_fair_witness :
  ∃ m, assignFiles [file1; file2; file3] [worker1; worker2] = Ret m ∧
    concat (snd <$> goroutines [worker1; worker2] m) ≡ₚ [file1; file2; file3].
Proof.
  destruct (assignment_is_fair [file1; file2; file3] [worker1; worker2]) as (m & E & Hp & _);
    [decide_now|discriminate|]. exists m. split; [exact E|exact Hp].
Defined.

Lemma dedupAndSort_canonical_witness : dedupAndSort [7; 2; 7; 3]%Z = dedupAndSort [3; 7; 2]%Z.
Proof. apply (dedupAndSort_canonical [3; 7; 2]%Z). intros p. set_solver. Defined.

Lemma output_text_reads_back_witness :
  ∃ lines, Scan 256 (output_text [2; 18446744073709551557]%Z) None = (lines, None) ∧
    numbers lines = [2; 18446744073709551557]%Z.
Proof. apply (output_text_reads_back [2; 18446744073709551557]%Z). unfold is_u64. decide_now. Defined.
