(* ===== verification/Main.v ===== *)
(** * The programs: the [main] functions

    src/afsfs/cmd/server/main.go, src/afsfs/cmd/client/main.go and
    src/primefinder/cmd/coordinator/main.go, from the flag values on.  A fatal
    log ends the process: [Err]. *)

From S2P Require Import Prelude GoLib GoText GoPath Disk AfsProto Server Handler Cluster SyncSpec Cache Client AfsSpec AfsWorld SnapshotIO ClientProps Snapshot Worker Coordinator.

(** ** The AFS server *)

(** The peers flag: id=addr,id=addr; items without an equals sign are dropped. *)
Definition parse_peers (peers : string) : list PeerInfo :=
  if decide (peers = "") then []
  else omap (λ p, match SplitN2 p "=" with [id; addr] => Some (mkPeerInfo id addr) | _ => None end)
         (Split peers ",").

Section Programs.
  Context (flt : OsFaults) {W : Type} `{!AfsService W}.

Fixpoint findExistingPrimary (peers : list PeerInfo) (w : W) : string * W :=
  match peers with
  | [] => ("", w)
  | p :: peers =>
      if svc_dial (Addr p) then
        match svc_GetPrimary (Addr p) w with
        | (Ok a, w) => if decide (a = "") then findExistingPrimary peers w else (a, w)
        | (Err _, w) => findExistingPrimary peers w
        end
      else findExistingPrimary peers w
  end.

(** [main] up to serving; the goroutines [NewHandler] starts are in Election.v
    and Sync.v. *)
Definition server_main (id host port inDir outDir peers : string) (isPrim : bool) (now : Z) (d : Disk) (w : W)
    : result Handler * Disk * W :=
  let peerInfos := parse_peers peers in
  let addr := host +:+ ":" +:+ port in
  let '(startAsPrimary, w) :=
    if isPrim then
      let '(existing, w) := findExistingPrimary peerInfos w in
      (if decide (existing ≠ "" ∧ existing ≠ addr) then false else true, w)
    else (false, w) in
  match NewHandler flt svc_dial now inDir outDir id addr peerInfos startAsPrimary d with
  | (Err e, d) => (Err ("failed to init handler: " +:+ e), d, w)
  | (Ok h, d) => (Ok h, d, w)
  end.

(** ** The demonstration client: all errors after the connection are ignored *)
Definition client_main (servers cacheDir cid : string) (d : Disk) (w : W) : error * W :=
  match NewClient flt (Split servers ",") cacheDir cid d w with
  | (Err e, _, w) => (Some ("connect failed: " +:+ e), w)
  | (Ok client, _, w) =>
      let '(_, client, w) := client_DeleteFile flt "replicated.txt" client w in
      let '(r, client, w) := client_CreateFile flt "replicated.txt" client w in
      let wh := match r with Ok h => h | Err _ => 0%Z end in
      let '(_, client) := client_Write flt wh (s2b "This file is on all 3 servers!" ++ [newline]) client in
      let '(_, _, w) := client_Close flt wh client w in
      (None, w)
  end.

(** ** The coordinator *)

Definition coordinator_config (afsServers workers cacheDir outputFile : string) : Config :=
  mkConfig (Split afsServers ",") (Split workers ",") cacheDir outputFile.

Definition coordinator_main `{!SnapshotNet W, !WorkerService W, !MapOrder}
    (afsServers workers cacheDir outputFile cid : string) (d : Disk) (w : W) : error * W → Prop :=
  Run flt (coordinator_config afsServers workers cacheDir outputFile) cid d w.

End Programs.

(** ** Properties *)

(** The peers flag that a list of peers is written as. *)
Definition peers_flag (ps : list PeerInfo) : string := Join ((λ p, ID p +:+ "=" +:+ Addr p) <$> ps) ",".

Lemma cut_bytes_app c w l : c ∉ w → cut_bytes c (w ++ c :: l) = (w, Some l).
Proof.
  induction w as [|a w IH]; simpl; intros Hw; [by rewrite decide_True|].
  rewrite decide_False by set_solver. by rewrite IH by set_solver.
Qed.

Lemma SplitN2_pair a b (c : ascii) : c ∉ s2b a → SplitN2 (a +:+ String c "" +:+ b) c = [a; b].
Proof.
  intros Ha. unfold SplitN2. rewrite !s2b_app. simpl. rewrite cut_bytes_app by done. by rewrite !b2s_s2b.
Qed.

Lemma parse_peers_flag ps :
  ps ≠ [] → Forall (λ p, ("="%char ∉ s2b (ID p)) ∧ (","%char ∉ s2b (ID p)) ∧ (","%char ∉ s2b (Addr p))) ps →
  parse_peers (peers_flag ps) = ps.
Proof.
  intros Hne Hps. unfold parse_peers, peers_flag.
  assert (Hs : Split (Join ((λ p, ID p +:+ "=" +:+ Addr p) <$> ps) ",") "," = (λ p, ID p +:+ "=" +:+ Addr p) <$> ps).
  { apply Split_Join; [by destruct ps|]. apply Forall_fmap. eapply Forall_impl; [exact Hps|].
    intros p (_ & H1 & H2). simpl. rewrite !s2b_app. simpl. set_solver. }
  rewrite decide_False.
  - rewrite Hs. clear -Hps. induction Hps as [|[id a] ps (He & _) _ IH]; [done|].
    rewrite fmap_cons. cbn [omap list_omap ID Addr]. rewrite (SplitN2_pair id a "=") by done. by rewrite IH.
  - intros E. rewrite E in Hs. destruct ps as [|p [|p' ps]]; [done| |done].
    injection Hs as Hs. apply (f_equal s2b) in Hs. rewrite !s2b_app in Hs. by destruct (s2b (ID p)).
Qed.

Lemma initVersion_primary flt dir h : primary (initVersion flt dir h).2 = primary h.
Proof. unfold initVersion. repeat case_match; done. Qed.

Lemma NewHandler_role flt dial now inDir outDir id addr ps isPrim d h d' :
  NewHandler flt dial now inDir outDir id addr ps isPrim d = (Ok h, d') →
  primary h = isPrim ∧ serverAddr h = addr ∧ knownPrimaryAddr h = (if isPrim then addr else "").
Proof.
  unfold NewHandler. set (h0 := mkHandler _ _ _ _ _ _ _ _ _ _ _ _ _ _).
  assert (Hk : ∀ dir h, let h' := (initVersion flt dir h).2 in
    primary h' = primary h ∧ serverAddr h' = serverAddr h ∧ knownPrimaryAddr h' = knownPrimaryAddr h).
  { intros dir h1. unfold initVersion. by repeat case_match. }
  pose proof (Hk inDir h0) as H1. destruct (initVersion flt inDir h0) as [[e|] h1]; [done|].
  pose proof (Hk outDir h1) as H2. destruct (initVersion flt outDir h1) as [[e|] h2]; [done|].
  intros [= <- <-]. simpl in *. destruct H1 as (-> & -> & ->) in H2. naive_solver.
Qed.

(** What [findExistingPrimary] returns: the first address that a peer names. *)
Lemma findExistingPrimary_spec {W} `{!AfsService W} ps (w : W) a w' :
  findExistingPrimary ps w = (a, w') → a ≠ "" →
  ∃ p w0, p ∈ ps ∧ svc_dial (Addr p) = true ∧ svc_GetPrimary (Addr p) w0 = (Ok a, w').
Proof.
  revert w. induction ps as [|p ps IH]; intros w; simpl; [intros [= <- <-]; done|].
  intros E Ha.
  assert (Hrest : ∀ w1, findExistingPrimary ps w1 = (a, w') →
    ∃ q w0, q ∈ p :: ps ∧ svc_dial (Addr q) = true ∧ svc_GetPrimary (Addr q) w0 = (Ok a, w')).
  { intros w1 E1. destruct (IH w1 E1 Ha) as (q & w0 & Hq & H). exists q, w0. split; [by right|done]. }
  destruct (svc_dial (Addr p)) eqn:Hd; [|by eapply Hrest].
  destruct (svc_GetPrimary (Addr p) w) as [[a1|e] w1] eqn:Eg; [|by eapply Hrest].
  case_decide; [by eapply Hrest|]. injection E as <- <-. exists p, w. split; [by left|done].
Qed.

(** C39: a server that is started with the primary flag while the first peer
    that names a primary names another server comes up as a backup; it comes up
    as primary only with the flag and when nobody names another one. *)
Theorem server_starts_in_right_role flt {W} `{!AfsService W} id host port inDir outDir peers isPrim now d (w : W) h d' w' :
  server_main flt id host port inDir outDir peers isPrim now d w = (Ok h, d', w') →
  let addr := host +:+ ":" +:+ port in
  let existing := (findExistingPrimary (parse_peers peers) w).1 in
  serverAddr h = addr ∧ knownPrimaryAddr h = (if primary h then addr else "") ∧
  (primary h = true ↔ isPrim = true ∧ (existing = "" ∨ existing = addr)) ∧
  (existing ≠ "" → ∃ p w0, p ∈ parse_peers peers ∧ (svc_GetPrimary (Addr p) w0).1 = Ok existing).
Proof.
  intros E addr existing. unfold server_main in E. fold addr in E.
  assert (Hex : existing ≠ "" → ∃ p w0, p ∈ parse_peers peers ∧ (svc_GetPrimary (Addr p) w0).1 = Ok existing).
  { intros Hne. unfold existing in *. destruct (findExistingPrimary (parse_peers peers) w) as [a w1] eqn:Ef.
    destruct (findExistingPrimary_spec _ _ _ _ Ef Hne) as (p & w0 & Hp & _ & Hg). exists p, w0. by rewrite Hg. }
  unfold existing in *. destruct isPrim.
  - destruct (findExistingPrimary (parse_peers peers) w) as [a w1]. simpl in *.
    destruct (NewHandler _ _ _ _ _ _ _ _ _ _) as [[h1|e] d1] eqn:En; [|done]. injection E as <- <- <-.
    destruct (NewHandler_role _ _ _ _ _ _ _ _ _ _ _ _ En) as (-> & -> & ->).
    destruct (decide (a = "")), (decide (a = addr)); case_decide; naive_solver.
  - destruct (NewHandler _ _ _ _ _ _ _ _ _ _) as [[h1|e] d1] eqn:En; [|done]. injection E as <- <- <-.
    destruct (NewHandler_role _ _ _ _ _ _ _ _ _ _ _ _ En) as (-> & -> & ->). naive_solver.
Qed.

Lemma server_starts_in_right_role_witness :
  ∃ h d' w', server_main no_faults "s2" "s2" "2" "in" "out" "s1=s1:1" true 0 empty_disk demo_world = (Ok h, d', w') ∧
    primary h = false.
Proof.
  destruct (server_main no_faults "s2" "s2" "2" "in" "out" "s1=s1:1" true 0 empty_disk demo_world)
    as [[[h|e] d'] w'] eqn:E; [|vm_compute in E; discriminate E].
  exists h, d', w'. split; [reflexivity|].
  destruct (server_starts_in_right_role _ _ _ _ _ _ _ _ _ _ _ _ _ _ E) as (_ & _ & [Hp _] & _).
  destruct (primary h); [|reflexivity]. destruct (Hp eq_refl) as [_ [H|H]]; vm_compute in H; discriminate H.
Defined.
